(* ===== verification/_CoqProject ===== *)
-Q . S2P
Prelude.v
Calls.v
GoStrings.v
Api.v
Bwrap.v
BwrapView.v
Crd.v
PodSpec.v
Kube.v
SandboxCtl.v
Fixtures.v
SandboxSafety.v
SandboxTrace.v
PoolCtl.v
TemplateCtl.v
TemplateSafety.v
Schema.v
GoHeap.v
DeepCopy.v
Reaper.v
Url.v
Route.v
Mux.v
Gateway.v
Execd.v
Isolation.v
FilterFile.v
Net.v
ApiKey.v
Store.v
ApiCalls.v
PgStore.v
Auth.v
ApiServer.v
ApiWait.v
Warmup.v
ApiSafety.v
ApiStore.v
Posix.v
PosixTree.v
SafePath.v
SafePortable.v
ProbeView.v
Deploy.v
GoTime.v
Watched.v
InitFiles.v
InitProto.v
InitProc.v
InitStream.v
InitRoutes.v
OpenApi.v
SdkStream.v
SdkClient.v
SdkSession.v
InitMain.v
ExecdRun.v
ControlPlane.v
ExecdLife.v
DataPath.v
Location.v
Redirects.v
FileView.v
ImageResolver.v
