(* ===== verification/Prelude.v ===== *)
(** * jdix-sandbox: a verification development

    jdix-sandbox runs untrusted code for tenants.  A tenant asks [jdix-server]
    for a sandbox of a template; a [Sandbox] object appears in the tenant's
    namespace; [jdix-controller] binds it to a Pod, warm from a [SandboxPool]
    or created for it; [jdix-execd], process 1 of that Pod, starts bubblewrap,
    in which [jdix-init] serves commands and files; the gateway inside
    [jdix-server] carries the tenant's requests to execd, and execd carries them
    into the namespace.  The Go client wraps both APIs.  This development models
    the Go code of all of these and proves what holds it together: who may reach
    what, what a sandbox sees, that nothing is claimed twice, what is left when
    something fails.

    ** How the code is modelled

    A pure Go function is a Rocq function.  [(value, error)] is [result]
    (this file), [if err != nil] is [let?], a guard with an early return is
    [guard].  Code that talks to anything else (Kubernetes, a store, the kernel,
    the clock, a connection) is a program [Prog E A] over the calls it makes
    (Calls.v): the calls are data, and what they answer is stated apart, by a
    relation for [wp] (whatever the answers), by a rule on every call ([calls]),
    by a rely and a guarantee where others run in between ([rg]), or by a
    function for running a program on a concrete world ([interp]).  What runs
    under a mutex is one call or one function of the state.  Integers keep their
    width: [int32], [int64] and [seconds] wrap around.  A [time.Time] is a count
    of nanoseconds, zero being [IsZero].  Strings are bytes.  Go maps are [gmap].

    ** The parts (all paths below src/)

    - Wire types: Api.v (pkg/api).  Go's own library as far as the program uses
      it: GoStrings.v (strings, path, strconv), Url.v (net/url, host and port),
      GoTime.v (RFC 3339), Net.v (net.IP, CIDR), the base64 of ApiKey.v and
      InitProto.v.
    - bubblewrap: Bwrap.v is pkg/bwrap, from an untrusted filesystem spec to an
      argv; BwrapView.v is what bubblewrap makes of that argv.
    - Isolation: Isolation.v (pkg/isolation: the seccomp program with the BPF
      machine, the probes), FilterFile.v (the program as the sealed file it is
      handed over in), ProbeView.v (probe_filesystem.go, caps_linux.go).
    - Custom resources (pkg/apis): Crd.v; Schema.v is their validation, with the
      phases as a machine; DeepCopy.v is zz_generated.deepcopy.go, over the memory
      of GoHeap.v, where slices, maps and pointers are shared unless copied.
      Pods: PodSpec.v (controller/podspec.go).
    - The controllers, over the calls of Kube.v: SandboxCtl.v, PoolCtl.v,
      TemplateCtl.v (controller/*_controller.go); ImageResolver.v
      (imageresolver.go), behind the call [ResolveImage]; ControlPlane.v
      (execdclient.go, execdproxy.go), behind [Bind], [Unbind] and [ProbePod].
      Their properties: SandboxSafety.v, SandboxTrace.v, TemplateSafety.v;
      concrete worlds: Fixtures.v.
    - execd: Execd.v (pkg/execd) as operations on the server's state, ExecdRun.v
      the same handlers as programs over processes, files and time, ControlPlane.v
      its control routes together with the controller's clients, ExecdLife.v the
      process from its listeners to its exit (cmd/jdix-execd), with the clock and
      the timers that binds arm and keepalives reset.
    - The reaper shared by execd and jdix-init: Reaper.v (pkg/reaper).
    - jdix-init: InitProto.v, InitProc.v, InitStream.v (pkg/initd: exec.go,
      proc.go, server.go, stream.go), InitFiles.v (files.go) over SafePath.v
      (pkg/safepath; SafePortable.v its form for other platforms) over Posix.v
      (the system calls; PosixTree.v is a kernel they hold of; Watched.v watches
      a kernel, noting which paths have been looked for and whether an escape has
      been reported), InitRoutes.v (the table of routes and the handler built of
      it), InitMain.v (cmd/jdix-init, priv_linux.go).
    - The gateway: Route.v (gateway/route.go), Gateway.v (server.go,
      transport.go), Location.v (what is repaired in answers) and Redirects.v
      (that it leads back).  The patterns of net/http's mux: Mux.v.
    - The API server: ApiKey.v, Store.v, PgStore.v, Auth.v, ApiServer.v, Warmup.v
      (pkg/apiserver), over the calls of ApiCalls.v; their properties: ApiWait.v,
      ApiSafety.v, ApiStore.v.
    - The binaries' wiring: Deploy.v (cmd/).  The Go client: SdkStream.v,
      SdkSession.v (a live stream, as a machine), SdkClient.v (sdk/go).
    - The published documents (api/openapi) and the checks that hold them against
      the servers' routes (internal/openapicheck): OpenApi.v.

    Where parts meet there is a theorem across them: the URLs the controller
    publishes are the ones the gateway routes (Deploy); the volumes flag the
    controller renders is what execd reads (Deploy); both transports of the
    controller hear what execd's handler answers (ControlPlane, against the class
    [PodTransport]); a streamed command gives the client what a synchronous one
    gives (SdkStream, against InitStream and InitProc), live and under every
    schedule (SdkSession); the database answers a call as the in-memory store
    answers what it makes of the call (PgStore.[pg_call]: times cut to
    microseconds, what a conflict clause does not update kept); what the gateway
    sends is what execd receives, over either transport, without the caller's
    credentials, and their gates agree (DataPath); the file API shows what the mounts show (FileView, of Bwrap,
    BwrapView, ExecdRun and InitFiles); the operations the documents describe are
    those the servers hand to a handler (OpenApi, against InitRoutes and Warmup).
    The reconcilers are modelled on values: that an object read from the cache may
    be changed without changing the cache is DeepCopy's theorem.

    ** What the theorems show

    - Binding: a Pod is never claimed for two sandboxes and bindings persist,
      under any interleaving with other writers and stale caches; execd is asked
      to bind only where the measured tier meets the template's floor; terminal
      phases come after the Pod's removal; pools and templates obey their rules;
      what is written is of the declared schema and moves the phase along its
      machine; a copied object shares no memory with the original.
    - execd: a Pod serves at most one sandbox for its whole life, data passes
      only with that sandbox's token before its deadline (handlers one at a time;
      Execd.v also proves what goes wrong when they overlap); a bind leaves
      neither a process nor a descriptor behind unless it succeeds; the detailed
      program does on every branch what a specification says; a sandbox bound with
      a deadline takes the process down in every fair interleaving, and nothing
      but a timer that ran out, an unbind, a signal or a lost listener does.
    - Isolation: what the sandbox sees at a path is the source of the deepest of
      the mounts asked for, writable only where that mount is, the platform's
      directories never, tenants' mounts are pinned by
      descriptor, and the sealed file bubblewrap gets is a seccomp program that
      refuses exactly its list.
    - Gateway: a request is proxied only for the tenant that owns the sandbox,
      and carries the sandbox's token instead of the caller's key; execd lets it
      in exactly when the Pod still serves that sandbox; the URL published for a
      sandbox leads to it; an application's redirect leads back to it through the
      same gateway.
    - API server: a key verifies only if its secret was issued, revocation takes
      effect within the cache's time to live, every call a handler makes stays in
      the caller's tenant, its key's scopes and templates, an idempotency key
      creates once, quota and budget hold for sequential requests (the quota of
      what was created and not deleted), polling ends.
    - jdix-init: files are reached only beneath the configured roots and written
      only beneath writable ones, whatever links others plant meanwhile, and what
      is made or removed by path only where that path has just been looked for; no
      command is left in the table; it serves only over a private socket, after
      its privileges are dropped and, as a supervisor, once it is guarded, and its
      exit status says how serving ended.
    - Client: retries only what is safe to repeat; a live stream that is drained
      ends, with everything received.

    ** Fuel and bounds

    Loops that poll take a number of rounds: [wait_rounds] (ApiWait: time-out
    over poll interval, plus two), [dial_rounds] (ExecdRun: dial time-out over
    2 ms, plus two); the theorems prove these are enough whenever the clock does
    not go back and a sleep lasts as long as asked.  [Reaper.evict] has the length
    of the ring, [itoa] the 20 digits of a 64-bit number, retries the client's own
    bound; [WaitReady] of the client has no bound but its context, so it is proved
    to return for the rounds its context allows.

    ** Assumptions, all of them parameters or hypotheses

    [KubeLaws] (optimistic concurrency of the API server), [KernelLaws]
    (descriptors, O_NOFOLLOW, openat2), [Vendor] and [ControllerUtil] (marshalling,
    hashing, Kubernetes helpers), argon2 and the JSON codecs as functions with the
    round trips they promise, bubblewrap's option table ([arity]).  Each is shown
    to hold of a concrete instance in a witness.  Two more are built into the
    model of jdix-init: Linux's flag values on amd64, and that a process number is
    not used again between [Wait] and [Forget].

    ** Not modelled

    Logging and metrics; the registration of types and reconcilers with
    controller-runtime, its leader election and its caches; the Postgres driver and
    its pool; httputil.ReverseProxy's copying; hosts that are IP literals in a
    redirect (a parameter of Location.v); the stubs of jdix-init and pkg/isolation
    for other platforms, which only answer an error; the Python SDK (the same
    protocol in another language); hack/, a manual probe for a development
    cluster. *)
From Stdlib Require Export ZArith Lia Sorting.Sorted Sorting.Permutation.
From stdpp Require Export base gmap strings numbers list.
Export stdpp.list_basics.list stdpp.list_relations.list stdpp.list_monad.list stdpp.list_misc.list.

(** ** Results *)

(** A Go function that returns [(value, error)]: exactly one of the two is
    meaningful. *)
Inductive result (E A : Type) : Type :=
| Ok (a : A)
| Err (e : E).
Arguments Ok {E A} a.
Arguments Err {E A} e.

Declare Scope go_scope.
Delimit Scope go_scope with go.

(** [if err != nil { return err }], as a bind. *)
Notation "'let?' x ':=' r 'in' k" :=
  (match r with Ok x => k | Err e => Err e end)
  (at level 10, x pattern, r at level 100, k at level 200) : go_scope.

(** [if cond { return err }] at the top of a function. *)
Notation "'guard' b 'else' e ';;' k" :=
  (if b then k else Err e)
  (at level 10, b at level 100, e at level 99, k at level 200) : go_scope.
Open Scope go_scope.

Definition is_ok {E A} (r : result E A) : bool :=
  match r with Ok _ => true | Err _ => false end.

Lemma is_ok_true {E A} (r : result E A) : is_ok r = true <-> exists a, r = Ok a.
Proof. destruct r; cbn; split; [eauto | done | done | intros [? [=]]]. Qed.

Lemma is_ok_false {E A} (r : result E A) : is_ok r = false <-> exists e, r = Err e.
Proof. destruct r; cbn; split; [done | intros [? [=]] | eauto | done]. Qed.

(** When a chain of guards and calls succeeds. *)
Lemma guard_ok {E A} (b : bool) (e : E) (k : result E A) a :
  (guard b else e ;; k) = Ok a <-> b = true /\ k = Ok a.
Proof. destruct b; intuition congruence. Qed.
Lemma bind_ok {E A B} (r : result E A) (k : A -> result E B) b :
  (let? x := r in k x) = Ok b <-> exists a, r = Ok a /\ k a = Ok b.
Proof.
  destruct r as [a|e]; split; [eauto| |done|by intros (? & [=] & ?)].
  by intros (? & [= <-] & ?).
Qed.
Lemma seq_ok {E B} (r : result E unit) (k : result E B) b :
  (let? _ := r in k) = Ok b <-> r = Ok tt /\ k = Ok b.
Proof. destruct r as [[]|e]; split; [done|by intros []|done|by intros [[=] ?]]. Qed.

(** A loop whose body may return early with an error; the index is the one of
    [for i, x := range xs]. *)
Fixpoint iter_err {E A} (f : nat -> A -> result E unit) (i : nat) (xs : list A)
  : result E unit :=
  match xs with
  | [] => Ok tt
  | x :: xs' => let? _ := f i x in iter_err f (S i) xs'
  end.

Lemma iter_err_ok {E A} (f : nat -> A -> result E unit) i xs :
  iter_err f i xs = Ok tt <->
  (forall j x, xs !! j = Some x -> f (i + j)%nat x = Ok tt).
Proof.
  revert i. induction xs as [|x xs IH]; intros i; cbn [iter_err].
  - split; [intros _ j x H; rewrite lookup_nil in H; done | done].
  - destruct (f i x) as [[]|e] eqn:Hf.
    + rewrite IH. split.
      * intros H [|j] y Hy; cbn in Hy.
        -- rewrite Nat.add_0_r. congruence.
        -- rewrite <-Nat.add_succ_comm. by apply H.
      * intros H j y Hy. rewrite Nat.add_succ_comm. by apply (H (S j)).
    + split; [done|]. intros H. specialize (H 0%nat x eq_refl).
      rewrite Nat.add_0_r in H. congruence.
Qed.

Lemma iter_err_ok_elem {E A} (f : nat -> A -> result E unit) i xs x :
  iter_err f i xs = Ok tt -> x ∈ xs -> exists j, f j x = Ok tt.
Proof.
  intros H [j Hj]%list_elem_of_lookup. exists (i + j)%nat.
  by apply (proj1 (iter_err_ok f i xs) H).
Qed.

(** A loop whose body does not look at the index. *)
Lemma iter_err_each {E A} (f : A -> result E unit) i xs :
  iter_err (fun _ => f) i xs = Ok tt <-> Forall (fun x => f x = Ok tt) xs.
Proof.
  rewrite iter_err_ok, Forall_lookup. split; intros H j x Hj; by apply (H j x Hj).
Qed.

(** ** Machine integers

    Go's [int] is 64-bit on every platform the program targets; [int32],
    [int64] and [time.Duration] wrap around in two's complement. *)
Definition wrap_signed (w z : Z) : Z :=
  let m := (z mod 2 ^ w)%Z in
  if (m <? 2 ^ (w - 1))%Z then m else (m - 2 ^ w)%Z.

Definition int64 (z : Z) : Z := wrap_signed 64 z.
Definition int32 (z : Z) : Z := wrap_signed 32 z.

Definition in_int64 (z : Z) : Prop := (- 2 ^ 63 <= z < 2 ^ 63)%Z.
Definition in_int32 (z : Z) : Prop := (- 2 ^ 31 <= z < 2 ^ 31)%Z.

Lemma wrap_signed_id w z :
  (0 < w)%Z -> (- 2 ^ (w - 1) <= z < 2 ^ (w - 1))%Z -> wrap_signed w z = z.
Proof.
  intros Hw Hz. unfold wrap_signed.
  assert (H2 : (2 ^ w = 2 * 2 ^ (w - 1))%Z)
    by (rewrite <-Z.pow_succ_r by lia; f_equal; lia).
  destruct (Z_lt_le_dec z 0).
  - rewrite <-(Z.mod_add _ 1) by lia. rewrite Z.mod_small by lia.
    destruct (Z.ltb_spec (z + 1 * 2 ^ w) (2 ^ (w - 1))); lia.
  - rewrite Z.mod_small by lia.
    destruct (Z.ltb_spec z (2 ^ (w - 1))); lia.
Qed.

Lemma wrap_signed_range w z :
  (0 < w)%Z -> (- 2 ^ (w - 1) <= wrap_signed w z < 2 ^ (w - 1))%Z.
Proof.
  intros Hw. unfold wrap_signed.
  assert (H2 : (2 ^ w = 2 * 2 ^ (w - 1))%Z)
    by (rewrite <-Z.pow_succ_r by lia; f_equal; lia).
  pose proof (Z.mod_pos_bound z (2 ^ w) ltac:(lia)).
  destruct (Z.ltb_spec (z mod 2 ^ w) (2 ^ (w - 1))); lia.
Qed.

Lemma int64_id z : in_int64 z -> int64 z = z.
Proof. apply (wrap_signed_id 64); lia. Qed.
Lemma int32_id z : in_int32 z -> int32 z = z.
Proof. apply (wrap_signed_id 32); lia. Qed.
Lemma int64_range z : in_int64 (int64 z).
Proof. apply (wrap_signed_range 64); lia. Qed.
Lemma int32_range z : in_int32 (int32 z).
Proof. apply (wrap_signed_range 32); lia. Qed.

(** ** Time

    A [time.Time] is a count of nanoseconds since Go's zero instant, so
    [IsZero] is a comparison with 0. A [*time.Time] is an [option Z]. *)
Definition Time := Z.
Definition second : Z := 1000000000.
Definition millisecond : Z := 1000000.
Definition minute : Z := 60 * second.
Definition hour : Z := 60 * minute.
Definition is_zero_time (t : Time) : bool := (t =? 0)%Z.
(** [t.After(u)] and [t.Before(u)]. *)
Definition after (t u : Time) : bool := (u <? t)%Z.
Definition before (t u : Time) : bool := (t <? u)%Z.

(** [time.Duration(n) * time.Second]: a 64-bit product. *)
Definition seconds (n : Z) : Z := int64 (n * second).

Lemma seconds_small n :
  (- 9223372036 <= n <= 9223372036)%Z -> seconds n = (n * second)%Z.
Proof. intros H. apply int64_id. unfold in_int64, second. lia. Qed.

(** ** Automation *)

Create HintDb go.

(** Split every boolean test of the goal or of a hypothesis. *)
Ltac split_ifs :=
  repeat match goal with
  | |- context [if ?test then _ else _] => destruct test eqn:?
  | H : context [if ?test then _ else _] |- _ => destruct test eqn:?
  end.

(** Walk one level of a returned [match]: a handler's early returns. *)
Ltac case_step :=
  match goal with
  | H : context [match ?x with _ => _ end] |- _ => destruct x eqn:?; simplify_eq
  | |- context [match ?x with _ => _ end] => destruct x eqn:?; simplify_eq
  end.
Ltac case_all := repeat (case_step; try done).

(** Division and remainder by constants. *)
Ltac divlia := zify; Z.to_euclidean_division_equations; lia.

(** Turn boolean facts into propositions. *)
Ltac bool_to_prop :=
  repeat match goal with
  | Hb : negb _ = false |- _ => apply negb_false_iff in Hb
  | Hb : (_ && _)%bool = true |- _ => apply andb_true_iff in Hb as [? ?]
  | Hb : (_ || _)%bool = false |- _ => apply orb_false_iff in Hb as [? ?]
  | Hb : negb _ = true |- _ => apply negb_true_iff in Hb
  | Hb : (_ || _)%bool = true |- _ => apply orb_true_iff in Hb
  | Hb : bool_decide _ = true |- _ => apply bool_decide_eq_true in Hb
  | Hb : bool_decide _ = false |- _ => apply bool_decide_eq_false in Hb
  | Hb : (_ <? _)%Z = true |- _ => apply Z.ltb_lt in Hb
  | Hb : (_ <? _)%Z = false |- _ => apply Z.ltb_ge in Hb
  | Hb : (_ <=? _)%Z = true |- _ => apply Z.leb_le in Hb
  | Hb : (_ <=? _)%Z = false |- _ => apply Z.leb_gt in Hb
  | Hb : (_ =? _)%Z = true |- _ => apply Z.eqb_eq in Hb
  | Hb : (_ =? _)%Z = false |- _ => apply Z.eqb_neq in Hb
  end.

(** ** List facts the components share *)

Lemma existsb_elem {A} (f : A -> bool) l :
  existsb f l = true <-> exists x, x ∈ l /\ f x = true.
Proof.
  rewrite existsb_exists. setoid_rewrite list_elem_of_In. done.
Qed.

Lemma forallb_elem {A} (f : A -> bool) l :
  forallb f l = true <-> forall x, x ∈ l -> f x = true.
Proof.
  rewrite forallb_forall. setoid_rewrite list_elem_of_In. done.
Qed.

(** [for _, x := range xs { if f(x) { return x } }] *)
Lemma find_elem {A} (f : A -> bool) l x :
  List.find f l = Some x -> x ∈ l /\ f x = true.
Proof. intros [? ?]%List.find_some. by rewrite list_elem_of_In. Qed.

Lemma find_none_elem {A} (f : A -> bool) l :
  List.find f l = None <-> forall x, x ∈ l -> f x = false.
Proof.
  split.
  - intros H x Hx%list_elem_of_In. by apply (List.find_none f l).
  - intros H. destruct (List.find f l) as [x|] eqn:E; [|done].
    apply find_elem in E as [Hx Hf]. rewrite H in Hf by done. done.
Qed.

Lemma StronglySorted_app_r {A} (R : A -> A -> Prop) a b :
  StronglySorted R (a ++ b) -> StronglySorted R b.
Proof. induction a as [|x a IH]; [done|]. inversion 1; auto. Qed.

(** ** Sorting

    [sort.SliceStable(xs, less)]: a stable sort by a strict weak order has one
    result, which insertion computes. *)
Section Sorting.
Context {A : Type} (less : A -> A -> bool).

Fixpoint insert_by (x : A) (l : list A) : list A :=
  match l with
  | [] => [x]
  | y :: l' => if less y x then y :: insert_by x l' else x :: l
  end.
Fixpoint sort_by (l : list A) : list A :=
  match l with
  | [] => []
  | x :: l' => insert_by x (sort_by l')
  end.

Lemma insert_by_perm x l : insert_by x l ≡ₚ x :: l.
Proof.
  induction l as [|y l IH]; cbn; [done|]. destruct (less y x); [|done].
  rewrite IH. apply Permutation_swap.
Qed.
Lemma sort_by_perm l : sort_by l ≡ₚ l.
Proof. induction l as [|x l IH]; cbn; [done|]. by rewrite insert_by_perm, IH. Qed.
Lemma sort_by_elem x l : x ∈ sort_by l <-> x ∈ l.
Proof. by rewrite sort_by_perm. Qed.
Lemma length_sort_by l : length (sort_by l) = length l.
Proof. by rewrite sort_by_perm. Qed.

(** [less] read as "may not come after". *)
Definition ordered (x y : A) : Prop := less y x = false.

Hypothesis ordered_trans : forall x y z, ordered x y -> ordered y z -> ordered x z.
Hypothesis less_asym : forall x y, less x y = true -> less y x = false.

Lemma insert_by_sorted x l :
  StronglySorted ordered l -> StronglySorted ordered (insert_by x l).
Proof.
  induction 1 as [|y l Hl IH Hy]; cbn; [by repeat constructor|].
  destruct (less y x) eqn:E.
  - constructor; [done|]. rewrite insert_by_perm. constructor; [|done].
    by apply less_asym.
  - constructor; [by constructor|]. constructor; [done|].
    eapply List.Forall_impl; [|exact Hy]. intros z Hz. by eapply ordered_trans.
Qed.
Lemma sort_by_sorted l : StronglySorted ordered (sort_by l).
Proof. induction l; cbn; [constructor|]. by apply insert_by_sorted. Qed.

(** With no two equivalent elements the sorted list is unique, so the result
    does not depend on the order of the input. *)
Lemma sorted_unique l1 l2 :
  StronglySorted ordered l1 -> StronglySorted ordered l2 -> l1 ≡ₚ l2 ->
  (forall x y, x ∈ l1 -> y ∈ l1 -> ordered x y -> ordered y x -> x = y) ->
  l1 = l2.
Proof.
  revert l2. induction l1 as [|x l1 IH]; intros l2 H1 H2 Hp Hu.
  - symmetry in Hp. by apply Permutation_nil_r in Hp.
  - destruct l2 as [|y l2]; [by apply Permutation_nil_r in Hp|].
    inversion_clear H1 as [|? ? H1' Hx]. inversion_clear H2 as [|? ? H2' Hy].
    assert (x = y) as ->.
    { assert (Hxy : x ∈ y :: l2) by (rewrite <-Hp; left).
      assert (Hyx : y ∈ x :: l1) by (rewrite Hp; left).
      apply elem_of_cons in Hxy as [->|Hxy]; [done|].
      apply elem_of_cons in Hyx as [->|Hyx]; [done|].
      apply Hu; [left|by right| |].
      - rewrite List.Forall_forall in Hx. by apply Hx, list_elem_of_In.
      - rewrite List.Forall_forall in Hy. by apply Hy, list_elem_of_In. }
    f_equal. apply IH; [done|done|by eapply Permutation_cons_inv|].
    intros a b Ha Hb. apply Hu; by right.
Qed.
Lemma sort_by_unique l1 l2 :
  l1 ≡ₚ l2 ->
  (forall x y, x ∈ l1 -> y ∈ l1 -> ordered x y -> ordered y x -> x = y) ->
  sort_by l1 = sort_by l2.
Proof.
  intros Hp Hu. apply sorted_unique; try apply sort_by_sorted.
  - by rewrite !sort_by_perm.
  - intros x y. rewrite !sort_by_elem. auto.
Qed.
End Sorting.
