(* ===== verification/Calls.v ===== *)
(** * Programs over calls

    A piece of code that talks to services (the Kubernetes client, a store, the
    clock) is a program [Prog E A] over the calls [E] it makes: either it
    returns, or it makes a call and goes on with the answer.  What the calls
    answer is not the code's, so [wp] reads a program against a relation [sem]
    between the state before a call, its answer and the state after it, and
    [calls] asks something of every call whatever the answers are. *)
From S2P Require Import Prelude.

Inductive Prog (E : Type -> Type) (A : Type) : Type :=
| Ret (a : A)
| Vis {R : Type} (e : E R) (k : R -> Prog E A).
Arguments Ret {E A} a.
Arguments Vis {E A R} e k.

Fixpoint bindK {E A B} (p : Prog E A) (f : A -> Prog E B) : Prog E B :=
  match p with
  | Ret a => f a
  | Vis e k => Vis e (fun r => bindK (k r) f)
  end.
Definition call {E R} (e : E R) : Prog E R := Vis e Ret.
#[export] Instance K_ret {E} : MRet (Prog E) := fun A a => Ret a.
#[export] Instance K_bind {E} : MBind (Prog E) := fun A B f p => bindK p f.

Lemma bind_call {E R B} (e : E R) (f : R -> Prog E B) : (call e ≫= f) = Vis e f.
Proof. done. Qed.
Lemma bind_ret {E A B} (a : A) (f : A -> Prog E B) : (mret a ≫= f) = f a.
Proof. done. Qed.

(** ** Against a state the calls change *)

Section Wp.
Context {E : Type -> Type} {S : Type} (sem : forall R, E R -> S -> R -> S -> Prop).

(** Whatever the calls answer, [Q] holds of the result and the final state. *)
Fixpoint wp {A} (p : Prog E A) (s : S) (Q : A -> S -> Prop) : Prop :=
  match p with
  | Ret a => Q a s
  | Vis e k => forall r s', sem _ e s r s' -> wp (k r) s' Q
  end.

Lemma wp_bind {A B} (p : Prog E A) (f : A -> Prog E B) s Q :
  wp p s (fun a s' => wp (f a) s' Q) -> wp (p ≫= f) s Q.
Proof.
  revert s. unfold mbind, K_bind. induction p as [a|R e k IH]; intros s; cbn; [done|].
  intros H r s' Hs. by apply IH, H.
Qed.
Lemma wp_mono {A} (p : Prog E A) s (Q Q' : A -> S -> Prop) :
  (forall a s', Q a s' -> Q' a s') -> wp p s Q -> wp p s Q'.
Proof. intros HQ. revert s. induction p as [a|R e k IH]; intros s; cbn; eauto. Qed.
Lemma wp_call {A R} (e : E R) (f : R -> Prog E A) s Q :
  (forall r s', sem _ e s r s' -> wp (f r) s' Q) -> wp (call e ≫= f) s Q.
Proof. done. Qed.
Lemma wp_ret {A} (a : A) s (Q : A -> S -> Prop) : Q a s -> wp (mret a) s Q.
Proof. done. Qed.
End Wp.

(** ** Calls answered by a function of the state *)

Section Interp.
Context {E : Type -> Type} {S : Type} (h : forall R, E R -> S -> R * S).

Fixpoint interp {A} (p : Prog E A) (s : S) : A * S :=
  match p with
  | Ret a => (a, s)
  | Vis e k => let '(r, s') := h _ e s in interp (k r) s'
  end.
Lemma interp_bind {A B} (p : Prog E A) (f : A -> Prog E B) s :
  interp (p ≫= f) s = let '(a, s') := interp p s in interp (f a) s'.
Proof.
  revert s. unfold mbind, K_bind. induction p as [a|R e k IH]; intros s; cbn; [done|].
  destruct (h R e s) as [r s']. apply IH.
Qed.

(** A deterministic reading is one of those [wp] speaks of. *)
Definition answers (R : Type) (e : E R) (s : S) (r : R) (s' : S) : Prop := h R e s = (r, s').
Lemma wp_interp {A} (p : Prog E A) s Q :
  wp answers p s Q <-> Q (interp p s).1 (interp p s).2.
Proof.
  revert s. induction p as [a|R e k IH]; intros s; cbn; [done|].
  unfold answers. destruct (h R e s) as [r s'] eqn:Eh. split.
  - intros H. by apply IH, H.
  - intros H r1 s1 [= <- <-]. by apply IH.
Qed.
End Interp.

(** ** Whatever the answers *)

Section Calls.
Context {E : Type -> Type} (P : forall R, E R -> Prop).

(** Every call obeys [P], and every result [Q]. *)
Fixpoint calls {A} (p : Prog E A) (Q : A -> Prop) : Prop :=
  match p with
  | Ret a => Q a
  | Vis e k => P _ e /\ forall r, calls (k r) Q
  end.
Lemma calls_bind {A B} (p : Prog E A) (f : A -> Prog E B) Q :
  calls p (fun a => calls (f a) Q) -> calls (p ≫= f) Q.
Proof.
  unfold mbind, K_bind. induction p as [a|R e k IH]; cbn; [done|].
  intros [H1 H2]. split; [done|]. intros r. by apply IH.
Qed.
Lemma calls_mono {A} (p : Prog E A) (Q Q' : A -> Prop) :
  (forall a, Q a -> Q' a) -> calls p Q -> calls p Q'.
Proof.
  intros HQ. induction p as [a|R e k IH]; cbn; [auto|].
  intros [H1 H2]. split; [done|]. intros r. by apply IH.
Qed.
Lemma calls_call {A R} (e : E R) (f : R -> Prog E A) Q :
  P _ e -> (forall r, calls (f r) Q) -> calls (call e ≫= f) Q.
Proof. intros He Hf. split; [exact He|exact Hf]. Qed.
Lemma calls_ret {A B} (a : A) (f : A -> Prog E B) Q : calls (f a) Q -> calls (mret a ≫= f) Q.
Proof. done. Qed.
End Calls.

(** A property every permitted call keeps is kept by a program whose calls are
    permitted. *)
Lemma wp_calls {E : Type -> Type} {S A} (sem : forall R, E R -> S -> R -> S -> Prop)
    (P : forall R, E R -> Prop) (I : S -> Prop) (p : Prog E A) (Q : A -> Prop) s :
  (forall R (e : E R) s r s', P R e -> I s -> sem R e s r s' -> I s') ->
  calls P p Q -> I s -> wp sem p s (fun a s' => I s' /\ Q a).
Proof.
  intros HI. revert s. induction p as [a|R e k IH]; intros s; cbn; [done|].
  intros [HP Hk] Hs r s' Hsem. apply IH; [done|]. by eapply HI.
Qed.

(** ** Interleaved with others

    [rg]: before every call others may have moved the state as [rely] allows;
    every call keeps the promise [G] in the state it is made in. *)
Section RelyGuarantee.
Context {E : Type -> Type} {S : Type}.
Context (rely : S -> S -> Prop) (G : forall R, E R -> S -> Prop).
Context (sem : forall R, E R -> S -> R -> S -> Prop).

Fixpoint rg {A} (p : Prog E A) (s : S) (Q : A -> S -> Prop) : Prop :=
  match p with
  | Ret a => Q a s
  | Vis e k =>
      forall s1, rely s s1 -> G _ e s1 /\ forall r s2, sem _ e s1 r s2 -> rg (k r) s2 Q
  end.

Lemma rg_bind {A B} (p : Prog E A) (f : A -> Prog E B) s Q :
  rg p s (fun a s' => rg (f a) s' Q) -> rg (p ≫= f) s Q.
Proof.
  revert s. unfold mbind, K_bind. induction p as [a|R e k IH]; intros s; cbn; [done|].
  intros Hp s1 Hr. destruct (Hp s1 Hr) as [HG Hk]. split; [done|]. eauto.
Qed.
Lemma rg_mono {A} (p : Prog E A) s (Q Q' : A -> S -> Prop) :
  (forall a s', Q a s' -> Q' a s') -> rg p s Q -> rg p s Q'.
Proof.
  intros HQ. revert s. induction p as [a|R e k IH]; intros s; cbn; [auto|].
  intros Hp s1 Hr. destruct (Hp s1 Hr) as [HG Hk]. split; [done|]. eauto.
Qed.
Lemma rg_call {A R} (e : E R) (f : R -> Prog E A) s Q :
  (forall s1, rely s s1 -> G _ e s1 /\ forall r s2, sem _ e s1 r s2 -> rg (f r) s2 Q) ->
  rg (call e ≫= f) s Q.
Proof. done. Qed.
Lemma rg_ret {A} (a : A) s (Q : A -> S -> Prop) : Q a s -> rg (mret a) s Q.
Proof. done. Qed.
End RelyGuarantee.
