(* ===== verification/GoStrings.v ===== *)
(** * The parts of Go's [strings], [path] and [strconv] the program uses

    Strings are byte strings ([String.string]).  Case conversion and trimming
    are the ASCII fragments of Go's functions: the program applies them to
    hostnames, header names and flag values.  [clean] follows [path.Clean]
    segment by segment; [itoa]/[atoi] are [strconv.Itoa]/[strconv.Atoi] on
    64-bit integers. *)
From S2P Require Import Prelude.
From Stdlib Require Export Ascii.
Open Scope string_scope.
#[global] Arguments String.append : simpl nomatch.
#[global] Arguments ascii_dec : simpl never.

Definition slash : ascii := "/"%char.
Definition dot : ascii := "."%char.

(** ** Searching and cutting *)

(** [strings.HasPrefix(s, p)] *)
Fixpoint has_prefix (s p : string) : bool :=
  match p, s with
  | EmptyString, _ => true
  | String a p', String b s' => if ascii_dec a b then has_prefix s' p' else false
  | String _ _, EmptyString => false
  end.

(** [strings.TrimPrefix(s, p)] *)
Fixpoint drop_string (n : nat) (s : string) : string :=
  match n, s with
  | O, _ => s
  | S n', String _ s' => drop_string n' s'
  | S _, EmptyString => EmptyString
  end.
Definition trim_prefix (s p : string) : string :=
  if has_prefix s p then drop_string (String.length p) s else s.

Fixpoint take_string (n : nat) (s : string) : string :=
  match n, s with
  | O, _ => EmptyString
  | S n', String c s' => String c (take_string n' s')
  | S _, EmptyString => EmptyString
  end.

(** [strings.HasSuffix(s, p)] and [strings.TrimSuffix(s, p)] *)
Definition has_suffix (s p : string) : bool :=
  if (String.length p <=? String.length s)%nat
  then bool_decide (drop_string (String.length s - String.length p) s = p)
  else false.
Definition trim_suffix (s p : string) : string :=
  if has_suffix s p then take_string (String.length s - String.length p) s else s.

(** [strings.IndexByte(s, c)]: the position of the first [c]. *)
Fixpoint index_byte (s : string) (c : ascii) : option nat :=
  match s with
  | EmptyString => None
  | String a s' =>
      if ascii_dec a c then Some 0%nat
      else option_map S (index_byte s' c)
  end.

(** [strings.LastIndexByte(s, c)] *)
Fixpoint last_index_byte (s : string) (c : ascii) : option nat :=
  match s with
  | EmptyString => None
  | String a s' =>
      match last_index_byte s' c with
      | Some i => Some (S i)
      | None => if ascii_dec a c then Some 0%nat else None
      end
  end.

(** [strings.Index(s, sub)] *)
Fixpoint index_of (s sub : string) : option nat :=
  if has_prefix s sub then Some 0%nat
  else match s with
       | EmptyString => None
       | String _ s' => option_map S (index_of s' sub)
       end.

(** [strings.Contains(s, sub)], and its one-byte form. *)
Definition contains_string (s sub : string) : bool :=
  match index_of s sub with Some _ => true | None => false end.
Definition contains_byte (s : string) (c : ascii) : bool :=
  match index_byte s c with Some _ => true | None => false end.

(** [strings.Cut(s, sep)] for a one-byte separator. *)
Fixpoint cut (s : string) (c : ascii) : string * string * bool :=
  match s with
  | EmptyString => (EmptyString, EmptyString, false)
  | String a s' =>
      if ascii_dec a c then (EmptyString, s', true)
      else let '(l, r, ok) := cut s' c in (String a l, r, ok)
  end.

(** [strings.Count(s, c)] for a one-byte separator. *)
Fixpoint count_byte (s : string) (c : ascii) : nat :=
  match s with
  | EmptyString => 0
  | String a s' => if ascii_dec a c then S (count_byte s' c) else count_byte s' c
  end.
Lemma count_byte_app c s t : count_byte (s +:+ t) c = (count_byte s c + count_byte t c)%nat.
Proof.
  induction s as [|a s IH]; cbn; [done|]. rewrite IH. by destruct (ascii_dec a c).
Qed.

(** [strings.Split(s, c)] for a one-byte separator. *)
Fixpoint split (c : ascii) (s : string) : list string :=
  match s with
  | EmptyString => [EmptyString]
  | String a s' =>
      if ascii_dec a c then EmptyString :: split c s'
      else match split c s' with
           | [] => [String a EmptyString]
           | h :: t => String a h :: t
           end
  end.

(** [strings.Join(xs, sep)] *)
Fixpoint join (sep : string) (xs : list string) : string :=
  match xs with
  | [] => EmptyString
  | [x] => x
  | x :: xs' => x +:+ sep +:+ join sep xs'
  end.

(** ** Case and white space *)

Definition lower_ascii (a : ascii) : ascii :=
  let n := nat_of_ascii a in
  if ((65 <=? n) && (n <=? 90))%nat then ascii_of_nat (n + 32) else a.
Fixpoint to_lower (s : string) : string :=
  match s with
  | EmptyString => EmptyString
  | String a s' => String (lower_ascii a) (to_lower s')
  end.
(** [strings.EqualFold] *)
Definition equal_fold (s t : string) : bool := bool_decide (to_lower s = to_lower t).

Definition is_space (a : ascii) : bool :=
  let n := nat_of_ascii a in (((9 <=? n) && (n <=? 13)) || (n =? 32))%nat.
Fixpoint trim_left (s : string) : string :=
  match s with
  | EmptyString => EmptyString
  | String a s' => if is_space a then trim_left s' else s
  end.
Fixpoint trim_right (s : string) : string :=
  match s with
  | EmptyString => EmptyString
  | String a s' =>
      match trim_right s' with
      | EmptyString => if is_space a then EmptyString else String a EmptyString
      | t => String a t
      end
  end.
Definition trim_space (s : string) : string := trim_right (trim_left s).

(** [strings.Trim(s, c)] for a one-byte cutset. *)
Fixpoint trim_left_byte (c : ascii) (s : string) : string :=
  match s with
  | EmptyString => EmptyString
  | String a s' => if ascii_dec a c then trim_left_byte c s' else s
  end.
Fixpoint trim_right_byte (c : ascii) (s : string) : string :=
  match s with
  | EmptyString => EmptyString
  | String a s' =>
      match trim_right_byte c s' with
      | EmptyString => if ascii_dec a c then EmptyString else String a EmptyString
      | t => String a t
      end
  end.
Definition trim_byte (c : ascii) (s : string) : string :=
  trim_right_byte c (trim_left_byte c s).

(** ** Byte-wise order, Go's [<] on strings *)
Fixpoint str_ltb (s t : string) : bool :=
  match s, t with
  | _, EmptyString => false
  | EmptyString, String _ _ => true
  | String a s', String b t' =>
      if ascii_dec a b then str_ltb s' t'
      else (nat_of_ascii a <? nat_of_ascii b)%nat
  end.

(** ** package path *)

(** [path.Clean]: drop empty and ["."] segments, resolve [".."] against the
    segment before it, and keep a leading [".."] only in a relative path. *)
Fixpoint clean_segs (rooted : bool) (stack : list string) (segs : list string)
  : list string :=
  match segs with
  | [] => reverse stack
  | seg :: segs' =>
      if bool_decide (seg = "") || bool_decide (seg = ".") then
        clean_segs rooted stack segs'
      else if bool_decide (seg = "..") then
        match stack with
        | top :: rest =>
            if bool_decide (top = "..")
            then clean_segs rooted (seg :: stack) segs'
            else clean_segs rooted rest segs'
        | [] => if rooted then clean_segs rooted [] segs'
                else clean_segs rooted [seg] segs'
        end
      else clean_segs rooted (seg :: stack) segs'
  end.
Definition clean (p : string) : string :=
  if bool_decide (p = "") then "."
  else
    let rooted := has_prefix p "/" in
    let segs := clean_segs rooted [] (split slash p) in
    if rooted then "/" +:+ join "/" segs
    else match segs with [] => "." | _ => join "/" segs end.

(** [path.Join]: leading empty elements are skipped, the rest are joined with
    slashes and cleaned; no non-empty element gives [""]. *)
Fixpoint join_buf (buf : string) (elems : list string) : string :=
  match elems with
  | [] => buf
  | e :: es =>
      if bool_decide (buf = "") && bool_decide (e = "") then join_buf buf es
      else if bool_decide (buf = "") then join_buf e es
      else join_buf (buf +:+ "/" +:+ e) es
  end.
Definition path_join (elems : list string) : string :=
  if forallb (fun e => bool_decide (e = "")) elems then ""
  else clean (join_buf "" elems).

(** ** package strconv *)

Definition digit (n : Z) : ascii := ascii_of_nat (Z.to_nat (48 + n)).
Definition digit_val (a : ascii) : option Z :=
  let n := Z.of_nat (nat_of_ascii a) in
  if ((48 <=? n) && (n <=? 57))%Z then Some (n - 48)%Z else None.

(** The digit loop of [strconv.Itoa]; 20 digits cover 64 bits. *)
Fixpoint digits (fuel : nat) (n : Z) (acc : string) : string :=
  match fuel with
  | O => acc
  | S fuel' =>
      if (n <=? 0)%Z then acc
      else digits fuel' (n / 10) (String (digit (n mod 10)) acc)
  end.
Definition itoa (n : Z) : string :=
  if (n =? 0)%Z then "0"
  else if (n <? 0)%Z then "-" +:+ digits 20 (- n) "" else digits 20 n "".

Fixpoint parse_digits (acc : Z) (s : string) : option Z :=
  match s with
  | EmptyString => Some acc
  | String a s' =>
      match digit_val a with
      | Some d => parse_digits (acc * 10 + d) s'
      | None => None
      end
  end.
(** [strconv.Atoi]: an optional sign, at least one digit, in the range of a
    64-bit integer. *)
Definition atoi (s : string) : option Z :=
  let '(neg, body) :=
    match s with
    | String a s' =>
        if ascii_dec a "-"%char then (true, s')
        else if ascii_dec a "+"%char then (false, s') else (false, s)
    | EmptyString => (false, s)
    end in
  match body with
  | EmptyString => None
  | _ =>
      match parse_digits 0 body with
      | None => None
      | Some n =>
          let v := if neg then (- n)%Z else n in
          if ((- 2 ^ 63 <=? v) && (v <? 2 ^ 63))%Z then Some v else None
      end
  end.

(** [strconv.Quote] (the [%q] verb): quotes, backslashes and control bytes are
    escaped, the other bytes are kept.  (Go also escapes invalid and unprintable
    UTF-8; the program quotes names and paths in error texts only.) *)
Definition dquote : ascii := "034"%char.
Definition backslash : ascii := "092"%char.
Definition hex_digit (n : nat) : ascii :=
  ascii_of_nat (if (n <? 10)%nat then 48 + n else 87 + n).
Definition quote_byte (a : ascii) : string :=
  let n := nat_of_ascii a in
  if ascii_dec a dquote then String backslash (String dquote "")
  else if ascii_dec a backslash then String backslash (String backslash "")
  else match n with
       | 7 => String backslash "a" | 8 => String backslash "b"
       | 9 => String backslash "t" | 10 => String backslash "n"
       | 11 => String backslash "v" | 12 => String backslash "f"
       | 13 => String backslash "r"
       | _ =>
           if (n <? 32)%nat || (n =? 127)%nat
           then String backslash (String "x" (String (hex_digit (n / 16))
                  (String (hex_digit (n mod 16)) "")))
           else String a ""
       end%nat.
Fixpoint quote_body (s : string) : string :=
  match s with
  | EmptyString => EmptyString
  | String a s' => quote_byte a +:+ quote_body s'
  end.
Definition quote (s : string) : string :=
  String dquote (quote_body s +:+ String dquote "").

(** ** Lemmas: append, length, prefixes *)

Lemma app_empty_r s : s +:+ "" = s.
Proof. induction s as [|a s IH]; cbn; [done|]. by rewrite IH. Qed.
Lemma app_assoc_str s t u : (s +:+ t) +:+ u = s +:+ (t +:+ u).
Proof. induction s as [|a s IH]; cbn; [done|]. by rewrite IH. Qed.
Lemma length_app_str s t :
  String.length (s +:+ t) = (String.length s + String.length t)%nat.
Proof. induction s as [|a s IH]; cbn; [done|]. by rewrite IH. Qed.
Lemma app_inj_l s t u : s +:+ t = s +:+ u -> t = u.
Proof. induction s as [|a s IH]; cbn; [done|]. intros [= H]. auto. Qed.

Lemma drop_length_app s t : drop_string (String.length s) (s +:+ t) = t.
Proof. induction s as [|a s IH]; cbn; auto. Qed.
Lemma take_length_app s t : take_string (String.length s) (s +:+ t) = s.
Proof. induction s as [|a s IH]; cbn; [by destruct t|]. by rewrite IH. Qed.
Lemma take_drop_app n s : take_string n s +:+ drop_string n s = s.
Proof.
  revert s. induction n as [|n IH]; intros [|a s]; cbn; [done..|]. by rewrite IH.
Qed.

Lemma has_prefix_spec s p :
  has_prefix s p = true <-> exists t, s = p +:+ t.
Proof.
  revert s. induction p as [|a p IH]; intros s; cbn.
  - destruct s; split; eauto.
  - destruct s as [|b s]; [split; [done|intros [? [=]]]|].
    cbn. destruct (ascii_dec a b) as [->|Hne].
    + rewrite IH. split; intros [t Ht]; exists t; congruence.
    + split; [done|]. intros [t [= ? ?]]. congruence.
Qed.
Lemma has_prefix_app p t : has_prefix (p +:+ t) p = true.
Proof. apply has_prefix_spec. eauto. Qed.
Lemma trim_prefix_app p t : trim_prefix (p +:+ t) p = t.
Proof. unfold trim_prefix. rewrite has_prefix_app. apply drop_length_app. Qed.

Lemma has_suffix_spec s p :
  has_suffix s p = true <-> exists t, s = t +:+ p.
Proof.
  unfold has_suffix. split.
  - destruct (_ <=? _)%nat; [|done]. intros H. bool_to_prop.
    exists (take_string (String.length s - String.length p) s).
    rewrite <-H at 2. by rewrite take_drop_app.
  - intros [t ->]. rewrite length_app_str.
    assert ((String.length p <=? String.length t + String.length p)%nat = true) as ->
      by (apply Nat.leb_le; lia).
    replace (String.length t + String.length p - String.length p)%nat
      with (String.length t) by lia.
    apply bool_decide_eq_true. apply drop_length_app.
Qed.
Lemma trim_suffix_app t p : trim_suffix (t +:+ p) p = t.
Proof.
  unfold trim_suffix.
  rewrite (proj2 (has_suffix_spec _ _)) by eauto.
  rewrite length_app_str, Nat.add_sub. apply take_length_app.
Qed.

(** ** Lemmas: bytes of a string *)

Fixpoint no_byte (c : ascii) (s : string) : Prop :=
  match s with
  | EmptyString => True
  | String a s' => a <> c /\ no_byte c s'
  end.

Lemma no_byte_app c s t : no_byte c (s +:+ t) <-> no_byte c s /\ no_byte c t.
Proof. induction s as [|a s IH]; cbn; [tauto|]. rewrite IH. tauto. Qed.

Lemma index_byte_none s c : index_byte s c = None <-> no_byte c s.
Proof.
  induction s as [|a s IH]; cbn; [done|].
  destruct (ascii_dec a c); [intuition congruence|].
  destruct (index_byte s c); cbn; intuition congruence.
Qed.
Lemma index_byte_app s t c :
  no_byte c s -> index_byte (s +:+ String c t) c = Some (String.length s).
Proof.
  induction s as [|a s IH]; cbn; intros H.
  - by destruct (ascii_dec c c).
  - destruct H as [Hne H]. destruct (ascii_dec a c); [done|]. by rewrite IH.
Qed.
Lemma last_index_byte_none s c : last_index_byte s c = None <-> no_byte c s.
Proof.
  induction s as [|a s IH]; cbn; [done|].
  destruct (last_index_byte s c); [intuition congruence|].
  destruct (ascii_dec a c); intuition congruence.
Qed.
Lemma last_index_byte_app s t c :
  no_byte c t -> last_index_byte (s +:+ String c t) c = Some (String.length s).
Proof.
  intros H. apply last_index_byte_none in H.
  induction s as [|a s IH]; cbn; [rewrite H|by rewrite IH].
  by destruct (ascii_dec c c).
Qed.

Lemma cut_app s t c : no_byte c s -> cut (s +:+ String c t) c = (s, t, true).
Proof.
  induction s as [|a s IH]; cbn; intros H.
  - by destruct (ascii_dec c c).
  - destruct H as [Hne H]. destruct (ascii_dec a c); [done|]. by rewrite IH.
Qed.
Lemma cut_none s c : no_byte c s -> cut s c = (s, "", false).
Proof.
  induction s as [|a s IH]; cbn; intros H; [done|].
  destruct H as [Hne H]. destruct (ascii_dec a c); [done|]. by rewrite IH.
Qed.
Lemma cut_ok s c l r : cut s c = (l, r, true) -> s = l +:+ String c r /\ no_byte c l.
Proof.
  revert l r. induction s as [|a s IH]; cbn; intros l r; [done|].
  destruct (ascii_dec a c) as [->|Hne]; [by intros [= <- <-]|].
  destruct (cut s c) as [[l' r'] ok]. intros [= <- <- ->].
  destruct (IH l' r' eq_refl) as [-> ?]. done.
Qed.

Lemma index_of_app a p s t :
  no_byte a s -> index_of (s +:+ String a p +:+ t) (String a p) = Some (String.length s).
Proof.
  pose proof (has_prefix_app (String a p) t) as Hp. revert Hp.
  generalize (String a p +:+ t). intros u Hp. induction s as [|b s IH]; intros H.
  - cbn [String.append]. destruct u; [done|]. cbn [index_of String.length]. by rewrite Hp.
  - destruct H as [Hne H]. cbn [String.append index_of has_prefix].
    destruct (ascii_dec a b); [congruence|]. by rewrite IH.
Qed.
Lemma index_of_none a p s : no_byte a s -> index_of s (String a p) = None.
Proof.
  induction s as [|b s IH]; intros H; [done|]. destruct H as [Hne H]. cbn [index_of has_prefix].
  destruct (ascii_dec a b); [congruence|]. by rewrite IH.
Qed.
Lemma last_index_byte_some s c i :
  last_index_byte s c = Some i ->
  exists l r, s = l +:+ String c r /\ String.length l = i /\ no_byte c r.
Proof.
  revert i. induction s as [|a s IH]; intros i; [done|]. cbn.
  destruct (last_index_byte s c) as [j|] eqn:E.
  - intros [= <-]. destruct (IH j eq_refl) as (l & r & -> & <- & ?).
    by exists (String a l), r.
  - destruct (ascii_dec a c) as [->|]; [|done]. intros [= <-].
    exists "", s. split; [done|]. split; [done|]. by apply last_index_byte_none.
Qed.
Lemma cut_first l x y c :
  fst (fst (cut (l +:+ String c x) c)) = fst (fst (cut (l +:+ String c y) c)) /\
  snd (cut (l +:+ String c x) c) = true.
Proof.
  induction l as [|a l [IH1 IH2]]; cbn.
  - by destruct (ascii_dec c c).
  - destruct (ascii_dec a c); [done|].
    destruct (cut (l +:+ String c x) c) as [[? ?] ?], (cut (l +:+ String c y) c) as [[? ?] ?].
    cbn in *. by rewrite IH1.
Qed.
Lemma take_app_ge l t n :
  (String.length l <= n)%nat ->
  take_string n (l +:+ t) = l +:+ take_string (n - String.length l) t.
Proof.
  revert n. induction l as [|a l IH]; intros n H; cbn; [by rewrite Nat.sub_0_r|].
  destruct n as [|n]; [cbn in H; lia|]. cbn in *. rewrite IH by lia. done.
Qed.
Lemma no_byte_take c n s : no_byte c s -> no_byte c (take_string n s).
Proof.
  revert n. induction s as [|a s IH]; intros [|n]; cbn; try done.
  intros [? ?]. split; auto.
Qed.

(** ** Lemmas: segments *)

Lemma split_not_nil c s : split c s <> [].
Proof.
  destruct s as [|a s]; cbn; [done|]. destruct (ascii_dec a c); [done|].
  by destruct (split c s).
Qed.
Lemma split_no_byte c s : no_byte c s -> split c s = [s].
Proof.
  induction s as [|a s IH]; cbn; [done|]. intros [Hne H].
  destruct (ascii_dec a c); [done|]. by rewrite IH.
Qed.
Lemma split_app c s t : no_byte c s -> split c (s +:+ String c t) = s :: split c t.
Proof.
  induction s as [|a s IH]; cbn; intros H.
  - by destruct (ascii_dec c c).
  - destruct H as [Hne H]. destruct (ascii_dec a c); [done|]. by rewrite IH.
Qed.
Lemma split_segs_no_byte c s : Forall (no_byte c) (split c s).
Proof.
  induction s as [|a s IH]; cbn; [by repeat constructor|].
  destruct (ascii_dec a c); [by constructor|].
  destruct (split c s) as [|h t]; [by repeat constructor|].
  inversion IH; subst. constructor; [by split|done].
Qed.
Lemma join_split s : join "/" (split slash s) = s.
Proof.
  induction s as [|a s IH]; cbn; [done|].
  destruct (ascii_dec a slash) as [->|Hne].
  - pose proof (split_not_nil slash s) as Hn.
    destruct (split slash s) as [|h t]; [done|]. cbn in *. by rewrite IH.
  - destruct (split slash s) as [|h t] eqn:E; [by destruct (split_not_nil slash s)|].
    destruct t; cbn in *; by rewrite IH.
Qed.
Lemma join_cons sep x y l : join sep (x :: y :: l) = x +:+ sep +:+ join sep (y :: l).
Proof. done. Qed.
Lemma slash_app s : "/" +:+ s = String slash s.
Proof. done. Qed.
Lemma split_join segs :
  segs <> [] -> Forall (no_byte slash) segs -> split slash (join "/" segs) = segs.
Proof.
  induction segs as [|x segs IH]; [done|]. intros _ H. inversion_clear H as [|? ? Hx Hs].
  destruct segs as [|y segs]; [by apply split_no_byte|].
  rewrite join_cons, slash_app, split_app by done. by rewrite IH.
Qed.
Lemma join_app segs1 segs2 :
  segs1 <> [] -> segs2 <> [] ->
  join "/" (segs1 ++ segs2) = join "/" segs1 +:+ "/" +:+ join "/" segs2.
Proof.
  intros H1 H2. induction segs1 as [|y segs IH]; [done|].
  destruct segs as [|z segs].
  - cbn. by destruct segs2.
  - change ((y :: z :: segs) ++ segs2)%list with (y :: z :: (segs ++ segs2))%list.
    rewrite !join_cons. change (z :: segs ++ segs2)%list with ((z :: segs) ++ segs2)%list.
    rewrite IH by done. by rewrite !app_assoc_str.
Qed.

(** ** Lemmas: clean and canonical paths *)

Lemma no_byte_join c segs :
  c <> slash -> no_byte c (join "/" segs) <-> Forall (no_byte c) segs.
Proof.
  intros Hc. assert (Hs : no_byte c "/") by (split; [intros E; by apply Hc|done]).
  induction segs as [|x segs IH]; [cbn; by rewrite Forall_nil|].
  rewrite Forall_cons. destruct segs as [|y segs]; [cbn; rewrite Forall_nil; tauto|].
  rewrite join_cons, !no_byte_app, IH. tauto.
Qed.

(** A segment [path.Clean] leaves alone wherever it stands. *)
Definition plain_seg (s : string) : Prop := s <> "" /\ s <> "." /\ s <> "..".

#[export] Instance plain_seg_dec s : Decision (plain_seg s).
Proof. unfold plain_seg. apply _. Defined.

Lemma clean_segs_no_dotdot rooted stack segs :
  ".." ∉ segs -> clean_segs rooted stack segs = (reverse stack ++ filter plain_seg segs)%list.
Proof.
  revert stack. induction segs as [|x segs IH]; intros stack H; cbn [clean_segs].
  - by rewrite app_nil_r.
  - apply not_elem_of_cons in H as [Hx H]. rewrite filter_cons.
    assert (E : plain_seg x <-> x <> "" /\ x <> ".") by (unfold plain_seg; intuition).
    case_bool_decide as H1; cbn [orb]; [rewrite decide_False by tauto; auto|].
    case_bool_decide as H2; cbn [orb]; [rewrite decide_False by tauto; auto|].
    rewrite bool_decide_eq_false_2 by congruence. rewrite decide_True by tauto.
    rewrite IH by done. by rewrite reverse_cons, <-app_assoc.
Qed.
Lemma filter_plain segs : Forall plain_seg segs -> filter plain_seg segs = segs.
Proof.
  induction 1 as [|x segs Hx Hs IH]; [done|]. by rewrite filter_cons_True, IH.
Qed.
Lemma plain_no_dotdot segs : Forall plain_seg segs -> ".." ∉ segs.
Proof. rewrite Forall_forall. intros H (_ & _ & Hx)%H. done. Qed.
Lemma clean_segs_plain rooted segs :
  Forall plain_seg segs -> clean_segs rooted [] segs = segs.
Proof.
  intros H. rewrite clean_segs_no_dotdot by by apply plain_no_dotdot.
  by rewrite filter_plain.
Qed.

(** Whatever a rooted clean keeps is a plain segment of its input. *)
Lemma clean_segs_rooted stack segs x :
  x ∈ clean_segs true stack segs -> x ∈ stack \/ x ∈ segs /\ plain_seg x.
Proof.
  revert stack. induction segs as [|y segs IH]; intros stack; cbn [clean_segs].
  - intros Hx. left. by rewrite elem_of_reverse in Hx.
  - assert (Hrec : forall st, x ∈ clean_segs true st segs ->
               (x ∈ st -> x ∈ stack \/ x = y /\ plain_seg y) ->
               x ∈ stack \/ x ∈ y :: segs /\ plain_seg x).
    { intros st Hx Hst. destruct (IH st Hx) as [H|[H1 H2]].
      - destruct (Hst H) as [|[-> ?]]; [by left|right; split; [left|done]].
      - right. split; [by right|done]. }
    case_bool_decide as H1; cbn [orb]; [intros Hx; apply (Hrec _ Hx); tauto|].
    case_bool_decide as H2; cbn [orb]; [intros Hx; apply (Hrec _ Hx); tauto|].
    case_bool_decide as H3; cbn.
    + destruct stack as [|top rest]; [intros Hx; apply (Hrec _ Hx); tauto|].
      case_bool_decide; intros Hx; apply (Hrec _ Hx); intros Hin.
      * apply elem_of_cons in Hin as [->|Hin]; [|by left]. left. subst. left.
      * left. by right.
    + intros Hx. apply (Hrec _ Hx). intros [->|Hin]%elem_of_cons; [by right|by left].
Qed.

(** The text of an absolute path with the given segments. *)
Definition render (segs : list string) : string := "/" +:+ join "/" segs.
Definition path_segs (segs : list string) : Prop :=
  Forall (fun s => plain_seg s /\ no_byte slash s) segs.

Lemma path_segs_plain segs : path_segs segs -> Forall plain_seg segs.
Proof. apply List.Forall_impl. by intros ? []. Qed.
Lemma path_segs_no_slash segs : path_segs segs -> Forall (no_byte slash) segs.
Proof. apply List.Forall_impl. by intros ? []. Qed.

Lemma clean_render segs : path_segs segs -> clean (render segs) = render segs.
Proof.
  intros H. unfold render, clean. rewrite slash_app. cbn [has_prefix].
  rewrite bool_decide_eq_false_2 by done.
  destruct (ascii_dec _ _) as [_|]; [|done]. destruct (join "/" segs) eqn:E; cbn [has_prefix].
  - by cbn.
  - rewrite <-E. change (split slash (String slash (join "/" segs)))
      with (split slash ("" +:+ String slash (join "/" segs))).
    rewrite split_app by done. rewrite split_join.
    + cbn [clean_segs]. rewrite bool_decide_eq_true_2 by done. cbn [orb].
      by rewrite clean_segs_plain by by apply path_segs_plain.
    + by intros ->.
    + by apply path_segs_no_slash.
Qed.

(** Joining a relative path without [".."] onto a canonical one only appends
    segments. *)
Lemma split_slash_cons s : split slash (String slash s) = "" :: split slash s.
Proof. done. Qed.
Lemma split_join_app l sub :
  l <> [] -> Forall (no_byte slash) l ->
  split slash (join "/" l +:+ String slash sub) = (l ++ split slash sub)%list.
Proof.
  induction l as [|y l IH]; [done|]. intros _ Hl. inversion_clear Hl.
  destruct l as [|z l]; [by apply split_app|].
  rewrite join_cons, !app_assoc_str, slash_app, split_app by done. by rewrite IH.
Qed.
Lemma split_render_app segs sub :
  path_segs segs ->
  split slash (render segs +:+ "/" +:+ sub)
  = "" :: (match segs with [] => [""] | _ => segs end ++ split slash sub)%list.
Proof.
  intros H. pose proof (path_segs_no_slash _ H) as Hn.
  unfold render. rewrite !slash_app. cbn [String.append]. rewrite split_slash_cons.
  f_equal. destruct segs as [|x segs]; [done|]. by apply split_join_app.
Qed.
Lemma path_join_beneath segs sub :
  path_segs segs -> ".." ∉ split slash sub ->
  path_join [render segs; sub] = render (segs ++ filter plain_seg (split slash sub)).
Proof.
  intros H Hsub. pose proof (path_segs_plain _ H) as Hp.
  pose proof (plain_no_dotdot _ Hp) as Hd.
  unfold path_join. cbn [forallb join_buf].
  rewrite !(bool_decide_eq_false_2 (render segs = "")) by done. cbn [andb].
  rewrite (bool_decide_eq_true_2 ("" = "")) by done. cbn [andb join_buf].
  rewrite ?(bool_decide_eq_false_2 (render segs = "")) by done. cbn [andb join_buf].
  unfold clean.
  assert (has_prefix (render segs +:+ "/" +:+ sub) "/" = true) as ->.
  { unfold render. rewrite !slash_app. cbn [String.append has_prefix].
    destruct (ascii_dec _ _); [|done]. by destruct (join "/" segs +:+ _). }
  rewrite bool_decide_eq_false_2 by done.
  rewrite split_render_app by done.
  rewrite clean_segs_no_dotdot.
  - rewrite filter_cons_False by (intros [? _]; done). rewrite filter_app.
    destruct segs as [|x segs]; [|by rewrite filter_plain].
    by rewrite filter_cons_False by (intros [? _]; done).
  - apply not_elem_of_cons. split; [done|]. apply not_elem_of_app. split; [|done].
    destruct segs; [|done]. apply not_elem_of_cons. split; [done|apply not_elem_of_nil].
Qed.

(** The result of cleaning a rooted path is the text of plain segments. *)
Lemma clean_rooted p :
  has_prefix p "/" = true ->
  exists segs, clean p = render segs /\ path_segs segs /\
    forall s, s ∈ segs -> s ∈ split slash p.
Proof.
  intros Hp. unfold clean. rewrite bool_decide_eq_false_2 by (by intros ->).
  rewrite Hp. eexists. split; [done|]. split.
  - apply Forall_forall. intros x Hx.
    apply clean_segs_rooted in Hx as [Hx|[Hx ?]]; [by apply elem_of_nil in Hx|].
    split; [done|]. pose proof (split_segs_no_byte slash p) as Hs.
    rewrite Forall_forall in Hs. by apply Hs.
  - intros x Hx. apply clean_segs_rooted in Hx as [Hx|[Hx ?]]; [by apply elem_of_nil in Hx|done].
Qed.

(** ** Lemmas: the order on strings *)

Lemma str_ltb_irrefl s : str_ltb s s = false.
Proof. induction s as [|a s IH]; cbn; [done|]. by destruct (ascii_dec a a). Qed.
Lemma str_ltb_trans s t u :
  str_ltb s t = true -> str_ltb t u = true -> str_ltb s u = true.
Proof.
  revert t u. induction s as [|a s IH].
  - intros t [|c u] H1 H2; [|done]. by destruct t.
  - intros [|b t] [|c u] H1 H2; try done. cbn in *.
    destruct (ascii_dec a b) as [->|Hab].
    + destruct (ascii_dec b c); [by eapply IH|done].
    + destruct (ascii_dec b c) as [->|Hbc]; [by destruct (ascii_dec a c)|].
      apply Nat.ltb_lt in H1, H2.
      destruct (ascii_dec a c) as [->|]; [lia|]. apply Nat.ltb_lt. lia.
Qed.
Lemma str_ltb_total s t : str_ltb s t = false -> str_ltb t s = false -> s = t.
Proof.
  revert t. induction s as [|a s IH]; intros [|b t] Hst Hts; try done. cbn in *.
  destruct (ascii_dec a b) as [->|H1].
  - destruct (ascii_dec b b); [|done]. f_equal. auto.
  - destruct (ascii_dec b a) as [->|]; [done|].
    apply Nat.ltb_ge in Hst, Hts. exfalso. apply H1.
    rewrite <-(ascii_nat_embedding a), <-(ascii_nat_embedding b). f_equal. lia.
Qed.

(** ** Lemmas: numbers *)

Lemma digit_val_digit n : (0 <= n < 10)%Z -> digit_val (digit n) = Some n.
Proof.
  intros H. unfold digit_val, digit. rewrite nat_ascii_embedding by lia.
  rewrite Z2Nat.id by lia.
  destruct (Z.leb_spec 48 (48 + n)); [|lia].
  destruct (Z.leb_spec (48 + n) 57); [|lia]. cbn. f_equal. lia.
Qed.

(** The digits written in front of [tail] read back as the number followed by
    [tail]: the round trip of the loop, generalised over what follows. *)
Lemma parse_digits_digits fuel n tail :
  (0 <= n < 10 ^ Z.of_nat fuel)%Z ->
  parse_digits 0 (digits fuel n tail) = parse_digits n tail.
Proof.
  revert n tail. induction fuel as [|fuel IH]; intros n tail H; cbn [digits].
  - replace n with 0%Z by (cbn in H; lia). done.
  - destruct (Z.leb_spec n 0); [by replace n with 0%Z by lia|].
    rewrite IH.
    + cbn [parse_digits]. pose proof (Z.mod_pos_bound n 10 ltac:(lia)).
      rewrite digit_val_digit by done.
      f_equal. pose proof (Z.div_mod n 10). lia.
    + rewrite Nat2Z.inj_succ, Z.pow_succ_r in H by lia.
      split; [apply Z.div_pos; lia|]. apply Z.div_lt_upper_bound; lia.
Qed.

Lemma digits_cons fuel n tail :
  (0 < n)%Z -> exists d s, digits (S fuel) n tail = String d s.
Proof.
  revert n tail. induction fuel as [|fuel IH]; intros n tail Hn.
  - cbn. destruct (Z.leb_spec n 0); [lia|]. eauto.
  - remember (S fuel) as f. cbn. destruct (Z.leb_spec n 0); [lia|].
    destruct (Z_lt_le_dec 0 (n / 10)) as [Hd|Hd]; [by subst; apply IH|].
    subst f. cbn. destruct (Z.leb_spec (n / 10) 0); [eauto|lia].
Qed.
Lemma digits_first fuel n tail d s :
  digits fuel n tail = String d s -> (0 < n)%Z -> (0 < fuel)%nat ->
  exists m, (0 <= m < 10)%Z /\ d = digit m.
Proof.
  revert n tail. induction fuel as [|fuel IH]; intros n tail H Hn Hf; [lia|].
  cbn in H. destruct (Z.leb_spec n 0); [lia|].
  pose proof (Z.mod_pos_bound n 10 ltac:(lia)).
  destruct fuel as [|fuel]; [injection H as <- <-; eauto|].
  destruct (Z_lt_le_dec 0 (n / 10)) as [Hd|Hd].
  - apply IH in H; [done|done|lia].
  - cbn in H. destruct (Z.leb_spec (n / 10) 0); [|lia].
    injection H as <- <-. eauto.
Qed.
Lemma digit_not_sign m :
  (0 <= m < 10)%Z -> digit m <> "-"%char /\ digit m <> "+"%char.
Proof.
  intros H. pose proof (digit_val_digit m H) as Hd.
  split; intros E; rewrite E in Hd; done.
Qed.

(** [strconv.Atoi(strconv.Itoa(n)) = n] on 64-bit integers. *)
Lemma atoi_itoa n : in_int64 n -> atoi (itoa n) = Some n.
Proof.
  unfold in_int64, itoa. intros H.
  destruct (Z.eqb_spec n 0) as [->|H0]; [done|].
  destruct (Z.ltb_spec n 0) as [Hneg|Hpos].
  - destruct (digits_cons 19 (- n) "" ltac:(lia)) as (d & s & E).
    change ("-" +:+ digits 20 (- n) "") with (String "-" (digits 20 (- n) "")).
    unfold atoi. destruct (ascii_dec "-" "-") as [_|]; [|done].
    rewrite E. cbv beta iota. rewrite <-E.
    rewrite parse_digits_digits by (change (Z.of_nat 20) with 20%Z; lia).
    cbn [parse_digits]. rewrite Z.opp_involutive.
    destruct (Z.leb_spec (- 2 ^ 63) n), (Z.ltb_spec n (2 ^ 63)); (done || lia).
  - destruct (digits_cons 19 n "" ltac:(lia)) as (d & s & E).
    destruct (digits_first 20 n "" d s E ltac:(lia) ltac:(lia)) as (m & Hm & ->).
    destruct (digit_not_sign m Hm) as [Hm1 Hm2].
    rewrite E. unfold atoi.
    destruct (ascii_dec (digit m) "-"); [done|].
    destruct (ascii_dec (digit m) "+"); [done|]. cbv beta iota. rewrite <-E.
    rewrite parse_digits_digits by (change (Z.of_nat 20) with 20%Z; lia).
    cbn [parse_digits].
    destruct (Z.leb_spec (- 2 ^ 63) n), (Z.ltb_spec n (2 ^ 63)); (done || lia).
Qed.

(** No byte of a non-negative number's rendering is a given non-digit. *)
Lemma digits_no_byte c fuel n tail :
  digit_val c = None -> no_byte c tail -> no_byte c (digits fuel n tail).
Proof.
  intros Hc. revert n tail. induction fuel as [|fuel IH]; intros n tail Ht; cbn; [done|].
  destruct (Z.leb_spec n 0); [done|]. apply IH. cbn. split; [|done].
  intros E. pose proof (Z.mod_pos_bound n 10 ltac:(lia)).
  rewrite <-E, digit_val_digit in Hc by done. done.
Qed.
Lemma itoa_no_byte c n :
  digit_val c = None -> (0 <= n)%Z -> no_byte c (itoa n).
Proof.
  intros Hc Hn. unfold itoa. destruct (Z.eqb_spec n 0).
  - cbn. split; [|done]. intros <-. done.
  - destruct (Z.ltb_spec n 0); [lia|]. by apply digits_no_byte.
Qed.

#[export] Hint Resolve has_prefix_app : go.
Create Rewrite HintDb go_str.
#[export] Hint Rewrite app_empty_r app_assoc_str length_app_str
  trim_prefix_app trim_suffix_app drop_length_app take_length_app : go_str.
