(* ===== verification/Api.v ===== *)
(** * Wire types shared by the control plane, execd and the SDKs (package api)

    One record per struct of [src/pkg/api]; a Go map is a [gmap], a pointer an
    [option], a slice a [list].  The JSON tags are the encoding's business and
    do not appear. *)
From S2P Require Import Prelude GoStrings.
Open Scope string_scope.

(** ** filesystem.go *)

Record Workspace := { ws_Path : string; ws_SizeLimit : string }.
Record MountSource := { src_Volume : string; src_SubPath : string }.
Record Mount := { m_Path : string; m_Source : MountSource; m_ReadOnly : bool }.
Record FilesystemSpec := {
  fs_Workspace : Workspace;
  fs_Mounts : list Mount;
  fs_AllowSystemPaths : list string;
  fs_Hide : list string }.

Definition DefaultWorkspacePath : string := "/workspace".

(** ** bind.go *)

Record BindRequest := {
  br_SandboxID : string;
  br_Tenant : string;
  br_Filesystem : FilesystemSpec;
  br_Env : gmap string string;
  br_Secrets : gmap string string;
  br_TTLSeconds : Z;
  br_Token : string }.
Record BindResponse := {
  bs_SandboxID : string;
  bs_IsolationTier : string;
  bs_BoundAt : Time;
  bs_ExpiresAt : Time;
  bs_BwrapArgs : list string }.
Record StatusResponse := {
  st_IsolationTier : string;
  st_TierReason : string;
  st_Bound : bool;
  st_SandboxID : string;
  st_ExpiresAt : option Time;
  st_StartedAt : Time }.

Definition ControlTokenHeader : string := "X-Jdix-Control-Token".

(** The uniform error body, and its rendering as a Go error. *)
Record Error := { err_Code : string; err_Message : string }.
Definition Error_string (e : Error) : string := err_Code e +:+ ": " +:+ err_Message e.

(** ** exec.go *)

Record ExecRequest := {
  ex_Cmd : string;
  ex_Argv : list string;
  ex_Cwd : string;
  ex_Env : gmap string string;
  ex_TimeoutSeconds : Z;
  ex_MaxOutputBytes : Z }.
Record ExecResult := {
  er_ExitCode : Z;
  er_Stdout : string;
  er_Stderr : string;
  er_DurationMs : Z;
  er_Truncated : bool;
  er_TimedOut : bool }.
Record Process := {
  p_PID : Z; p_Cmd : string; p_Started : string; p_Running : bool }.
Record FileInfo := {
  fi_Name : string;
  fi_Path : string;
  fi_Size : Z;
  fi_Mode : string;
  fi_IsDir : bool;
  fi_Modified : string;
  fi_Symlink : bool }.
Record Root := { root_Path : string; root_ReadOnly : bool }.
Record ConfigureRequest := {
  cf_SandboxID : string;
  cf_Env : gmap string string;
  cf_Secrets : gmap string string;
  cf_Roots : list Root;
  cf_Workspace : string }.

(** ** wsframe.go *)

Record Frame := {
  fr_T : string; fr_D : string; fr_Seq : Z;
  fr_Cols : Z; fr_Rows : Z; fr_Sig : string; fr_Code : Z;
  fr_DurationMs : Z; fr_ErrCode : string; fr_Msg : string }.
Definition FrameStdin : string := "stdin".
Definition FrameStdout : string := "stdout".
Definition FrameStderr : string := "stderr".
Definition FrameResize : string := "resize".
Definition FrameSignal : string := "signal".
Definition FrameExit : string := "exit".
Definition FrameError : string := "error".
Definition FramePing : string := "ping".
Definition FramePong : string := "pong".
Definition FrameEvent : string := "event".
Definition PingIntervalSeconds : Z := 30.

(** ** Decidable equality *)

#[export] Instance Workspace_eq_dec : EqDecision Workspace.
Proof. solve_decision. Defined.
#[export] Instance MountSource_eq_dec : EqDecision MountSource.
Proof. solve_decision. Defined.
#[export] Instance Mount_eq_dec : EqDecision Mount.
Proof. solve_decision. Defined.
#[export] Instance FilesystemSpec_eq_dec : EqDecision FilesystemSpec.
Proof. solve_decision. Defined.
#[export] Instance BindRequest_eq_dec : EqDecision BindRequest.
Proof. solve_decision. Defined.
#[export] Instance Error_eq_dec : EqDecision Error.
Proof. solve_decision. Defined.
#[export] Instance Root_eq_dec : EqDecision Root.
Proof. solve_decision. Defined.
