(* ===== verification/Bwrap.v ===== *)
(** * Package bwrap: from an untrusted filesystem spec to a bubblewrap argv

    [layout.go] (tiers, layout, policy), [validate.go] ([Validate] and its
    helpers) and [generate.go] ([Generate], [orderedMounts], [itoa]).  The only
    call out of the package is [os.Stat] behind [isDir], a parameter. *)
From S2P Require Import Prelude GoStrings Api.
Open Scope string_scope.

(** ** layout.go *)

Definition Tier := string.
Definition TierFilesystem : Tier := "filesystem".
Definition TierUserns : Tier := "userns".
Definition TierCapAdmin : Tier := "capadmin".
Definition TierChroot : Tier := "chroot".

Definition Rank (t : Tier) : Z :=
  if decide (t = TierUserns) then 3
  else if decide (t = TierCapAdmin) then 2
  else if decide (t = TierChroot) then 1
  else 0.

Definition AtLeast (t min : Tier) : bool :=
  if bool_decide (t = TierFilesystem) || bool_decide (min = TierFilesystem)
  then bool_decide (t = min)
  else (0 <? Rank t)%Z && (0 <? Rank min)%Z && (Rank min <=? Rank t)%Z.

Record Layout := {
  BinDir : string;
  SkelDir : string;
  WorkspaceDir : string;
  VolumeRoot : string;
  IPCDir : string;
  IPCMount : string;
  InitTarget : string }.

Definition DefaultLayout : Layout :=
  {| BinDir := "/opt/jdix/bin";
     SkelDir := "/var/lib/jdix/skel";
     WorkspaceDir := "/var/lib/jdix/workspace";
     VolumeRoot := "/var/lib/jdix/vol";
     IPCDir := "/var/lib/jdix/ipc";
     IPCMount := "/run/jdix";
     InitTarget := "/jdix-init" |}.

Definition PlatformRoot : string := "/opt/jdix".
Definition StateRoot : string := "/var/lib/jdix".

Definition DefaultSystemPaths : list string :=
  ["/usr"; "/bin"; "/sbin"; "/lib"; "/lib64";
   "/etc/ssl"; "/etc/ca-certificates"; "/etc/alternatives"].

Definition MaxMounts : Z := 32.

Record Policy := {
  SourceFDs : gmap string Z;
  pTier : Tier;
  UID : Z;
  GID : Z;
  Hostname : string;
  pMaxMounts : Z;
  SystemAllowlist : list string;
  Volumes : gmap string string;
  IsDirFunc : option (string -> bool) }.

Definition DefaultPolicy (tier : Tier) : Policy :=
  {| SourceFDs := ∅;
     pTier := tier;
     UID := 1000;
     GID := 1000;
     Hostname := "sandbox";
     pMaxMounts := MaxMounts;
     SystemAllowlist := DefaultSystemPaths;
     Volumes := ∅;
     IsDirFunc := None |}.

(** ** validate.go *)

Record ValidationError := { Field : string; Value : string; Reason : string }.
Definition ValidationError_string (e : ValidationError) : string :=
  Field e +:+ " " +:+ quote (Value e) +:+ ": " +:+ Reason e.
Definition verr (field value reason : string) : ValidationError :=
  {| Field := field; Value := value; Reason := reason |}.

Definition nul : ascii := "000"%char.

Definition isAbsClean (p : string) : bool :=
  if bool_decide (p = "") || negb (has_prefix p "/") then false
  else if contains_byte p nul then false
  else if existsb (fun seg => bool_decide (seg = "..") || bool_decide (seg = "."))
            (split slash p) then false
  else bool_decide (clean p = p).

Definition contains (parent child : string) : bool :=
  if decide (parent = child) then true
  else if decide (parent = "/") then true
  else has_prefix child (parent +:+ "/").

Definition overlaps (a b : string) : bool := contains a b || contains b a.

Definition protectedTargets (l : Layout) : list string :=
  ["/proc"; "/dev"; PlatformRoot; StateRoot; IPCMount l; InitTarget l;
   "/etc/passwd"; "/etc/group"; "/etc/resolv.conf"].

Definition workspacePath (spec : FilesystemSpec) : string :=
  if bool_decide (ws_Path (fs_Workspace spec) = "") then DefaultWorkspacePath
  else ws_Path (fs_Workspace spec).

Definition shadowable (p : Policy) (spec : FilesystemSpec) : list string :=
  (SystemAllowlist p ++ [workspacePath spec])%list.

Definition sortedKeys (m : gset string) : list string :=
  sort_by str_ltb (elements m).

Definition validateSubPath (field sub : string) : result ValidationError unit :=
  if bool_decide (sub = "") then Ok tt
  else guard negb (has_prefix sub "/")
         else verr field sub "must be relative to the volume root" ;;
       guard negb (contains_byte sub nul)
         else verr field sub "must not contain NUL" ;;
       guard negb (existsb (fun seg => bool_decide (seg = "..")) (split slash sub))
         else verr field sub "must not contain '..' segments" ;;
       guard bool_decide (clean sub = sub)
         else verr field sub "must be in canonical form" ;;
       Ok tt.

(** [fmt.Sprintf("<name>[%d]<rest>", i)] *)
Definition indexed (name : string) (i : nat) (rest : string) : string :=
  name +:+ "[" +:+ itoa (Z.of_nat i) +:+ "]" +:+ rest.

(** The [for _, prot := range protectedTargets] and [for _, sh := range
    shadowable] loops: return the error of the first hit. *)
Definition reject_first (bad : string -> bool) (xs : list string)
    (err : string -> ValidationError) : result ValidationError unit :=
  match List.find bad xs with
  | Some x => Err (err x)
  | None => Ok tt
  end.

Definition not_canonical : string :=
  "must be an absolute, canonical path with no '.' or '..' segments".

(** One iteration of the loop over [spec.Mounts]; [seen] is the set of targets
    of the earlier iterations. *)
Definition validateMount (p : Policy) (l : Layout) (sh : list string)
    (seen : gset string) (i : nat) (m : Mount) : result ValidationError unit :=
  let field := indexed "filesystem.mounts" i ".path" in
  let sf := indexed "filesystem.mounts" i ".source" in
  let path := m_Path m in
  guard isAbsClean path else verr field path not_canonical ;;
  guard negb (bool_decide (path = "/"))
    else verr field path "must not be the root directory" ;;
  guard negb (bool_decide (path ∈ seen))
    else verr field path "duplicate mount target" ;;
  let? _ := reject_first (overlaps path) (protectedTargets l)
              (fun prot => verr field path ("overlaps platform path " +:+ prot)) in
  let? _ := reject_first (contains path) sh
              (fun s => verr field path ("would replace " +:+ s +:+ "; mount inside it instead")) in
  guard negb (bool_decide (src_Volume (m_Source m) = ""))
    else verr (sf +:+ ".volume") "" "must name a volume declared by the SandboxTemplate" ;;
  guard bool_decide (is_Some (Volumes p !! src_Volume (m_Source m)))
    else verr (sf +:+ ".volume") (src_Volume (m_Source m))
           "not declared by the SandboxTemplate; templates may only mount volumes they declare" ;;
  validateSubPath (sf +:+ ".subPath") (src_SubPath (m_Source m)).

Fixpoint validateMounts (p : Policy) (l : Layout) (sh : list string)
    (seen : gset string) (i : nat) (ms : list Mount) : result ValidationError unit :=
  match ms with
  | [] => Ok tt
  | m :: ms' =>
      let? _ := validateMount p l sh seen i m in
      validateMounts p l sh ({[m_Path m]} ∪ seen) (S i) ms'
  end.

(** [for j, m := range spec.Mounts { if contains(h, m.Path) { return … } }] *)
Fixpoint first_hidden (h : string) (j : nat) (ms : list Mount) : option (nat * Mount) :=
  match ms with
  | [] => None
  | m :: ms' => if contains h (m_Path m) then Some (j, m) else first_hidden h (S j) ms'
  end.

Definition validateHide (l : Layout) (ws : string) (ms : list Mount)
    (sh : list string) (i : nat) (h : string) : result ValidationError unit :=
  let field := indexed "filesystem.hide" i "" in
  guard isAbsClean h else verr field h "must be an absolute, canonical path" ;;
  match first_hidden h 0 ms with
  | Some (j, m) =>
      Err (verr field h ("would hide " +:+ indexed "filesystem.mounts" j ".path "
                         +:+ quote (m_Path m)))
  | None =>
      guard negb (contains h ws)
        else verr field h ("would hide the workspace at " +:+ ws) ;;
      guard negb (bool_decide (h = "/"))
        else verr field h "must not be the root directory" ;;
      let? _ := reject_first (overlaps h) (protectedTargets l)
                  (fun prot => verr field h ("overlaps platform path " +:+ prot)) in
      reject_first (contains h) sh
        (fun s => verr field h ("would hide all of " +:+ s))
  end.

Definition validateSystemPath (allowed : gset string) (sp : string)
  : result ValidationError unit :=
  guard isAbsClean sp
    else verr "filesystem.allowSystemPaths" sp "must be an absolute, canonical path" ;;
  guard bool_decide (sp ∈ allowed)
    else verr "filesystem.allowSystemPaths" sp
           ("not in the platform allowlist (" +:+ join ", " (sortedKeys allowed) +:+ ")") ;;
  Ok tt.

Definition Validate (p : Policy) (spec : FilesystemSpec) (l : Layout)
  : result ValidationError unit :=
  let mounts := fs_Mounts spec in
  guard negb (bool_decide (pTier p = TierChroot) && (0 <? length mounts)%nat)
    else verr "filesystem.mounts" ""
      "isolation tier 'chroot' has no mount namespace; spec.mounts is unsupported on this node (DESIGN.md §04.4)" ;;
  let ws := workspacePath spec in
  guard isAbsClean ws else verr "filesystem.workspace.path" ws not_canonical ;;
  guard negb (bool_decide (ws = "/"))
    else verr "filesystem.workspace.path" ws "must not be the root directory" ;;
  let? _ := reject_first (overlaps ws) (protectedTargets l)
              (fun prot => verr "filesystem.workspace.path" ws
                             ("overlaps platform path " +:+ prot)) in
  let max := if (pMaxMounts p <=? 0)%Z then MaxMounts else pMaxMounts p in
  guard (Z.of_nat (length mounts) <=? max)%Z
    else verr "filesystem.mounts" (itoa (Z.of_nat (length mounts)))
           ("at most " +:+ itoa max +:+ " mounts are allowed") ;;
  let allowed : gset string := list_to_set (SystemAllowlist p) in
  let? _ := iter_err (fun _ => validateSystemPath allowed) 0 (fs_AllowSystemPaths spec) in
  let sh := shadowable p spec in
  let? _ := validateMounts p l sh ∅ 0 mounts in
  iter_err (validateHide l ws mounts sh) 0 (fs_Hide spec).

(** ** generate.go *)

Definition InitSocketName : string := "init.sock".

(** The package's own [itoa]: the digits are taken from the negated number,
    which wraps around for the least 64-bit integer. *)
Definition bw_itoa (n : Z) : string :=
  if (n =? 0)%Z then "0"
  else
    let neg := (n <? 0)%Z in
    let m := if neg then int64 (- n) else n in
    let b := digits 20 m "" in
    if neg then "-" +:+ b else b.

Definition mount_less (a b : Mount) : bool :=
  let da := count_byte (m_Path a) slash in
  let db := count_byte (m_Path b) slash in
  if negb (da =? db)%nat then (da <? db)%nat else str_ltb (m_Path a) (m_Path b).

Definition orderedMounts (mounts : list Mount) : list Mount := sort_by mount_less mounts.

Inductive GenerateError :=
| EInvalid (e : ValidationError)
| ENotPinned (path : string).

Section Generate.
(** [os.Stat(target)] succeeded and the entry is a directory. *)
Variable stat_is_dir : string -> bool.

Definition isDir (p : Policy) (target : string) : bool :=
  match IsDirFunc p with
  | Some f => f target
  | None => stat_is_dir target
  end.

Definition mountSource (p : Policy) (m : Mount) : string :=
  path_join [default "" (Volumes p !! src_Volume (m_Source m));
             src_SubPath (m_Source m)].

Definition mountArgs (p : Policy) (m : Mount) : result GenerateError (list string) :=
  match SourceFDs p !! m_Path m with
  | Some fd =>
      if m_ReadOnly m then Ok ["--ro-bind-fd"; bw_itoa fd; m_Path m]
      else Ok ["--bind-fd"; bw_itoa fd; m_Path m]
  | None =>
      if bool_decide (pTier p = TierFilesystem) then Err (ENotPinned (m_Path m))
      else if m_ReadOnly m then Ok ["--ro-bind"; mountSource p m; m_Path m]
      else Ok ["--bind"; mountSource p m; m_Path m]
  end.

Fixpoint mountsArgs (p : Policy) (ms : list Mount) : result GenerateError (list string) :=
  match ms with
  | [] => Ok []
  | m :: ms' =>
      let? a := mountArgs p m in
      let? rest := mountsArgs p ms' in
      Ok (a ++ rest)%list
  end.

Definition hideArgs (p : Policy) (h : string) : list string :=
  if isDir p h then ["--tmpfs"; h] else ["--ro-bind"; "/dev/null"; h].

Definition namespaceArgs (p : Policy) : list string :=
  let own_userns := bool_decide (pTier p = TierUserns) || bool_decide (pTier p = TierFilesystem) in
  let fs := bool_decide (pTier p = TierFilesystem) in
  ((if own_userns then ["--unshare-user"] else []) ++
   (if fs then []
    else ["--unshare-ipc"; "--unshare-pid"; "--unshare-uts"; "--unshare-cgroup-try"]) ++
   (if own_userns then ["--uid"; bw_itoa (UID p); "--gid"; bw_itoa (GID p)] else []) ++
   (if negb (bool_decide (Hostname p = "")) && negb fs
    then ["--hostname"; Hostname p] else []))%list.

Definition systemArgs (spec : FilesystemSpec) (p : Policy) (l : Layout) : list string :=
  let sys := match fs_AllowSystemPaths spec with
             | [] => SystemAllowlist p
             | sys => sys
             end in
  (concat (map (fun s => ["--ro-bind-try"; s; s]) sys) ++
   ["--ro-bind"; path_join [SkelDir l; "passwd"]; "/etc/passwd";
    "--ro-bind"; path_join [SkelDir l; "group"]; "/etc/group";
    "--ro-bind"; path_join [SkelDir l; "resolv.conf"]; "/etc/resolv.conf"] ++
   (if bool_decide (pTier p = TierFilesystem)
    then ["--ro-bind"; "/proc"; "/proc"; "--cap-drop"; "ALL"]
    else ["--proc"; "/proc"]) ++
   ["--dev"; "/dev"; "--tmpfs"; "/tmp"; "--tmpfs"; "/run"; "--tmpfs"; "/home";
    "--ro-bind"; path_join [BinDir l; "jdix-init"]; InitTarget l;
    "--bind"; IPCDir l; IPCMount l])%list.

Definition processArgs (ws : string) (p : Policy) : list string :=
  (["--chdir"; ws;
    "--clearenv";
    "--setenv"; "HOME"; "/home";
    "--setenv"; "PATH"; "/usr/local/sbin:/usr/local/bin:/usr/sbin:/usr/bin:/sbin:/bin";
    "--setenv"; "TERM"; "xterm-256color";
    "--setenv"; "JDIX_SANDBOX"; "1";
    "--die-with-parent";
    "--new-session"] ++
   (if bool_decide (pTier p = TierFilesystem) then [] else ["--as-pid-1"]))%list.

Definition initArgs (ws : string) (p : Policy) (l : Layout) : list string :=
  ([InitTarget l;
    "--socket"; path_join [IPCMount l; InitSocketName];
    "--workspace"; ws] ++
   (if bool_decide (pTier p = TierUserns) || bool_decide (pTier p = TierFilesystem) then []
    else ["--drop-to"; bw_itoa (UID p) +:+ ":" +:+ bw_itoa (GID p)]) ++
   (if bool_decide (pTier p = TierFilesystem) then ["--subreaper"] else []))%list.

Definition Generate (spec : FilesystemSpec) (p : Policy) (l : Layout)
  : result GenerateError (list string) :=
  match Validate p spec l with
  | Err e => Err (EInvalid e)
  | Ok _ =>
      let ws := workspacePath spec in
      let? mounts := mountsArgs p (orderedMounts (fs_Mounts spec)) in
      Ok (namespaceArgs p ++ systemArgs spec p l ++
          ["--bind"; WorkspaceDir l; ws] ++ mounts ++
          concat (map (hideArgs p) (fs_Hide spec)) ++
          processArgs ws p ++ "--" :: initArgs ws p l)%list
  end.
End Generate.

(** ** Canonical paths and containment *)

(** The segments a canonical path is made of. *)
Definition good_seg (s : string) : Prop := plain_seg s /\ no_byte slash s /\ no_byte nul s.
Definition canonical (p : string) : Prop := exists segs, p = render segs /\ Forall good_seg segs.

Lemma good_segs_path segs : Forall good_seg segs -> path_segs segs.
Proof. apply List.Forall_impl. by intros ? (? & ? & ?). Qed.
Lemma good_segs_no_nul segs : Forall good_seg segs -> Forall (no_byte nul) segs.
Proof. apply List.Forall_impl. by intros ? (? & ? & ?). Qed.
Lemma contains_byte_false s c : contains_byte s c = false <-> no_byte c s.
Proof.
  unfold contains_byte. rewrite <-index_byte_none. by destruct (index_byte s c).
Qed.
Lemma canonical_abs p : canonical p -> has_prefix p "/" = true.
Proof.
  intros (segs & -> & _). unfold render. rewrite slash_app. cbn.
  by destruct (join "/" segs).
Qed.
Lemma split_render segs x : x ∈ split slash (render segs) ->
  Forall (no_byte slash) segs -> x = "" \/ x ∈ segs.
Proof.
  intros Hx Hs. unfold render in Hx. rewrite slash_app, split_slash_cons in Hx.
  apply elem_of_cons in Hx as [->|Hx]; [by left|].
  destruct segs as [|y segs]; [apply list_elem_of_singleton in Hx; by left|].
  rewrite split_join in Hx by done. by right.
Qed.

Lemma isAbsClean_canonical p : isAbsClean p = true <-> canonical p.
Proof.
  unfold isAbsClean. split.
  - destruct (has_prefix p "/") eqn:Ha; [|by rewrite orb_true_r].
    case_bool_decide; [done|]. cbn [orb negb].
    destruct (contains_byte p nul) eqn:Hn; [done|].
    destruct (existsb _ _) eqn:He; [done|]. intros Hc. bool_to_prop.
    apply contains_byte_false in Hn.
    destruct (clean_rooted p Ha) as (segs & E & Hs & Hsub). rewrite Hc in E.
    exists segs. split; [done|]. rewrite E in Hn. unfold render in Hn.
    rewrite no_byte_app, no_byte_join in Hn by done. destruct Hn as [_ Hn].
    unfold path_segs in Hs. rewrite Forall_forall in *. intros x Hx.
    destruct (Hs x Hx) as [? ?]. split; [done|]. split; auto.
  - intros H. pose proof (canonical_abs p H) as Ha. destruct H as (segs & -> & H).
    rewrite Ha, bool_decide_eq_false_2 by (intros E; by rewrite E in Ha). cbn [orb negb].
    assert (contains_byte (render segs) nul = false) as ->.
    { apply contains_byte_false. unfold render. rewrite no_byte_app.
      split; [split; done|]. rewrite no_byte_join by done. by apply good_segs_no_nul. }
    pose proof (good_segs_path _ H) as Hp.
    destruct (existsb _ _) eqn:He.
    + apply existsb_elem in He as (x & Hx & Hb).
      apply split_render in Hx; [|by apply path_segs_no_slash].
      unfold path_segs in Hp. rewrite Forall_forall in Hp. destruct Hx as [->|Hx]; [done|].
      destruct (Hp x Hx) as [(_ & H2 & H3) _].
      rewrite !bool_decide_eq_false_2 in Hb by done. done.
    + apply bool_decide_eq_true. by apply clean_render.
Qed.

Lemma contains_spec a b :
  contains a b = true <-> a = b \/ a = "/" \/ exists t, b = a +:+ "/" +:+ t.
Proof.
  unfold contains. destruct (decide (a = b)) as [->|H1]; [tauto|].
  destruct (decide (a = "/")) as [->|H2]; [tauto|].
  rewrite has_prefix_spec. setoid_rewrite app_assoc_str. tauto.
Qed.
Lemma contains_refl a : contains a a = true.
Proof. apply contains_spec. by left. Qed.

Lemma has_prefix_trans_eq a b x :
  (exists t, x = a +:+ t) -> (exists t, x = b +:+ t) ->
  (exists t, b = a +:+ t) \/ (exists t, a = b +:+ t).
Proof.
  intros [t ->]. revert b. induction a as [|c a IH]; intros b [u Hu]; [left; by exists b|].
  destruct b as [|d b]; [right; by eexists|]. cbn in Hu. injection Hu as -> Hu.
  destruct (IH b (ex_intro _ u Hu)) as [[v ->]|[v ->]]; [left|right]; by exists v.
Qed.
Lemma app_last_slash a t b :
  a +:+ "/" = (b +:+ "/") +:+ t -> a = b \/ exists u, a = b +:+ "/" +:+ u.
Proof.
  revert b t. induction a as [|c a IH]; intros b t H.
  - destruct b as [|d b]; [by left|]. cbn in H. injection H as -> H. by destruct b.
  - destruct b as [|d b].
    + cbn in H. injection H as -> H. right. exists a. done.
    + cbn in H. injection H as -> H.
      destruct (IH b t H) as [->|[u ->]]; [by left|right; by exists u].
Qed.

(** Two paths that both contain a third are comparable. *)
Lemma contains_comparable a b x :
  contains a x = true -> contains b x = true ->
  contains a b = true \/ contains b a = true.
Proof.
  rewrite !contains_spec. intros [->|[->|[t Ht]]] Hb; [tauto|tauto|].
  destruct Hb as [->|[->|[u Hu]]]; [left; eauto|tauto|].
  destruct (has_prefix_trans_eq (a +:+ "/") (b +:+ "/") x) as [[v Hv]|[v Hv]].
  - exists t. by rewrite app_assoc_str.
  - exists u. by rewrite app_assoc_str.
  - apply app_last_slash in Hv as [->|?]; eauto.
  - apply app_last_slash in Hv as [->|?]; eauto.
Qed.
Lemma contains_trans a b c :
  b <> "/" -> contains a b = true -> contains b c = true -> contains a c = true.
Proof.
  rewrite !contains_spec. intros Hb [->|[->|[t ->]]]; [tauto|tauto|].
  intros [Hc|[Hc|[u Hc]]]; [subst c; eauto|done|subst c].
  right. right. exists (t +:+ "/" +:+ u). by rewrite !app_assoc_str.
Qed.

(** A path free of both overlaps with [prot] reaches nothing beneath it. *)
Lemma overlaps_false_beneath a prot x :
  overlaps a prot = false -> contains prot x = true -> contains a x = false.
Proof.
  intros H Hx. unfold overlaps in H. bool_to_prop.
  destruct (contains a x) eqn:E; [|done].
  destruct (contains_comparable _ _ _ E Hx); congruence.
Qed.

(** ** What [Validate] accepts *)

Lemma reject_first_ok bad xs err :
  reject_first bad xs err = Ok tt <-> forall x, x ∈ xs -> bad x = false.
Proof.
  unfold reject_first. rewrite <-find_none_elem. by destruct (List.find bad xs).
Qed.

Definition subpath_ok (sub : string) : Prop :=
  sub = "" \/ sub = "." \/
  exists segs, segs <> [] /\ sub = join "/" segs /\ Forall good_seg segs.

Lemma clean_relative sub :
  sub <> "" -> has_prefix sub "/" = false -> ".." ∉ split slash sub ->
  clean sub = match filter plain_seg (split slash sub) with
              | [] => "." | segs => join "/" segs end.
Proof.
  intros H1 H2 H3. unfold clean. rewrite bool_decide_eq_false_2, H2 by done.
  rewrite clean_segs_no_dotdot by done. cbn. by destruct (filter _ _).
Qed.
Lemma good_segs_relative segs :
  Forall good_seg segs -> segs <> [] ->
  join "/" segs <> "" /\ has_prefix (join "/" segs) "/" = false.
Proof.
  intros H Hn. destruct segs as [|x segs]; [done|].
  inversion_clear H as [|? ? ((Hx & _) & Hs & _) _].
  destruct x as [|c x]; [done|]. destruct Hs as [Hc _].
  assert (exists t, join "/" (String c x :: segs) = String c t) as [t ->].
  { destruct segs; eexists; [done|]. by rewrite join_cons. }
  split; [done|]. cbn. destruct (ascii_dec "/" c) as [E|]; [|done].
  exfalso. apply Hc. by rewrite <-E.
Qed.

Lemma existsb_dotdot segs :
  existsb (fun seg => bool_decide (seg = "..")) segs = false <-> ".." ∉ segs.
Proof.
  rewrite <-not_true_iff_false, existsb_elem. split.
  - intros H Hin. apply H. exists "..". by rewrite bool_decide_eq_true.
  - intros H (x & Hx & Hb). apply bool_decide_eq_true in Hb. by subst.
Qed.
Lemma validateSubPath_ok field sub :
  validateSubPath field sub = Ok tt <-> subpath_ok sub.
Proof.
  unfold validateSubPath, subpath_ok. case_bool_decide as Hs; [tauto|].
  rewrite !guard_ok, !negb_true_iff, bool_decide_eq_true, existsb_dotdot, contains_byte_false.
  split.
  - intros (H1 & H2 & H3 & H4 & _). rewrite clean_relative in H4 by done. right.
    destruct (filter _ _) as [|x segs] eqn:E; [by left|]. right.
    exists (x :: segs). split; [done|]. split; [done|].
    rewrite <-H4 in H2. rewrite no_byte_join, Forall_forall in H2 by done.
    apply Forall_forall. intros y Hy. split; [|split; [|by auto]].
    + rewrite <-E in Hy. by apply list_elem_of_filter in Hy as [? _].
    + rewrite <-E in Hy. apply list_elem_of_filter in Hy as [_ Hy].
      pose proof (split_segs_no_byte slash sub) as Hno.
      rewrite Forall_forall in Hno. by apply Hno.
  - intros [->|[->|(segs & Hn & -> & H)]]; [done| |].
    { split; [done|]. split; [done|]. split; [|done].
      change (split slash ".") with ["."]. by rewrite list_elem_of_singleton. }
    destruct (good_segs_relative segs H Hn) as [_ Hp].
    pose proof (good_segs_path _ H) as Hseg. pose proof (path_segs_plain _ Hseg) as Hpl.
    assert (Hsp : split slash (join "/" segs) = segs)
      by (apply split_join; [done|by apply path_segs_no_slash]).
    assert (Hd : ".." ∉ split slash (join "/" segs))
      by (rewrite Hsp; by apply plain_no_dotdot).
    split; [done|]. split; [by apply no_byte_join, good_segs_no_nul|].
    split; [done|]. split; [|done].
    rewrite clean_relative, Hsp, filter_plain by done. by destruct segs.
Qed.

Definition avoids_platform (l : Layout) (path : string) : Prop :=
  forall prot, prot ∈ protectedTargets l -> overlaps path prot = false.
Definition replaces_none (sh : list string) (path : string) : Prop :=
  forall s, s ∈ sh -> contains path s = false.

Definition mount_ok (p : Policy) (l : Layout) (sh : list string) (m : Mount) : Prop :=
  canonical (m_Path m) /\ m_Path m <> "/" /\
  avoids_platform l (m_Path m) /\ replaces_none sh (m_Path m) /\
  src_Volume (m_Source m) <> "" /\ is_Some (Volumes p !! src_Volume (m_Source m)) /\
  subpath_ok (src_SubPath (m_Source m)).

Lemma validateMount_ok p l sh seen i m :
  validateMount p l sh seen i m = Ok tt <-> mount_ok p l sh m /\ m_Path m ∉ seen.
Proof.
  unfold validateMount, mount_ok, avoids_platform, replaces_none.
  rewrite !guard_ok, !seq_ok, !guard_ok, !reject_first_ok, validateSubPath_ok.
  rewrite !negb_true_iff, !bool_decide_eq_false, bool_decide_eq_true, isAbsClean_canonical.
  tauto.
Qed.
Lemma validateMounts_ok p l sh seen i ms :
  validateMounts p l sh seen i ms = Ok tt <->
  Forall (mount_ok p l sh) ms /\ NoDup (map m_Path ms) /\
  (forall m, m ∈ ms -> m_Path m ∉ seen).
Proof.
  revert seen i. induction ms as [|m ms IH]; intros seen i; cbn [validateMounts map].
  - rewrite Forall_nil. split; [|done]. intros _. split; [done|]. split; [constructor|].
    by intros m ?%elem_of_nil.
  - rewrite seq_ok, validateMount_ok, IH, Forall_cons, NoDup_cons.
    setoid_rewrite elem_of_cons. setoid_rewrite list_elem_of_fmap.
    setoid_rewrite not_elem_of_union. setoid_rewrite not_elem_of_singleton.
    split.
    + intros ((H1 & H2) & H3 & H4 & H5). split; [done|]. split; [split; [|done]|].
      * intros (m' & E & Hin). by destruct (H5 m' Hin).
      * intros m' [->|Hin]; [done|]. by apply H5.
    + intros ((H1 & H2) & (H3 & H4) & H5). split; [split; [done|by apply H5; left]|].
      split; [done|]. split; [done|]. intros m' Hin. split; [|by apply H5; right].
      intros E. apply H3. eauto.
Qed.

Lemma first_hidden_none h j ms :
  first_hidden h j ms = None <-> forall m, m ∈ ms -> contains h (m_Path m) = false.
Proof.
  revert j. induction ms as [|m ms IH]; intros j; cbn [first_hidden].
  - split; [by intros _ m ?%elem_of_nil|done].
  - setoid_rewrite elem_of_cons. destruct (contains h (m_Path m)) eqn:E.
    + split; [done|]. intros H. rewrite (H m) in E by tauto. done.
    + rewrite IH. split; [by intros H m' [->|?]; auto|auto].
Qed.

Definition hide_ok (l : Layout) (ws : string) (ms : list Mount) (sh : list string)
    (h : string) : Prop :=
  canonical h /\ (forall m, m ∈ ms -> contains h (m_Path m) = false) /\
  contains h ws = false /\ h <> "/" /\ avoids_platform l h /\ replaces_none sh h.

Lemma validateHide_ok l ws ms sh i h :
  validateHide l ws ms sh i h = Ok tt <-> hide_ok l ws ms sh h.
Proof.
  unfold validateHide, hide_ok, avoids_platform, replaces_none.
  rewrite guard_ok, isAbsClean_canonical. rewrite <-(first_hidden_none h 0).
  destruct (first_hidden h 0 ms) as [[j m]|]; [split; [by intros []|by intros (? & [=] & _)]|].
  rewrite !guard_ok, seq_ok, !reject_first_ok, !negb_true_iff, bool_decide_eq_false. tauto.
Qed.
Lemma validateSystemPath_ok allowed sp :
  validateSystemPath allowed sp = Ok tt <-> canonical sp /\ sp ∈ allowed.
Proof.
  unfold validateSystemPath. rewrite !guard_ok, isAbsClean_canonical, bool_decide_eq_true. tauto.
Qed.
Lemma iter_err_Forall {A} (f : nat -> A -> result ValidationError unit) (P : A -> Prop) n xs :
  (forall i x, f i x = Ok tt <-> P x) -> iter_err f n xs = Ok tt <-> Forall P xs.
Proof.
  intros Hf. rewrite iter_err_ok, Forall_lookup. setoid_rewrite Hf. done.
Qed.

(** The number of mounts allowed: the policy's, or the platform's. *)
Definition mount_limit (p : Policy) : Z :=
  if (pMaxMounts p <=? 0)%Z then MaxMounts else pMaxMounts p.

(** The specification [Validate] decides. *)
Record spec_ok (p : Policy) (spec : FilesystemSpec) (l : Layout) : Prop := {
  ok_chroot : pTier p = TierChroot -> fs_Mounts spec = [];
  ok_workspace : canonical (workspacePath spec) /\ workspacePath spec <> "/" /\
                 avoids_platform l (workspacePath spec);
  ok_count : (Z.of_nat (length (fs_Mounts spec)) <= mount_limit p)%Z;
  ok_system : Forall (fun sp => canonical sp /\ sp ∈ SystemAllowlist p) (fs_AllowSystemPaths spec);
  ok_mounts : Forall (mount_ok p l (shadowable p spec)) (fs_Mounts spec);
  ok_nodup : NoDup (map m_Path (fs_Mounts spec));
  ok_hides : Forall (hide_ok l (workspacePath spec) (fs_Mounts spec) (shadowable p spec))
               (fs_Hide spec) }.

Lemma Validate_iff p spec l : Validate p spec l = Ok tt <-> spec_ok p spec l.
Proof.
  unfold Validate. rewrite !guard_ok, seq_ok, guard_ok, !seq_ok.
  rewrite reject_first_ok, validateMounts_ok, !negb_true_iff, !bool_decide_eq_false.
  rewrite isAbsClean_canonical, Z.leb_le, andb_false_iff, bool_decide_eq_false, Nat.ltb_ge.
  rewrite (iter_err_Forall _ _ _ (fs_AllowSystemPaths spec)
             (fun i x => validateSystemPath_ok (list_to_set (SystemAllowlist p)) x)).
  rewrite (iter_err_Forall _ _ _ (fs_Hide spec)
             (validateHide_ok l (workspacePath spec) (fs_Mounts spec) (shadowable p spec))).
  assert (Hs : Forall (fun sp => canonical sp /\ sp ∈ (list_to_set (SystemAllowlist p) : gset string))
                 (fs_AllowSystemPaths spec)
               <-> Forall (fun sp => canonical sp /\ sp ∈ SystemAllowlist p) (fs_AllowSystemPaths spec)).
  { apply Forall_iff. intros x. by rewrite elem_of_list_to_set. }
  rewrite Hs. unfold avoids_platform, mount_limit. split.
  - intros (H1 & H2 & H3 & H4 & H5 & H6 & (H7 & H8 & _) & H9). constructor; try done.
    intros Hc. destruct H1 as [?|H1]; [done|].
    apply Nat.le_0_r in H1. by apply length_zero_iff_nil in H1.
  - intros [H1 (H2 & H3 & H4) H5 H6 H7 H8 H9]. split_and!; try done.
    + destruct (decide (pTier p = TierChroot)) as [E|]; [|by left].
      right. by rewrite (H1 E).
Qed.

(** C16: [Validate] accepts a spec exactly when every path in it is canonical,
    mounts are distinct, within the limit, name a declared volume and a sub-path
    without traversal, and neither mounts nor hides nor the workspace touch a
    platform path, an ancestor of one, or replace a shadowable path. *)
Theorem Validate_exact p spec l : Validate p spec l = Ok tt <-> spec_ok p spec l.
Proof. apply Validate_iff. Qed.

(** ** The order the mounts are applied in *)

Lemma str_ltb_neg_trans x y z :
  str_ltb y x = false -> str_ltb z y = false -> str_ltb z x = false.
Proof.
  intros H1 H2. destruct (str_ltb z x) eqn:H3; [|done].
  destruct (str_ltb y z) eqn:H4; [by rewrite (str_ltb_trans _ _ _ H4 H3) in H1|].
  rewrite (str_ltb_total _ _ H4 H2) in H1. congruence.
Qed.
Lemma str_ltb_asym x y : str_ltb x y = true -> str_ltb y x = false.
Proof.
  intros H. destruct (str_ltb y x) eqn:E; [|done].
  pose proof (str_ltb_irrefl x) as Hi. by rewrite (str_ltb_trans _ _ _ H E) in Hi.
Qed.

Definition depth (m : Mount) : nat := count_byte (m_Path m) slash.

Lemma mount_less_spec a b :
  mount_less a b = true <->
  (depth a < depth b)%nat \/ depth a = depth b /\ str_ltb (m_Path a) (m_Path b) = true.
Proof.
  unfold mount_less. fold (depth a) (depth b).
  destruct (Nat.eqb_spec (depth a) (depth b)); cbn [negb].
  - intuition lia.
  - rewrite Nat.ltb_lt. intuition lia.
Qed.
Lemma mount_less_false a b :
  mount_less a b = false <->
  (depth b < depth a)%nat \/ depth a = depth b /\ str_ltb (m_Path a) (m_Path b) = false.
Proof.
  unfold mount_less. fold (depth a) (depth b).
  destruct (Nat.eqb_spec (depth a) (depth b)); cbn [negb].
  - intuition lia.
  - rewrite Nat.ltb_ge. intuition lia.
Qed.
Lemma mount_ordered_trans x y z :
  ordered mount_less x y -> ordered mount_less y z -> ordered mount_less x z.
Proof.
  unfold ordered. rewrite !mount_less_false. intros [?|[? H1]] [?|[? H2]]; [left; lia..|].
  right. split; [lia|]. by eapply str_ltb_neg_trans.
Qed.
Lemma mount_less_asym x y : mount_less x y = true -> mount_less y x = false.
Proof.
  rewrite mount_less_spec, mount_less_false.
  intros [?|[? ?]]; [by left|right; split; [done|by apply str_ltb_asym]].
Qed.
Lemma mount_ordered_same_path x y :
  ordered mount_less x y -> ordered mount_less y x -> m_Path x = m_Path y.
Proof.
  unfold ordered. rewrite !mount_less_false. intros [?|[? H1]] [?|[? H2]]; try lia.
  by apply str_ltb_total.
Qed.

(** A strictly nested target is deeper, so it comes later. *)
Lemma nested_less a b :
  m_Path a <> "/" -> m_Path a <> m_Path b -> contains (m_Path a) (m_Path b) = true ->
  mount_less a b = true.
Proof.
  intros Ha Hne [?|[?|[t E]]]%contains_spec; [done|done|].
  apply mount_less_spec. left. unfold depth. rewrite E, !count_byte_app. change (count_byte "/" slash) with 1%nat. lia.
Qed.

(** In the list bwrap is given, no mount is followed by one of its ancestors. *)
Definition parents_first (ms : list Mount) : Prop :=
  StronglySorted (fun a b => contains (m_Path b) (m_Path a) = true -> m_Path b = m_Path a) ms.

Lemma NoDup_paths_inj (ms : list Mount) x y :
  NoDup (map m_Path ms) -> x ∈ ms -> y ∈ ms -> m_Path x = m_Path y -> x = y.
Proof.
  intros H Hx Hy E. induction ms as [|m ms IH]; [by apply elem_of_nil in Hx|].
  cbn in H. apply NoDup_cons in H as [Hm H].
  apply elem_of_cons in Hx as [->|Hx]; apply elem_of_cons in Hy as [->|Hy]; auto.
  - exfalso. apply Hm. rewrite E. by apply list_elem_of_fmap_2.
  - exfalso. apply Hm. rewrite <-E. by apply list_elem_of_fmap_2.
Qed.

Lemma orderedMounts_perm ms : orderedMounts ms ≡ₚ ms.
Proof. apply sort_by_perm. Qed.
Lemma orderedMounts_elem m ms : m ∈ orderedMounts ms <-> m ∈ ms.
Proof. apply sort_by_elem. Qed.
Lemma orderedMounts_sorted ms : StronglySorted (ordered mount_less) (orderedMounts ms).
Proof. apply sort_by_sorted; [apply mount_ordered_trans|apply mount_less_asym]. Qed.

Lemma StronglySorted_impl {A} (R S : A -> A -> Prop) l :
  (forall x y, x ∈ l -> y ∈ l -> R x y -> S x y) -> StronglySorted R l -> StronglySorted S l.
Proof.
  intros H Hs. induction Hs as [|x l Hs IH Hx]; constructor.
  - apply IH. intros a b Ha Hb. apply H; by right.
  - rewrite Forall_forall in *. intros y Hy. apply H; [left|by right|auto].
Qed.
Lemma orderedMounts_parents_first ms :
  (forall m, m ∈ ms -> m_Path m <> "/") -> parents_first (orderedMounts ms).
Proof.
  intros Hr. eapply StronglySorted_impl; [|apply orderedMounts_sorted].
  intros x y Hx Hy Hle Hc. destruct (decide (m_Path y = m_Path x)) as [|Hne]; [done|].
  exfalso. rewrite orderedMounts_elem in Hy.
  pose proof (nested_less y x (Hr y Hy) Hne Hc) as Hlt.
  unfold ordered in Hle. congruence.
Qed.

(** For an accepted spec, [orderedMounts] permutes the tenant's mounts so
    that no mount is followed by an ancestor of it, and its result does not
    depend on the order in which the tenant listed them. *)
Theorem orderedMounts_correct p spec l ms' :
  Validate p spec l = Ok tt -> ms' ≡ₚ fs_Mounts spec ->
  orderedMounts ms' ≡ₚ fs_Mounts spec /\ parents_first (orderedMounts ms') /\
  orderedMounts ms' = orderedMounts (fs_Mounts spec).
Proof.
  intros [_ _ _ _ Hm Hd _]%Validate_iff Hp. rewrite Forall_forall in Hm.
  split; [by rewrite orderedMounts_perm|]. split.
  - apply orderedMounts_parents_first. intros m. rewrite Hp. by intros (_ & ? & _)%Hm.
  - apply sort_by_unique; [apply mount_ordered_trans|apply mount_less_asym|done|].
    intros x y. rewrite Hp. intros Hx Hy H1 H2.
    eapply NoDup_paths_inj; eauto. by apply mount_ordered_same_path.
Qed.

(** ** Sources and numbers *)

Lemma subpath_ok_no_dotdot sub : subpath_ok sub -> ".." ∉ split slash sub.
Proof.
  intros [->|[->|(segs & Hn & -> & H)]].
  - change (split slash "") with [""]. by rewrite list_elem_of_singleton.
  - change (split slash ".") with ["."]. by rewrite list_elem_of_singleton.
  - pose proof (good_segs_path _ H) as Hs.
    rewrite split_join by (done || by apply path_segs_no_slash).
    by apply plain_no_dotdot, path_segs_plain.
Qed.
Lemma contains_render_app a b : contains (render a) (render (a ++ b)) = true.
Proof.
  apply contains_spec. destruct a as [|x a]; [by right; left|].
  destruct b as [|y b]; [left; by rewrite app_nil_r|].
  right. right. exists (join "/" (y :: b)). unfold render.
  rewrite join_app by done. by rewrite app_assoc_str.
Qed.

(** Whatever sub-path an accepted mount asks for, the source handed to
    bubblewrap is the volume's root or a canonical path beneath it. *)
Theorem mountSource_beneath p spec l m vol :
  Validate p spec l = Ok tt -> m ∈ fs_Mounts spec ->
  Volumes p !! src_Volume (m_Source m) = Some vol -> canonical vol ->
  contains vol (mountSource p m) = true /\ clean (mountSource p m) = mountSource p m.
Proof.
  intros [_ _ _ _ Hm _ _]%Validate_iff Hin Hv (vs & -> & Hvs). rewrite Forall_forall in Hm.
  destruct (Hm m Hin) as (_ & _ & _ & _ & _ & _ & Hsub).
  pose proof (good_segs_path _ Hvs) as Hp.
  unfold mountSource. rewrite Hv. cbn [from_option id].
  rewrite path_join_beneath by (done || by apply subpath_ok_no_dotdot).
  split; [apply contains_render_app|]. apply clean_render. apply Forall_app. split; [done|].
  apply Forall_forall. intros x [Hx1 Hx2]%list_elem_of_filter. split; [done|].
  pose proof (split_segs_no_byte slash (src_SubPath (m_Source m))) as Hno.
  rewrite Forall_forall in Hno. by apply Hno.
Qed.

(** The package's [itoa] agrees with decimal notation on every [int] but
    the least one, whose negation overflows and which it prints as ["-"]. *)
Theorem bw_itoa_correct n :
  in_int64 n ->
  bw_itoa n = (if decide (n = - 2 ^ 63)%Z then "-" else itoa n) /\
  (n <> (- 2 ^ 63)%Z -> atoi (bw_itoa n) = Some n).
Proof.
  unfold in_int64. intros Hn.
  assert (E : bw_itoa n = if decide (n = - 2 ^ 63)%Z then "-" else itoa n).
  { destruct (decide _) as [->|Hne]; [reflexivity|]. unfold bw_itoa, itoa.
    destruct (n =? 0)%Z; [done|]. destruct (Z.ltb_spec n 0); [|done].
    rewrite int64_id by (unfold in_int64; lia). done. }
  split; [done|]. intros Hne. rewrite E, decide_False by done. by apply atoi_itoa.
Qed.

Definition wit_policy : Policy :=
  {| SourceFDs := ∅; pTier := TierUserns; UID := 1000; GID := 1000;
     Hostname := "sandbox"; pMaxMounts := 0; SystemAllowlist := DefaultSystemPaths;
     Volumes := {["data" := "/var/lib/jdix/vol/data"]}; IsDirFunc := None |}.
Definition wit_mount (path sub : string) (ro : bool) : Mount :=
  {| m_Path := path; m_Source := {| src_Volume := "data"; src_SubPath := sub |};
     m_ReadOnly := ro |}.
Definition wit_spec : FilesystemSpec :=
  {| fs_Workspace := {| ws_Path := ""; ws_SizeLimit := "" |};
     fs_Mounts := [wit_mount "/data/a" "x/y" true; wit_mount "/data" "" false];
     fs_AllowSystemPaths := ["/usr"]; fs_Hide := ["/data/secret"] |}.
Example Validate_wit : Validate wit_policy wit_spec DefaultLayout = Ok tt.
Proof. reflexivity. Qed.

Lemma orderedMounts_wit :
  Validate wit_policy wit_spec DefaultLayout = Ok tt /\
  orderedMounts (reverse (fs_Mounts wit_spec)) = [wit_mount "/data" "" false; wit_mount "/data/a" "x/y" true] /\
  orderedMounts (reverse (fs_Mounts wit_spec)) = orderedMounts (fs_Mounts wit_spec).
Proof.
  split; [reflexivity|]. split; [reflexivity|].
  apply (orderedMounts_correct wit_policy wit_spec DefaultLayout); [reflexivity|].
  apply reverse_Permutation.
Defined.

Lemma canonical_data : canonical "/var/lib/jdix/vol/data".
Proof. by apply isAbsClean_canonical. Defined.
Lemma mountSource_wit :
  mountSource wit_policy (wit_mount "/data/a" "x/y" true) = "/var/lib/jdix/vol/data/x/y" /\
  contains "/var/lib/jdix/vol/data" (mountSource wit_policy (wit_mount "/data/a" "x/y" true)) = true.
Proof.
  split; [reflexivity|].
  apply (mountSource_beneath wit_policy wit_spec DefaultLayout); [reflexivity|left|reflexivity|].
  apply canonical_data.
Defined.
Lemma bw_itoa_wit : atoi (bw_itoa (-1000)) = Some (-1000)%Z /\ bw_itoa (- 2 ^ 63) = "-".
Proof.
  split; [|reflexivity]. apply bw_itoa_correct; [unfold in_int64; lia|lia].
Defined.
