(* ===== verification/BwrapView.v ===== *)
(** * What the generated argv means to bubblewrap

    bubblewrap reads its command line as a sequence of options, each with a
    fixed number of arguments, up to ["--"]; the number of arguments is part of
    its documented interface and a parameter here ([arity]).  It applies mount
    options in order, so what a path inside the sandbox shows is decided by the
    last one whose target contains it ([sees]).  The theorems say which options
    [Generate]'s argv is read as, whatever strings the tenant supplied, and what
    the sandbox therefore sees. *)
From S2P Require Import Prelude GoStrings Api Bwrap.
Open Scope string_scope.
Open Scope list_scope.

(** ** Options *)

(** An option with its arguments. *)
Definition op : Type := string * list string.
Definition op_words (o : op) : list string := fst o :: snd o.
Definition flatten (ops : list op) : list string := concat (map op_words ops).

(** The options the package emits and their numbers of arguments, as bubblewrap
    documents them. *)
Definition setup_table : list (string * nat) :=
  [("--unshare-user", 0); ("--unshare-ipc", 0); ("--unshare-pid", 0);
   ("--unshare-uts", 0); ("--unshare-cgroup-try", 0);
   ("--uid", 1); ("--gid", 1); ("--hostname", 1);
   ("--ro-bind-try", 2); ("--ro-bind", 2); ("--bind", 2);
   ("--ro-bind-fd", 2); ("--bind-fd", 2);
   ("--proc", 1); ("--dev", 1); ("--tmpfs", 1); ("--cap-drop", 1)]%nat.
Definition process_table : list (string * nat) :=
  [("--chdir", 1); ("--clearenv", 0); ("--setenv", 2);
   ("--die-with-parent", 0); ("--new-session", 0); ("--as-pid-1", 0)]%nat.
Definition option_table : list (string * nat) := (setup_table ++ process_table)%list.
Definition in_table (tbl : list (string * nat)) (o : op) : Prop :=
  (fst o, length (snd o)) ∈ tbl.
Lemma in_table_name tbl o x :
  in_table tbl o -> existsb (fun e => bool_decide (fst e = x)) tbl = false -> fst o <> x.
Proof.
  intros Ho Hx E. apply not_true_iff_false in Hx. apply Hx, existsb_elem.
  exists (fst o, length (snd o)). split; [done|]. by apply bool_decide_eq_true.
Qed.

Section Grammar.
Context (arity : string -> option nat).

Definition documented : Prop := Forall (fun e => arity (fst e) = Some (snd e)) option_table.

Fixpoint parse (fuel : nat) (argv : list string) : option (list op * list string) :=
  match fuel, argv with
  | S fuel', o :: rest =>
      if decide (o = "--") then Some ([], rest)
      else match arity o with
           | Some n =>
               if (n <=? length rest)%nat
               then match parse fuel' (drop n rest) with
                    | Some (ops, cmd) => Some ((o, take n rest) :: ops, cmd)
                    | None => None
                    end
               else None
           | None => None
           end
  | _, _ => None
  end.

Definition well_formed (o : op) : Prop := fst o <> "--" /\ arity (fst o) = Some (length (snd o)).

Lemma parse_flatten fuel ops cmd :
  Forall well_formed ops -> (length ops < fuel)%nat ->
  parse fuel (flatten ops ++ "--" :: cmd) = Some (ops, cmd).
Proof.
  intros H. revert fuel. induction H as [|[o args] ops [Ho Ha] Hs IH]; intros fuel Hf.
  - destruct fuel; [cbn in Hf; lia|]. done.
  - destruct fuel as [|fuel]; [cbn in Hf; lia|]. cbn in Ho, Ha, Hf.
    change (flatten ((o, args) :: ops) ++ "--" :: cmd)%list
      with ((o :: args ++ flatten ops) ++ "--" :: cmd)%list.
    cbn [app parse]. rewrite decide_False, Ha by done. rewrite <-app_assoc.
    rewrite (proj2 (Nat.leb_le _ _)) by (rewrite length_app; lia).
    rewrite drop_app_length, take_app_length, IH by lia. done.
Qed.
Lemma flatten_length ops : (length ops <= length (flatten ops))%nat.
Proof.
  induction ops as [|o ops IH]; [done|]. unfold flatten in *. cbn.
  rewrite length_app. lia.
Qed.
Lemma in_table_wf o : documented -> in_table option_table o -> well_formed o.
Proof.
  intros H Hin. unfold documented in H. rewrite Forall_forall in H.
  split; [by eapply in_table_name|by apply (H _ Hin)].
Qed.
End Grammar.

(** ** The options of [Generate] *)

Definition namespaceOps (p : Policy) : list op :=
  let own_userns := bool_decide (pTier p = TierUserns) || bool_decide (pTier p = TierFilesystem) in
  let fs := bool_decide (pTier p = TierFilesystem) in
  ((if own_userns then [("--unshare-user", [])] else []) ++
   (if fs then []
    else [("--unshare-ipc", []); ("--unshare-pid", []); ("--unshare-uts", []);
          ("--unshare-cgroup-try", [])]) ++
   (if own_userns then [("--uid", [bw_itoa (UID p)]); ("--gid", [bw_itoa (GID p)])] else []) ++
   (if negb (bool_decide (Hostname p = "")) && negb fs
    then [("--hostname", [Hostname p])] else []))%list.

Definition systemOps (spec : FilesystemSpec) (p : Policy) (l : Layout) : list op :=
  let sys := match fs_AllowSystemPaths spec with [] => SystemAllowlist p | sys => sys end in
  (map (fun s => ("--ro-bind-try", [s; s])) sys ++
   [("--ro-bind", [path_join [SkelDir l; "passwd"]; "/etc/passwd"]);
    ("--ro-bind", [path_join [SkelDir l; "group"]; "/etc/group"]);
    ("--ro-bind", [path_join [SkelDir l; "resolv.conf"]; "/etc/resolv.conf"])] ++
   (if bool_decide (pTier p = TierFilesystem)
    then [("--ro-bind", ["/proc"; "/proc"]); ("--cap-drop", ["ALL"])]
    else [("--proc", ["/proc"])]) ++
   [("--dev", ["/dev"]); ("--tmpfs", ["/tmp"]); ("--tmpfs", ["/run"]); ("--tmpfs", ["/home"]);
    ("--ro-bind", [path_join [BinDir l; "jdix-init"]; InitTarget l]);
    ("--bind", [IPCDir l; IPCMount l])])%list.

(** The option that puts a mount in place; [None] where [Generate] refuses. *)
Definition mountOp (p : Policy) (m : Mount) : option op :=
  match SourceFDs p !! m_Path m with
  | Some fd => Some (if m_ReadOnly m then "--ro-bind-fd" else "--bind-fd", [bw_itoa fd; m_Path m])
  | None =>
      if decide (pTier p = TierFilesystem) then None
      else Some (if m_ReadOnly m then "--ro-bind" else "--bind", [mountSource p m; m_Path m])
  end.
Definition hideOp (stat : string -> bool) (p : Policy) (h : string) : op :=
  if isDir stat p h then ("--tmpfs", [h]) else ("--ro-bind", ["/dev/null"; h]).

Definition processOps (ws : string) (p : Policy) : list op :=
  ([("--chdir", [ws]); ("--clearenv", []);
    ("--setenv", ["HOME"; "/home"]);
    ("--setenv", ["PATH"; "/usr/local/sbin:/usr/local/bin:/usr/sbin:/usr/bin:/sbin:/bin"]);
    ("--setenv", ["TERM"; "xterm-256color"]);
    ("--setenv", ["JDIX_SANDBOX"; "1"]);
    ("--die-with-parent", []); ("--new-session", [])] ++
   (if bool_decide (pTier p = TierFilesystem) then [] else [("--as-pid-1", [])]))%list.

(** The mount options a tenant's spec leads to, in the order they are applied. *)
Definition tenantOps (stat : string -> bool) (spec : FilesystemSpec) (p : Policy) (l : Layout)
    (mops : list op) : list op :=
  (("--bind", [WorkspaceDir l; workspacePath spec]) :: mops ++
   map (hideOp stat p) (fs_Hide spec))%list.

Lemma mountArgs_op p m a :
  mountArgs p m = Ok a <-> exists o, mountOp p m = Some o /\ a = op_words o.
Proof.
  unfold mountArgs, mountOp.
  destruct (SourceFDs p !! m_Path m) as [fd|]; [|case_bool_decide].
  - destruct (m_ReadOnly m); (split; [intros [= <-]; eauto|by intros (o & [= <-] & ->)]).
  - rewrite decide_True by done. split; [done|by intros (? & [=] & _)].
  - rewrite decide_False by done.
    destruct (m_ReadOnly m); (split; [intros [= <-]; eauto|by intros (o & [= <-] & ->)]).
Qed.
Lemma mountsArgs_ops p ms a :
  mountsArgs p ms = Ok a <-> exists mops, mapM (mountOp p) ms = Some mops /\ a = flatten mops.
Proof.
  revert a. induction ms as [|m ms IH]; intros a; cbn [mountsArgs].
  - split; [intros [= <-]; by exists []|by intros (? & [= <-] & ->)].
  - rewrite bind_ok. setoid_rewrite bind_ok. setoid_rewrite IH. setoid_rewrite mountArgs_op.
    cbn. split.
    + intros (a1 & (o & Ho & ->) & a2 & (mops & Hm & ->) & [= <-]).
      exists (o :: mops). by rewrite Ho, Hm.
    + destruct (mountOp p m) as [o|]; [|by intros (? & [=] & _)]. cbn.
      destruct (mapM (mountOp p) ms) as [mops|]; [|by intros (? & [=] & _)].
      intros (? & [= <-] & ->). eauto 10.
Qed.

Lemma concat_hideArgs stat p hs :
  concat (map (hideArgs stat p) hs) = flatten (map (hideOp stat p) hs).
Proof.
  induction hs as [|h hs IH]; [done|]. unfold flatten in *. cbn. rewrite IH.
  unfold hideArgs, hideOp. by destruct (isDir stat p h).
Qed.
Lemma flatten_app a b : flatten (a ++ b) = (flatten a ++ flatten b)%list.
Proof. unfold flatten. by rewrite map_app, concat_app. Qed.
Lemma namespaceArgs_ops p : namespaceArgs p = flatten (namespaceOps p).
Proof.
  unfold namespaceArgs, namespaceOps. rewrite !flatten_app.
  repeat f_equal; by repeat case_match.
Qed.
Lemma systemArgs_ops spec p l : systemArgs spec p l = flatten (systemOps spec p l).
Proof.
  unfold systemArgs, systemOps. rewrite !flatten_app. f_equal.
  - unfold flatten. rewrite map_map. done.
  - f_equal. f_equal. by case_bool_decide.
Qed.
Lemma processArgs_ops ws p : processArgs ws p = flatten (processOps ws p).
Proof.
  unfold processArgs, processOps. rewrite flatten_app. f_equal. by case_bool_decide.
Qed.

(** ** The argv is read as exactly these options *)

Lemma Generate_ops stat spec p l argv :
  Generate stat spec p l = Ok argv <->
  Validate p spec l = Ok tt /\
  exists mops, mapM (mountOp p) (orderedMounts (fs_Mounts spec)) = Some mops /\
    argv = (flatten (namespaceOps p ++ systemOps spec p l ++ tenantOps stat spec p l mops ++
                     processOps (workspacePath spec) p) ++
            "--" :: initArgs (workspacePath spec) p l)%list.
Proof.
  unfold Generate. destruct (Validate p spec l) as [[]|e]; [|by split; [|intros []]].
  rewrite bind_ok. setoid_rewrite mountsArgs_ops.
  assert (E : forall mops, (namespaceArgs p ++ systemArgs spec p l ++
            ["--bind"; WorkspaceDir l; workspacePath spec] ++ flatten mops ++
            concat (map (hideArgs stat p) (fs_Hide spec)) ++
            processArgs (workspacePath spec) p ++ "--" :: initArgs (workspacePath spec) p l)%list
    = (flatten (namespaceOps p ++ systemOps spec p l ++ tenantOps stat spec p l mops ++
                     processOps (workspacePath spec) p) ++
            "--" :: initArgs (workspacePath spec) p l)%list).
  { intros mops. unfold tenantOps.
    rewrite namespaceArgs_ops, systemArgs_ops, concat_hideArgs, processArgs_ops.
    rewrite !flatten_app. cbn [app]. change (flatten (?o :: ?l)) with (op_words o ++ flatten l)%list.
    rewrite flatten_app. cbn [op_words fst snd]. by rewrite <-!app_assoc. }
  split.
  - intros (a & (mops & Hm & ->) & Ha). split; [done|]. exists mops. split; [done|].
    rewrite E in Ha. congruence.
  - intros (_ & mops & Hm & ->). eexists. split; [eauto|]. by rewrite E.
Qed.

(** Take a list of options apart into its members. *)
Ltac forall_ops := repeat match goal with
  | |- Forall _ (_ ++ _) => apply Forall_app; split
  | |- Forall _ (if ?b then _ else _) => destruct b
  | |- Forall _ (_ :: _) => apply Forall_cons; split
  | |- Forall _ [] => apply Forall_nil; exact I
  end.
Ltac in_table := forall_ops; apply list_elem_of_In; cbn; tauto.

Lemma mountOp_in_table p m o : mountOp p m = Some o -> in_table setup_table o.
Proof.
  unfold mountOp. intros H. destruct (SourceFDs p !! m_Path m); [|destruct (decide _); [done|]];
    injection H as <-; destruct (m_ReadOnly m); in_table.
Qed.
Lemma hideOp_in_table stat p h : in_table setup_table (hideOp stat p h).
Proof. unfold hideOp. destruct (isDir stat p h); in_table. Qed.

Lemma setup_in_table stat spec p l mops :
  mapM (mountOp p) (orderedMounts (fs_Mounts spec)) = Some mops ->
  Forall (in_table setup_table)
    (namespaceOps p ++ systemOps spec p l ++ tenantOps stat spec p l mops).
Proof.
  intros Hm. apply Forall_app. split; [unfold namespaceOps; in_table|].
  apply Forall_app. split.
  { unfold systemOps. apply Forall_app. split; [|in_table].
    apply Forall_map, Forall_forall. intros s _. in_table. }
  unfold tenantOps. apply Forall_cons. split; [in_table|]. apply Forall_app. split.
  - apply mapM_Some in Hm. revert Hm. generalize (orderedMounts (fs_Mounts spec)) as ms.
    induction 1 as [|m o ms os Ho _ IH]; constructor; [by eapply mountOp_in_table|done].
  - apply Forall_map, Forall_forall. intros h _. apply hideOp_in_table.
Qed.
Lemma process_in_table ws p : Forall (in_table process_table) (processOps ws p).
Proof. unfold processOps. in_table. Qed.

Section Reading.
Context (arity : string -> option nat) (Harity : documented arity).

Lemma all_wf stat spec p l mops :
  mapM (mountOp p) (orderedMounts (fs_Mounts spec)) = Some mops ->
  Forall (well_formed arity)
    ((namespaceOps p ++ systemOps spec p l ++ tenantOps stat spec p l mops) ++
     processOps (workspacePath spec) p).
Proof.
  intros Hm. apply (setup_in_table stat spec p l) in Hm.
  pose proof (process_in_table (workspacePath spec) p) as Hp.
  apply Forall_app; split; eapply List.Forall_impl; [|exact Hm| |exact Hp];
    intros o Ho; (apply in_table_wf; [exact Harity|]); apply elem_of_app; tauto.
Qed.

(** Reading the argv back. *)
Lemma Generate_read stat spec p l argv :
  Generate stat spec p l = Ok argv ->
  exists mops, mapM (mountOp p) (orderedMounts (fs_Mounts spec)) = Some mops /\
    parse arity (S (length argv)) argv
    = Some (namespaceOps p ++ systemOps spec p l ++ tenantOps stat spec p l mops ++
            processOps (workspacePath spec) p,
            initArgs (workspacePath spec) p l)%list.
Proof.
  intros (_ & mops & Hm & ->)%Generate_ops. exists mops. split; [done|].
  apply parse_flatten.
  { pose proof (all_wf stat spec p l mops Hm) as H. by rewrite <-!app_assoc in H. }
  rewrite (length_app (flatten _)). pose proof (flatten_length (namespaceOps p ++ systemOps spec p l ++
    tenantOps stat spec p l mops ++ processOps (workspacePath spec) p)). lia.
Qed.

(** ** The environment *)

Definition sets_env (o : op) : bool := bool_decide (fst o = "--setenv").

(** The argv [Generate] returns parses, whatever the tenant's strings, and
    its options never unshare the network, clear the environment before the
    first [--setenv], and set only the four platform variables; the command is
    jdix-init. *)
Theorem Generate_options stat spec p l argv :
  Generate stat spec p l = Ok argv ->
  exists before after,
    parse arity (S (length argv)) argv
      = Some (before ++ ("--clearenv", []) :: after, initArgs (workspacePath spec) p l) /\
    existsb sets_env before = false /\
    map snd (filter (fun o => sets_env o = true) after)
      = [["HOME"; "/home"];
         ["PATH"; "/usr/local/sbin:/usr/local/bin:/usr/sbin:/usr/bin:/sbin:/bin"];
         ["TERM"; "xterm-256color"]; ["JDIX_SANDBOX"; "1"]] /\
    Forall (fun o => fst o <> "--unshare-net") (before ++ after).
Proof.
  intros (mops & Hm & Hr)%Generate_read.
  exists (namespaceOps p ++ systemOps spec p l ++ tenantOps stat spec p l mops ++
          [("--chdir", [workspacePath spec])])%list, (drop 2 (processOps (workspacePath spec) p)).
  assert (Hn : Forall (fun o => fst o <> "--unshare-net" /\ fst o <> "--setenv")
    (namespaceOps p ++ systemOps spec p l ++ tenantOps stat spec p l mops ++
     [("--chdir", [workspacePath spec])])).
  { pose proof (setup_in_table stat spec p l mops Hm) as H. rewrite !app_assoc in *.
    apply Forall_app. split; [|by repeat constructor].
    eapply List.Forall_impl; [|exact H]. intros o Ho.
    split; by eapply in_table_name. }
  split; [|split; [|split]].
  - rewrite Hr. by rewrite <-!app_assoc.
  - apply not_true_iff_false. rewrite existsb_elem. intros (o & Ho & Hs).
    rewrite Forall_forall in Hn. apply Hn in Ho as [_ Ho]. unfold sets_env in Hs.
    by rewrite bool_decide_eq_true in Hs.
  - unfold processOps. by case_bool_decide.
  - apply Forall_app. split; [eapply List.Forall_impl; [|exact Hn]; by intros ? []|].
    unfold processOps. cbn. case_bool_decide; by repeat constructor.
Qed.
End Reading.

(** ** What the sandbox sees *)

Definition bind_family : list string :=
  ["--ro-bind-try"; "--ro-bind"; "--bind"; "--ro-bind-fd"; "--bind-fd"].
Definition fresh_family : list string := ["--proc"; "--dev"; "--tmpfs"].

(** Where an option mounts something. *)
Definition target (o : op) : option string :=
  match snd o with
  | [_; d] => if decide (fst o ∈ bind_family) then Some d else None
  | [d] => if decide (fst o ∈ fresh_family) then Some d else None
  | _ => None
  end.
Definition covers (x : string) (o : op) : bool :=
  match target o with Some d => contains d x | None => false end.

(** The option that decides what [x] shows: the last one that covers it. *)
Definition sees (ops : list op) (x : string) : option op :=
  last (filter (fun o => covers x o = true) ops).

Lemma sees_app a b x :
  sees (a ++ b) x = match sees b x with Some o => Some o | None => sees a x end.
Proof. unfold sees. by rewrite filter_app, last_app. Qed.
Lemma sees_none ops x : (forall o, o ∈ ops -> covers x o = false) -> sees ops x = None.
Proof.
  intros H. unfold sees. rewrite last_None.
  induction ops as [|o ops IH]; [done|]. rewrite filter_cons_False.
  - apply IH. intros o' Ho. apply H. by right.
  - rewrite H by left. done.
Qed.
Lemma sees_here o ops x :
  covers x o = true -> (forall o', o' ∈ ops -> covers x o' = false) ->
  sees (o :: ops) x = Some o.
Proof.
  intros Ho H. change (o :: ops) with ([o] ++ ops). rewrite sees_app, (sees_none ops) by done.
  unfold sees. by rewrite filter_cons_True, filter_nil.
Qed.

Lemma mountOp_covers p m o x : mountOp p m = Some o -> covers x o = contains (m_Path m) x.
Proof.
  unfold mountOp. destruct (SourceFDs p !! m_Path m); [|destruct (decide _); [done|]];
    intros [= <-]; by destruct (m_ReadOnly m).
Qed.
Lemma hideOp_covers stat p h x : covers x (hideOp stat p h) = contains h x.
Proof. unfold hideOp. by destruct (isDir stat p h). Qed.
Lemma process_covers ws p x o : o ∈ processOps ws p -> covers x o = false.
Proof.
  intros Ho. pose proof (process_in_table ws p) as H. rewrite Forall_forall in H.
  specialize (H o Ho). unfold covers, target.
  assert (H1 : fst o ∉ bind_family); [|assert (H2 : fst o ∉ fresh_family)].
  1,2: (intros Hin; unfold bind_family, fresh_family in Hin;
      repeat (apply elem_of_cons in Hin as [E|Hin]; [revert E; by eapply in_table_name|]);
      by apply elem_of_nil in Hin).
  destruct (snd o) as [|d [|d' [|]]]; try done; by rewrite decide_False.
Qed.
Lemma namespace_covers p x o : o ∈ namespaceOps p -> covers x o = false.
Proof.
  revert o. apply Forall_forall. unfold namespaceOps. forall_ops; done.
Qed.

Section Views.
Context (arity : string -> option nat) (Harity : documented arity).

Lemma mapM_split p l1 m l2 mops :
  mapM (mountOp p) (l1 ++ m :: l2) = Some mops ->
  exists o1 o o2, mops = o1 ++ o :: o2 /\ mountOp p m = Some o /\
    Forall2 (fun m o => mountOp p m = Some o) l2 o2.
Proof.
  intros H%mapM_Some. apply Forall2_app_inv_l in H as (o1 & os & _ & H & ->).
  inversion H as [|? o ? o2 Ho H2]; subst. eauto 10.
Qed.

(** What decides a path under the deepest mount over it. *)
Lemma deepest_mount_seen stat spec p l argv m x :
  Generate stat spec p l = Ok argv -> m ∈ fs_Mounts spec ->
  contains (m_Path m) x = true ->
  (forall m', m' ∈ fs_Mounts spec -> contains (m_Path m') x = true ->
     contains (m_Path m') (m_Path m) = true) ->
  (forall h, h ∈ fs_Hide spec -> contains h x = false) ->
  exists ops cmd o,
    parse arity (S (length argv)) argv = Some (ops, cmd) /\
    mountArgs p m = Ok (op_words o) /\ sees ops x = Some o.
Proof.
  intros HG Hin Hx Hdeep Hhide.
  pose proof (proj1 (proj1 (Generate_ops _ _ _ _ _) HG)) as Hv.
  destruct (Generate_read arity Harity _ _ _ _ _ HG) as (mops & Hm & Hr).
  apply Validate_iff in Hv as [_ _ _ _ Hmo Hnd _]. rewrite Forall_forall in Hmo.
  rewrite <-orderedMounts_elem in Hin. apply list_elem_of_split in Hin as (l1 & l2 & E).
  pose proof (orderedMounts_parents_first (fs_Mounts spec)) as Hpf.
  specialize (Hpf ltac:(by intros m' (_ & ? & _)%Hmo)).
  rewrite E in Hm, Hpf. apply mapM_split in Hm as (o1 & o & o2 & -> & Ho & H2).
  eexists _, _, o. split; [exact Hr|]. split; [apply mountArgs_op; eauto|].
  assert (Hlater : forall m', m' ∈ l2 -> contains (m_Path m') x = false).
  { intros m' Hm'. destruct (contains (m_Path m') x) eqn:Hc; [exfalso|done].
    assert (Hin' : m' ∈ fs_Mounts spec).
    { rewrite <-orderedMounts_elem, E. apply elem_of_app. right. by right. }
    specialize (Hdeep m' Hin' Hc).
    apply StronglySorted_app_r in Hpf. inversion_clear Hpf as [|? ? _ Hlt].
    rewrite Forall_forall in Hlt. specialize (Hlt m' Hm' Hdeep).
    pose proof (orderedMounts_perm (fs_Mounts spec)) as Hp. rewrite E in Hp.
    rewrite <-Hp, map_app in Hnd. apply NoDup_app in Hnd as (_ & _ & Hnd).
    cbn in Hnd. apply NoDup_cons in Hnd as [Hnd _]. apply Hnd. rewrite <-Hlt.
    by apply list_elem_of_fmap_2. }
  unfold tenantOps.
  assert (Hsplit : forall a b c d e : list op,
    a ++ b ++ (("--bind", [WorkspaceDir l; workspacePath spec]) :: (o1 ++ o :: o2) ++ c) ++ d
    = (a ++ b ++ ("--bind", [WorkspaceDir l; workspacePath spec]) :: o1) ++ o :: (o2 ++ c ++ d)).
  { intros. cbn. by rewrite <-!app_assoc. }
  rewrite Hsplit by exact []. rewrite sees_app, sees_here; [done|by rewrite (mountOp_covers p m)|].
  intros o' [Ho'|[Ho'|Ho']%elem_of_app]%elem_of_app; [| |by eapply process_covers].
  - apply list_elem_of_lookup in Ho' as [i Hi].
    destruct (Forall2_lookup_r _ _ _ _ _ H2 Hi) as (m' & Hm' & Hop).
    rewrite (mountOp_covers p m') by done. apply Hlater. by eapply list_elem_of_lookup_2.
  - apply list_elem_of_fmap in Ho' as (h & -> & Hh). rewrite hideOp_covers. auto.
Qed.

(** What an accepted mount's option is, in words of the spec alone. *)
Lemma mountArgs_shown p spec l m o :
  Validate p spec l = Ok tt -> m ∈ fs_Mounts spec -> mountArgs p m = Ok (op_words o) ->
  match SourceFDs p !! m_Path m with
  | Some fd => o = (if m_ReadOnly m then "--ro-bind-fd" else "--bind-fd", [bw_itoa fd; m_Path m])
  | None => exists vol,
      Volumes p !! src_Volume (m_Source m) = Some vol /\
      o = (if m_ReadOnly m then "--ro-bind" else "--bind",
           [path_join [vol; src_SubPath (m_Source m)]; m_Path m]) /\
      (canonical vol -> contains vol (path_join [vol; src_SubPath (m_Source m)]) = true)
  end.
Proof.
  intros Hv Hin Ha. destruct (Validate_iff p spec l) as [Hc _]. destruct (Hc Hv) as [_ _ _ _ Hmo _ _].
  rewrite Forall_forall in Hmo. destruct (Hmo m Hin) as (_ & _ & _ & _ & _ & [vol Hvol] & _).
  unfold mountArgs in Ha. destruct o as [w ws]. unfold op_words in Ha. cbn [fst snd] in Ha.
  destruct (SourceFDs p !! m_Path m) as [fd|].
  { destruct (m_ReadOnly m); injection Ha as <- <-; done. }
  case_bool_decide; [done|]. exists vol. split; [done|].
  assert (E : mountSource p m = path_join [vol; src_SubPath (m_Source m)]).
  { unfold mountSource. by rewrite Hvol. }
  rewrite <-E. split; [destruct (m_ReadOnly m); injection Ha as <- <-; done|].
  intros Hcan. by apply (mountSource_beneath p spec l m vol).
Qed.

(** C14: under the last path of an accepted mount, and nowhere deeper, the
    sandbox sees exactly that mount's source: if [x] lies under [m] and every
    other mount over [x] also lies over [m], and nothing hides [x], then the
    option that decides what [x] shows puts at [m]'s path the descriptor
    pinned for it or, where none is, the mount's sub-path of its own volume,
    which lies beneath that volume's root, read-only exactly when the mount
    is. *)
Theorem sees_deepest_mount stat spec p l argv m x :
  Generate stat spec p l = Ok argv -> m ∈ fs_Mounts spec ->
  contains (m_Path m) x = true ->
  (forall m', m' ∈ fs_Mounts spec -> contains (m_Path m') x = true ->
     contains (m_Path m') (m_Path m) = true) ->
  (forall h, h ∈ fs_Hide spec -> contains h x = false) ->
  exists ops cmd o,
    parse arity (S (length argv)) argv = Some (ops, cmd) /\ sees ops x = Some o /\
    match SourceFDs p !! m_Path m with
    | Some fd =>
        o = (if m_ReadOnly m then "--ro-bind-fd" else "--bind-fd", [bw_itoa fd; m_Path m])
    | None => exists vol,
        Volumes p !! src_Volume (m_Source m) = Some vol /\
        o = (if m_ReadOnly m then "--ro-bind" else "--bind",
             [path_join [vol; src_SubPath (m_Source m)]; m_Path m]) /\
        (canonical vol -> contains vol (path_join [vol; src_SubPath (m_Source m)]) = true)
    end.
Proof.
  intros HG Hin Hx Hdeep Hhide.
  destruct (deepest_mount_seen stat spec p l argv m x HG Hin Hx Hdeep Hhide)
    as (ops & cmd & o & Hp & Ha & Hs).
  exists ops, cmd, o. split; [done|]. split; [done|].
  apply (mountArgs_shown p spec l); [|done..].
  by apply (proj1 (proj1 (Generate_ops _ _ _ _ _) HG)).
Qed.

Lemma tenantOps_avoid stat spec p l mops prot x o :
  Validate p spec l = Ok tt ->
  mapM (mountOp p) (orderedMounts (fs_Mounts spec)) = Some mops ->
  prot ∈ protectedTargets l -> contains prot x = true ->
  o ∈ tenantOps stat spec p l mops -> covers x o = false.
Proof.
  intros [_ (_ & _ & Hw) _ _ Hmo _ Hh]%Validate_iff Hm Hprot Hx.
  rewrite Forall_forall in Hmo. rewrite Forall_forall in Hh. unfold tenantOps.
  intros [->|[Ho|Ho]%elem_of_app]%elem_of_cons.
  - change (contains (workspacePath spec) x = false).
    eapply overlaps_false_beneath; [by apply Hw|done].
  - apply mapM_Some in Hm. apply list_elem_of_lookup in Ho as [i Hi].
    destruct (Forall2_lookup_r _ _ _ _ _ Hm Hi) as (m & Hmi & Hop).
    apply list_elem_of_lookup_2 in Hmi. rewrite orderedMounts_elem in Hmi.
    rewrite (mountOp_covers p m) by done.
    destruct (Hmo m Hmi) as (_ & _ & Ha & _).
    eapply overlaps_false_beneath; [by apply Ha|done].
  - apply list_elem_of_fmap in Ho as (h & -> & Hin). rewrite hideOp_covers.
    destruct (Hh h Hin) as (_ & _ & _ & _ & Ha & _).
    eapply overlaps_false_beneath; [by apply Ha|done].
Qed.

(** No tenant choice changes what a platform path shows: beneath every
    protected target the sandbox sees what the platform's own options put
    there. *)
Theorem sees_platform stat spec p l argv prot x :
  Generate stat spec p l = Ok argv ->
  prot ∈ protectedTargets l -> contains prot x = true ->
  exists ops cmd,
    parse arity (S (length argv)) argv = Some (ops, cmd) /\
    sees ops x = sees (systemOps spec p l) x.
Proof.
  intros HG Hprot Hx.
  pose proof (proj1 (proj1 (Generate_ops _ _ _ _ _) HG)) as Hv.
  destruct (Generate_read arity Harity _ _ _ _ _ HG) as (mops & Hm & Hr).
  eexists _, _. split; [exact Hr|].
  rewrite !sees_app. rewrite (sees_none (processOps _ _)) by apply process_covers.
  rewrite (sees_none (tenantOps _ _ _ _ _)) by (intros o; by eapply tenantOps_avoid).
  rewrite (sees_none (namespaceOps p)) by apply namespace_covers.
  by destruct (sees (systemOps spec p l) x).
Qed.

Lemma systemOps_hidden spec p x root :
  root ∈ [PlatformRoot; StateRoot] -> contains root x = true ->
  SystemAllowlist p = DefaultSystemPaths ->
  (forall s, s ∈ fs_AllowSystemPaths spec -> s ∈ SystemAllowlist p) ->
  sees (systemOps spec p DefaultLayout) x = None.
Proof.
  intros Hr Hx Hp Hs. apply sees_none. apply Forall_forall.
  assert (Hc : forall d, overlaps d root = false -> contains d x = false).
  { intros d Hd. by eapply overlaps_false_beneath. }
  assert (Hb : forall d, overlaps d PlatformRoot = false -> overlaps d StateRoot = false ->
               contains d x = false).
  { intros d H1 H2. apply Hc.
    by apply elem_of_cons in Hr as [->|Hr%list_elem_of_singleton]; [|subst]. }
  unfold systemOps. apply Forall_app. split.
  - apply Forall_map, Forall_forall. intros s Hin. cbn.
    assert (Hd : s ∈ DefaultSystemPaths).
    { rewrite Hp in *. destruct (fs_AllowSystemPaths spec); [done|]. by apply Hs. }
    change (contains s x = false).
    unfold DefaultSystemPaths in Hd.
    repeat (apply elem_of_cons in Hd as [->|Hd]; [by apply Hb|]). by apply elem_of_nil in Hd.
  - forall_ops; unfold covers; cbn; done || by apply Hb.
Qed.

(** C15: with the default layout and allowlist nothing under the platform's own
    directories is visible in the sandbox at all. *)
Theorem platform_invisible stat spec p argv root x :
  Generate stat spec p DefaultLayout = Ok argv ->
  SystemAllowlist p = DefaultSystemPaths ->
  root ∈ [PlatformRoot; StateRoot] -> contains root x = true ->
  exists ops cmd,
    parse arity (S (length argv)) argv = Some (ops, cmd) /\ sees ops x = None.
Proof.
  intros HG Hp Hroot Hx.
  pose proof (proj1 (proj1 (Generate_ops _ _ _ _ _) HG)) as Hv.
  destruct (Generate_read arity Harity _ _ _ _ _ HG) as (mops & Hm & Hr).
  eexists _, _. split; [exact Hr|].
  assert (Hprot : root ∈ protectedTargets DefaultLayout).
  { apply list_elem_of_In. apply list_elem_of_In in Hroot. cbn in *. tauto. }
  rewrite !sees_app. rewrite (sees_none (processOps _ _)) by apply process_covers.
  rewrite (sees_none (tenantOps _ _ _ _ _)) by (intros o; by eapply tenantOps_avoid).
  rewrite (sees_none (namespaceOps p)) by apply namespace_covers.
  rewrite (systemOps_hidden spec p x root); [done..|].
  apply Validate_iff in Hv as [_ _ _ Hs _ _ _]. rewrite Forall_forall in Hs.
  by intros s [_ ?]%Hs.
Qed.
End Views.

(** ** Witnesses *)

Definition table_arity (o : string) : option nat :=
  match List.find (fun e => bool_decide (fst e = o)) option_table with
  | Some e => Some (snd e)
  | None => None
  end.
Lemma table_documented : documented table_arity.
Proof. apply Forall_forall. intros e. revert e. apply Forall_forall. by repeat constructor. Qed.

Definition wit_argv : list string :=
  match Generate (fun _ => true) wit_spec wit_policy DefaultLayout with
  | Ok a => a
  | Err _ => []
  end.
Lemma wit_argv_eq : Generate (fun _ => true) wit_spec wit_policy DefaultLayout = Ok wit_argv.
Proof. vm_compute. reflexivity. Qed.

Lemma Generate_options_wit :
  documented table_arity /\ exists before after,
    parse table_arity (S (length wit_argv)) wit_argv
      = Some (before ++ ("--clearenv", []) :: after,
              initArgs "/workspace" wit_policy DefaultLayout) /\
    existsb sets_env before = false.
Proof.
  split; [apply table_documented|].
  destruct (Generate_options table_arity table_documented (fun _ => true) wit_spec wit_policy
              DefaultLayout wit_argv wit_argv_eq) as (b & a & H1 & H2 & _).
  exists b, a. split; [exact H1|exact H2].
Defined.

Lemma sees_deepest_mount_wit :
  exists ops cmd,
    parse table_arity (S (length wit_argv)) wit_argv = Some (ops, cmd) /\
    sees ops "/data/a/b" = Some ("--ro-bind", ["/var/lib/jdix/vol/data/x/y"; "/data/a"]) /\
    contains "/var/lib/jdix/vol/data" "/var/lib/jdix/vol/data/x/y" = true.
Proof.
  destruct (sees_deepest_mount table_arity table_documented (fun _ => true) wit_spec
           wit_policy DefaultLayout wit_argv (wit_mount "/data/a" "x/y" true) "/data/a/b")
    as (ops & cmd & o & Hp & Hs & vol & Hvol & -> & Hc).
  - apply wit_argv_eq.
  - left.
  - reflexivity.
  - intros m' Hm. apply list_elem_of_In in Hm. cbn in Hm.
    destruct Hm as [<-|[<-|[]]]; intros _; reflexivity.
  - intros h Hh. apply list_elem_of_In in Hh. cbn in Hh.
    destruct Hh as [<-|[]]. reflexivity.
  - vm_compute in Hvol. injection Hvol as <-. exists ops, cmd. split; [exact Hp|].
    split; [exact Hs|]. apply Hc. apply canonical_data.
Defined.

Lemma sees_platform_wit :
  exists ops cmd,
    parse table_arity (S (length wit_argv)) wit_argv = Some (ops, cmd) /\
    sees ops "/dev/null" = Some ("--dev", ["/dev"]).
Proof.
  destruct (sees_platform table_arity table_documented (fun _ => true) wit_spec wit_policy
              DefaultLayout wit_argv "/dev" "/dev/null" wit_argv_eq) as (ops & cmd & H & E).
  - apply list_elem_of_In. cbn. tauto.
  - reflexivity.
  - exists ops, cmd. split; [exact H|]. rewrite E. vm_compute. reflexivity.
Defined.

Lemma platform_invisible_wit :
  exists ops cmd,
    parse table_arity (S (length wit_argv)) wit_argv = Some (ops, cmd) /\
    sees ops "/opt/jdix/bin/bwrap" = None.
Proof.
  apply (platform_invisible table_arity table_documented (fun _ => true) wit_spec wit_policy
           wit_argv PlatformRoot).
  - apply wit_argv_eq.
  - reflexivity.
  - left.
  - reflexivity.
Defined.
