(* ===== verification/Crd.v ===== *)
(** * The custom resources (package v1alpha1) and the Kubernetes objects around them

    Records for the three CRDs, field by field, and for the parts of the
    Kubernetes core types (metadata, Pods, claims) the controllers read or
    write.  Fields the controllers only pass through (affinity, tolerations,
    resource requirements) are [Opaque].  [set_f v r] is the assignment
    [r.f = v]. *)
From S2P Require Import Prelude GoStrings Api.
Open Scope string_scope.

(** ** Kubernetes metadata *)

(** A fragment of an object that is copied without being looked into. *)
Definition Opaque : Type := string.

Record OwnerReference := {
  or_Kind : string; or_Name : string; or_UID : string; or_Controller : bool }.
#[export] Instance OwnerReference_eq_dec : EqDecision OwnerReference.
Proof. solve_decision. Defined.

Record ObjectMeta := {
  om_Name : string;
  om_GenerateName : string;
  om_Namespace : string;
  om_Labels : gmap string string;
  om_Annotations : gmap string string;
  om_ResourceVersion : Z;
  om_UID : string;
  om_CreationTimestamp : Time;
  om_DeletionTimestamp : option Time;
  om_Finalizers : list string;
  om_OwnerReferences : list OwnerReference }.
Definition set_om_Labels (v : gmap string string) (r : ObjectMeta) : ObjectMeta :=
  {| om_Name := om_Name r;
     om_GenerateName := om_GenerateName r;
     om_Namespace := om_Namespace r;
     om_Labels := v;
     om_Annotations := om_Annotations r;
     om_ResourceVersion := om_ResourceVersion r;
     om_UID := om_UID r;
     om_CreationTimestamp := om_CreationTimestamp r;
     om_DeletionTimestamp := om_DeletionTimestamp r;
     om_Finalizers := om_Finalizers r;
     om_OwnerReferences := om_OwnerReferences r |}.
Definition set_om_Annotations (v : gmap string string) (r : ObjectMeta) : ObjectMeta :=
  {| om_Name := om_Name r;
     om_GenerateName := om_GenerateName r;
     om_Namespace := om_Namespace r;
     om_Labels := om_Labels r;
     om_Annotations := v;
     om_ResourceVersion := om_ResourceVersion r;
     om_UID := om_UID r;
     om_CreationTimestamp := om_CreationTimestamp r;
     om_DeletionTimestamp := om_DeletionTimestamp r;
     om_Finalizers := om_Finalizers r;
     om_OwnerReferences := om_OwnerReferences r |}.
Definition set_om_ResourceVersion (v : Z) (r : ObjectMeta) : ObjectMeta :=
  {| om_Name := om_Name r;
     om_GenerateName := om_GenerateName r;
     om_Namespace := om_Namespace r;
     om_Labels := om_Labels r;
     om_Annotations := om_Annotations r;
     om_ResourceVersion := v;
     om_UID := om_UID r;
     om_CreationTimestamp := om_CreationTimestamp r;
     om_DeletionTimestamp := om_DeletionTimestamp r;
     om_Finalizers := om_Finalizers r;
     om_OwnerReferences := om_OwnerReferences r |}.
Definition set_om_Finalizers (v : list string) (r : ObjectMeta) : ObjectMeta :=
  {| om_Name := om_Name r;
     om_GenerateName := om_GenerateName r;
     om_Namespace := om_Namespace r;
     om_Labels := om_Labels r;
     om_Annotations := om_Annotations r;
     om_ResourceVersion := om_ResourceVersion r;
     om_UID := om_UID r;
     om_CreationTimestamp := om_CreationTimestamp r;
     om_DeletionTimestamp := om_DeletionTimestamp r;
     om_Finalizers := v;
     om_OwnerReferences := om_OwnerReferences r |}.
Definition set_om_OwnerReferences (v : list OwnerReference) (r : ObjectMeta) : ObjectMeta :=
  {| om_Name := om_Name r;
     om_GenerateName := om_GenerateName r;
     om_Namespace := om_Namespace r;
     om_Labels := om_Labels r;
     om_Annotations := om_Annotations r;
     om_ResourceVersion := om_ResourceVersion r;
     om_UID := om_UID r;
     om_CreationTimestamp := om_CreationTimestamp r;
     om_DeletionTimestamp := om_DeletionTimestamp r;
     om_Finalizers := om_Finalizers r;
     om_OwnerReferences := v |}.

Definition empty_meta : ObjectMeta :=
  {| om_Name := ""; om_GenerateName := ""; om_Namespace := ""; om_Labels := ∅;
     om_Annotations := ∅; om_ResourceVersion := 0%Z; om_UID := "";
     om_CreationTimestamp := 0%Z; om_DeletionTimestamp := None; om_Finalizers := [];
     om_OwnerReferences := [] |}.

(** [client.ObjectKey] *)
Definition ObjectKey : Type := string * string.
Definition meta_key (m : ObjectMeta) : ObjectKey := (om_Namespace m, om_Name m).
(** [!DeletionTimestamp.IsZero()] *)
Definition deleting (m : ObjectMeta) : bool :=
  match om_DeletionTimestamp m with Some _ => true | None => false end.
(** [m.Labels[k]]: the empty string where the key is absent. *)
Definition label (m : ObjectMeta) (k : string) : string := default "" (om_Labels m !! k).
Definition annotation (m : ObjectMeta) (k : string) : string :=
  default "" (om_Annotations m !! k).
Definition set_label (k v : string) (m : ObjectMeta) : ObjectMeta :=
  set_om_Labels (<[k := v]> (om_Labels m)) m.

Record Condition := {
  cond_Type : string; cond_Status : string; cond_Reason : string;
  cond_Message : string; cond_LastTransitionTime : Time }.

(** ** Pods *)

Record EnvEntry := {
  ev_Name : string;
  ev_Value : string }.

Record VolumeMount := {
  vm_Name : string;
  vm_MountPath : string;
  vm_ReadOnly : bool }.

Inductive VolumeSource :=
| EmptyDir (sizeLimit : option Opaque)
| PersistentVolumeClaim (claimName : string) (readOnly : bool).
Record Volume := {
  vol_Name : string;
  vol_Source : VolumeSource }.

Inductive SeccompProfile :=
| SeccompRuntimeDefault
| SeccompUnconfined
| SeccompLocalhost (profile : string).
Record ContainerSecurity := {
  cs_AllowPrivilegeEscalation : option bool;
  cs_Drop : list string;
  cs_ProcMount : option string }.

Record HTTPProbe := {
  pr_Path : string;
  pr_Port : Z;
  pr_InitialDelaySeconds : Z;
  pr_PeriodSeconds : Z;
  pr_FailureThreshold : Z }.

Record Container := {
  c_Name : string;
  c_Image : string;
  c_ImagePullPolicy : string;
  c_Command : list string;
  c_Args : list string;
  c_Env : list EnvEntry;
  c_Ports : list (string * Z);
  c_Resources : Opaque;
  c_VolumeMounts : list VolumeMount;
  c_Security : ContainerSecurity;
  c_ReadinessProbe : option HTTPProbe }.
Definition set_c_Args (v : list string) (r : Container) : Container :=
  {| c_Name := c_Name r;
     c_Image := c_Image r;
     c_ImagePullPolicy := c_ImagePullPolicy r;
     c_Command := c_Command r;
     c_Args := v;
     c_Env := c_Env r;
     c_Ports := c_Ports r;
     c_Resources := c_Resources r;
     c_VolumeMounts := c_VolumeMounts r;
     c_Security := c_Security r;
     c_ReadinessProbe := c_ReadinessProbe r |}.
Definition set_c_Env (v : list EnvEntry) (r : Container) : Container :=
  {| c_Name := c_Name r;
     c_Image := c_Image r;
     c_ImagePullPolicy := c_ImagePullPolicy r;
     c_Command := c_Command r;
     c_Args := c_Args r;
     c_Env := v;
     c_Ports := c_Ports r;
     c_Resources := c_Resources r;
     c_VolumeMounts := c_VolumeMounts r;
     c_Security := c_Security r;
     c_ReadinessProbe := c_ReadinessProbe r |}.

Record PodSecurity := {
  ps_RunAsNonRoot : option bool;
  ps_RunAsUser : option Z;
  ps_RunAsGroup : option Z;
  ps_FSGroup : option Z;
  ps_Seccomp : option SeccompProfile }.
Definition set_ps_Seccomp (v : option SeccompProfile) (r : PodSecurity) : PodSecurity :=
  {| ps_RunAsNonRoot := ps_RunAsNonRoot r;
     ps_RunAsUser := ps_RunAsUser r;
     ps_RunAsGroup := ps_RunAsGroup r;
     ps_FSGroup := ps_FSGroup r;
     ps_Seccomp := v |}.

(** Flags of a Pod spec a template's overrides might set and the controller
    never copies, next to those it does. *)
Record PodSpec := {
  pod_RestartPolicy : string;
  pod_AutomountServiceAccountToken : option bool;
  pod_RuntimeClassName : option string;
  pod_TerminationGracePeriodSeconds : option Z;
  pod_SecurityContext : option PodSecurity;
  pod_InitContainers : list Container;
  pod_Containers : list Container;
  pod_Volumes : list Volume;
  pod_HostUsers : option bool;
  pod_HostNetwork : bool;
  pod_HostPID : bool;
  pod_ImagePullSecrets : list string;
  pod_NodeName : string;
  pod_NodeSelector : option Opaque;
  pod_Tolerations : option Opaque;
  pod_Affinity : option Opaque;
  pod_PriorityClassName : string;
  pod_SchedulerName : string }.
Definition set_pod_SecurityContext (v : option PodSecurity) (r : PodSpec) : PodSpec :=
  {| pod_RestartPolicy := pod_RestartPolicy r;
     pod_AutomountServiceAccountToken := pod_AutomountServiceAccountToken r;
     pod_RuntimeClassName := pod_RuntimeClassName r;
     pod_TerminationGracePeriodSeconds := pod_TerminationGracePeriodSeconds r;
     pod_SecurityContext := v;
     pod_InitContainers := pod_InitContainers r;
     pod_Containers := pod_Containers r;
     pod_Volumes := pod_Volumes r;
     pod_HostUsers := pod_HostUsers r;
     pod_HostNetwork := pod_HostNetwork r;
     pod_HostPID := pod_HostPID r;
     pod_ImagePullSecrets := pod_ImagePullSecrets r;
     pod_NodeName := pod_NodeName r;
     pod_NodeSelector := pod_NodeSelector r;
     pod_Tolerations := pod_Tolerations r;
     pod_Affinity := pod_Affinity r;
     pod_PriorityClassName := pod_PriorityClassName r;
     pod_SchedulerName := pod_SchedulerName r |}.
Definition set_pod_Containers (v : list Container) (r : PodSpec) : PodSpec :=
  {| pod_RestartPolicy := pod_RestartPolicy r;
     pod_AutomountServiceAccountToken := pod_AutomountServiceAccountToken r;
     pod_RuntimeClassName := pod_RuntimeClassName r;
     pod_TerminationGracePeriodSeconds := pod_TerminationGracePeriodSeconds r;
     pod_SecurityContext := pod_SecurityContext r;
     pod_InitContainers := pod_InitContainers r;
     pod_Containers := v;
     pod_Volumes := pod_Volumes r;
     pod_HostUsers := pod_HostUsers r;
     pod_HostNetwork := pod_HostNetwork r;
     pod_HostPID := pod_HostPID r;
     pod_ImagePullSecrets := pod_ImagePullSecrets r;
     pod_NodeName := pod_NodeName r;
     pod_NodeSelector := pod_NodeSelector r;
     pod_Tolerations := pod_Tolerations r;
     pod_Affinity := pod_Affinity r;
     pod_PriorityClassName := pod_PriorityClassName r;
     pod_SchedulerName := pod_SchedulerName r |}.
Definition set_pod_HostUsers (v : option bool) (r : PodSpec) : PodSpec :=
  {| pod_RestartPolicy := pod_RestartPolicy r;
     pod_AutomountServiceAccountToken := pod_AutomountServiceAccountToken r;
     pod_RuntimeClassName := pod_RuntimeClassName r;
     pod_TerminationGracePeriodSeconds := pod_TerminationGracePeriodSeconds r;
     pod_SecurityContext := pod_SecurityContext r;
     pod_InitContainers := pod_InitContainers r;
     pod_Containers := pod_Containers r;
     pod_Volumes := pod_Volumes r;
     pod_HostUsers := v;
     pod_HostNetwork := pod_HostNetwork r;
     pod_HostPID := pod_HostPID r;
     pod_ImagePullSecrets := pod_ImagePullSecrets r;
     pod_NodeName := pod_NodeName r;
     pod_NodeSelector := pod_NodeSelector r;
     pod_Tolerations := pod_Tolerations r;
     pod_Affinity := pod_Affinity r;
     pod_PriorityClassName := pod_PriorityClassName r;
     pod_SchedulerName := pod_SchedulerName r |}.
Definition set_pod_ImagePullSecrets (v : list string) (r : PodSpec) : PodSpec :=
  {| pod_RestartPolicy := pod_RestartPolicy r;
     pod_AutomountServiceAccountToken := pod_AutomountServiceAccountToken r;
     pod_RuntimeClassName := pod_RuntimeClassName r;
     pod_TerminationGracePeriodSeconds := pod_TerminationGracePeriodSeconds r;
     pod_SecurityContext := pod_SecurityContext r;
     pod_InitContainers := pod_InitContainers r;
     pod_Containers := pod_Containers r;
     pod_Volumes := pod_Volumes r;
     pod_HostUsers := pod_HostUsers r;
     pod_HostNetwork := pod_HostNetwork r;
     pod_HostPID := pod_HostPID r;
     pod_ImagePullSecrets := v;
     pod_NodeName := pod_NodeName r;
     pod_NodeSelector := pod_NodeSelector r;
     pod_Tolerations := pod_Tolerations r;
     pod_Affinity := pod_Affinity r;
     pod_PriorityClassName := pod_PriorityClassName r;
     pod_SchedulerName := pod_SchedulerName r |}.
Definition set_pod_NodeSelector (v : option Opaque) (r : PodSpec) : PodSpec :=
  {| pod_RestartPolicy := pod_RestartPolicy r;
     pod_AutomountServiceAccountToken := pod_AutomountServiceAccountToken r;
     pod_RuntimeClassName := pod_RuntimeClassName r;
     pod_TerminationGracePeriodSeconds := pod_TerminationGracePeriodSeconds r;
     pod_SecurityContext := pod_SecurityContext r;
     pod_InitContainers := pod_InitContainers r;
     pod_Containers := pod_Containers r;
     pod_Volumes := pod_Volumes r;
     pod_HostUsers := pod_HostUsers r;
     pod_HostNetwork := pod_HostNetwork r;
     pod_HostPID := pod_HostPID r;
     pod_ImagePullSecrets := pod_ImagePullSecrets r;
     pod_NodeName := pod_NodeName r;
     pod_NodeSelector := v;
     pod_Tolerations := pod_Tolerations r;
     pod_Affinity := pod_Affinity r;
     pod_PriorityClassName := pod_PriorityClassName r;
     pod_SchedulerName := pod_SchedulerName r |}.
Definition set_pod_Tolerations (v : option Opaque) (r : PodSpec) : PodSpec :=
  {| pod_RestartPolicy := pod_RestartPolicy r;
     pod_AutomountServiceAccountToken := pod_AutomountServiceAccountToken r;
     pod_RuntimeClassName := pod_RuntimeClassName r;
     pod_TerminationGracePeriodSeconds := pod_TerminationGracePeriodSeconds r;
     pod_SecurityContext := pod_SecurityContext r;
     pod_InitContainers := pod_InitContainers r;
     pod_Containers := pod_Containers r;
     pod_Volumes := pod_Volumes r;
     pod_HostUsers := pod_HostUsers r;
     pod_HostNetwork := pod_HostNetwork r;
     pod_HostPID := pod_HostPID r;
     pod_ImagePullSecrets := pod_ImagePullSecrets r;
     pod_NodeName := pod_NodeName r;
     pod_NodeSelector := pod_NodeSelector r;
     pod_Tolerations := v;
     pod_Affinity := pod_Affinity r;
     pod_PriorityClassName := pod_PriorityClassName r;
     pod_SchedulerName := pod_SchedulerName r |}.
Definition set_pod_Affinity (v : option Opaque) (r : PodSpec) : PodSpec :=
  {| pod_RestartPolicy := pod_RestartPolicy r;
     pod_AutomountServiceAccountToken := pod_AutomountServiceAccountToken r;
     pod_RuntimeClassName := pod_RuntimeClassName r;
     pod_TerminationGracePeriodSeconds := pod_TerminationGracePeriodSeconds r;
     pod_SecurityContext := pod_SecurityContext r;
     pod_InitContainers := pod_InitContainers r;
     pod_Containers := pod_Containers r;
     pod_Volumes := pod_Volumes r;
     pod_HostUsers := pod_HostUsers r;
     pod_HostNetwork := pod_HostNetwork r;
     pod_HostPID := pod_HostPID r;
     pod_ImagePullSecrets := pod_ImagePullSecrets r;
     pod_NodeName := pod_NodeName r;
     pod_NodeSelector := pod_NodeSelector r;
     pod_Tolerations := pod_Tolerations r;
     pod_Affinity := v;
     pod_PriorityClassName := pod_PriorityClassName r;
     pod_SchedulerName := pod_SchedulerName r |}.
Definition set_pod_PriorityClassName (v : string) (r : PodSpec) : PodSpec :=
  {| pod_RestartPolicy := pod_RestartPolicy r;
     pod_AutomountServiceAccountToken := pod_AutomountServiceAccountToken r;
     pod_RuntimeClassName := pod_RuntimeClassName r;
     pod_TerminationGracePeriodSeconds := pod_TerminationGracePeriodSeconds r;
     pod_SecurityContext := pod_SecurityContext r;
     pod_InitContainers := pod_InitContainers r;
     pod_Containers := pod_Containers r;
     pod_Volumes := pod_Volumes r;
     pod_HostUsers := pod_HostUsers r;
     pod_HostNetwork := pod_HostNetwork r;
     pod_HostPID := pod_HostPID r;
     pod_ImagePullSecrets := pod_ImagePullSecrets r;
     pod_NodeName := pod_NodeName r;
     pod_NodeSelector := pod_NodeSelector r;
     pod_Tolerations := pod_Tolerations r;
     pod_Affinity := pod_Affinity r;
     pod_PriorityClassName := v;
     pod_SchedulerName := pod_SchedulerName r |}.
Definition set_pod_SchedulerName (v : string) (r : PodSpec) : PodSpec :=
  {| pod_RestartPolicy := pod_RestartPolicy r;
     pod_AutomountServiceAccountToken := pod_AutomountServiceAccountToken r;
     pod_RuntimeClassName := pod_RuntimeClassName r;
     pod_TerminationGracePeriodSeconds := pod_TerminationGracePeriodSeconds r;
     pod_SecurityContext := pod_SecurityContext r;
     pod_InitContainers := pod_InitContainers r;
     pod_Containers := pod_Containers r;
     pod_Volumes := pod_Volumes r;
     pod_HostUsers := pod_HostUsers r;
     pod_HostNetwork := pod_HostNetwork r;
     pod_HostPID := pod_HostPID r;
     pod_ImagePullSecrets := pod_ImagePullSecrets r;
     pod_NodeName := pod_NodeName r;
     pod_NodeSelector := pod_NodeSelector r;
     pod_Tolerations := pod_Tolerations r;
     pod_Affinity := pod_Affinity r;
     pod_PriorityClassName := pod_PriorityClassName r;
     pod_SchedulerName := v |}.

Record PodStatus := {
  pst_Phase : string;
  pst_PodIP : string;
  pst_Reason : string;
  pst_Conditions : list (string * string) }.

Record Pod := {
  pod_Meta : ObjectMeta;
  pod_Spec : PodSpec;
  pod_Status : PodStatus }.
Definition set_pod_Meta (v : ObjectMeta) (r : Pod) : Pod :=
  {| pod_Meta := v;
     pod_Spec := pod_Spec r;
     pod_Status := pod_Status r |}.

Definition PodRunning : string := "Running".
Definition PodFailed : string := "Failed".
Definition PodSucceeded : string := "Succeeded".
Definition PodReady : string := "Ready".
Definition ConditionTrue : string := "True".

Record PVC := {
  pvc_Meta : ObjectMeta;
  pvc_AccessModes : list string }.

(** ** labels.go *)

Definition LabelPool : string := "sandbox.jdix.io/pool".
Definition LabelTemplate : string := "sandbox.jdix.io/template".
Definition LabelTemplateHash : string := "sandbox.jdix.io/template-hash".
Definition LabelIsolationTier : string := "sandbox.jdix.io/isolation-tier".
Definition LabelState : string := "sandbox.jdix.io/state".
Definition LabelSandboxID : string := "sandbox.jdix.io/sandbox-id".
Definition LabelTenant : string := "sandbox.jdix.io/tenant".
Definition LabelManagedBy : string := "app.kubernetes.io/managed-by".
Definition AnnotationTierProbe : string := "sandbox.jdix.io/tier-probe".
Definition StateIdle : string := "idle".
Definition StateBound : string := "bound".
Definition StateDraining : string := "draining".
Definition ManagedBy : string := "jdix-controller".
Definition FinalizerSandbox : string := "sandbox.jdix.io/cleanup".

(** ** sandbox_types.go

    The CRD's filesystem types have the shape of the wire types of package api,
    which [filesystemFor] copies them into. *)

Module sbxv1.

Record Workspace := {
  ws_Path : string;
  ws_SizeLimit : string }.

Record MountSource := {
  src_Volume : string;
  src_SubPath : string }.

Record Mount := {
  m_Path : string;
  m_Source : MountSource;
  m_ReadOnly : bool }.

Record FilesystemSpec := {
  fs_Workspace : Workspace;
  fs_Mounts : list Mount;
  fs_AllowSystemPaths : list string;
  fs_Hide : list string }.

Definition TierFilesystem : string := "filesystem".
Definition TierUserns : string := "userns".
Definition TierCapAdmin : string := "capadmin".
Definition TierChroot : string := "chroot".

End sbxv1.

Definition IsolationTier : Type := string.
Definition SandboxPhase : Type := string.
Definition PhasePending : SandboxPhase := "Pending".
Definition PhaseBinding : SandboxPhase := "Binding".
Definition PhaseRunning : SandboxPhase := "Running".
Definition PhaseExpired : SandboxPhase := "Expired".
Definition PhaseFailed : SandboxPhase := "Failed".
Definition PhaseTerminating : SandboxPhase := "Terminating".

Record EnvVar := {
  env_Name : string;
  env_Value : string }.

Record SandboxSpec := {
  sp_TemplateRef : string;
  sp_TTLSeconds : Z;
  sp_Filesystem : sbxv1.FilesystemSpec;
  sp_Env : list EnvVar;
  sp_SecretRefs : list string;
  sp_Metadata : gmap string string }.

Record SandboxStatus := {
  ss_Phase : SandboxPhase;
  ss_PodName : string;
  ss_PodIP : string;
  ss_NodeName : string;
  ss_IsolationTier : IsolationTier;
  ss_ColdStart : bool;
  ss_Endpoint : string;
  ss_Token : string;
  ss_BoundAt : option Time;
  ss_ExpiresAt : option Time;
  ss_Reason : string;
  ss_Conditions : list Condition }.
Definition set_ss_Phase (v : SandboxPhase) (r : SandboxStatus) : SandboxStatus :=
  {| ss_Phase := v;
     ss_PodName := ss_PodName r;
     ss_PodIP := ss_PodIP r;
     ss_NodeName := ss_NodeName r;
     ss_IsolationTier := ss_IsolationTier r;
     ss_ColdStart := ss_ColdStart r;
     ss_Endpoint := ss_Endpoint r;
     ss_Token := ss_Token r;
     ss_BoundAt := ss_BoundAt r;
     ss_ExpiresAt := ss_ExpiresAt r;
     ss_Reason := ss_Reason r;
     ss_Conditions := ss_Conditions r |}.
Definition set_ss_PodName (v : string) (r : SandboxStatus) : SandboxStatus :=
  {| ss_Phase := ss_Phase r;
     ss_PodName := v;
     ss_PodIP := ss_PodIP r;
     ss_NodeName := ss_NodeName r;
     ss_IsolationTier := ss_IsolationTier r;
     ss_ColdStart := ss_ColdStart r;
     ss_Endpoint := ss_Endpoint r;
     ss_Token := ss_Token r;
     ss_BoundAt := ss_BoundAt r;
     ss_ExpiresAt := ss_ExpiresAt r;
     ss_Reason := ss_Reason r;
     ss_Conditions := ss_Conditions r |}.
Definition set_ss_PodIP (v : string) (r : SandboxStatus) : SandboxStatus :=
  {| ss_Phase := ss_Phase r;
     ss_PodName := ss_PodName r;
     ss_PodIP := v;
     ss_NodeName := ss_NodeName r;
     ss_IsolationTier := ss_IsolationTier r;
     ss_ColdStart := ss_ColdStart r;
     ss_Endpoint := ss_Endpoint r;
     ss_Token := ss_Token r;
     ss_BoundAt := ss_BoundAt r;
     ss_ExpiresAt := ss_ExpiresAt r;
     ss_Reason := ss_Reason r;
     ss_Conditions := ss_Conditions r |}.
Definition set_ss_NodeName (v : string) (r : SandboxStatus) : SandboxStatus :=
  {| ss_Phase := ss_Phase r;
     ss_PodName := ss_PodName r;
     ss_PodIP := ss_PodIP r;
     ss_NodeName := v;
     ss_IsolationTier := ss_IsolationTier r;
     ss_ColdStart := ss_ColdStart r;
     ss_Endpoint := ss_Endpoint r;
     ss_Token := ss_Token r;
     ss_BoundAt := ss_BoundAt r;
     ss_ExpiresAt := ss_ExpiresAt r;
     ss_Reason := ss_Reason r;
     ss_Conditions := ss_Conditions r |}.
Definition set_ss_IsolationTier (v : IsolationTier) (r : SandboxStatus) : SandboxStatus :=
  {| ss_Phase := ss_Phase r;
     ss_PodName := ss_PodName r;
     ss_PodIP := ss_PodIP r;
     ss_NodeName := ss_NodeName r;
     ss_IsolationTier := v;
     ss_ColdStart := ss_ColdStart r;
     ss_Endpoint := ss_Endpoint r;
     ss_Token := ss_Token r;
     ss_BoundAt := ss_BoundAt r;
     ss_ExpiresAt := ss_ExpiresAt r;
     ss_Reason := ss_Reason r;
     ss_Conditions := ss_Conditions r |}.
Definition set_ss_ColdStart (v : bool) (r : SandboxStatus) : SandboxStatus :=
  {| ss_Phase := ss_Phase r;
     ss_PodName := ss_PodName r;
     ss_PodIP := ss_PodIP r;
     ss_NodeName := ss_NodeName r;
     ss_IsolationTier := ss_IsolationTier r;
     ss_ColdStart := v;
     ss_Endpoint := ss_Endpoint r;
     ss_Token := ss_Token r;
     ss_BoundAt := ss_BoundAt r;
     ss_ExpiresAt := ss_ExpiresAt r;
     ss_Reason := ss_Reason r;
     ss_Conditions := ss_Conditions r |}.
Definition set_ss_Endpoint (v : string) (r : SandboxStatus) : SandboxStatus :=
  {| ss_Phase := ss_Phase r;
     ss_PodName := ss_PodName r;
     ss_PodIP := ss_PodIP r;
     ss_NodeName := ss_NodeName r;
     ss_IsolationTier := ss_IsolationTier r;
     ss_ColdStart := ss_ColdStart r;
     ss_Endpoint := v;
     ss_Token := ss_Token r;
     ss_BoundAt := ss_BoundAt r;
     ss_ExpiresAt := ss_ExpiresAt r;
     ss_Reason := ss_Reason r;
     ss_Conditions := ss_Conditions r |}.
Definition set_ss_Token (v : string) (r : SandboxStatus) : SandboxStatus :=
  {| ss_Phase := ss_Phase r;
     ss_PodName := ss_PodName r;
     ss_PodIP := ss_PodIP r;
     ss_NodeName := ss_NodeName r;
     ss_IsolationTier := ss_IsolationTier r;
     ss_ColdStart := ss_ColdStart r;
     ss_Endpoint := ss_Endpoint r;
     ss_Token := v;
     ss_BoundAt := ss_BoundAt r;
     ss_ExpiresAt := ss_ExpiresAt r;
     ss_Reason := ss_Reason r;
     ss_Conditions := ss_Conditions r |}.
Definition set_ss_BoundAt (v : option Time) (r : SandboxStatus) : SandboxStatus :=
  {| ss_Phase := ss_Phase r;
     ss_PodName := ss_PodName r;
     ss_PodIP := ss_PodIP r;
     ss_NodeName := ss_NodeName r;
     ss_IsolationTier := ss_IsolationTier r;
     ss_ColdStart := ss_ColdStart r;
     ss_Endpoint := ss_Endpoint r;
     ss_Token := ss_Token r;
     ss_BoundAt := v;
     ss_ExpiresAt := ss_ExpiresAt r;
     ss_Reason := ss_Reason r;
     ss_Conditions := ss_Conditions r |}.
Definition set_ss_ExpiresAt (v : option Time) (r : SandboxStatus) : SandboxStatus :=
  {| ss_Phase := ss_Phase r;
     ss_PodName := ss_PodName r;
     ss_PodIP := ss_PodIP r;
     ss_NodeName := ss_NodeName r;
     ss_IsolationTier := ss_IsolationTier r;
     ss_ColdStart := ss_ColdStart r;
     ss_Endpoint := ss_Endpoint r;
     ss_Token := ss_Token r;
     ss_BoundAt := ss_BoundAt r;
     ss_ExpiresAt := v;
     ss_Reason := ss_Reason r;
     ss_Conditions := ss_Conditions r |}.
Definition set_ss_Reason (v : string) (r : SandboxStatus) : SandboxStatus :=
  {| ss_Phase := ss_Phase r;
     ss_PodName := ss_PodName r;
     ss_PodIP := ss_PodIP r;
     ss_NodeName := ss_NodeName r;
     ss_IsolationTier := ss_IsolationTier r;
     ss_ColdStart := ss_ColdStart r;
     ss_Endpoint := ss_Endpoint r;
     ss_Token := ss_Token r;
     ss_BoundAt := ss_BoundAt r;
     ss_ExpiresAt := ss_ExpiresAt r;
     ss_Reason := v;
     ss_Conditions := ss_Conditions r |}.
Definition set_ss_Conditions (v : list Condition) (r : SandboxStatus) : SandboxStatus :=
  {| ss_Phase := ss_Phase r;
     ss_PodName := ss_PodName r;
     ss_PodIP := ss_PodIP r;
     ss_NodeName := ss_NodeName r;
     ss_IsolationTier := ss_IsolationTier r;
     ss_ColdStart := ss_ColdStart r;
     ss_Endpoint := ss_Endpoint r;
     ss_Token := ss_Token r;
     ss_BoundAt := ss_BoundAt r;
     ss_ExpiresAt := ss_ExpiresAt r;
     ss_Reason := ss_Reason r;
     ss_Conditions := v |}.

Record Sandbox := {
  sbx_Meta : ObjectMeta;
  sbx_Spec : SandboxSpec;
  sbx_Status : SandboxStatus }.
Definition set_sbx_Meta (v : ObjectMeta) (r : Sandbox) : Sandbox :=
  {| sbx_Meta := v;
     sbx_Spec := sbx_Spec r;
     sbx_Status := sbx_Status r |}.
Definition set_sbx_Status (v : SandboxStatus) (r : Sandbox) : Sandbox :=
  {| sbx_Meta := sbx_Meta r;
     sbx_Spec := sbx_Spec r;
     sbx_Status := v |}.

(** ** template_types.go *)

Definition EgressMode : Type := string.
Definition EgressOpen : EgressMode := "open".
Definition EgressRestricted : EgressMode := "restricted".
Definition EgressNone : EgressMode := "none".

Record ImageSpec := {
  img_Ref : string;
  img_Resolve : option bool;
  img_PullPolicy : string;
  img_PullSecretRef : option string }.

Definition ShouldResolve (i : ImageSpec) : bool :=
  match img_Resolve i with None => true | Some b => b end.

Record TemplateVolume := {
  tv_Name : string;
  tv_ClaimName : string;
  tv_MountPath : string;
  tv_ReadOnly : bool }.

Record NetworkSpec := {
  net_Egress : EgressMode;
  net_AllowCIDRs : list string;
  net_DenyCIDRs : list string;
  net_AllowedFQDN : list string }.

Record FilesystemDefaults := {
  fd_Workspace : sbxv1.Workspace;
  fd_AllowSystemPaths : list string }.

Record SandboxTemplateSpec := {
  ts_MinIsolationTier : IsolationTier;
  ts_FilesystemIsolation : string;
  ts_PodUserNamespace : option bool;
  ts_RuntimeClassName : string;
  ts_DefaultTTLSeconds : Z;
  ts_MaxTTLSeconds : Z;
  ts_Image : ImageSpec;
  ts_FilesystemDefaults : FilesystemDefaults;
  ts_Volumes : list TemplateVolume;
  ts_Network : NetworkSpec;
  ts_Resources : Opaque;
  ts_PodOverrides : option PodSpec }.

Definition AdmissionState : Type := string.
Definition AdmissionPending : AdmissionState := "Pending".
Definition AdmissionPendingReview : AdmissionState := "PendingReview".
Definition AdmissionApproved : AdmissionState := "Approved".
Definition AdmissionRejected : AdmissionState := "Rejected".

Record SandboxTemplateStatus := {
  tst_Hash : string;
  tst_Admission : AdmissionState;
  tst_AdmissionReason : string;
  tst_ResolvedDigest : string;
  tst_ResolvedRef : string;
  tst_ResolvedAt : option Time;
  tst_ImageBytes : Z;
  tst_ImagePinned : bool;
  tst_HasVolumes : bool }.
Definition set_tst_Hash (v : string) (r : SandboxTemplateStatus) : SandboxTemplateStatus :=
  {| tst_Hash := v;
     tst_Admission := tst_Admission r;
     tst_AdmissionReason := tst_AdmissionReason r;
     tst_ResolvedDigest := tst_ResolvedDigest r;
     tst_ResolvedRef := tst_ResolvedRef r;
     tst_ResolvedAt := tst_ResolvedAt r;
     tst_ImageBytes := tst_ImageBytes r;
     tst_ImagePinned := tst_ImagePinned r;
     tst_HasVolumes := tst_HasVolumes r |}.
Definition set_tst_Admission (v : AdmissionState) (r : SandboxTemplateStatus) : SandboxTemplateStatus :=
  {| tst_Hash := tst_Hash r;
     tst_Admission := v;
     tst_AdmissionReason := tst_AdmissionReason r;
     tst_ResolvedDigest := tst_ResolvedDigest r;
     tst_ResolvedRef := tst_ResolvedRef r;
     tst_ResolvedAt := tst_ResolvedAt r;
     tst_ImageBytes := tst_ImageBytes r;
     tst_ImagePinned := tst_ImagePinned r;
     tst_HasVolumes := tst_HasVolumes r |}.
Definition set_tst_AdmissionReason (v : string) (r : SandboxTemplateStatus) : SandboxTemplateStatus :=
  {| tst_Hash := tst_Hash r;
     tst_Admission := tst_Admission r;
     tst_AdmissionReason := v;
     tst_ResolvedDigest := tst_ResolvedDigest r;
     tst_ResolvedRef := tst_ResolvedRef r;
     tst_ResolvedAt := tst_ResolvedAt r;
     tst_ImageBytes := tst_ImageBytes r;
     tst_ImagePinned := tst_ImagePinned r;
     tst_HasVolumes := tst_HasVolumes r |}.
Definition set_tst_ResolvedDigest (v : string) (r : SandboxTemplateStatus) : SandboxTemplateStatus :=
  {| tst_Hash := tst_Hash r;
     tst_Admission := tst_Admission r;
     tst_AdmissionReason := tst_AdmissionReason r;
     tst_ResolvedDigest := v;
     tst_ResolvedRef := tst_ResolvedRef r;
     tst_ResolvedAt := tst_ResolvedAt r;
     tst_ImageBytes := tst_ImageBytes r;
     tst_ImagePinned := tst_ImagePinned r;
     tst_HasVolumes := tst_HasVolumes r |}.
Definition set_tst_ResolvedRef (v : string) (r : SandboxTemplateStatus) : SandboxTemplateStatus :=
  {| tst_Hash := tst_Hash r;
     tst_Admission := tst_Admission r;
     tst_AdmissionReason := tst_AdmissionReason r;
     tst_ResolvedDigest := tst_ResolvedDigest r;
     tst_ResolvedRef := v;
     tst_ResolvedAt := tst_ResolvedAt r;
     tst_ImageBytes := tst_ImageBytes r;
     tst_ImagePinned := tst_ImagePinned r;
     tst_HasVolumes := tst_HasVolumes r |}.
Definition set_tst_ResolvedAt (v : option Time) (r : SandboxTemplateStatus) : SandboxTemplateStatus :=
  {| tst_Hash := tst_Hash r;
     tst_Admission := tst_Admission r;
     tst_AdmissionReason := tst_AdmissionReason r;
     tst_ResolvedDigest := tst_ResolvedDigest r;
     tst_ResolvedRef := tst_ResolvedRef r;
     tst_ResolvedAt := v;
     tst_ImageBytes := tst_ImageBytes r;
     tst_ImagePinned := tst_ImagePinned r;
     tst_HasVolumes := tst_HasVolumes r |}.
Definition set_tst_ImageBytes (v : Z) (r : SandboxTemplateStatus) : SandboxTemplateStatus :=
  {| tst_Hash := tst_Hash r;
     tst_Admission := tst_Admission r;
     tst_AdmissionReason := tst_AdmissionReason r;
     tst_ResolvedDigest := tst_ResolvedDigest r;
     tst_ResolvedRef := tst_ResolvedRef r;
     tst_ResolvedAt := tst_ResolvedAt r;
     tst_ImageBytes := v;
     tst_ImagePinned := tst_ImagePinned r;
     tst_HasVolumes := tst_HasVolumes r |}.
Definition set_tst_ImagePinned (v : bool) (r : SandboxTemplateStatus) : SandboxTemplateStatus :=
  {| tst_Hash := tst_Hash r;
     tst_Admission := tst_Admission r;
     tst_AdmissionReason := tst_AdmissionReason r;
     tst_ResolvedDigest := tst_ResolvedDigest r;
     tst_ResolvedRef := tst_ResolvedRef r;
     tst_ResolvedAt := tst_ResolvedAt r;
     tst_ImageBytes := tst_ImageBytes r;
     tst_ImagePinned := v;
     tst_HasVolumes := tst_HasVolumes r |}.
Definition set_tst_HasVolumes (v : bool) (r : SandboxTemplateStatus) : SandboxTemplateStatus :=
  {| tst_Hash := tst_Hash r;
     tst_Admission := tst_Admission r;
     tst_AdmissionReason := tst_AdmissionReason r;
     tst_ResolvedDigest := tst_ResolvedDigest r;
     tst_ResolvedRef := tst_ResolvedRef r;
     tst_ResolvedAt := tst_ResolvedAt r;
     tst_ImageBytes := tst_ImageBytes r;
     tst_ImagePinned := tst_ImagePinned r;
     tst_HasVolumes := v |}.

Record SandboxTemplate := {
  tpl_Meta : ObjectMeta;
  tpl_Spec : SandboxTemplateSpec;
  tpl_Status : SandboxTemplateStatus }.
Definition set_tpl_Meta (v : ObjectMeta) (r : SandboxTemplate) : SandboxTemplate :=
  {| tpl_Meta := v;
     tpl_Spec := tpl_Spec r;
     tpl_Status := tpl_Status r |}.
Definition set_tpl_Status (v : SandboxTemplateStatus) (r : SandboxTemplate) : SandboxTemplate :=
  {| tpl_Meta := tpl_Meta r;
     tpl_Spec := tpl_Spec r;
     tpl_Status := v |}.

Definition RequiredIsolation (s : SandboxTemplateSpec) : IsolationTier :=
  if decide (ts_FilesystemIsolation s = "bwrap") then sbxv1.TierFilesystem
  else if decide (ts_MinIsolationTier s = "") then sbxv1.TierUserns
  else ts_MinIsolationTier s.

(** ** pool_types.go *)

Record AutoscaleSpec := {
  as_Enabled : bool;
  as_TargetIdleSeconds : Z }.

Record SandboxPoolSpec := {
  pl_TemplateRef : string;
  pl_Replicas : Z;
  pl_MinReplicas : Z;
  pl_MaxReplicas : Z;
  pl_Autoscale : AutoscaleSpec;
  pl_NotReadyTimeoutSeconds : Z;
  pl_IdleTTLSeconds : Z;
  pl_MaxSurge : Z }.

Record SandboxPoolStatus := {
  pls_IdleByTier : gmap string Z;
  pls_Idle : Z;
  pls_Bound : Z;
  pls_Stale : Z;
  pls_NotReady : Z;
  pls_TemplateHash : string }.

Record SandboxPool := {
  pool_Meta : ObjectMeta;
  pool_Spec : SandboxPoolSpec;
  pool_Status : SandboxPoolStatus }.
Definition set_pool_Status (v : SandboxPoolStatus) (r : SandboxPool) : SandboxPool :=
  {| pool_Meta := pool_Meta r;
     pool_Spec := pool_Spec r;
     pool_Status := v |}.
