(* ===== verification/PodSpec.v ===== *)
(** * Rendering the sandbox Pod (controller/podspec.go)

    [BuildPod], [buildPodSpec] and their helpers, the image-reference functions
    of [imageresolver.go] and [template_controller.go] they rely on, and
    [PodToken].  Marshalling a Pod spec, SHA-256 and Kubernetes quantities are
    third-party code: the class [Vendor] holds them as parameters. *)
From S2P Require Import Prelude GoStrings Api Bwrap Crd.
Open Scope string_scope.

(** ** Image references *)

(** [i] is where ["@sha256:"] starts and the digest has the right length. *)
Definition sha256_prefix : string := "@sha256:".
Definition digest_length : nat := 7 + 64.

Definition splitRef (ref : string) : string * string :=
  match index_of ref sha256_prefix with
  | Some i =>
      let d := drop_string (S i) ref in
      if (String.length d =? digest_length)%nat then (take_string i ref, d) else (ref, "")
  | None => (ref, "")
  end.

Definition digestOf (ref : string) : string :=
  match index_of ref sha256_prefix with
  | None => ""
  | Some i =>
      let d := drop_string (S i) ref in
      if negb (String.length d =? digest_length)%nat then "" else d
  end.

(** [i > j] on the results of [strings.LastIndex], where absent is -1. *)
Definition index_gt (i j : option nat) : bool :=
  match i, j with
  | None, _ => false
  | Some _, None => true
  | Some a, Some b => (b <? a)%nat
  end.

Definition pinned (ref digest : string) : string :=
  let '(repo, existing) := splitRef ref in
  if negb (bool_decide (existing = "")) then ref
  else
    let repo :=
      match last_index_byte repo ":"%char with
      | Some i =>
          if index_gt (Some i) (last_index_byte repo slash) then take_string i repo else repo
      | None => repo
      end in
    repo +:+ "@" +:+ digest.

Definition registryOf (ref : string) : string :=
  let ref := match index_byte ref "@"%char with Some i => take_string i ref | None => ref end in
  let '(first, _, ok) := cut ref slash in
  if negb ok then "docker.io"
  else if negb (contains_byte first "."%char || contains_byte first ":"%char)
          && negb (bool_decide (first = "localhost"))
  then "docker.io"
  else first.

(** ** Constants *)

Record PlatformImage := { pi_Ref : string; pi_PullPolicy : string }.
Definition PortData : Z := 8080.
Definition PortControl : Z := 8081.
Definition ControlTokenEnv : string := "JDIX_CONTROL_TOKEN".
Definition installStagingPath : string := "/mnt/jdix".
Definition UnmaskedProcMount : string := "Unmasked".
Definition PullIfNotPresent : string := "IfNotPresent".

(** ** Volumes and mounts *)

Definition volumeMountPath (l : Layout) (v : TemplateVolume) : string :=
  if negb (bool_decide (tv_MountPath v = "")) then tv_MountPath v
  else path_join [VolumeRoot l; tv_Name v].

Fixpoint volumeArgs_from (l : Layout) (i : nat) (out : string) (vs : list TemplateVolume) : string :=
  match vs with
  | [] => out
  | v :: vs' =>
      let out := if (0 <? i)%nat then out +:+ "," else out in
      volumeArgs_from l (S i) (out +:+ tv_Name v +:+ "=" +:+ volumeMountPath l v) vs'
  end.
Definition VolumeArgs (l : Layout) (t : SandboxTemplate) : string :=
  volumeArgs_from l 0 "" (ts_Volumes (tpl_Spec t)).

Definition installerMounts (l : Layout) : list VolumeMount :=
  [{| vm_Name := "jdix-bin"; vm_MountPath := installStagingPath; vm_ReadOnly := false |};
   {| vm_Name := "jdix-state"; vm_MountPath := StateRoot; vm_ReadOnly := false |}].

Definition platformMounts (l : Layout) : list VolumeMount :=
  [{| vm_Name := "jdix-bin"; vm_MountPath := PlatformRoot; vm_ReadOnly := false |};
   {| vm_Name := "jdix-state"; vm_MountPath := StateRoot; vm_ReadOnly := false |}].

Definition templateVolumeMounts (l : Layout) (t : SandboxTemplate) : list VolumeMount :=
  map (fun v => {| vm_Name := "vol-" +:+ tv_Name v;
                   vm_MountPath := volumeMountPath l v;
                   vm_ReadOnly := tv_ReadOnly v |}) (ts_Volumes (tpl_Spec t)).

Definition procMountFor (wantsUserns : bool) : option string :=
  if negb wantsUserns then None else Some UnmaskedProcMount.

Definition pullPolicyFor (t : SandboxTemplate) : string :=
  let p := img_PullPolicy (ts_Image (tpl_Spec t)) in
  if negb (bool_decide (p = "")) then p else PullIfNotPresent.

Definition ImageRef (t : SandboxTemplate) : string :=
  let d := tst_ResolvedDigest (tpl_Status t) in
  if negb (bool_decide (d = "")) then pinned (img_Ref (ts_Image (tpl_Spec t))) d
  else img_Ref (ts_Image (tpl_Spec t)).

Definition optionalString (s : string) : option string :=
  if bool_decide (s = "") then None else Some s.

Definition mergeOverrides (spec o : PodSpec) : PodSpec :=
  let spec := match pod_NodeSelector o with
              | Some v => set_pod_NodeSelector (Some v) spec | None => spec end in
  let spec := match pod_Tolerations o with
              | Some v => set_pod_Tolerations (Some v) spec | None => spec end in
  let spec := match pod_Affinity o with
              | Some v => set_pod_Affinity (Some v) spec | None => spec end in
  let spec := if negb (bool_decide (pod_PriorityClassName o = ""))
              then set_pod_PriorityClassName (pod_PriorityClassName o) spec else spec in
  if negb (bool_decide (pod_SchedulerName o = ""))
  then set_pod_SchedulerName (pod_SchedulerName o) spec else spec.

(** ** Third-party code *)

Class Vendor := {
  (** [json.Marshal] of a [corev1.PodSpec]; [None] is an error. *)
  marshal_podspec : PodSpec -> option string;
  (** [hex.EncodeToString(sha256.Sum256(b))] *)
  sha256_hex : string -> string;
  (** [resource.ParseQuantity] *)
  parse_quantity : string -> option Opaque }.

Section Build.
Context `{Vendor}.

Definition podVolumes (l : Layout) (t : SandboxTemplate) : list Volume :=
  let sizeLimit := sbxv1.ws_SizeLimit (fd_Workspace (ts_FilesystemDefaults (tpl_Spec t))) in
  let sizeLimit := if bool_decide (sizeLimit = "") then "2Gi" else sizeLimit in
  let limit := parse_quantity sizeLimit in
  ([{| vol_Name := "jdix-bin"; vol_Source := EmptyDir None |};
    {| vol_Name := "jdix-state"; vol_Source := EmptyDir limit |}] ++
   map (fun v => {| vol_Name := "vol-" +:+ tv_Name v;
                    vol_Source := PersistentVolumeClaim (tv_ClaimName v) (tv_ReadOnly v) |})
     (ts_Volumes (tpl_Spec t)))%list.

Definition noEscalation (procMount : option string) : ContainerSecurity :=
  {| cs_AllowPrivilegeEscalation := Some false; cs_Drop := ["ALL"]; cs_ProcMount := procMount |}.

Definition installScript (l : Layout) : string :=
  "set -e; cp -a " +:+ PlatformRoot +:+ "/* " +:+ installStagingPath +:+ "/; mkdir -p "
  +:+ WorkspaceDir l +:+ " " +:+ VolumeRoot l +:+ " " +:+ IPCDir l
  +:+ "; chmod 700 " +:+ IPCDir l +:+ "; test -x " +:+ installStagingPath +:+ "/bin/jdix-execd".

Definition installer (platform : PlatformImage) (l : Layout) : Container :=
  {| c_Name := "jdix-installer";
     c_Image := pi_Ref platform;
     c_ImagePullPolicy := pi_PullPolicy platform;
     c_Command := ["/bin/sh"; "-c"];
     c_Args := [installScript l];
     c_Env := [];
     c_Ports := [];
     c_Resources := "";
     c_VolumeMounts := installerMounts l;
     c_Security := noEscalation None;
     c_ReadinessProbe := None |}.

Definition sandboxContainer (t : SandboxTemplate) (l : Layout) (token : string)
    (wantsUserns : bool) : Container :=
  {| c_Name := "sandbox";
     c_Image := ImageRef t;
     c_ImagePullPolicy := pullPolicyFor t;
     c_Command := [path_join [PlatformRoot; "bin"; "jdix-execd"]];
     c_Args := ["--data-addr=:" +:+ itoa PortData;
                "--control-addr=:" +:+ itoa PortControl;
                "--bwrap=" +:+ path_join [PlatformRoot; "bin"; "bwrap"];
                "--volumes=" +:+ VolumeArgs l t];
     c_Env := [{| ev_Name := ControlTokenEnv; ev_Value := token |}];
     c_Ports := [("data", PortData); ("control", PortControl)];
     c_Resources := ts_Resources (tpl_Spec t);
     c_VolumeMounts := (platformMounts l ++ templateVolumeMounts l t)%list;
     c_Security := noEscalation (procMountFor wantsUserns);
     c_ReadinessProbe := Some {| pr_Path := "/internal/v1/probe"; pr_Port := PortControl;
                                 pr_InitialDelaySeconds := 1; pr_PeriodSeconds := 2;
                                 pr_FailureThreshold := 30 |} |}.

Definition filesystem_mode (t : SandboxTemplate) : bool :=
  bool_decide (ts_FilesystemIsolation (tpl_Spec t) = "bwrap").
Definition wants_userns (t : SandboxTemplate) : bool :=
  negb (filesystem_mode t) && bool_decide (RequiredIsolation (tpl_Spec t) = sbxv1.TierUserns).

Definition basePodSpec (t : SandboxTemplate) (platform : PlatformImage) (l : Layout)
    (token : string) : PodSpec :=
  let wantsUserns := wants_userns t in
  {| pod_RestartPolicy := "Never";
     pod_AutomountServiceAccountToken := Some false;
     pod_RuntimeClassName := optionalString (ts_RuntimeClassName (tpl_Spec t));
     pod_TerminationGracePeriodSeconds := Some 10%Z;
     pod_SecurityContext :=
       Some {| ps_RunAsNonRoot := Some true;
               ps_RunAsUser := Some 1000%Z;
               ps_RunAsGroup := Some 1000%Z;
               ps_FSGroup := Some 1000%Z;
               ps_Seccomp := Some (if wantsUserns then SeccompUnconfined
                                   else SeccompRuntimeDefault) |};
     pod_InitContainers := [installer platform l];
     pod_Containers := [sandboxContainer t l token wantsUserns];
     pod_Volumes := podVolumes l t;
     pod_HostUsers := None;
     pod_HostNetwork := false;
     pod_HostPID := false;
     pod_ImagePullSecrets := [];
     pod_NodeName := "";
     pod_NodeSelector := None;
     pod_Tolerations := None;
     pod_Affinity := None;
     pod_PriorityClassName := "";
     pod_SchedulerName := "" |}.

(** [spec.SecurityContext.SeccompProfile = p] *)
Definition set_seccomp (p : SeccompProfile) (spec : PodSpec) : PodSpec :=
  set_pod_SecurityContext (option_map (set_ps_Seccomp (Some p)) (pod_SecurityContext spec)) spec.
(** [spec.Containers[0].Args = append(spec.Containers[0].Args, arg)] *)
Definition append_arg (arg : string) (spec : PodSpec) : PodSpec :=
  match pod_Containers spec with
  | c :: cs => set_pod_Containers (set_c_Args (c_Args c ++ [arg])%list c :: cs) spec
  | [] => spec
  end.

Definition buildPodSpec (t : SandboxTemplate) (platform : PlatformImage) (l : Layout)
    (token : string) : PodSpec :=
  let spec := basePodSpec t platform l token in
  let spec := if wants_userns t then set_pod_HostUsers (Some false) spec else spec in
  let spec :=
    if filesystem_mode t then
      let spec := set_pod_HostUsers
        (Some (match ts_PodUserNamespace (tpl_Spec t) with
               | Some b => negb b | None => true end)) spec in
      let spec := set_seccomp (SeccompLocalhost "jdix/bwrap-setup.json") spec in
      append_arg "--filesystem-isolation=bwrap" spec
    else spec in
  let spec := match img_PullSecretRef (ts_Image (tpl_Spec t)) with
              | Some s => set_pod_ImagePullSecrets [s] spec
              | None => spec
              end in
  match ts_PodOverrides (tpl_Spec t) with
  | Some o => mergeOverrides spec o
  | None => spec
  end.

Definition TemplateHash (t : SandboxTemplate) (platform : PlatformImage) (l : Layout) : string :=
  match marshal_podspec (buildPodSpec t platform l "") with
  | None => "unhashable"
  | Some b => take_string 12 (sha256_hex b)
  end.

Definition BuildPod (t : SandboxTemplate) (pool : string) (platform : PlatformImage)
    (l : Layout) (token : string) : Pod :=
  let hash := TemplateHash t platform l in
  {| pod_Meta :=
       {| om_Name := "";
          om_GenerateName := om_Name (tpl_Meta t) +:+ "-" +:+ hash +:+ "-";
          om_Namespace := om_Namespace (tpl_Meta t);
          om_Labels := {[ LabelPool := pool;
                          LabelTemplate := om_Name (tpl_Meta t);
                          LabelTemplateHash := hash;
                          LabelState := StateIdle;
                          LabelManagedBy := ManagedBy ]};
          om_Annotations := ∅;
          om_ResourceVersion := 0;
          om_UID := "";
          om_CreationTimestamp := 0%Z;
          om_DeletionTimestamp := None;
          om_Finalizers := [];
          om_OwnerReferences := [] |};
     pod_Spec := buildPodSpec t platform l token;
     pod_Status := {| pst_Phase := ""; pst_PodIP := ""; pst_Reason := "";
                      pst_Conditions := [] |} |}.
End Build.

(** The loops of [PodToken]: the first matching entry of the first container
    that has one. *)
Definition PodToken (p : Pod) : string :=
  match List.find (fun e => bool_decide (ev_Name e = ControlTokenEnv))
          (concat (map c_Env (pod_Containers (pod_Spec p)))) with
  | Some e => ev_Value e
  | None => ""
  end.

(** ** What overrides can and cannot change *)

(** The template without its escape hatch. *)
Definition without_overrides (t : SandboxTemplate) : SandboxTemplate :=
  let s := tpl_Spec t in
  {| tpl_Meta := tpl_Meta t;
     tpl_Spec :=
       {| ts_MinIsolationTier := ts_MinIsolationTier s;
          ts_FilesystemIsolation := ts_FilesystemIsolation s;
          ts_PodUserNamespace := ts_PodUserNamespace s;
          ts_RuntimeClassName := ts_RuntimeClassName s;
          ts_DefaultTTLSeconds := ts_DefaultTTLSeconds s;
          ts_MaxTTLSeconds := ts_MaxTTLSeconds s;
          ts_Image := ts_Image s;
          ts_FilesystemDefaults := ts_FilesystemDefaults s;
          ts_Volumes := ts_Volumes s;
          ts_Network := ts_Network s;
          ts_Resources := ts_Resources s;
          ts_PodOverrides := None |};
     tpl_Status := tpl_Status t |}.

(** Forget the five scheduling fields. *)
Definition unscheduled (s : PodSpec) : PodSpec :=
  set_pod_NodeSelector None (set_pod_Tolerations None (set_pod_Affinity None
    (set_pod_PriorityClassName "" (set_pod_SchedulerName "" s)))).

Lemma unscheduled_merge s o : unscheduled (mergeOverrides s o) = unscheduled s.
Proof.
  unfold mergeOverrides. destruct (pod_NodeSelector o), (pod_Tolerations o), (pod_Affinity o);
    by repeat case_bool_decide.
Qed.

(** The security floor of a rendered Pod. *)
Record floor (t : SandboxTemplate) (s : PodSpec) : Prop := {
  fl_token : pod_AutomountServiceAccountToken s = Some false;
  fl_host : pod_HostNetwork s = false /\ pod_HostPID s = false;
  fl_nonroot : exists sc, pod_SecurityContext s = Some sc /\ ps_RunAsNonRoot sc = Some true /\
               ps_RunAsUser sc = Some 1000%Z /\ exists p, ps_Seccomp sc = Some p /\
               (p = SeccompUnconfined -> pod_HostUsers s = Some false);
  fl_containers : forall c, c ∈ (pod_InitContainers s ++ pod_Containers s)%list ->
    cs_AllowPrivilegeEscalation (c_Security c) = Some false /\ cs_Drop (c_Security c) = ["ALL"] /\
    (cs_ProcMount (c_Security c) = None \/ pod_HostUsers s = Some false);
  fl_volumes : forall v, v ∈ pod_Volumes s ->
    (exists lim, vol_Source v = EmptyDir lim) \/
    exists tv, tv ∈ ts_Volumes (tpl_Spec t) /\
      vol_Source v = PersistentVolumeClaim (tv_ClaimName tv) (tv_ReadOnly tv) }.

Section Floor.
Context `{Vendor}.

Lemma floor_unscheduled t s1 s2 : unscheduled s1 = unscheduled s2 -> floor t s1 -> floor t s2.
Proof.
  intros E [H1 H2 H3 H4 H5]. destruct s1, s2. unfold unscheduled in E. cbn in E.
  injection E as; subst. by constructor.
Qed.

Lemma podVolumes_floor l t v :
  v ∈ podVolumes l t ->
  (exists lim, vol_Source v = EmptyDir lim) \/
  exists tv, tv ∈ ts_Volumes (tpl_Spec t) /\
    vol_Source v = PersistentVolumeClaim (tv_ClaimName tv) (tv_ReadOnly tv).
Proof.
  intros [Hv|Hv]%elem_of_app.
  - left. apply list_elem_of_In in Hv. destruct Hv as [<-|[<-|[]]]; by eexists.
  - right. apply list_elem_of_fmap in Hv as (tv & -> & Hin). by exists tv.
Qed.

Lemma wants_userns_not_fs t : wants_userns t = true -> filesystem_mode t = false.
Proof. unfold wants_userns. destruct (filesystem_mode t); done. Qed.

(** The floor holds for any Pod of the rendered shape, given what its seccomp
    profile and /proc mask ask of the user namespace. *)
Lemma floor_shape t spec platform l seccomp procMount :
  pod_AutomountServiceAccountToken spec = Some false ->
  pod_HostNetwork spec = false -> pod_HostPID spec = false ->
  pod_SecurityContext spec =
    Some {| ps_RunAsNonRoot := Some true; ps_RunAsUser := Some 1000%Z;
            ps_RunAsGroup := Some 1000%Z; ps_FSGroup := Some 1000%Z;
            ps_Seccomp := Some seccomp |} ->
  pod_InitContainers spec = [installer platform l] ->
  pod_Volumes spec = podVolumes l t ->
  (exists c, pod_Containers spec = [c] /\ c_Security c = noEscalation procMount) ->
  (seccomp = SeccompUnconfined \/ procMount <> None -> pod_HostUsers spec = Some false) ->
  floor t spec.
Proof.
  intros H1 H2 H3 H4 H5 H6 (c & H7 & Hs) H8. constructor; [done|done| | |].
  - rewrite H4. eexists. split; [done|]. split; [done|]. split; [done|].
    exists seccomp. split; [done|]. auto.
  - rewrite H5, H7. intros c' Hin. apply list_elem_of_In in Hin.
    destruct Hin as [<-|[<-|[]]]; [cbn; auto|]. cbn. rewrite Hs. cbn.
    split; [done|]. split; [done|]. destruct procMount; [right; auto|by left].
  - rewrite H6. apply podVolumes_floor.
Qed.

Lemma build_floor_plain t platform l token :
  floor t (buildPodSpec (without_overrides t) platform l token).
Proof.
  unfold buildPodSpec, basePodSpec. cbn [ts_PodOverrides tpl_Spec without_overrides].
  change (wants_userns (without_overrides t)) with (wants_userns t).
  change (filesystem_mode (without_overrides t)) with (filesystem_mode t).
  pose proof (wants_userns_not_fs t) as Hfs.
  destruct (wants_userns t); [rewrite Hfs by done|destruct (filesystem_mode t)];
    destruct (img_PullSecretRef _);
    (eapply floor_shape; [reflexivity..|eexists; split; reflexivity|by intros [?|?]]).
Qed.

Lemma build_unscheduled t platform l token :
  unscheduled (buildPodSpec t platform l token) =
  unscheduled (buildPodSpec (without_overrides t) platform l token).
Proof.
  unfold buildPodSpec. cbn [ts_PodOverrides tpl_Spec without_overrides].
  destruct (ts_PodOverrides (tpl_Spec t)) as [o|]; [apply unscheduled_merge|done].
Qed.

(** C13: a template's [podOverrides] reach only the five scheduling fields: all
    else is as if there were none, and whatever the template says the Pod keeps
    its security floor: no service-account token, no host namespaces, non-root,
    no privilege escalation and no capability in any container, an unconfined
    seccomp profile or unmasked /proc only inside a Pod user namespace, and no
    volume but empty directories and the template's declared claims. *)
Theorem overrides_keep_floor t platform l token :
  unscheduled (buildPodSpec t platform l token) =
    unscheduled (buildPodSpec (without_overrides t) platform l token) /\
  floor t (buildPodSpec t platform l token).
Proof.
  split; [apply build_unscheduled|].
  eapply floor_unscheduled; [|apply build_floor_plain]. symmetry. apply build_unscheduled.
Qed.
End Floor.

(** ** Tokens and references *)

Section Tokens.
Context `{Vendor}.

(** The control token of a Pod is the one it was built with, and nothing
    outside that environment entry depends on it: name, labels (the template
    hash among them) and every other part of the spec are the same for any two
    tokens. *)
Theorem BuildPod_token t pool platform l token1 token2 :
  PodToken (BuildPod t pool platform l token1) = token1 /\
  pod_Meta (BuildPod t pool platform l token1) = pod_Meta (BuildPod t pool platform l token2) /\
  set_pod_Containers
      (map (set_c_Env []) (pod_Containers (pod_Spec (BuildPod t pool platform l token1))))
      (pod_Spec (BuildPod t pool platform l token1)) =
    set_pod_Containers
      (map (set_c_Env []) (pod_Containers (pod_Spec (BuildPod t pool platform l token2))))
      (pod_Spec (BuildPod t pool platform l token2)).
Proof.
  assert (Hm : forall s o, pod_Containers (mergeOverrides s o) = pod_Containers s).
  { intros s o. unfold mergeOverrides.
    destruct (pod_NodeSelector o), (pod_Tolerations o), (pod_Affinity o);
      by repeat case_bool_decide. }
  split; [|split; [reflexivity|]].
  - unfold PodToken, BuildPod. cbn [pod_Spec]. unfold buildPodSpec.
    destruct (ts_PodOverrides (tpl_Spec t)); rewrite ?Hm;
      destruct (img_PullSecretRef _), (filesystem_mode t), (wants_userns t); reflexivity.
  - unfold BuildPod. cbn [pod_Spec]. unfold buildPodSpec.
    destruct (ts_PodOverrides (tpl_Spec t)) as [o|]; rewrite ?Hm;
      [unfold mergeOverrides; destruct (pod_NodeSelector o), (pod_Tolerations o), (pod_Affinity o);
         do 2 destruct (negb (bool_decide _))|];
      destruct (img_PullSecretRef _), (filesystem_mode t), (wants_userns t); reflexivity.
Qed.
End Tokens.

Lemma pinned_form ref d :
  no_byte "@"%char ref ->
  exists repo, pinned ref d = repo +:+ "@" +:+ d /\ no_byte "@"%char repo /\
    registryOf repo = registryOf ref.
Proof.
  intros H. unfold pinned, splitRef, sha256_prefix. rewrite index_of_none by done. cbn [negb].
  rewrite bool_decide_eq_true_2 by done. cbn [negb].
  destruct (last_index_byte ref ":"%char) as [i|] eqn:Ei; [|by exists ref].
  destruct (index_gt (Some i) (last_index_byte ref slash)) eqn:Eg; [|by exists ref].
  exists (take_string i ref). split; [done|]. split; [by apply no_byte_take|].
  unfold registryOf. rewrite !(proj2 (index_byte_none _ _)) by (done || by apply no_byte_take).
  destruct (last_index_byte ref slash) as [j|] eqn:Ej.
  - cbn in Eg. apply Nat.ltb_lt in Eg.
    apply last_index_byte_some in Ej as (l & r & -> & <- & _).
    rewrite take_app_ge by lia.
    replace (i - String.length l)%nat with (S (i - String.length l - 1)) by lia.
    cbn [take_string].
    destruct (cut_first l (take_string (i - String.length l - 1) r) r slash) as [E1 E2].
    destruct (cut_first l r r slash) as [_ E3].
    destruct (cut _ slash) as [[a b] ok], (cut _ slash) as [[a' b'] ok']. cbn in *. by subst.
  - apply last_index_byte_none in Ej.
    rewrite !cut_none by (done || by apply no_byte_take). done.
Qed.

(** Pinning a reference written with a tag gives a reference that carries
    exactly the resolved digest, names the same registry, and is left alone by
    any later pinning. *)
Theorem pinned_digest ref h d' :
  no_byte "@"%char ref -> String.length h = 64%nat ->
  digestOf (pinned ref ("sha256:" +:+ h)) = "sha256:" +:+ h /\
  registryOf (pinned ref ("sha256:" +:+ h)) = registryOf ref /\
  pinned (pinned ref ("sha256:" +:+ h)) d' = pinned ref ("sha256:" +:+ h).
Proof.
  intros H Hh. destruct (pinned_form ref ("sha256:" +:+ h) H) as (repo & -> & Hr & Hreg).
  assert (Hi : index_of (repo +:+ "@" +:+ "sha256:" +:+ h) sha256_prefix = Some (String.length repo))
    by by apply (index_of_app "@"%char "sha256:" repo h).
  assert (Hd : drop_string (S (String.length repo)) (repo +:+ "@" +:+ "sha256:" +:+ h)
               = "sha256:" +:+ h).
  { clear. induction repo as [|a repo IH]; [done|]. exact IH. }
  assert (Hl : (String.length ("sha256:" +:+ h) =? digest_length)%nat = true).
  { rewrite length_app_str, Hh. done. }
  split; [|split].
  - unfold digestOf. by rewrite Hi, Hd, Hl.
  - rewrite <-Hreg. unfold registryOf.
    change ("@" +:+ "sha256:" +:+ h) with (String "@" ("sha256:" +:+ h)).
    rewrite (index_byte_app repo ("sha256:" +:+ h) "@"%char) by done.
    rewrite (proj2 (index_byte_none repo _)) by done. by rewrite take_length_app.
  - unfold pinned at 1. unfold splitRef. rewrite Hi, Hd, Hl.
    by rewrite bool_decide_eq_false_2 by done.
Qed.

Lemma pinned_digest_wit :
  String.length "0123456789abcdef0123456789abcdef0123456789abcdef0123456789abcdef" = 64%nat /\
  registryOf (pinned "reg.io:5000/py:3.12"
    ("sha256:" +:+ "0123456789abcdef0123456789abcdef0123456789abcdef0123456789abcdef")) = "reg.io:5000".
Proof.
  split; [reflexivity|].
  destruct (pinned_digest "reg.io:5000/py:3.12"
              "0123456789abcdef0123456789abcdef0123456789abcdef0123456789abcdef" "") as (_ & H & _).
  - cbn. repeat split; discriminate.
  - reflexivity.
  - rewrite H. reflexivity.
Defined.
