(* ===== verification/Kube.v ===== *)
(** * The controllers' world: Kubernetes, execd and the clock

    A reconciler is a program [K A] over the calls it makes ([CtlE]): the
    Kubernetes client, the execd client ([Binder], [Prober]), the clock, the
    random sources.  What the calls answer is not the controllers' code, so two
    readings are given to a program: [exec] (every sequence of calls and
    answers, whatever the answers are) and [wp] (a state changed by the calls as
    a relation [sem] allows).

    For [wp] the state is the API server's store of Pods.  [KubeLaws] states
    what the code relies on: reads return some version of an object, a
    [resourceVersion] determines the version, a write succeeds only on the
    stored version, and between any two calls other clients may take steps of
    their own ([env]). *)
From S2P Require Import Prelude Calls GoStrings Api Bwrap Crd PodSpec.
Open Scope string_scope.

(** ** Errors of the client (apierrors) *)

Inductive ErrKind := NotFound | Conflict | OtherError.
#[export] Instance ErrKind_eq_dec : EqDecision ErrKind.
Proof. solve_decision. Defined.
Record KErr := { ke_Kind : ErrKind; ke_Msg : string }.
Definition IsNotFound (e : KErr) : bool := bool_decide (ke_Kind e = NotFound).
Definition IsConflict (e : KErr) : bool := bool_decide (ke_Kind e = Conflict).
(** [client.IgnoreNotFound] *)
Definition IgnoreNotFound (e : option KErr) : option KErr :=
  match e with Some e' => if IsNotFound e' then None else Some e' | None => None end.
Definition error_of {A} (r : result KErr A) : option KErr :=
  match r with Ok _ => None | Err e => Some e end.
Definition plain_error (msg : string) : KErr := {| ke_Kind := OtherError; ke_Msg := msg |}.

(** ** How to reach a Pod (execdclient.go) *)

Record PodRef := { ref_Namespace : string; ref_Name : string; ref_IP : string; ref_Token : string }.
Definition PodRef_string (p : PodRef) : string :=
  if negb (bool_decide (ref_Namespace p = "")) && negb (bool_decide (ref_Name p = ""))
  then ref_Namespace p +:+ "/" +:+ ref_Name p +:+ " (" +:+ ref_IP p +:+ ")"
  else ref_IP p.

(** What a registry answered for an image (imageresolver.go). *)
Record ResolvedImage := { ri_Digest : string; ri_Bytes : Z }.
Inductive ResolveError := ErrImageNotFound (msg : string) | ResolveFailed (msg : string).

(** ** Calls *)

Inductive CtlE : Type -> Type :=
| GetSandbox (k : ObjectKey) : CtlE (result KErr Sandbox)
| GetTemplate (k : ObjectKey) : CtlE (result KErr SandboxTemplate)
| GetPool (k : ObjectKey) : CtlE (result KErr SandboxPool)
| GetPVC (k : ObjectKey) : CtlE (result KErr PVC)
| GetPod (k : ObjectKey) : CtlE (result KErr Pod)
| ListPods (ns : string) (labels : gmap string string) : CtlE (result KErr (list Pod))
| UpdateSandbox (s : Sandbox) : CtlE (result KErr Sandbox)
| UpdateSandboxStatus (s : Sandbox) : CtlE (result KErr Sandbox)
| UpdateTemplateStatus (t : SandboxTemplate) : CtlE (result KErr SandboxTemplate)
| UpdatePoolStatus (p : SandboxPool) : CtlE (result KErr SandboxPool)
| UpdatePod (p : Pod) : CtlE (result KErr Pod)
| CreatePod (p : Pod) : CtlE (result KErr Pod)
| DeletePod (p : Pod) : CtlE (result KErr unit)
| Bind (r : PodRef) (b : BindRequest) : CtlE (result string BindResponse)
| Unbind (r : PodRef) : CtlE (result string unit)
| ProbePod (r : PodRef) : CtlE (result string (Tier * string))
| ResolveImage (ref : string) (secrets : list string) (ns : string)
    : CtlE (result ResolveError ResolvedImage)
| Now : CtlE Time
| NewToken : CtlE string
| NewControlToken : CtlE string
| Shuffle (ps : list Pod) : CtlE (list Pod).

Abbreviation K := (Prog CtlE).

(** ** Executions: calls with their answers *)

Inductive Ev : Type :=
| EvGetSandbox (k : ObjectKey) (res : result KErr Sandbox)
| EvGetTemplate (k : ObjectKey) (res : result KErr SandboxTemplate)
| EvGetPool (k : ObjectKey) (res : result KErr SandboxPool)
| EvGetPVC (k : ObjectKey) (res : result KErr PVC)
| EvGetPod (k : ObjectKey) (res : result KErr Pod)
| EvListPods (ns : string) (sel : gmap string string) (res : result KErr (list Pod))
| EvUpdateSandbox (s : Sandbox) (res : result KErr Sandbox)
| EvUpdateSandboxStatus (s : Sandbox) (res : result KErr Sandbox)
| EvUpdateTemplateStatus (t : SandboxTemplate) (res : result KErr SandboxTemplate)
| EvUpdatePoolStatus (p : SandboxPool) (res : result KErr SandboxPool)
| EvUpdatePod (p : Pod) (res : result KErr Pod)
| EvCreatePod (p : Pod) (res : result KErr Pod)
| EvDeletePod (p : Pod) (res : result KErr unit)
| EvBind (ref : PodRef) (b : BindRequest) (res : result string BindResponse)
| EvUnbind (ref : PodRef) (res : result string unit)
| EvProbePod (ref : PodRef) (res : result string (Tier * string))
| EvResolveImage (ref : string) (secrets : list string) (ns : string) (res : result ResolveError ResolvedImage)
| EvNow (res : Time)
| EvNewToken (res : string)
| EvNewControlToken (res : string)
| EvShuffle (ps : list Pod) (res : list Pod).
Definition E {R} (e : CtlE R) : R -> Ev :=
  match e in CtlE R return R -> Ev with
  | GetSandbox k => EvGetSandbox k
  | GetTemplate k => EvGetTemplate k
  | GetPool k => EvGetPool k
  | GetPVC k => EvGetPVC k
  | GetPod k => EvGetPod k
  | ListPods ns sel => EvListPods ns sel
  | UpdateSandbox s => EvUpdateSandbox s
  | UpdateSandboxStatus s => EvUpdateSandboxStatus s
  | UpdateTemplateStatus t => EvUpdateTemplateStatus t
  | UpdatePoolStatus p => EvUpdatePoolStatus p
  | UpdatePod p => EvUpdatePod p
  | CreatePod p => EvCreatePod p
  | DeletePod p => EvDeletePod p
  | Bind ref b => EvBind ref b
  | Unbind ref => EvUnbind ref
  | ProbePod ref => EvProbePod ref
  | ResolveImage ref secrets ns => EvResolveImage ref secrets ns
  | Now => EvNow
  | NewToken => EvNewToken
  | NewControlToken => EvNewControlToken
  | Shuffle ps => EvShuffle ps
  end.

Fixpoint exec {A} (p : K A) (l : list Ev) (a : A) : Prop :=
  match p with
  | Ret b => l = [] /\ a = b
  | Vis e k => exists r l', l = E e r :: l' /\ exec (k r) l' a
  end.

Lemma exec_bind {A B} (p : K A) (f : A -> K B) l b :
  exec (p ≫= f) l b <-> exists l1 l2 a, l = (l1 ++ l2)%list /\ exec p l1 a /\ exec (f a) l2 b.
Proof.
  unfold mbind, K_bind. revert l. induction p as [a|R e k IH]; intros l; cbn.
  - split.
    + intros H. by exists [], l, a.
    + by intros (l1 & l2 & a' & -> & (-> & ->) & H).
  - split.
    + intros (r & l' & -> & H). apply IH in H as (l1 & l2 & a & -> & H1 & H2).
      exists (E e r :: l1), l2, a. split; [done|]. split; [|done]. eauto.
    + intros (l1 & l2 & a & -> & (r & l' & -> & H1) & H2).
      exists r, (l' ++ l2)%list. split; [done|]. apply IH. eauto 10.
Qed.
Lemma exec_call {R B} (e : CtlE R) (f : R -> K B) l b :
  exec (call e ≫= f) l b <-> exists r l', l = E e r :: l' /\ exec (f r) l' b.
Proof. done. Qed.

(** ** Deterministic answers *)

(** The run of a program whose calls are answered by a function. *)
Definition Answers : Type := forall R, CtlE R -> R.
Fixpoint run {A} (ans : Answers) (p : K A) : A * list Ev :=
  match p with
  | Ret a => (a, [])
  | Vis e k => let '(a, l) := run ans (k (ans _ e)) in (a, E e (ans _ e) :: l)
  end.
Lemma run_exec {A} ans (p : K A) : exec p (snd (run ans p)) (fst (run ans p)).
Proof.
  induction p as [a|R e k IH]; cbn; [done|].
  destruct (run ans (k (ans R e))) as [a l] eqn:Er. cbn. exists (ans R e), l.
  specialize (IH (ans R e)). by rewrite Er in IH.
Qed.
Lemma run_bind {A B} ans (p : K A) (f : A -> K B) :
  run ans (p ≫= f) =
  let '(a, l) := run ans p in let '(b, l') := run ans (f a) in (b, (l ++ l')%list).
Proof.
  unfold mbind, K_bind. induction p as [a|R e k IH]; cbn; [by destruct (run ans (f a))|].
  rewrite IH. destruct (run ans (k (ans R e))) as [a l]. by destruct (run ans (f a)).
Qed.

(** ** Rules over executions

    [safe P h p Q]: after the calls [h], every further call [ev] of [p] obeys
    [P] given the calls before it, and [Q] holds of the calls and the result at
    the end. *)
Fixpoint safe {A} (P : list Ev -> Ev -> Prop) (h : list Ev) (p : K A)
    (Q : list Ev -> A -> Prop) : Prop :=
  match p with
  | Ret a => Q h a
  | Vis e k => forall r, P h (E e r) /\ safe P (h ++ [E e r]) (k r) Q
  end.

Lemma safe_bind {A B} P h (p : K A) (f : A -> K B) Q :
  safe P h p (fun h' a => safe P h' (f a) Q) -> safe P h (p ≫= f) Q.
Proof.
  revert h. unfold mbind, K_bind. induction p as [a|R e k IH]; intros h; cbn; [done|].
  intros H r. destruct (H r) as [H1 H2]. split; [done|]. by apply IH.
Qed.
Lemma safe_mono {A} P h (p : K A) (Q Q' : list Ev -> A -> Prop) :
  (forall h' a, Q h' a -> Q' h' a) -> safe P h p Q -> safe P h p Q'.
Proof.
  intros HQ. revert h. induction p as [a|R e k IH]; intros h; cbn; [auto|].
  intros H r. destruct (H r). split; [done|]. by apply IH.
Qed.
(** The calls only grow. *)
Lemma safe_history {A} P h (p : K A) (Q : list Ev -> A -> Prop) :
  safe P h p Q -> safe P h p (fun h' a => Q h' a /\ exists l, h' = (h ++ l)%list).
Proof.
  revert h. induction p as [a|R e k IH]; intros h; cbn.
  - intros HQ. split; [done|]. exists []. by rewrite app_nil_r.
  - intros H r. destruct (H r) as [H1 H2]. split; [done|].
    eapply safe_mono; [|by apply IH]. intros h' a [HQ [l ->]]. split; [done|].
    rewrite <-app_assoc. eauto.
Qed.

(** A rule every call of every execution obeys. *)
Definition obeys {A} (P : list Ev -> Ev -> Prop) (p : K A) : Prop :=
  forall l a l1 ev l2, exec p l a -> l = (l1 ++ ev :: l2)%list -> P l1 ev.

Lemma safe_exec {A} P h (p : K A) Q l a :
  safe P h p Q -> exec p l a ->
  Q (h ++ l)%list a /\ forall l1 ev l2, l = (l1 ++ ev :: l2)%list -> P (h ++ l1)%list ev.
Proof.
  revert h l. induction p as [b|R e k IH]; intros h l; cbn.
  - intros HQ [-> ->]. rewrite app_nil_r. split; [done|]. by intros [|].
  - intros H (r & l' & -> & Hl). destruct (H r) as [H1 H2].
    destruct (IH r _ _ H2 Hl) as [HQ HP]. rewrite <-app_assoc in HQ. split; [done|].
    intros [|ev1 l1] ev l2 E; injection E as <- E.
    + by rewrite app_nil_r.
    + specialize (HP l1 ev l2 E). by rewrite <-app_assoc in HP.
Qed.
Lemma safe_obeys {A} P (p : K A) Q : safe P [] p Q -> obeys P p.
Proof.
  intros Hs l a l1 ev l2 He E. destruct (safe_exec P [] p Q l a Hs He) as [_ H].
  by apply (H l1 ev l2).
Qed.

Lemma safe_call {A R} P h (e : CtlE R) (f : R -> K A) Q :
  (forall r, P h (E e r)) -> (forall r, safe P (h ++ [E e r]) (f r) Q) ->
  safe P h (call e ≫= f) Q.
Proof. intros H1 H2 r. split; [apply H1|apply H2]. Qed.
Lemma safe_ret {A B} P h (a : A) (f : A -> K B) Q :
  safe P h (f a) Q -> safe P h (mret a ≫= f) Q.
Proof. done. Qed.

Lemma safe_mret {A} P h (a : A) (Q : list Ev -> A -> Prop) : Q h a -> safe P h (mret a) Q.
Proof. done. Qed.
(** A part whose end says nothing, in front of the rest. *)
Lemma safe_then {A B} P h (p : K A) (f : A -> K B) Q :
  safe P h p (fun _ _ => True) -> (forall h' a, safe P h' (f a) Q) -> safe P h (p ≫= f) Q.
Proof.
  intros Hp Hf. apply safe_bind. eapply safe_mono; [|exact Hp]. intros h' a _. apply Hf.
Qed.
Lemma safe_post {A} P h (p : K A) (Q : list Ev -> A -> Prop) :
  safe P h p (fun _ _ => True) -> (forall h' a, Q h' a) -> safe P h p Q.
Proof. intros Hp HQ. eapply safe_mono; [|exact Hp]. intros h' a _. apply HQ. Qed.

(** A call is among those made so far. *)
Ltac in_calls :=
  first
  [ assumption
  | apply list_elem_of_singleton; reflexivity
  | solve [apply elem_of_app; right; in_calls]
  | solve [apply elem_of_app; left; in_calls] ].

Create HintDb safe.

(** Symbolic execution of a program under a rule: [tac] closes what the rule
    asks of a call. *)
Ltac run_with tac :=
  repeat (cbv zeta; first
  [ exact I
  | solve [eauto with safe nocore]
  | apply safe_then; [solve [eauto with safe nocore]|intros ? ?]
  | apply safe_post; [solve [eauto with safe nocore]|intros ? ?; cbv beta]
  | match goal with
    | |- safe _ _ (mbind _ (call _)) _ => apply safe_call; [intros ?; cbn; tac|intros ?]
    | |- safe _ _ (mbind _ (mret _)) _ => apply safe_ret
    | |- safe _ _ (mret _) _ => apply safe_mret; cbv beta
    | |- safe _ _ (Ret _) _ => apply safe_mret; cbv beta
    | |- safe _ _ (mbind _ (mbind _ _)) _ => apply safe_bind
    | |- safe _ _ (mbind _ (match ?x with _ => _ end)) _ => destruct x eqn:?
    | |- safe _ _ (match ?x with _ => _ end) _ => destruct x eqn:?
    | |- safe _ _ (call _) _ => intros ?; split; [cbn; tac|]
    end ]).

(** ** The store of Pods *)

(** Who a Pod is bound to, as its labels say. *)
Definition binding (p : Pod) : option string :=
  if decide (om_Labels (pod_Meta p) !! LabelState = Some StateBound)
  then om_Labels (pod_Meta p) !! LabelSandboxID else None.
Definition pod_rv (p : Pod) : Z := om_ResourceVersion (pod_Meta p).
Definition pod_uid (p : Pod) : string := om_UID (pod_Meta p).
Definition pod_key (p : Pod) : ObjectKey := meta_key (pod_Meta p).

Record Server := {
  srv_pods : gmap ObjectKey Pod;
  srv_rev : Z;
  srv_uids : gset string }.

(** One atomic change of the store that leaves every binding in place: Pods
    may be created under a new UID, deleted, or rewritten under a new version
    without touching a binding that was made. *)
Inductive step (s s' : Server) : Prop :=
| step_create k p :
    srv_pods s !! k = None -> pod_uid p ∉ srv_uids s -> (srv_rev s < pod_rv p)%Z ->
    s' = {| srv_pods := <[k := p]> (srv_pods s); srv_rev := pod_rv p;
            srv_uids := {[pod_uid p]} ∪ srv_uids s |} -> step s s'
| step_update k p q :
    srv_pods s !! k = Some p -> pod_uid q = pod_uid p -> (srv_rev s < pod_rv q)%Z ->
    (forall id, binding p = Some id -> binding q = Some id) ->
    s' = {| srv_pods := <[k := q]> (srv_pods s); srv_rev := pod_rv q;
            srv_uids := srv_uids s |} -> step s s'
| step_delete k :
    s' = {| srv_pods := base.delete k (srv_pods s); srv_rev := srv_rev s;
            srv_uids := srv_uids s |} -> step s s'.
Definition env : Server -> Server -> Prop := rtc step.

(** [p] is a version of its object the server stored at some time: if its
    [resourceVersion] is the stored one, so is its content. *)
Definition version_of (s : Server) (p : Pod) : Prop :=
  (pod_rv p <= srv_rev s)%Z /\
  forall q, srv_pods s !! pod_key p = Some q -> pod_rv q = pod_rv p -> q = p.
Definition wf_server (s : Server) : Prop :=
  forall k p, srv_pods s !! k = Some p -> (pod_rv p <= srv_rev s)%Z /\ pod_uid p ∈ srv_uids s.

Lemma step_version s s' p : step s s' -> version_of s p -> version_of s' p.
Proof.
  intros Hs [Hle Hv]. destruct Hs as [k q Hk _ Hrev ->|k q q' Hk _ Hrev _ ->|k ->]; cbn.
  - split; [cbn; lia|]. intros r. cbn. destruct (decide (k = pod_key p)) as [->|Hne].
    + rewrite lookup_insert_eq. intros [= <-] E. lia.
    + rewrite lookup_insert_ne by done. apply Hv.
  - split; [cbn; lia|]. intros r. cbn. destruct (decide (k = pod_key p)) as [->|Hne].
    + rewrite lookup_insert_eq. intros [= <-] E. lia.
    + rewrite lookup_insert_ne by done. apply Hv.
  - split; [done|]. intros r. cbn. intros [_ H]%lookup_delete_Some. by apply Hv.
Qed.
Lemma env_version s s' p : env s s' -> version_of s p -> version_of s' p.
Proof. induction 1; eauto using step_version. Qed.

Lemma step_wf s s' : step s s' -> wf_server s -> wf_server s'.
Proof.
  intros Hs Hw. destruct Hs as [k q Hk _ Hrev ->|k q q' Hk Hu Hrev _ ->|k ->]; intros k' p; cbn.
  - intros [[<- <-]|[_ H]]%lookup_insert_Some; [split; [lia|set_solver]|].
    destruct (Hw _ _ H). split; [lia|set_solver].
  - intros [[<- <-]|[_ H]]%lookup_insert_Some.
    + destruct (Hw _ _ Hk). split; [lia|]. by rewrite Hu.
    + destruct (Hw _ _ H). split; [lia|done].
  - intros [_ H]%lookup_delete_Some. apply (Hw _ _ H).
Qed.

Lemma env_wf s s' : env s s' -> wf_server s -> wf_server s'.
Proof. induction 1; eauto using step_wf. Qed.

(** What a binding promises over any run of the store: a Pod bound to a
    sandbox, as long as that very Pod exists, stays bound to it. *)
Definition bound_to (s : Server) (k : ObjectKey) (uid id : string) : Prop :=
  uid ∈ srv_uids s /\
  forall p, srv_pods s !! k = Some p -> pod_uid p = uid -> binding p = Some id.

Lemma step_bound s s' k uid id : step s s' -> bound_to s k uid id -> bound_to s' k uid id.
Proof.
  intros Hs [Hu Hb]. destruct Hs as [k' q Hk Hf Hrev ->|k' q q' Hk Hq Hrev Hbind ->|k' ->].
  - split; [set_solver|]. cbn. intros p [[-> <-]|[_ H]]%lookup_insert_Some E; [|by apply Hb].
    exfalso. apply Hf. by rewrite E.
  - split; [done|]. cbn. intros p [[-> <-]|[_ H]]%lookup_insert_Some E; [|by apply Hb].
    apply Hbind, Hb; congruence.
  - split; [done|]. cbn. intros p [_ H]%lookup_delete_Some. by apply Hb.
Qed.
Lemma env_bound s s' k uid id : env s s' -> bound_to s k uid id -> bound_to s' k uid id.
Proof. induction 1; eauto using step_bound. Qed.

(** ** Programs over the store *)

Definition Sem : Type := forall R, CtlE R -> Server -> R -> Server -> Prop.

Section Programs.
Context (sem : Sem).

Abbreviation wp := (wp sem).

(** The calls that write to Pods. *)
Definition pod_write {R} (e : CtlE R) : bool :=
  match e with UpdatePod _ | CreatePod _ | DeletePod _ => true | _ => false end.

Definition updated (s : Server) (p q : Pod) (s' : Server) : Prop :=
  exists p0, srv_pods s !! pod_key p = Some p0 /\ pod_rv p0 = pod_rv p /\
    pod_uid q = pod_uid p0 /\ pod_key q = pod_key p /\
    om_Labels (pod_Meta q) = om_Labels (pod_Meta p) /\ (srv_rev s < pod_rv q)%Z /\
    s' = {| srv_pods := <[pod_key p := q]> (srv_pods s); srv_rev := pod_rv q;
            srv_uids := srv_uids s |}.
Definition created (s : Server) (p q : Pod) (s' : Server) : Prop :=
  srv_pods s !! pod_key q = None /\ (pod_uid q ∉ srv_uids s) /\
  om_Labels (pod_Meta q) = om_Labels (pod_Meta p) /\ (srv_rev s < pod_rv q)%Z /\
  s' = {| srv_pods := <[pod_key q := q]> (srv_pods s); srv_rev := pod_rv q;
          srv_uids := {[pod_uid q]} ∪ srv_uids s |}.

(** What the controllers rely on the API server and its client for.  Every
    call may be preceded by steps of others; an error other than a conflict or
    "not found" leaves open whether the write happened. *)
Class KubeLaws : Prop := {
  law_read R (e : CtlE R) s r s' : pod_write e = false -> sem R e s r s' -> env s s';
  law_delete p s r s' : sem _ (DeletePod p) s r s' -> env s s';
  law_get_pod k s p s' :
    sem _ (GetPod k) s (Ok p) s' -> version_of s' p /\ pod_key p = k;
  law_list_pods ns sel s ps s' p :
    sem _ (ListPods ns sel) s (Ok ps) s' -> p ∈ ps ->
    version_of s' p /\ om_Namespace (pod_Meta p) = ns /\ sel ⊆ om_Labels (pod_Meta p);
  law_shuffle ps s ps' s' : sem _ (Shuffle ps) s ps' s' -> ps' ≡ₚ ps;
  law_update_pod p s r s' :
    sem _ (UpdatePod p) s r s' -> exists s1, env s s1 /\
      match r with
      | Ok q => updated s1 p q s'
      | Err e => s' = s1 \/ (ke_Kind e = OtherError /\ exists q, updated s1 p q s')
      end;
  law_create_pod p s r s' :
    sem _ (CreatePod p) s r s' -> exists s1, env s s1 /\
      match r with
      | Ok q => created s1 p q s'
      | Err e => s' = s1 \/ (ke_Kind e = OtherError /\ exists q, created s1 p q s')
      end }.

Context {laws : KubeLaws}.

Lemma created_step s p q s' : created s p q s' -> step s s'.
Proof. intros (H1 & H2 & _ & H3 & ->). by eapply step_create. Qed.
Lemma create_env p s r s' : sem _ (CreatePod p) s r s' -> env s s'.
Proof.
  intros (s1 & He & H)%law_create_pod. etrans; [done|].
  destruct r as [q|e]; [by eapply rtc_once, created_step|].
  destruct H as [->|(_ & q & H)]; [done|by eapply rtc_once, created_step].
Qed.

Lemma binding_labels p q :
  om_Labels (pod_Meta q) = om_Labels (pod_Meta p) -> binding q = binding p.
Proof. unfold binding. by intros ->. Qed.

(** Rewriting a version of a Pod without touching its binding is a step: the
    version check is what makes stale reads harmless. *)
Lemma updated_step s p p' q s' :
  version_of s p -> pod_key p' = pod_key p -> pod_rv p' = pod_rv p ->
  (forall id, binding p = Some id -> binding p' = Some id) ->
  updated s p' q s' -> step s s'.
Proof.
  intros [_ Hv] Hk Hrv Hb (p0 & H0 & Hrv0 & Hu & _ & Hl & Hr & ->).
  assert (p0 = p) as -> by (apply Hv; congruence).
  eapply step_update; [done|done|done| |done].
  intros id Hid. rewrite (binding_labels p') by done. auto.
Qed.
Lemma update_env p p' s r s' :
  version_of s p -> pod_key p' = pod_key p -> pod_rv p' = pod_rv p ->
  (forall id, binding p = Some id -> binding p' = Some id) ->
  sem _ (UpdatePod p') s r s' -> env s s'.
Proof.
  intros Hv Hk Hrv Hb (s1 & He & H)%law_update_pod. etrans; [done|].
  eapply env_version in Hv; [|exact He].
  destruct r as [q|e]; [by eapply rtc_once, updated_step|].
  destruct H as [->|(_ & q & H)]; [done|by eapply rtc_once, updated_step].
Qed.

(** A program that, knowing the Pods of [vs] to be stored versions, takes the
    store only through steps that keep every binding. *)
Definition keeps (vs : list Pod) {A} (p : K A) : Prop :=
  forall s, Forall (version_of s) vs -> wp p s (fun _ s' => env s s').

Lemma keeps_ret vs {A} (a : A) : keeps vs (Ret a).
Proof. intros s _. apply rtc_refl. Qed.
Lemma keeps_vis vs {R A} (e : CtlE R) (k : R -> K A) :
  (forall r s s', Forall (version_of s) vs -> sem R e s r s' -> env s s') ->
  (forall r, keeps vs (k r)) -> keeps vs (Vis e k).
Proof.
  intros He Hk s Hv r s' Hs. specialize (He r s s' Hv Hs).
  eapply wp_mono; [|apply Hk]; [intros a s'' H; cbn in H; by etrans|].
  eapply List.Forall_impl; [|exact Hv]. intros p. by apply env_version.
Qed.
Lemma keeps_bind vs {A B} (p : K A) (f : A -> K B) :
  keeps vs p -> (forall a, keeps vs (f a)) -> keeps vs (p ≫= f).
Proof.
  intros Hp Hf s Hv. apply wp_bind. eapply wp_mono; [|by apply Hp].
  intros a s' He. cbn in He. eapply wp_mono; [|apply Hf]; [intros b s'' H; cbn in H; by etrans|].
  eapply List.Forall_impl; [|exact Hv]. intros q. by apply env_version.
Qed.
(** Every call but an update keeps all bindings by itself. *)
Lemma keeps_call vs {R} (e : CtlE R) :
  match e with UpdatePod _ => False | _ => True end -> keeps vs (call e).
Proof.
  intros He. apply keeps_vis; [|intros r; apply keeps_ret]. intros r s s' _ Hs.
  destruct e; try done; try (eapply law_read; [|exact Hs]; reflexivity).
  - by eapply create_env.
  - by eapply law_delete.
Qed.
Lemma keeps_weaken vs p {A} (q : K A) : keeps vs q -> keeps (p :: vs) q.
Proof. intros H s Hv. apply H. by inversion Hv. Qed.

(** Reading a Pod, or a list of them, makes its version known. *)
Lemma keeps_get_pod vs {A} k (f : result KErr Pod -> K A) :
  (forall p, pod_key p = k -> keeps (p :: vs) (f (Ok p))) ->
  (forall e, keeps vs (f (Err e))) -> keeps vs (call (GetPod k) ≫= f).
Proof.
  intros Hok Herr s Hv r s' Hs.
  assert (He : env s s') by (eapply law_read; [|exact Hs]; reflexivity).
  assert (Hv' : Forall (version_of s') vs).
  { eapply List.Forall_impl; [|exact Hv]. intros p. by apply env_version. }
  destruct r as [p|e].
  - apply law_get_pod in Hs as [Hp Hk].
    eapply wp_mono; [|apply (Hok p Hk); by constructor]. intros a s'' H. cbn in H. by etrans.
  - eapply wp_mono; [|by apply Herr]. intros a s'' H. cbn in H. by etrans.
Qed.
Lemma keeps_list_pods vs {A} ns sel (f : result KErr (list Pod) -> K A) :
  (forall ps, (forall p, p ∈ ps -> sel ⊆ om_Labels (pod_Meta p)) -> keeps (ps ++ vs) (f (Ok ps))) ->
  (forall e, keeps vs (f (Err e))) -> keeps vs (call (ListPods ns sel) ≫= f).
Proof.
  intros Hok Herr s Hv r s' Hs.
  assert (He : env s s') by (eapply law_read; [|exact Hs]; reflexivity).
  assert (Hv' : Forall (version_of s') vs).
  { eapply List.Forall_impl; [|exact Hv]. intros p. by apply env_version. }
  destruct r as [ps|e].
  - eapply wp_mono; [|apply (Hok ps)].
    + intros a s'' H. cbn in H. by etrans.
    + intros p Hp. by eapply law_list_pods in Hp as (_ & _ & ?).
    + apply Forall_app. split; [|done]. apply Forall_forall. intros p Hp.
      by eapply law_list_pods in Hp as (? & _).
  - eapply wp_mono; [|by apply Herr]. intros a s'' H. cbn in H. by etrans.
Qed.
Lemma keeps_shuffle vs {A} ps (f : list Pod -> K A) :
  (forall ps', ps' ≡ₚ ps -> keeps vs (f ps')) -> keeps vs (call (Shuffle ps) ≫= f).
Proof.
  intros Hf s Hv r s' Hs. pose proof (law_shuffle _ _ _ _ Hs) as Hp.
  assert (He : env s s') by (eapply law_read; [|exact Hs]; reflexivity).
  eapply wp_mono; [|apply (Hf r Hp)]; [intros a s'' H; cbn in H; by etrans|].
  eapply List.Forall_impl; [|exact Hv]. intros p. by apply env_version.
Qed.
Lemma keeps_update vs p p' :
  p ∈ vs -> pod_key p' = pod_key p -> pod_rv p' = pod_rv p ->
  (forall id, binding p = Some id -> binding p' = Some id) ->
  keeps vs (call (UpdatePod p')).
Proof.
  intros Hin Hk Hrv Hb. apply keeps_vis; [|intros r; apply keeps_ret]. intros r s s' Hv Hs.
  rewrite Forall_forall in Hv. eapply update_env; eauto.
Qed.

(** A call that writes no Pod only lets others run. *)
Lemma wp_read {R A} (e : CtlE R) (k : R -> K A) s0 s Q :
  pod_write e = false -> env s0 s ->
  (forall r s', sem R e s r s' -> env s0 s' -> wp (k r) s' Q) ->
  wp (call e ≫= k) s Q.
Proof.
  intros He H0 H r s' Hs. apply (H r s' Hs). etrans; [done|]. by eapply law_read.
Qed.
End Programs.
Arguments law_list_pods {sem KubeLaws}.

(** A program keeps bindings by its shape. *)
Create HintDb keeps.
Ltac keeps_step :=
  first
  [ solve [eauto with keeps]
  | apply keeps_ret
  | apply keeps_call; [assumption|exact I]
  | apply keeps_bind; [|intros ?]
  | match goal with
    | |- keeps _ _ (match ?x with _ => _ end) => destruct x
    | |- keeps _ _ (if ?x then _ else _) => destruct x
    | |- keeps _ _ (let _ := _ in _) => cbv zeta
    end ].
Ltac keeps := repeat keeps_step.
