(* ===== verification/SandboxCtl.v ===== *)
(** * The Sandbox reconciler (controller/sandbox_controller.go)

    [SandboxReconciler.Reconcile] and every function it calls, as programs over
    the calls of [Kube].  The Go object behind [sbx] is threaded as a value;
    the value a successful [Update] writes back replaces it.  Logging is left
    out.  [controllerutil.SetControllerReference] and
    [meta.SetStatusCondition] are third-party code (class [ControllerUtil]). *)
From S2P Require Import Prelude Calls GoStrings Api Bwrap Crd PodSpec Kube.
Open Scope string_scope.

(** ** Third-party helpers *)

Class ControllerUtil := {
  (** [controllerutil.SetControllerReference(owner, obj, scheme)]: an error, or
      the object with new owner references. *)
  set_controller_reference : OwnerReference -> ObjectMeta -> result string ObjectMeta;
  set_controller_reference_meta o m m' :
    set_controller_reference o m = Ok m' ->
    exists refs, m' = set_om_OwnerReferences refs m;
  (** [meta.SetStatusCondition] *)
  set_status_condition : list Condition -> Condition -> list Condition }.

(** [controllerutil.ContainsFinalizer], [AddFinalizer], [RemoveFinalizer]. *)
Definition contains_finalizer (m : ObjectMeta) (f : string) : bool :=
  bool_decide (f ∈ om_Finalizers m).
Definition add_finalizer (f : string) (m : ObjectMeta) : ObjectMeta :=
  if contains_finalizer m f then m else set_om_Finalizers (om_Finalizers m ++ [f])%list m.
Definition remove_finalizer (f : string) (m : ObjectMeta) : ObjectMeta :=
  set_om_Finalizers (filter (fun g => g <> f) (om_Finalizers m)) m.

(** ** Pure parts *)

Definition requeueBinding : Z := 150 * millisecond.
Definition conflictRetry : Z := 50 * millisecond.

(** [(ctrl.Result, error)]: how long to wait before the next pass (0: no
    requeue), and the error. *)
Definition Outcome : Type := Z * option KErr.
Definition requeueOnConflict (err : option KErr) : Outcome :=
  match err with
  | Some e => if IsConflict e then (conflictRetry, None) else (0%Z, Some e)
  | None => (0%Z, None)
  end.

Definition ttlFor (sbx : Sandbox) (tpl : SandboxTemplate) : Z :=
  let want := sp_TTLSeconds (sbx_Spec sbx) in
  let want := if (want =? 0)%Z then ts_DefaultTTLSeconds (tpl_Spec tpl) else want in
  let want := if (want =? 0)%Z then 1800%Z else want in
  let max := ts_MaxTTLSeconds (tpl_Spec tpl) in
  if (want <? 0)%Z then
    if (0 <? max)%Z then seconds max else 0%Z
  else
    let want := if (0 <? max)%Z && (max <? want)%Z then max else want in
    seconds want.

Definition filesystemFor (sbx : Sandbox) (tpl : SandboxTemplate) : FilesystemSpec :=
  let fs := sp_Filesystem (sbx_Spec sbx) in
  let defaults := ts_FilesystemDefaults (tpl_Spec tpl) in
  let path := sbxv1.ws_Path (sbxv1.fs_Workspace fs) in
  let path := if bool_decide (path = "") then sbxv1.ws_Path (fd_Workspace defaults) else path in
  let path := if bool_decide (path = "") then DefaultWorkspacePath else path in
  let sys := match sbxv1.fs_AllowSystemPaths fs with
             | [] => fd_AllowSystemPaths defaults
             | sys => sys
             end in
  {| fs_Workspace := {| ws_Path := path;
                        ws_SizeLimit := sbxv1.ws_SizeLimit (sbxv1.fs_Workspace fs) |};
     fs_Mounts := map (fun m => {| m_Path := sbxv1.m_Path m;
                                   m_Source := {| src_Volume := sbxv1.src_Volume (sbxv1.m_Source m);
                                                  src_SubPath := sbxv1.src_SubPath (sbxv1.m_Source m) |};
                                   m_ReadOnly := sbxv1.m_ReadOnly m |}) (sbxv1.fs_Mounts fs);
     fs_AllowSystemPaths := sys;
     fs_Hide := sbxv1.fs_Hide fs |}.

(** The last entry of a name wins, as in Go's map assignment. *)
Definition envFor (sbx : Sandbox) : gmap string string :=
  fold_left (fun out e => <[env_Name e := env_Value e]> out) (sp_Env (sbx_Spec sbx)) ∅.

Definition podRef (p : Pod) : PodRef :=
  {| ref_Namespace := om_Namespace (pod_Meta p);
     ref_Name := om_Name (pod_Meta p);
     ref_IP := pst_PodIP (pod_Status p);
     ref_Token := PodToken p |}.

Definition podReady (p : Pod) : bool :=
  if negb (bool_decide (pst_Phase (pod_Status p) = PodRunning)) then false
  else match List.find (fun c => bool_decide (fst c = PodReady)) (pst_Conditions (pod_Status p)) with
       | Some c => bool_decide (snd c = ConditionTrue)
       | None => false
       end.

(** ** The reconciler *)

Record SandboxReconciler := {
  sr_Layout : Layout;
  sr_Platform : PlatformImage;
  sr_HasBinder : bool;
  sr_EndpointFor : option (string -> string) }.

Definition sandbox_owner (sbx : Sandbox) : OwnerReference :=
  {| or_Kind := "Sandbox"; or_Name := om_Name (sbx_Meta sbx); or_UID := om_UID (sbx_Meta sbx);
     or_Controller := true |}.

(** [sbx.Status = f(sbx.Status)] *)
Definition on_status (f : SandboxStatus -> SandboxStatus) (sbx : Sandbox) : Sandbox :=
  set_sbx_Status (f (sbx_Status sbx)) sbx.
Definition on_meta (f : ObjectMeta -> ObjectMeta) (p : Pod) : Pod :=
  set_pod_Meta (f (pod_Meta p)) p.

Section Reconciler.
Context `{Vendor} `{ControllerUtil}.
Context (r : SandboxReconciler).

Definition template (sbx : Sandbox) : K (result KErr SandboxTemplate) :=
  let ns := om_Namespace (sbx_Meta sbx) in
  let name := sp_TemplateRef (sbx_Spec sbx) in
  res ← call (GetTemplate (ns, name));
  mret match res with
       | Err e =>
           if IsNotFound e
           then Err (plain_error ("template " +:+ quote name +:+ " does not exist in namespace " +:+ ns))
           else Err e
       | Ok t => Ok t
       end.

Definition fail (sbx : Sandbox) (reason msg : string) : K Outcome :=
  let sbx := on_status (fun st =>
    set_ss_Token "" (set_ss_Reason (reason +:+ ": " +:+ msg) (set_ss_Phase PhaseFailed st))) sbx in
  res ← call (UpdateSandboxStatus sbx);
  mret (requeueOnConflict (error_of res)).

Definition findClaimedPod (sbx : Sandbox) : K (result KErr (option Pod)) :=
  res ← call (ListPods (om_Namespace (sbx_Meta sbx)) {[ LabelSandboxID := om_Name (sbx_Meta sbx) ]});
  mret match res with
       | Err e => Err e
       | Ok pods => Ok (List.find (fun p => negb (deleting (pod_Meta p))) pods)
       end.

(** The filter of [claimWarmPod]'s first loop. *)
Definition candidate (tpl : SandboxTemplate) (p : Pod) : bool :=
  let tier := label (pod_Meta p) LabelIsolationTier in
  if negb (podReady p) || deleting (pod_Meta p) then false
  else if bool_decide (tier = "") || negb (AtLeast tier (RequiredIsolation (tpl_Spec tpl))) then false
  else if bool_decide (PodToken p = "") then false
  else true.

(** [pod.Labels] of a Pod that becomes this sandbox's. *)
Definition claim_labels (sbx : Sandbox) (m : ObjectMeta) : ObjectMeta :=
  let m := set_label LabelState StateBound m in
  let m := set_label LabelSandboxID (om_Name (sbx_Meta sbx)) m in
  let tenant := label (sbx_Meta sbx) LabelTenant in
  if negb (bool_decide (tenant = "")) then set_label LabelTenant tenant m else m.

(** The second loop: take the first candidate whose update goes through. *)
Fixpoint claim_first (sbx : Sandbox) (candidates : list Pod) : K (result KErr (option Pod)) :=
  match candidates with
  | [] => mret (Ok None)
  | pod :: rest =>
      let m := set_om_OwnerReferences [] (claim_labels sbx (pod_Meta pod)) in
      match set_controller_reference (sandbox_owner sbx) m with
      | Err e => mret (Err (plain_error e))
      | Ok m =>
          res ← call (UpdatePod (set_pod_Meta m pod));
          match res with
          | Err e =>
              if IsConflict e || IsNotFound e then claim_first sbx rest else mret (Err e)
          | Ok claimed => mret (Ok (Some claimed))
          end
      end
  end.

Definition claimWarmPod (sbx : Sandbox) (tpl : SandboxTemplate) : K (result KErr (option Pod)) :=
  res ← call (ListPods (om_Namespace (sbx_Meta sbx))
    {[ LabelTemplate := om_Name (tpl_Meta tpl);
       LabelTemplateHash := TemplateHash tpl (sr_Platform r) (sr_Layout r);
       LabelState := StateIdle ]});
  match res with
  | Err e => mret (Err e)
  | Ok pods =>
      candidates ← call (Shuffle (filter (fun p => candidate tpl p = true) pods));
      claim_first sbx candidates
  end.

Definition createPod (sbx : Sandbox) (tpl : SandboxTemplate) : K (result KErr Pod) :=
  token ← call NewControlToken;
  let pod := on_meta (claim_labels sbx) (BuildPod tpl "" (sr_Platform r) (sr_Layout r) token) in
  match set_controller_reference (sandbox_owner sbx) (pod_Meta pod) with
  | Err e => mret (Err (plain_error e))
  | Ok m => call (CreatePod (set_pod_Meta m pod))
  end.

(** [status.phase = Binding; status.podName = pod.Name] and the update. *)
Definition record_binding (sbx : Sandbox) : K Outcome :=
  res ← call (UpdateSandboxStatus sbx);
  match error_of res with
  | Some e => mret (requeueOnConflict (Some e))
  | None => mret (requeueBinding, None)
  end.

Definition acquirePod (sbx : Sandbox) : K Outcome :=
  tpl ← template sbx;
  match tpl with
  | Err e => fail sbx "TemplateUnavailable" (ke_Msg e)
  | Ok tpl =>
      if decide (tst_Admission (tpl_Status tpl) = AdmissionRejected) then
        fail sbx "TemplateRejected"
          ("template failed admission: " +:+ tst_AdmissionReason (tpl_Status tpl))
      else
        found ← findClaimedPod sbx;
        match found with
        | Err e => mret (0%Z, Some e)
        | Ok (Some pod) =>
            record_binding (on_status (fun st =>
              set_ss_PodName (om_Name (pod_Meta pod)) (set_ss_Phase PhaseBinding st)) sbx)
        | Ok None =>
            claimed ← claimWarmPod sbx tpl;
            match claimed with
            | Err e => mret (0%Z, Some e)
            | Ok claimed =>
                let cold := match claimed with Some _ => false | None => true end in
                pod ← (match claimed with
                       | Some pod => mret (Ok pod)
                       | None => createPod sbx tpl
                       end);
                match pod with
                | Err e => fail sbx "PodCreateFailed" (ke_Msg e)
                | Ok pod =>
                    record_binding (on_status (fun st =>
                      set_ss_ColdStart cold (set_ss_PodName (om_Name (pod_Meta pod))
                        (set_ss_Phase PhaseBinding st))) sbx)
                end
            end
        end
  end.

(** The end of [bind]: publish the running sandbox and label the Pod. *)
Definition setReady (conds : list Condition) (now : Time) : list Condition :=
  set_status_condition conds
    {| cond_Type := "Ready"; cond_Status := "True"; cond_Reason := "Bound";
       cond_Message := "the sandbox is bound and accepting requests";
       cond_LastTransitionTime := now |}.
Definition publish_running (sbx : Sandbox) (tpl : SandboxTemplate) (pod : Pod) (tier : Tier)
    (token : string) (resp : BindResponse) (boundAt : Time) (expiresAt : option Time) : K Outcome :=
  let ttl := ttlFor sbx tpl in
  readyAt ← call Now;
  let sbx := on_status (fun st =>
    let st := set_ss_Phase PhaseRunning st in
    let st := set_ss_PodIP (pst_PodIP (pod_Status pod)) st in
    let st := set_ss_NodeName (pod_NodeName (pod_Spec pod)) st in
    let st := set_ss_IsolationTier (bs_IsolationTier resp) st in
    let st := set_ss_BoundAt (Some boundAt) st in
    let st := set_ss_ExpiresAt expiresAt st in
    let st := set_ss_Token token st in
    let st := match sr_EndpointFor r with
              | Some f => set_ss_Endpoint (f (om_Name (sbx_Meta sbx))) st
              | None => st
              end in
    set_ss_Conditions (setReady (ss_Conditions st) readyAt) st) sbx in
  res ← call (UpdateSandboxStatus sbx);
  match error_of res with
  | Some e => mret (requeueOnConflict (Some e))
  | None =>
      _ ← (if bool_decide (label (pod_Meta pod) LabelIsolationTier = "")
           then res ← call (UpdatePod (on_meta (set_label LabelIsolationTier tier) pod)); mret tt
           else mret tt);
      if (ttl <=? 0)%Z then mret (0%Z, None) else mret (ttl, None)
  end.

(** The rest of [bind] once the Pod is known to be strong enough. *)
Definition bind_pod (sbx : Sandbox) (tpl : SandboxTemplate) (pod : Pod) (tier : Tier) : K Outcome :=
  token ← call NewToken;
  let ttl := ttlFor sbx tpl in
  resp ← call (Bind (podRef pod)
    {| br_SandboxID := om_Name (sbx_Meta sbx);
       br_Tenant := label (sbx_Meta sbx) LabelTenant;
       br_Filesystem := filesystemFor sbx tpl;
       br_Env := envFor sbx;
       br_Secrets := ∅;
       br_TTLSeconds := (ttl / second)%Z;
       br_Token := token |});
  match resp with
  | Err e =>
      _ ← call (DeletePod pod);
      fail sbx "BindFailed" e
  | Ok resp =>
      boundAt ← call Now;
      expiresAt ← (if (0 <? ttl)%Z then now ← call Now; mret (Some (now + ttl)%Z) else mret None);
      publish_running sbx tpl pod tier token resp boundAt expiresAt
  end.

Definition bind (sbx : Sandbox) : K Outcome :=
  res ← call (GetPod (om_Namespace (sbx_Meta sbx), ss_PodName (sbx_Status sbx)));
  match res with
  | Err e =>
      if IsNotFound e
      then fail sbx "PodLost" "the Pod backing this sandbox disappeared before it was bound"
      else mret (0%Z, Some e)
  | Ok pod =>
      let phase := pst_Phase (pod_Status pod) in
      if bool_decide (phase = PodFailed) || bool_decide (phase = PodSucceeded) then
        fail sbx "PodTerminated"
          ("the Pod terminated before the sandbox was bound: " +:+ pst_Reason (pod_Status pod))
      else if negb (podReady pod) || bool_decide (pst_PodIP (pod_Status pod) = "") then
        mret (requeueBinding, None)
      else
        tpl ← template sbx;
        match tpl with
        | Err e => fail sbx "TemplateUnavailable" (ke_Msg e)
        | Ok tpl =>
            let labelled := label (pod_Meta pod) LabelIsolationTier in
            measured ← (if bool_decide (labelled = "")
                        then res ← call (ProbePod (podRef pod));
                             mret match res with Ok (t, _) => Some t | Err _ => None end
                        else mret (Some labelled));
            match measured with
            | None => mret (requeueBinding, None)
            | Some tier =>
                if negb (AtLeast tier (RequiredIsolation (tpl_Spec tpl))) then
                  _ ← call (DeletePod pod);
                  fail sbx "IsolationUnavailable"
                    ("node " +:+ pod_NodeName (pod_Spec pod) +:+ " can only provide " +:+ quote tier
                     +:+ " isolation but the template requires "
                     +:+ quote (RequiredIsolation (tpl_Spec tpl)))
                else bind_pod sbx tpl pod tier
            end
        end
  end.

Definition deletePod (sbx : Sandbox) : K (option KErr) :=
  if bool_decide (ss_PodName (sbx_Status sbx) = "") then mret None
  else
    res ← call (GetPod (om_Namespace (sbx_Meta sbx), ss_PodName (sbx_Status sbx)));
    match res with
    | Err e => if IsNotFound e then mret None else mret (Some e)
    | Ok pod =>
        _ ← (if negb (bool_decide (pst_PodIP (pod_Status pod) = "")) && sr_HasBinder r
             then res ← call (Unbind (podRef pod)); mret tt
             else mret tt);
        res ← call (DeletePod pod);
        mret (IgnoreNotFound (error_of res))
    end.

Definition expire (sbx : Sandbox) (reason : string) : K Outcome :=
  err ← deletePod sbx;
  match err with
  | Some e => mret (0%Z, Some e)
  | None =>
      res ← call (UpdateSandboxStatus (on_status (fun st =>
        set_ss_Token "" (set_ss_Reason reason (set_ss_Phase PhaseExpired st))) sbx));
      mret (requeueOnConflict (error_of res))
  end.

Definition watchExpiry (sbx : Sandbox) : K Outcome :=
  match ss_ExpiresAt (sbx_Status sbx) with
  | None => mret (0%Z, None)
  | Some at_ =>
      now ← call Now;
      let remaining := (at_ - now)%Z in
      if (0 <? remaining)%Z then mret ((remaining + second)%Z, None)
      else expire sbx "TTL elapsed"
  end.

Definition finalize (sbx : Sandbox) : K Outcome :=
  err ← deletePod sbx;
  match err with
  | Some e => mret (0%Z, Some e)
  | None =>
      res ← call (UpdateSandbox (set_sbx_Meta (remove_finalizer FinalizerSandbox (sbx_Meta sbx)) sbx));
      mret (requeueOnConflict (error_of res))
  end.

(** The [switch] on the phase. *)
Definition dispatch (sbx : Sandbox) : K Outcome :=
  let phase := ss_Phase (sbx_Status sbx) in
  if bool_decide (phase = "") || bool_decide (phase = PhasePending) then acquirePod sbx
  else if bool_decide (phase = PhaseBinding) then bind sbx
  else if bool_decide (phase = PhaseRunning) then watchExpiry sbx
  else if bool_decide (phase = PhaseExpired) || bool_decide (phase = PhaseFailed)
  then mret (0%Z, None)
  else acquirePod sbx.

Definition Reconcile (req : ObjectKey) : K Outcome :=
  res ← call (GetSandbox req);
  match res with
  | Err e => mret (0%Z, IgnoreNotFound (Some e))
  | Ok sbx =>
      if deleting (sbx_Meta sbx) then finalize sbx
      else if negb (contains_finalizer (sbx_Meta sbx) FinalizerSandbox) then
        res ← call (UpdateSandbox (set_sbx_Meta (add_finalizer FinalizerSandbox (sbx_Meta sbx)) sbx));
        match res with
        | Err e => mret (requeueOnConflict (Some e))
        | Ok sbx => dispatch sbx
        end
      else dispatch sbx
  end.
End Reconciler.
