(* ===== verification/Fixtures.v ===== *)
(** * Concrete worlds for the witnesses

    A vendor, a controller utility, an API server with no other writers and a
    handful of objects, at which the controllers' theorems are applied. *)
From S2P Require Import Prelude Calls GoStrings Api Bwrap Crd PodSpec Kube SandboxCtl.
Open Scope string_scope.

Definition fx_vendor : Vendor :=
  {| marshal_podspec := fun s => Some ("img:" +:+ join "," (map c_Image (pod_Containers s)));
     sha256_hex := fun s => s;
     parse_quantity := fun s => Some s |}.
Lemma fx_util_meta (o : OwnerReference) (m m' : ObjectMeta) :
  (Ok (set_om_OwnerReferences [o] m) : result string ObjectMeta) = Ok m' ->
  exists refs, m' = set_om_OwnerReferences refs m.
Proof. intros [= <-]. by eexists. Qed.
Definition fx_util : ControllerUtil :=
  {| set_controller_reference := fun o m => Ok (set_om_OwnerReferences [o] m);
     set_controller_reference_meta := fx_util_meta;
     set_status_condition := fun cs c => c :: cs |}.

(** ** An API server *)

(** The store answers from what it holds, any call may fail without effect,
    and nobody else writes. *)
Definition fx_sem : Sem := fun R e =>
  match e in CtlE R return Server -> R -> Server -> Prop with
  | GetPod k => fun s r s' => s' = s /\
      match r with
      | Ok p => srv_pods s !! k = Some p /\ pod_key p = k /\ (pod_rv p <= srv_rev s)%Z
      | Err _ => True
      end
  | ListPods ns sel => fun s r s' => s' = s /\
      match r with
      | Ok ps => forall p, p ∈ ps -> srv_pods s !! pod_key p = Some p /\
          (pod_rv p <= srv_rev s)%Z /\ om_Namespace (pod_Meta p) = ns /\
          sel ⊆ om_Labels (pod_Meta p)
      | Err _ => True
      end
  | Shuffle ps => fun s r s' => s' = s /\ r = ps
  | UpdatePod p => fun s r s' =>
      match r with
      | Ok q => updated s p q s'
      | Err e => s' = s
      end
  | CreatePod p => fun s r s' =>
      match r with
      | Ok q => created s p q s'
      | Err e => s' = s
      end
  | DeletePod p => fun s r s' =>
      s' = {| srv_pods := base.delete (pod_key p) (srv_pods s); srv_rev := srv_rev s;
              srv_uids := srv_uids s |}
  | _ => fun s r s' => s' = s
  end.

Lemma fx_version s p :
  srv_pods s !! pod_key p = Some p -> (pod_rv p <= srv_rev s)%Z -> version_of s p.
Proof. intros H Hr. split; [done|]. intros q Hq _. congruence. Qed.

Lemma fx_laws : KubeLaws fx_sem.
Proof.
  constructor.
  - intros R e s r s' He Hs. destruct e; try done; cbn in Hs;
      first [subst s' | destruct Hs as [-> _]]; apply rtc_refl.
  - intros p s r s' Hs. cbn in Hs. subst. by eapply rtc_once, step_delete.
  - intros k s p s' [-> (H & <- & Hr)]. split; [by apply fx_version|done].
  - intros ns sel s ps s' p [-> H] Hp. destruct (H p Hp) as (H1 & H2 & H3 & H4).
    split; [by apply fx_version|done].
  - intros ps s ps' s' [_ ->]. done.
  - intros p s r s' Hs. exists s. split; [apply rtc_refl|]. destruct r; [done|by left].
  - intros p s r s' Hs. exists s. split; [apply rtc_refl|]. destruct r; [done|by left].
Qed.

(** ** Objects *)

Definition fx_meta (name : string) (labels : gmap string string) : ObjectMeta :=
  {| om_Name := name; om_GenerateName := ""; om_Namespace := "acme"; om_Labels := labels;
     om_Annotations := ∅; om_ResourceVersion := 7; om_UID := "uid-" +:+ name;
     om_CreationTimestamp := 5%Z; om_DeletionTimestamp := None;
     om_Finalizers := [FinalizerSandbox]; om_OwnerReferences := [] |}.

Definition fx_template : SandboxTemplate :=
  {| tpl_Meta := fx_meta "py" ∅;
     tpl_Spec :=
       {| ts_MinIsolationTier := ""; ts_FilesystemIsolation := ""; ts_PodUserNamespace := None;
          ts_RuntimeClassName := ""; ts_DefaultTTLSeconds := 1800; ts_MaxTTLSeconds := 14400;
          ts_Image := {| img_Ref := "reg.io/py:3.12"; img_Resolve := None;
                         img_PullPolicy := ""; img_PullSecretRef := None |};
          ts_FilesystemDefaults :=
            {| fd_Workspace := {| sbxv1.ws_Path := ""; sbxv1.ws_SizeLimit := "" |};
               fd_AllowSystemPaths := [] |};
          ts_Volumes := [{| tv_Name := "data"; tv_ClaimName := "claim"; tv_MountPath := "";
                            tv_ReadOnly := false |}];
          ts_Network := {| net_Egress := ""; net_AllowCIDRs := []; net_DenyCIDRs := [];
                           net_AllowedFQDN := [] |};
          ts_Resources := ""; ts_PodOverrides := None |};
     tpl_Status :=
       {| tst_Hash := ""; tst_Admission := AdmissionApproved; tst_AdmissionReason := "";
          tst_ResolvedDigest := ""; tst_ResolvedRef := ""; tst_ResolvedAt := None;
          tst_ImageBytes := 0; tst_ImagePinned := false; tst_HasVolumes := true |} |}.

Definition fx_status (phase : SandboxPhase) (podName : string) : SandboxStatus :=
  {| ss_Phase := phase; ss_PodName := podName; ss_PodIP := ""; ss_NodeName := "";
     ss_IsolationTier := ""; ss_ColdStart := false; ss_Endpoint := ""; ss_Token := "";
     ss_BoundAt := None; ss_ExpiresAt := None; ss_Reason := ""; ss_Conditions := [] |}.
Definition fx_sandbox (name : string) (phase : SandboxPhase) (podName : string) : Sandbox :=
  {| sbx_Meta := fx_meta name {[LabelTenant := "t1"]};
     sbx_Spec :=
       {| sp_TemplateRef := "py"; sp_TTLSeconds := 600;
          sp_Filesystem :=
            {| sbxv1.fs_Workspace := {| sbxv1.ws_Path := ""; sbxv1.ws_SizeLimit := "" |};
               sbxv1.fs_Mounts := []; sbxv1.fs_AllowSystemPaths := []; sbxv1.fs_Hide := [] |};
          sp_Env := []; sp_SecretRefs := []; sp_Metadata := ∅ |};
     sbx_Status := fx_status phase podName |}.

Definition fx_platform : PlatformImage := {| pi_Ref := "jdix:1"; pi_PullPolicy := "IfNotPresent" |}.
Definition fx_reconciler : SandboxReconciler :=
  {| sr_Layout := DefaultLayout; sr_Platform := fx_platform; sr_HasBinder := true;
     sr_EndpointFor := None |}.

(** A warm Pod of the template: ready, measured, idle. *)
Definition fx_pod (name : string) : Pod :=
  let pod := @BuildPod fx_vendor fx_template "pool" fx_platform DefaultLayout "jct_0" in
  {| pod_Meta := fx_meta name (<[LabelIsolationTier := TierUserns]> (om_Labels (pod_Meta pod)));
     pod_Spec := pod_Spec pod;
     pod_Status := {| pst_Phase := PodRunning; pst_PodIP := "10.0.0.7"; pst_Reason := "";
                      pst_Conditions := [(PodReady, ConditionTrue)] |} |}.
Definition fx_server : Server :=
  {| srv_pods := {[("acme", "warm-1") := fx_pod "warm-1"]}; srv_rev := 9;
     srv_uids := {["uid-warm-1"]} |}.
Lemma fx_server_wf : wf_server fx_server.
Proof.
  intros k p. unfold fx_server. cbn [srv_pods].
  intros [<- <-]%lookup_singleton_Some. split; [vm_compute; discriminate|].
  cbn [srv_uids]. apply elem_of_singleton. reflexivity.
Qed.
