(* ===== verification/SandboxSafety.v ===== *)
(** * One Pod, one sandbox: the claim protocol of the Sandbox reconciler

    The theorems about the store of Pods: whatever the API server answers
    within [KubeLaws], a whole pass of [Reconcile] moves the store only through
    steps that keep every binding, a claim ends with the Pod bound to the
    claiming sandbox, and two sandboxes never both claim the same Pod.  Then
    the pure parts: [ttlFor]. *)
From S2P Require Import Prelude Calls GoStrings Api Bwrap Crd PodSpec Kube SandboxCtl Fixtures.
Open Scope string_scope.

Section Safety.
Context `{Vendor} `{ControllerUtil}.
Context (sem : Sem) {laws : KubeLaws sem}.
Context (r : SandboxReconciler).

(** ** The labels a claim writes *)

Lemma claim_labels_binding sbx m :
  om_Labels (claim_labels sbx m) !! LabelState = Some StateBound /\
  om_Labels (claim_labels sbx m) !! LabelSandboxID = Some (om_Name (sbx_Meta sbx)).
Proof.
  unfold claim_labels, set_label. destruct (negb _); cbn;
    rewrite ?(lookup_insert_ne _ LabelTenant) by done;
    rewrite ?(lookup_insert_ne _ LabelSandboxID LabelState) by done;
    by rewrite !lookup_insert_eq.
Qed.
Lemma claim_labels_frame sbx m :
  meta_key (claim_labels sbx m) = meta_key m /\ om_UID (claim_labels sbx m) = om_UID m /\
  om_ResourceVersion (claim_labels sbx m) = om_ResourceVersion m.
Proof. unfold claim_labels, set_label. by destruct (negb _). Qed.

(** The Pod a claim writes: the candidate with new owners and the binding. *)
Lemma claimed_pod sbx pod m' :
  set_controller_reference (sandbox_owner sbx)
    (set_om_OwnerReferences [] (claim_labels sbx (pod_Meta pod))) = Ok m' ->
  let q := set_pod_Meta m' pod in
  pod_key q = pod_key pod /\ pod_rv q = pod_rv pod /\ pod_uid q = pod_uid pod /\
  binding q = Some (om_Name (sbx_Meta sbx)).
Proof.
  intros (refs & ->)%set_controller_reference_meta.
  destruct (claim_labels_frame sbx (pod_Meta pod)) as (H1 & H2 & H3).
  destruct (claim_labels_binding sbx (pod_Meta pod)) as (H4 & H5).
  split; [exact H1|]. split; [exact H3|]. split; [exact H2|].
  unfold binding. cbn. by rewrite decide_True.
Qed.
Lemma idle_unbound p :
  om_Labels (pod_Meta p) !! LabelState = Some StateIdle -> binding p = None.
Proof. intros Hl. unfold binding. by rewrite Hl, decide_False. Qed.

(** ** A claim *)

(** What holds after a claim by [sbx]: only binding-preserving steps, and a
    claimed Pod is bound to [sbx] from then on. *)
Definition claim_post (sbx : Sandbox) (s : Server) (res : result KErr (option Pod))
    (s' : Server) : Prop :=
  env s s' /\
  forall p, res = Ok (Some p) ->
    bound_to s' (pod_key p) (pod_uid p) (om_Name (sbx_Meta sbx)) /\
    srv_pods s' !! pod_key p = Some p.

Lemma claim_post_env sbx s0 s res s' : env s0 s -> claim_post sbx s res s' -> claim_post sbx s0 res s'.
Proof. intros He [H1 H2]. split; [by etrans|done]. Qed.

Lemma claim_first_ok sbx ps s :
  wf_server s ->
  (forall p, p ∈ ps -> version_of s p /\ om_Labels (pod_Meta p) !! LabelState = Some StateIdle) ->
  wp sem (claim_first sbx ps) s (claim_post sbx s).
Proof.
  revert s. induction ps as [|p ps IH]; intros s Hw Hps; cbn [claim_first].
  - split; [apply rtc_refl|done].
  - destruct (set_controller_reference _ _) as [m'|e] eqn:Em.
    2: { split; [apply rtc_refl|done]. }
    destruct (Hps p) as [Hv Hidle]; [left|].
    destruct (claimed_pod sbx p m' Em) as (Hk & Hrv & Hu & Hb).
    apply idle_unbound in Hidle as Hn.
    intros res s' Hs. cbn beta iota.
    assert (He : env s s').
    { eapply update_env; [done|exact Hv|exact Hk|exact Hrv| |exact Hs]. by rewrite Hn. }
    destruct res as [q|e].
    + split; [done|]. intros q' [= <-].
      apply law_update_pod in Hs as (s1 & He1 & (p0 & Hp0 & _ & Hu0 & Hkq & Hl & _ & ->)); [|done].
      assert (Hq : binding q = Some (om_Name (sbx_Meta sbx)))
        by by rewrite (binding_labels (set_pod_Meta m' p)).
      rewrite Hkq. split; [|apply lookup_insert_eq]. split.
      * rewrite Hu0. by apply (env_wf _ _ He1 Hw _ _ Hp0).
      * cbn [srv_pods]. intros q' E _. rewrite lookup_insert_eq in E. by injection E as <-.
    + change (wp sem (if IsConflict e || IsNotFound e then claim_first sbx ps else Ret (Err e))
                s' (claim_post sbx s)).
      destruct (IsConflict e || IsNotFound e); [|by split].
      eapply wp_mono; [intros a s''; by apply claim_post_env|].
      apply IH; [by eapply env_wf|]. intros p' Hin.
      destruct (Hps p') as [Hv' ?]; [by right|]. split; [by eapply env_version|done].
Qed.

Lemma claimWarmPod_ok sbx tpl s :
  wf_server s -> wp sem (claimWarmPod r sbx tpl) s (claim_post sbx s).
Proof.
  intros Hw. unfold claimWarmPod. apply (wp_read sem) with (s0 := s); [done|apply rtc_refl|].
  intros res s1 Hs He1. destruct res as [ps|e]; [|by split].
  eapply (wp_read sem) with (s0 := s1); [done|apply rtc_refl|].
  intros cs s2 Hsh He2. apply law_shuffle in Hsh as Hp; [|done].
  eapply wp_mono; [intros a s'; apply claim_post_env; by etrans|].
  apply claim_first_ok; [eapply env_wf; [|done]; by etrans|]. intros p Hin.
  rewrite Hp in Hin. apply list_elem_of_filter in Hin as [_ Hin].
  destruct (law_list_pods _ _ _ _ _ _ Hs Hin) as (Hv & _ & Hl).
  split; [by eapply env_version|]. by eapply lookup_weaken; [|exact Hl].
Qed.

(** C1: two sandboxes never both claim one Pod.  After [claimWarmPod] gave a
    Pod to the first sandbox and any number of steps by others, a second
    [claimWarmPod] may return that same Pod only to a sandbox of the same
    name; all the while no binding ever changes. *)
Theorem claims_exclusive sbx1 tpl1 sbx2 tpl2 s :
  wf_server s ->
  wp sem (claimWarmPod r sbx1 tpl1) s (fun res1 s1 => env s s1 /\
    forall s2, env s1 s2 ->
    wp sem (claimWarmPod r sbx2 tpl2) s2 (fun res2 s3 => env s2 s3 /\
      forall p1 p2, res1 = Ok (Some p1) -> res2 = Ok (Some p2) ->
        pod_key p1 = pod_key p2 -> pod_uid p1 = pod_uid p2 ->
        om_Name (sbx_Meta sbx1) = om_Name (sbx_Meta sbx2))).
Proof.
  intros Hw. eapply wp_mono; [|by apply claimWarmPod_ok].
  intros res1 s1 [He1 Hc1]. split; [done|]. intros s2 He2.
  eapply wp_mono; [|apply claimWarmPod_ok; eapply env_wf; [|done]; by etrans].
  intros res2 s3 [He3 Hc2]. split; [done|]. intros p1 p2 -> -> Hk Hu.
  destruct (Hc1 p1 eq_refl) as [Hb1 _]. destruct (Hc2 p2 eq_refl) as [[_ Hb2] Hp2].
  eapply env_bound in Hb1; [|exact He2]. eapply env_bound in Hb1; [|exact He3].
  destruct Hb1 as [_ Hb1]. rewrite <-Hk in Hp2, Hb2.
  specialize (Hb1 p2 Hp2 (eq_sym Hu)). specialize (Hb2 p2 Hp2 eq_refl). congruence.
Qed.

(** ** A whole pass *)

Lemma keeps_claimWarmPod vs sbx tpl : keeps sem vs (claimWarmPod r sbx tpl).
Proof.
  unfold claimWarmPod. apply keeps_list_pods; [done| |intros e; apply keeps_ret].
  intros ps Hps. apply keeps_shuffle; [done|]. intros cs Hcs.
  assert (Hin : forall p, p ∈ cs -> p ∈ ps).
  { intros p Hp. rewrite Hcs in Hp. by apply list_elem_of_filter in Hp as [_ ?]. }
  clear Hcs. induction cs as [|p cs IH]; [apply keeps_ret|]. cbn [claim_first].
  destruct (set_controller_reference _ _) as [m'|e] eqn:Em; [|apply keeps_ret].
  destruct (claimed_pod sbx p m' Em) as (Hk & Hrv & Hu & Hb).
  assert (Hp : p ∈ ps) by (apply Hin; left).
  apply keeps_bind.
  - eapply (keeps_update sem _ p); [|done|done|].
    + apply elem_of_app. by left.
    + rewrite idle_unbound; [done|]. by eapply lookup_weaken; [|by apply Hps].
  - intros [q|e]; [apply keeps_ret|]. destruct (IsConflict e || IsNotFound e); [|apply keeps_ret].
    apply IH. intros p' Hp'. apply Hin. by right.
Qed.

Lemma keeps_template vs sbx : keeps sem vs (template sbx).
Proof. unfold template. keeps. Qed.
Lemma keeps_fail vs sbx reason msg : keeps sem vs (fail sbx reason msg).
Proof. unfold fail. keeps. Qed.
Lemma keeps_findClaimedPod vs sbx : keeps sem vs (findClaimedPod sbx).
Proof. unfold findClaimedPod. keeps. Qed.
Lemma keeps_createPod vs sbx tpl : keeps sem vs (createPod r sbx tpl).
Proof. unfold createPod. keeps. Qed.
Lemma keeps_record_binding vs sbx : keeps sem vs (record_binding sbx).
Proof. unfold record_binding. keeps. Qed.
Hint Resolve keeps_template keeps_fail keeps_findClaimedPod keeps_createPod
  keeps_record_binding keeps_claimWarmPod : keeps.
Lemma keeps_acquirePod vs sbx : keeps sem vs (acquirePod r sbx).
Proof. unfold acquirePod. keeps. Qed.
Lemma keeps_deletePod vs sbx : keeps sem vs (deletePod r sbx).
Proof. unfold deletePod. keeps. Qed.
Hint Resolve keeps_acquirePod keeps_deletePod : keeps.
Lemma keeps_watchExpiry vs sbx : keeps sem vs (watchExpiry r sbx).
Proof. unfold watchExpiry, expire. keeps. Qed.
Lemma keeps_finalize vs sbx : keeps sem vs (finalize r sbx).
Proof. unfold finalize. keeps. Qed.

(** Recording the measured tier on the Pod that was read leaves its binding. *)
Lemma keeps_record_tier vs pod tier :
  pod ∈ vs -> keeps sem vs (call (UpdatePod (on_meta (set_label LabelIsolationTier tier) pod))).
Proof.
  intros Hp. apply (keeps_update sem _ pod); [done|done|done|]. intros id.
  unfold binding, on_meta, set_label. cbn.
  by rewrite !lookup_insert_ne by done.
Qed.
Lemma keeps_bind_pod vs sbx tpl pod tier : pod ∈ vs -> keeps sem vs (bind_pod r sbx tpl pod tier).
Proof.
  intros Hp. pose proof (keeps_record_tier vs pod tier Hp) as Ht.
  unfold bind_pod, publish_running. keeps.
Qed.
Lemma keeps_bind_sandbox vs sbx : keeps sem vs (bind r sbx).
Proof.
  unfold bind. apply keeps_get_pod; [done| |intros e; keeps].
  intros pod _. pose proof (keeps_bind_pod (pod :: vs)) as Hb.
  assert (Hin : pod ∈ pod :: vs) by left. keeps.
Qed.
Hint Resolve keeps_watchExpiry keeps_finalize keeps_bind_sandbox : keeps.

(** C2: a whole pass of [Reconcile], whatever the state of the store, of the
    caches and of the other writers, takes the store only through steps under
    which every Pod bound to a sandbox stays bound to it. *)
Theorem Reconcile_keeps_bindings req s :
  wp sem (Reconcile r req) s (fun _ s' => env s s' /\
    forall k uid id, bound_to s k uid id -> bound_to s' k uid id).
Proof.
  assert (Hd : forall sbx, keeps sem [] (dispatch r sbx)) by (intros; unfold dispatch; keeps).
  assert (Hk : keeps sem [] (Reconcile r req)) by (unfold Reconcile; keeps).
  eapply wp_mono; [|apply Hk; constructor].
  intros a s' He. split; [exact He|]. intros k uid id. by apply env_bound.
Qed.
End Safety.

(** ** Lifetimes *)

(** [ttlFor] on 32-bit fields never overflows.  The first of the sandbox's
    TTL, the template's default and 1800 that is not zero is what is asked for;
    a positive maximum caps it, also a request never to expire; and no deadline
    (0) is the answer exactly when no limit was asked for and none is set. *)
Theorem ttlFor_spec sbx tpl :
  let ttl := sp_TTLSeconds (sbx_Spec sbx) in
  let dflt := ts_DefaultTTLSeconds (tpl_Spec tpl) in
  let max := ts_MaxTTLSeconds (tpl_Spec tpl) in
  in_int32 ttl -> in_int32 dflt -> in_int32 max ->
  exists want,
    want = (if decide (ttl <> 0) then ttl else if decide (dflt <> 0) then dflt else 1800)%Z /\
    ttlFor sbx tpl = (second * (if decide (0 < max) then
                                  if decide (want < 0) then max else Z.min want max
                                else Z.max 0 want))%Z /\
    (ttlFor sbx tpl = 0 <-> want < 0 /\ max <= 0)%Z /\
    (0 < max -> 0 < ttlFor sbx tpl <= second * max)%Z.
Proof.
  cbv zeta. unfold in_int32. intros Ht Hd Hm. eexists. split; [reflexivity|].
  set (want := if decide (sp_TTLSeconds _ <> 0%Z) then _ else _).
  assert (Hw : (- 2 ^ 31 <= want < 2 ^ 31)%Z /\ want <> 0%Z).
  { unfold want. repeat destruct (decide _); lia. }
  assert (E : ttlFor sbx tpl = (second * (if decide (0 < ts_MaxTTLSeconds (tpl_Spec tpl)) then
                                  if decide (want < 0) then ts_MaxTTLSeconds (tpl_Spec tpl)
                                  else Z.min want (ts_MaxTTLSeconds (tpl_Spec tpl))
                                else Z.max 0 want))%Z).
  { assert (E0 : want = (let w := sp_TTLSeconds (sbx_Spec sbx) in
                         let w := if (w =? 0)%Z then ts_DefaultTTLSeconds (tpl_Spec tpl) else w in
                         if (w =? 0)%Z then 1800%Z else w)).
    { unfold want. cbv zeta.
      destruct (Z.eqb_spec (sp_TTLSeconds (sbx_Spec sbx)) 0) as [Ht0|Ht0];
        [|rewrite decide_True by done; by rewrite (proj2 (Z.eqb_neq _ _) Ht0)].
      rewrite decide_False by tauto.
      destruct (Z.eqb_spec (ts_DefaultTTLSeconds (tpl_Spec tpl)) 0);
        [by rewrite decide_False by tauto|by rewrite decide_True]. }
    unfold ttlFor. cbv zeta in *. rewrite <-E0. clearbody want. clear E0.
    destruct (Z.ltb_spec want 0), (Z.ltb_spec 0 (ts_MaxTTLSeconds (tpl_Spec tpl)));
      cbn [andb]; repeat destruct (decide _); try lia;
      repeat match goal with |- context [Z.ltb ?a ?b] => destruct (Z.ltb_spec a b) end;
      rewrite ?seconds_small by lia; unfold second; lia. }
  split; [exact E|]. rewrite E. clearbody want. unfold second.
  split; [split; [|intros [? ?]]; repeat destruct (decide _); lia|].
  intros. repeat destruct (decide _); lia.
Qed.

(** ** Witnesses *)

(** In the fixture world a stored candidate can be claimed. *)
Lemma fx_claim sbx p s :
  srv_pods s !! pod_key p = Some p ->
  ~ wp fx_sem (@claim_first fx_util sbx [p]) s (fun res _ => forall p', res <> Ok (Some p')).
Proof.
  intros Hp Hwp.
  set (m := set_om_OwnerReferences [sandbox_owner sbx]
              (set_om_OwnerReferences [] (claim_labels sbx (pod_Meta p)))).
  destruct (claim_labels_frame sbx (pod_Meta p)) as (Hk & Hu & Hr).
  set (q := set_pod_Meta (set_om_ResourceVersion (srv_rev s + 1)%Z m) p).
  refine (Hwp (Ok q) _ _ q eq_refl). exists p.
  assert (Hkey : pod_key (set_pod_Meta m p) = pod_key p) by exact Hk.
  split; [by rewrite <-Hp, <-Hkey|]. split; [symmetry; exact Hr|]. split; [exact Hu|].
  split; [done|]. split; [done|]. split; [cbn; lia|done].
Qed.

(** A successful claim exists, and the theorem holds of it. *)
Lemma claims_exclusive_wit :
  wf_server fx_server /\
  ~ wp fx_sem (@claimWarmPod fx_vendor fx_util fx_reconciler
                 (fx_sandbox "s1" PhasePending "") fx_template)
      fx_server (fun res _ => forall p, res <> Ok (Some p)) /\
  wp fx_sem (@claimWarmPod fx_vendor fx_util fx_reconciler
               (fx_sandbox "s1" PhasePending "") fx_template) fx_server
    (fun res1 s1 => env fx_server s1 /\
      forall s2, env s1 s2 ->
      wp fx_sem (@claimWarmPod fx_vendor fx_util fx_reconciler
                   (fx_sandbox "s2" PhasePending "") fx_template) s2
        (fun res2 s3 => env s2 s3 /\
          forall p1 p2, res1 = Ok (Some p1) -> res2 = Ok (Some p2) ->
            pod_key p1 = pod_key p2 -> pod_uid p1 = pod_uid p2 -> "s1" = "s2")).
Proof.
  split; [apply fx_server_wf|]. split.
  - intros Hwp.
    specialize (Hwp (Ok [fx_pod "warm-1"]) fx_server).
    assert (Hc : [fx_pod "warm-1"] =
      filter (fun p => candidate fx_template p = true) [fx_pod "warm-1"])
      by (vm_compute; reflexivity).
    refine (fx_claim _ (fx_pod "warm-1") fx_server _
              (Hwp _ [fx_pod "warm-1"] fx_server (conj eq_refl Hc))).
    + vm_compute. reflexivity.
    + split; [reflexivity|]. intros p ->%list_elem_of_singleton.
      split; [vm_compute; reflexivity|].
      split; [vm_compute; discriminate|]. split; [reflexivity|].
      apply map_subseteq_spec. intros k v.
      rewrite !lookup_insert_Some, lookup_singleton_Some.
      intros [[<- <-]|[_ [[<- <-]|[_ [<- <-]]]]]; vm_compute; reflexivity.
  - exact (@claims_exclusive fx_vendor fx_util fx_sem fx_laws fx_reconciler
             (fx_sandbox "s1" PhasePending "") fx_template
             (fx_sandbox "s2" PhasePending "") fx_template fx_server fx_server_wf).
Defined.

Lemma Reconcile_keeps_bindings_wit :
  KubeLaws fx_sem /\
  wp fx_sem (@Reconcile fx_vendor fx_util fx_reconciler ("acme", "s1")) fx_server
    (fun _ s' => env fx_server s' /\
      forall k uid id, bound_to fx_server k uid id -> bound_to s' k uid id).
Proof.
  split; [apply fx_laws|].
  exact (@Reconcile_keeps_bindings fx_vendor fx_util fx_sem fx_laws fx_reconciler
           ("acme", "s1") fx_server).
Defined.

(** A request never to expire against a template capped at four hours. *)
Definition wit_forever : Sandbox :=
  let s := fx_sandbox "s1" PhasePending "" in
  {| sbx_Meta := sbx_Meta s;
     sbx_Spec :=
       {| sp_TemplateRef := "py"; sp_TTLSeconds := -1;
          sp_Filesystem := sp_Filesystem (sbx_Spec s); sp_Env := []; sp_SecretRefs := [];
          sp_Metadata := ∅ |};
     sbx_Status := sbx_Status s |}.
Lemma ttlFor_wit :
  ttlFor wit_forever fx_template = (14400 * second)%Z /\
  (0 < ttlFor wit_forever fx_template <= second * 14400)%Z.
Proof.
  split; [reflexivity|].
  destruct (ttlFor_spec wit_forever fx_template) as (want & _ & _ & _ & H);
    [unfold in_int32; cbn; lia..|].
  apply H. reflexivity.
Defined.
