(* ===== verification/SandboxTrace.v ===== *)
(** * What a pass of the Sandbox reconciler may do, and in which order

    Rules over the calls of [Reconcile]: when execd is asked to bind, when a
    sandbox is declared running, when a second Pod may be taken, and what must
    have happened before a sandbox is expired, failed or let go. *)
From S2P Require Import Prelude Calls GoStrings Api Bwrap Crd PodSpec Kube SandboxCtl Fixtures.
Open Scope string_scope.
Open Scope list_scope.

Section Trace.
Context `{Vendor} `{ControllerUtil}.
Context (r : SandboxReconciler).

Implicit Types h : list Ev.

(** ** Binding *)

(** The tier a bind relies on: the Pod's label, or a probe made in this pass. *)
Definition tier_known (h : list Ev) (pod : Pod) (tier : Tier) : Prop :=
  (tier <> "" /\ tier = label (pod_Meta pod) LabelIsolationTier) \/
  (label (pod_Meta pod) LabelIsolationTier = "" /\
   exists reason, EvProbePod (podRef pod) (Ok (tier, reason)) ∈ h).

(** execd is asked to bind only a ready Pod with an address, read in this pass,
    whose tier meets the template's requirement, under a token just minted. *)
Definition may_bind (h : list Ev) (ref : PodRef) (b : BindRequest) : Prop :=
  exists k k' pod tpl tier,
    EvGetPod k (Ok pod) ∈ h /\ EvGetTemplate k' (Ok tpl) ∈ h /\
    ref = podRef pod /\ podReady pod = true /\ pst_PodIP (pod_Status pod) <> "" /\
    tier_known h pod tier /\ AtLeast tier (RequiredIsolation (tpl_Spec tpl)) = true /\
    EvNewToken (br_Token b) ∈ h.

(** A sandbox is declared running only after execd accepted the bind of this
    sandbox, with the token execd was given and a deadline exactly when its
    lifetime is finite. *)
Definition may_run (h : list Ev) (s : Sandbox) : Prop :=
  exists ref b resp k tpl,
    EvBind ref b (Ok resp) ∈ h /\ EvGetTemplate k (Ok tpl) ∈ h /\
    br_SandboxID b = om_Name (sbx_Meta s) /\ br_Token b = ss_Token (sbx_Status s) /\
    ss_IsolationTier (sbx_Status s) = bs_IsolationTier resp /\
    (ss_ExpiresAt (sbx_Status s) = None <-> (ttlFor s tpl <= 0)%Z).

Definition bind_rule (h : list Ev) (ev : Ev) : Prop :=
  match ev with
  | EvBind ref b _ => may_bind h ref b
  | EvUpdateSandboxStatus s _ => ss_Phase (sbx_Status s) = PhaseRunning -> may_run h s
  | _ => True
  end.

Ltac quiet := run_with ltac:(first [exact I | discriminate | solve [intros; discriminate]]).

Lemma fail_bind_rule h sbx reason msg : safe bind_rule h (fail sbx reason msg) (fun _ _ => True).
Proof. unfold fail. quiet. Qed.
Lemma claim_first_bind_rule h sbx ps :
  safe bind_rule h (claim_first sbx ps) (fun _ _ => True).
Proof.
  revert h. induction ps as [|p ps IH]; intros h; cbn [claim_first]; [exact I|].
  quiet.
Qed.
Hint Resolve fail_bind_rule claim_first_bind_rule : safe.
Lemma acquirePod_bind_rule h sbx : safe bind_rule h (acquirePod r sbx) (fun _ _ => True).
Proof.
  unfold acquirePod, template, findClaimedPod, claimWarmPod, createPod, record_binding. quiet.
Qed.
Lemma deletePod_bind_rule h sbx : safe bind_rule h (deletePod r sbx) (fun _ _ => True).
Proof. unfold deletePod. quiet. Qed.
Hint Resolve acquirePod_bind_rule deletePod_bind_rule : safe.
Lemma finalize_bind_rule h sbx : safe bind_rule h (finalize r sbx) (fun _ _ => True).
Proof. unfold finalize. quiet. Qed.
Lemma watchExpiry_bind_rule h sbx : safe bind_rule h (watchExpiry r sbx) (fun _ _ => True).
Proof. unfold watchExpiry, expire. quiet. Qed.

(** Once a strong enough Pod is known, the rest of [bind] obeys the rule. *)
Lemma bind_pod_bind_rule h sbx k k' pod tpl tier :
  EvGetPod k (Ok pod) ∈ h -> EvGetTemplate k' (Ok tpl) ∈ h ->
  podReady pod = true -> pst_PodIP (pod_Status pod) <> "" -> tier_known h pod tier ->
  AtLeast tier (RequiredIsolation (tpl_Spec tpl)) = true ->
  safe bind_rule h (bind_pod r sbx tpl pod tier) (fun _ _ => True).
Proof.
  intros Hp Ht Hr Hip Hk Ha. unfold bind_pod.
  apply safe_call; [intros; exact I|]. intros token. cbv zeta.
  apply safe_call.
  { intros resp. exists k, k', pod, tpl, tier.
    split; [in_calls|]. split; [in_calls|]. split; [done|]. split; [done|].
    split; [done|]. split; [|split; [done|in_calls]].
    destruct Hk as [?|[? [reason ?]]]; [by left|right]. split; [done|]. exists reason. in_calls. }
  intros [resp|e]; [|quiet].
  apply safe_call; [intros; exact I|]. intros boundAt.
  assert (Hrun : forall h' expiresAt,
    (expiresAt = None <-> (ttlFor sbx tpl <= 0)%Z) ->
    EvBind (podRef pod)
      {| br_SandboxID := om_Name (sbx_Meta sbx);
         br_Tenant := label (sbx_Meta sbx) LabelTenant;
         br_Filesystem := filesystemFor sbx tpl; br_Env := envFor sbx; br_Secrets := ∅;
         br_TTLSeconds := (ttlFor sbx tpl / second)%Z; br_Token := token |} (Ok resp) ∈ h' ->
    EvGetTemplate k' (Ok tpl) ∈ h' ->
    forall f : SandboxStatus -> SandboxStatus,
      (forall st, ss_Token (f st) = token /\ ss_ExpiresAt (f st) = expiresAt /\
        ss_IsolationTier (f st) = bs_IsolationTier resp) ->
      may_run h' (on_status f sbx)).
  { intros h' ex Hex Hb Ht' f Hf. destruct (Hf (sbx_Status sbx)) as (H1 & H2 & H3).
    eexists _, _, resp, k', tpl. split; [exact Hb|]. split; [done|]. split; [done|].
    cbn. split; [done|]. split; [done|]. by rewrite H2. }
  assert (Hend : forall h' ex, (ex = None <-> (ttlFor sbx tpl <= 0)%Z) ->
    (forall ev, ev ∈ h ++ [EvNewToken token] ++ [EvBind (podRef pod)
      {| br_SandboxID := om_Name (sbx_Meta sbx);
         br_Tenant := label (sbx_Meta sbx) LabelTenant;
         br_Filesystem := filesystemFor sbx tpl; br_Env := envFor sbx; br_Secrets := ∅;
         br_TTLSeconds := (ttlFor sbx tpl / second)%Z; br_Token := token |} (Ok resp)] -> ev ∈ h') ->
    safe bind_rule h' (publish_running r sbx tpl pod tier token resp boundAt ex) (fun _ _ => True)).
  { intros h' ex Hex Hh. unfold publish_running.
    apply safe_call; [intros; exact I|]. intros readyAt. cbv zeta.
    apply safe_call.
    - intros res _. apply (Hrun _ ex Hex).
      + apply elem_of_app. left. apply Hh. in_calls.
      + apply elem_of_app. left. apply Hh. in_calls.
      + intros st. by destruct (sr_EndpointFor r).
    - intros res. quiet. }
  destruct (Z.ltb_spec 0 (ttlFor sbx tpl)) as [Hpos|Hneg].
  - apply safe_bind. apply safe_call; [intros; exact I|]. intros now. apply safe_mret.
    apply Hend; [split; [done|lia]|]. intros ev Hev. rewrite app_assoc in Hev. in_calls.
  - apply safe_ret. apply Hend; [done|]. intros ev Hev. rewrite app_assoc in Hev. in_calls.
Qed.

Lemma bind_bind_rule h sbx : safe bind_rule h (bind r sbx) (fun _ _ => True).
Proof.
  unfold bind, template.
  apply safe_call; [intros; exact I|]. intros [pod|e]; [|quiet].
  destruct (bool_decide (pst_Phase _ = PodFailed) || _); [quiet|].
  destruct (podReady pod) eqn:Hr; [|quiet]. cbn [negb orb].
  case_bool_decide as Hip; [quiet|].
  apply safe_bind, safe_call; [intros; exact I|]. intros res. apply safe_mret.
  destruct res as [tpl|e]; [|destruct (IsNotFound e); quiet].
  cbv zeta. apply safe_bind.
  assert (Hgo : forall h' tier, EvGetPod (om_Namespace (sbx_Meta sbx), ss_PodName (sbx_Status sbx)) (Ok pod) ∈ h' ->
    EvGetTemplate (om_Namespace (sbx_Meta sbx), sp_TemplateRef (sbx_Spec sbx)) (Ok tpl) ∈ h' ->
    tier_known h' pod tier ->
    safe bind_rule h' (if negb (AtLeast tier (RequiredIsolation (tpl_Spec tpl))) then
                  _ ← call (DeletePod pod);
                  fail sbx "IsolationUnavailable"
                    ("node " +:+ pod_NodeName (pod_Spec pod) +:+ " can only provide " +:+ quote tier
                     +:+ " isolation but the template requires "
                     +:+ quote (RequiredIsolation (tpl_Spec tpl)))
                else bind_pod r sbx tpl pod tier) (fun _ _ => True)).
  { intros h' tier Hp Ht Hk. destruct (AtLeast _ _) eqn:Ha; cbn [negb]; [|quiet].
    by eapply bind_pod_bind_rule. }
  case_bool_decide as Hl.
  - apply safe_call; [intros; exact I|]. intros [[tier reason]|e]; apply safe_mret; [|quiet].
    apply Hgo; [in_calls|in_calls|]. right. split; [done|]. exists reason. in_calls.
  - apply safe_mret. apply Hgo; [in_calls|in_calls|]. left. done.
Qed.
Hint Resolve finalize_bind_rule watchExpiry_bind_rule bind_bind_rule : safe.

(** C8: in every execution of [Reconcile], whatever Kubernetes, execd and the
    clock answer: execd is asked to bind only a ready Pod, read in this pass,
    whose measured tier meets the template's requirement, under a fresh token;
    and a sandbox is declared running only after execd accepted the bind of
    that very sandbox, with the token execd was given and a deadline exactly
    when its lifetime is finite. *)
Theorem Reconcile_binds_safely req : obeys bind_rule (Reconcile r req).
Proof.
  apply (safe_obeys _ _ (fun _ _ => True)). unfold Reconcile, dispatch. quiet.
Qed.

(** ** Letting go *)

(** The Pod of [s] is out of the way: there is none, it was found gone, or its
    deletion went through. *)
Definition pod_gone (h : list Ev) (s : Sandbox) : Prop :=
  let k := (om_Namespace (sbx_Meta s), ss_PodName (sbx_Status s)) in
  ss_PodName (sbx_Status s) = "" \/
  (exists e, EvGetPod k (Err e) ∈ h /\ IsNotFound e = true) \/
  exists pod, EvGetPod k (Ok pod) ∈ h /\
    (EvDeletePod pod (Ok tt) ∈ h \/
     exists e, EvDeletePod pod (Err e) ∈ h /\ IsNotFound e = true).

Definition teardown_rule (h : list Ev) (ev : Ev) : Prop :=
  match ev with
  | EvUpdateSandboxStatus s _ =>
      (ss_Phase (sbx_Status s) = PhaseExpired -> pod_gone h s) /\
      (ss_Phase (sbx_Status s) = PhaseExpired \/ ss_Phase (sbx_Status s) = PhaseFailed ->
       ss_Token (sbx_Status s) = "")
  | EvUpdateSandbox s _ => FinalizerSandbox ∉ om_Finalizers (sbx_Meta s) -> pod_gone h s
  | _ => True
  end.

Ltac plain := run_with ltac:(first [exact I | split; [discriminate|intros [?|?]; done]
                                   | solve [split; [discriminate|done]]
                                   | solve [destruct (sr_EndpointFor r); cbn;
                                            split; [discriminate|intros [?|?]; done]]]).

Lemma deletePod_gone h sbx :
  safe teardown_rule h (deletePod r sbx) (fun h' err => err = None -> pod_gone h' sbx).
Proof.
  unfold deletePod. case_bool_decide as Hn; [apply safe_mret; by left|].
  apply safe_call; [intros; exact I|]. intros [pod|e].
  - assert (Hd : forall h', EvGetPod (om_Namespace (sbx_Meta sbx), ss_PodName (sbx_Status sbx)) (Ok pod) ∈ h' ->
      safe teardown_rule h' (res ← call (DeletePod pod); mret (IgnoreNotFound (error_of res)))
        (fun h'' err => err = None -> pod_gone h'' sbx)).
    { intros h' Hin. apply safe_call; [intros; exact I|]. intros [[]|e]; apply safe_mret.
      - intros _. right. right. exists pod. split; [in_calls|]. left. in_calls.
      - cbn. destruct (IsNotFound e) eqn:He; [|done]. intros _. right. right. exists pod.
        split; [in_calls|]. right. exists e. split; [in_calls|done]. }
    destruct (negb _ && _); [|apply safe_ret, Hd; in_calls].
    apply safe_bind, safe_call; [intros; exact I|]. intros res. apply safe_mret, Hd. in_calls.
  - destruct (IsNotFound e) eqn:He; apply safe_mret; [|done].
    intros _. right. left. exists e. split; [in_calls|done].
Qed.
Lemma fail_teardown h sbx reason msg :
  safe teardown_rule h (fail sbx reason msg) (fun _ _ => True).
Proof. unfold fail. plain. Qed.
Hint Resolve fail_teardown : safe.
Lemma claim_first_teardown h sbx ps :
  safe teardown_rule h (claim_first sbx ps) (fun _ _ => True).
Proof.
  revert h. induction ps as [|p ps IH]; intros h; cbn [claim_first]; [exact I|]. plain.
Qed.
Hint Resolve claim_first_teardown : safe.
Lemma acquirePod_teardown h sbx : safe teardown_rule h (acquirePod r sbx) (fun _ _ => True).
Proof.
  unfold acquirePod, template, findClaimedPod, claimWarmPod, createPod, record_binding. plain.
Qed.
Lemma publish_running_teardown h sbx tpl pod tier token resp boundAt ex :
  safe teardown_rule h (publish_running r sbx tpl pod tier token resp boundAt ex) (fun _ _ => True).
Proof.
  unfold publish_running. cbv zeta. apply safe_call; [intros; exact I|]. intros readyAt.
  apply safe_call; [|intros; plain]. intros res.
  assert (Hr : forall s, ss_Phase (sbx_Status s) = PhaseRunning ->
            teardown_rule (h ++ [E Now readyAt]) (EvUpdateSandboxStatus s res)).
  { intros s Hs. cbn. rewrite Hs. split; [discriminate|]. by intros [?|?]. }
  apply Hr. unfold on_status. by destruct (sr_EndpointFor r).
Qed.
Hint Resolve publish_running_teardown : safe.
Lemma bind_teardown h sbx : safe teardown_rule h (bind r sbx) (fun _ _ => True).
Proof. unfold bind, template, bind_pod. plain. Qed.
Hint Resolve acquirePod_teardown bind_teardown : safe.

Lemma pod_gone_on_status h f sbx :
  ss_PodName (f (sbx_Status sbx)) = ss_PodName (sbx_Status sbx) ->
  pod_gone h sbx -> pod_gone h (on_status f sbx).
Proof. intros Hf. unfold pod_gone, on_status. cbn. by rewrite Hf. Qed.
Lemma watchExpiry_teardown h sbx : safe teardown_rule h (watchExpiry r sbx) (fun _ _ => True).
Proof.
  unfold watchExpiry, expire. destruct (ss_ExpiresAt (sbx_Status sbx)); [|exact I].
  apply safe_call; [intros; exact I|]. intros now. cbv zeta.
  destruct (0 <? _)%Z; [exact I|]. apply safe_bind. eapply safe_mono; [|apply deletePod_gone].
  intros h' [e|] Hg; [exact I|]. apply safe_call; [|intros; exact I]. intros res.
  split; [intros _; by apply pod_gone_on_status, Hg|done].
Qed.
Lemma finalize_teardown h sbx : safe teardown_rule h (finalize r sbx) (fun _ _ => True).
Proof.
  unfold finalize. apply safe_bind. eapply safe_mono; [|apply deletePod_gone].
  intros h' [e|] Hg; [exact I|]. apply safe_call; [|intros; exact I]. intros res _. by apply Hg.
Qed.
Hint Resolve watchExpiry_teardown finalize_teardown : safe.

(** C9: in every execution, the sandbox is declared expired and its finalizer
    is removed only after its Pod is gone (none was recorded, it was not
    found, or its deletion went through), and whenever a sandbox is declared
    expired or failed its token is cleared. *)
Theorem Reconcile_tears_down req : obeys teardown_rule (Reconcile r req).
Proof.
  apply (safe_obeys _ _ (fun _ _ => True)). unfold Reconcile, dispatch.
  apply safe_call; [intros; exact I|]. intros [sbx|e]; [|exact I].
  destruct (deleting (sbx_Meta sbx)); [eauto with safe|].
  destruct (contains_finalizer (sbx_Meta sbx) FinalizerSandbox) eqn:Hf; cbn [negb]; [plain|].
  apply safe_call; [|intros; plain]. intros res Hn. exfalso. apply Hn.
  unfold add_finalizer. rewrite Hf. cbn. apply elem_of_app. right. left.
Qed.

(** ** One Pod per pass, and none when there is one already *)

(** Calls that gave this sandbox a Pod, or may have. *)
Definition took (ev : Ev) : bool :=
  match ev with EvUpdatePod _ (Ok _) | EvCreatePod _ _ => true | _ => false end.
Definition took_none (h : list Ev) : Prop := forall ev, ev ∈ h -> took ev = false.

(** A Pod may be taken for the sandbox its labels name only when a list of that
    sandbox's Pods showed none that is not being deleted, and nothing was taken
    before in this pass. *)
Definition may_take (h : list Ev) (p : Pod) : Prop :=
  took_none h /\
  exists ns ps,
    EvListPods ns {[ LabelSandboxID := label (pod_Meta p) LabelSandboxID ]} (Ok ps) ∈ h /\
    forall q, q ∈ ps -> deleting (pod_Meta q) = true.

(** The other update: the tier of a Pod read in this pass. *)
Definition records_tier (h : list Ev) (p : Pod) : Prop :=
  exists k pod tier, EvGetPod k (Ok pod) ∈ h /\
    p = on_meta (set_label LabelIsolationTier tier) pod.

Definition claim_rule (h : list Ev) (ev : Ev) : Prop :=
  match ev with
  | EvUpdatePod p _ => may_take h p \/ records_tier h p
  | EvCreatePod p _ => may_take h p
  | _ => True
  end.

Ltac calm := run_with ltac:(exact I).

Lemma took_none_app h ev : took_none h -> took ev = false -> took_none (h ++ [ev]).
Proof. intros Hh He ev' [?| ->%list_elem_of_singleton]%elem_of_app; auto. Qed.

Lemma claim_labels_id sbx m : label (claim_labels sbx m) LabelSandboxID = om_Name (sbx_Meta sbx).
Proof.
  unfold claim_labels, label, set_label. destruct (negb _); cbn;
    rewrite ?(lookup_insert_ne _ LabelTenant) by done; by rewrite lookup_insert_eq.
Qed.
Lemma set_owner_id sbx m m' :
  set_controller_reference (sandbox_owner sbx) m = Ok m' ->
  label m' LabelSandboxID = label m LabelSandboxID.
Proof. by intros (refs & ->)%set_controller_reference_meta. Qed.

(** The sandbox was seen to have no live Pod. *)
Definition seen_none (h : list Ev) (sbx : Sandbox) : Prop :=
  exists ns ps, EvListPods ns {[ LabelSandboxID := om_Name (sbx_Meta sbx) ]} (Ok ps) ∈ h /\
    forall q, q ∈ ps -> deleting (pod_Meta q) = true.
Lemma seen_none_app h ev sbx : seen_none h sbx -> seen_none (h ++ [ev]) sbx.
Proof. intros (ns & ps & Hin & Hps). exists ns, ps. split; [in_calls|done]. Qed.

Lemma claim_first_takes h sbx ps :
  took_none h -> seen_none h sbx ->
  safe claim_rule h (claim_first sbx ps)
    (fun h' res => res = Ok None -> took_none h' /\ seen_none h' sbx).
Proof.
  revert h. induction ps as [|p ps IH]; intros h Hh Hs; cbn [claim_first];
    [apply safe_mret; auto|].
  destruct (set_controller_reference _ _) as [m'|e] eqn:Em; [|by apply safe_mret].
  apply safe_call.
  - intros res. left. split; [done|]. cbn. rewrite (set_owner_id sbx _ m' Em).
    unfold label, set_om_OwnerReferences. cbn.
    change (default "" (?x !! ?k)) with (default "" (x !! k)).
    fold (label (claim_labels sbx (pod_Meta p)) LabelSandboxID).
    by rewrite claim_labels_id.
  - intros [q|e]; [by apply safe_mret|].
    destruct (IsConflict e || IsNotFound e); [|by apply safe_mret].
    apply IH; [by apply took_none_app|by apply seen_none_app].
Qed.

Lemma createPod_takes h sbx tpl :
  took_none h -> seen_none h sbx -> safe claim_rule h (createPod r sbx tpl) (fun _ _ => True).
Proof.
  intros Hh Hs. unfold createPod. apply safe_call; [intros; exact I|]. intros token. cbv zeta.
  destruct (set_controller_reference _ _) as [m'|e] eqn:Em; [|exact I].
  intros res. split; [|exact I]. split; [by apply took_none_app|].
  cbn. rewrite (set_owner_id sbx _ m' Em). cbn [on_meta pod_Meta set_pod_Meta].
  rewrite claim_labels_id. by apply seen_none_app.
Qed.
Lemma fail_claim h sbx reason msg : safe claim_rule h (fail sbx reason msg) (fun _ _ => True).
Proof. unfold fail. calm. Qed.
Lemma record_binding_claim h sbx : safe claim_rule h (record_binding sbx) (fun _ _ => True).
Proof. unfold record_binding. calm. Qed.
Hint Resolve fail_claim record_binding_claim : safe.

Lemma acquirePod_takes h sbx :
  took_none h -> safe claim_rule h (acquirePod r sbx) (fun _ _ => True).
Proof.
  intros Hh. unfold acquirePod, template. apply safe_bind, safe_call; [intros; exact I|].
  intros rt. apply safe_mret. destruct (match rt with Ok _ => _ | Err _ => _ end) as [tpl|e]; [|calm].
  destruct (decide _); [calm|].
  unfold findClaimedPod. apply safe_bind, safe_call; [intros; exact I|]. intros rl. apply safe_mret.
  destruct rl as [ps|e]; [|exact I].
  destruct (List.find _ ps) as [pod|] eqn:Ef; [calm|].
  unfold claimWarmPod. apply safe_bind, safe_call; [intros; exact I|]. intros rw.
  destruct rw as [pods|e]; [|exact I].
  apply safe_call; [intros; exact I|]. intros cs. cbv beta.
  eapply safe_mono; [|apply claim_first_takes].
  - intros h' [[pod|]|e] Hres; [apply safe_ret; calm| |exact I].
    destruct (Hres eq_refl) as [H1 H2]. apply safe_bind.
    apply safe_post; [by apply createPod_takes|]. intros h'' [pod|e]; calm.
  - do 4 (apply took_none_app; [|done]). done.
  - do 2 apply seen_none_app. exists (om_Namespace (sbx_Meta sbx)), ps. split; [in_calls|].
    intros q Hq. rewrite find_none_elem in Ef. specialize (Ef q Hq).
    by apply negb_false_iff in Ef.
Qed.
Lemma bind_claim h sbx : safe claim_rule h (bind r sbx) (fun _ _ => True).
Proof.
  unfold bind, template, bind_pod, publish_running.
  run_with ltac:(first [exact I | right; eexists _, _, _; split; [in_calls|reflexivity]]).
Qed.
Lemma watchExpiry_claim h sbx : safe claim_rule h (watchExpiry r sbx) (fun _ _ => True).
Proof. unfold watchExpiry, expire, deletePod. calm. Qed.
Lemma finalize_claim h sbx : safe claim_rule h (finalize r sbx) (fun _ _ => True).
Proof. unfold finalize, deletePod. calm. Qed.
Hint Resolve bind_claim watchExpiry_claim finalize_claim : safe.

(** Acquiring is idempotent: in every execution a Pod is claimed or created
    for a sandbox only after a list of that sandbox's Pods showed no live one,
    and at most once per pass, also after lost races. *)
Theorem Reconcile_takes_one_pod req : obeys claim_rule (Reconcile r req).
Proof.
  apply (safe_obeys _ _ (fun _ _ => True)). unfold Reconcile.
  assert (Hd : forall h sbx, took_none h -> safe claim_rule h (dispatch r sbx) (fun _ _ => True)).
  { intros h sbx Hh. unfold dispatch. pose proof (acquirePod_takes h sbx Hh). calm. }
  apply safe_call; [intros; exact I|]. intros [sbx|e]; [|exact I].
  destruct (deleting (sbx_Meta sbx)); [eauto with safe|].
  assert (H1 : took_none ([] ++ [E (GetSandbox req) (Ok sbx)])).
  { apply took_none_app; [|done]. by intros ev ?%elem_of_nil. }
  destruct (negb _); [|by apply Hd]. apply safe_call; [intros; exact I|].
  intros [sbx'|e]; [|exact I]. apply Hd. by apply took_none_app.
Qed.
End Trace.
