(* ===== verification/PoolCtl.v ===== *)
(** * The SandboxPool reconciler (controller/pool_controller.go)

    [PoolReconciler.Reconcile], [classify], [measure], [publishStatus] and
    [desiredReplicas].  A Pod of the listed slice is updated in place by
    [measure], so [classify] threads the value. *)
From S2P Require Import Prelude Calls GoStrings Api Bwrap Crd PodSpec Kube SandboxCtl Fixtures.
Open Scope string_scope.
Open Scope list_scope.

Definition poolResync : Z := 10 * second.

Definition desiredReplicas (pool : SandboxPool) : Z :=
  let want := pl_Replicas (pool_Spec pool) in
  let min := pl_MinReplicas (pool_Spec pool) in
  let want := if (want <? min)%Z then min else want in
  let max := pl_MaxReplicas (pool_Spec pool) in
  let want := if (0 <? max)%Z && (max <? want)%Z then max else want in
  if (want <? 0)%Z then 0%Z else want.

Record poolState := {
  idleCurrent : list Pod;
  pending : list Pod;
  stale : list Pod;
  stuck : list Pod;
  expired : list Pod;
  orphans : list Pod;
  bound : Z;
  byTier : gmap string Z }.
Definition empty_state : poolState :=
  {| idleCurrent := []; pending := []; stale := []; stuck := []; expired := []; orphans := [];
     bound := 0; byTier := ∅ |}.

(** [append(st.pending, p)] and the like. *)
Definition add_pending (p : Pod) (st : poolState) : poolState :=
  {| idleCurrent := idleCurrent st; pending := pending st ++ [p]; stale := stale st;
     stuck := stuck st; expired := expired st; orphans := orphans st; bound := bound st;
     byTier := byTier st |}.
Definition add_stale (p : Pod) (st : poolState) : poolState :=
  {| idleCurrent := idleCurrent st; pending := pending st; stale := stale st ++ [p];
     stuck := stuck st; expired := expired st; orphans := orphans st; bound := bound st;
     byTier := byTier st |}.
Definition add_stuck (p : Pod) (st : poolState) : poolState :=
  {| idleCurrent := idleCurrent st; pending := pending st; stale := stale st;
     stuck := stuck st ++ [p]; expired := expired st; orphans := orphans st; bound := bound st;
     byTier := byTier st |}.
Definition add_expired (p : Pod) (st : poolState) : poolState :=
  {| idleCurrent := idleCurrent st; pending := pending st; stale := stale st;
     stuck := stuck st; expired := expired st ++ [p]; orphans := orphans st; bound := bound st;
     byTier := byTier st |}.
Definition add_bound (missing : bool) (p : Pod) (st : poolState) : poolState :=
  {| idleCurrent := idleCurrent st; pending := pending st; stale := stale st;
     stuck := stuck st; expired := expired st;
     orphans := if missing then orphans st ++ [p] else orphans st;
     bound := (bound st + 1)%Z; byTier := byTier st |}.
Definition add_idle (tier : Tier) (p : Pod) (st : poolState) : poolState :=
  {| idleCurrent := idleCurrent st ++ [p]; pending := pending st; stale := stale st;
     stuck := stuck st; expired := expired st; orphans := orphans st; bound := bound st;
     byTier := <[tier := int32 (default 0%Z (byTier st !! tier) + 1)]> (byTier st) |}.

Record PoolReconciler := {
  pr_Layout : Layout;
  pr_Platform : PlatformImage;
  pr_HasProber : bool }.

Section Pool.
Context `{Vendor} `{ControllerUtil}.
Context (r : PoolReconciler).

(** The measured tier, and the Pod as [measure] left it. *)
Definition measure (p : Pod) : K (result string (Tier * string) * Pod) :=
  if bool_decide (pst_PodIP (pod_Status p) = "") || negb (pr_HasProber r)
  then mret (Err "no Pod IP or no prober configured", p)
  else
    res ← call (ProbePod (podRef p));
    match res with
    | Err e => mret (Err e, p)
    | Ok (tier, reason) =>
        let m := set_label LabelIsolationTier tier (pod_Meta p) in
        let m := set_om_Annotations (<[AnnotationTierProbe := reason]> (om_Annotations m)) m in
        res ← call (UpdatePod (set_pod_Meta m p));
        mret (Ok (tier, reason), match res with Ok patched => patched | Err _ => p end)
    end.

Definition sandboxMissing (p : Pod) : K bool :=
  let id := label (pod_Meta p) LabelSandboxID in
  if bool_decide (id = "") then mret false
  else
    res ← call (GetSandbox (om_Namespace (pod_Meta p), id));
    mret match res with Err e => IsNotFound e | Ok _ => false end.

(** One iteration of the loop of [classify]. *)
Definition classify_one (pool : SandboxPool) (tpl : SandboxTemplate) (hash : string)
    (st : poolState) (p : Pod) : K poolState :=
  let notReadyTimeout := seconds (pl_NotReadyTimeoutSeconds (pool_Spec pool)) in
  let notReadyTimeout := if (notReadyTimeout <=? 0)%Z then (5 * minute)%Z else notReadyTimeout in
  let idleTTL := seconds (pl_IdleTTLSeconds (pool_Spec pool)) in
  let state := label (pod_Meta p) LabelState in
  if deleting (pod_Meta p) then mret st
  else if decide (state = StateBound) then
    missing ← sandboxMissing p;
    mret (add_bound missing p st)
  else if decide (state = StateDraining) then mret st
  else
    now ← call Now;
    let age := (now - om_CreationTimestamp (pod_Meta p))%Z in
    let phase := pst_Phase (pod_Status p) in
    if bool_decide (phase = PodFailed) || bool_decide (phase = PodSucceeded) then
      mret (add_stuck p st)
    else if negb (podReady p) then
      mret (if (notReadyTimeout <? age)%Z then add_stuck p st else add_pending p st)
    else if negb (bool_decide (label (pod_Meta p) LabelTemplateHash = hash)) then
      mret (add_stale p st)
    else if (0 <? idleTTL)%Z && (idleTTL <? age)%Z then mret (add_expired p st)
    else
      let tier := label (pod_Meta p) LabelIsolationTier in
      if bool_decide (tier = "") then
        measured ← measure p;
        let '(res, p) := measured in
        match res with
        | Err _ => mret (add_pending p st)
        | Ok (tier, _) =>
            if negb (AtLeast tier (RequiredIsolation (tpl_Spec tpl)))
            then mret (add_stuck p st)
            else mret (add_idle tier p st)
        end
      else mret (add_idle tier p st).

Fixpoint classify_from (pool : SandboxPool) (tpl : SandboxTemplate) (hash : string)
    (st : poolState) (pods : list Pod) : K poolState :=
  match pods with
  | [] => mret st
  | p :: pods' =>
      st ← classify_one pool tpl hash st p;
      classify_from pool tpl hash st pods'
  end.
Definition classify (pool : SandboxPool) (tpl : SandboxTemplate) (hash : string)
    (pods : list Pod) : K poolState :=
  classify_from pool tpl hash empty_state pods.

(** [_ = r.delete(ctx, p)] for each Pod of a list. *)
Fixpoint delete_all (ps : list Pod) : K unit :=
  match ps with
  | [] => mret tt
  | p :: ps' => _ ← call (DeletePod p); delete_all ps'
  end.

Definition publishStatus (pool : SandboxPool) (st : poolState) (hash : string) (requeue : Z)
  : K Outcome :=
  let status :=
    {| pls_IdleByTier := byTier st;
       pls_Idle := int32 (Z.of_nat (length (idleCurrent st)));
       pls_Bound := int32 (bound st);
       pls_Stale := int32 (Z.of_nat (length (stale st)));
       pls_NotReady := int32 (Z.of_nat (length (pending st)));
       pls_TemplateHash := hash |} in
  res ← call (UpdatePoolStatus (set_pool_Status status pool));
  match error_of res with
  | Some e => mret (requeueOnConflict (Some e))
  | None => mret (requeue, None)
  end.

Definition pool_owner (pool : SandboxPool) : OwnerReference :=
  {| or_Kind := "SandboxPool"; or_Name := om_Name (pool_Meta pool);
     or_UID := om_UID (pool_Meta pool); or_Controller := true |}.

(** The creation loop; [None] where it ends or a creation fails, an error
    where the owner cannot be set. *)
Fixpoint create_warm (n : nat) (pool : SandboxPool) (tpl : SandboxTemplate) : K (option KErr) :=
  match n with
  | O => mret None
  | S n' =>
      token ← call NewControlToken;
      let pod := BuildPod tpl (om_Name (pool_Meta pool)) (pr_Platform r) (pr_Layout r) token in
      match set_controller_reference (pool_owner pool) (pod_Meta pod) with
      | Err e => mret (Some (plain_error e))
      | Ok m =>
          res ← call (CreatePod (set_pod_Meta m pod));
          match res with
          | Err _ => mret None
          | Ok _ => create_warm n' pool tpl
          end
      end
  end.

Definition surge_of (pool : SandboxPool) : Z :=
  let surge := pl_MaxSurge (pool_Spec pool) in
  if (surge <=? 0)%Z then 3%Z else surge.

(** From the classification to the end of the pass. *)
Definition settle (pool : SandboxPool) (tpl : SandboxTemplate) (hash : string) (st : poolState)
  : K Outcome :=
  _ ← delete_all (take (Z.to_nat (surge_of pool)) (stale st));
  _ ← delete_all (expired st);
  _ ← delete_all (stuck st);
  _ ← delete_all (orphans st);
  let desired := desiredReplicas pool in
  let have := Z.of_nat (length (idleCurrent st) + length (pending st)) in
  err ← create_warm (Z.to_nat (desired - have)) pool tpl;
  match err with
  | Some e => mret (0%Z, Some e)
  | None =>
      let surplus := (Z.of_nat (length (idleCurrent st)) - desired)%Z in
      _ ← delete_all (take (Z.to_nat surplus) (idleCurrent st));
      publishStatus pool st hash poolResync
  end.

Definition ReconcilePool (req : ObjectKey) : K Outcome :=
  res ← call (GetPool req);
  match res with
  | Err e => mret (0%Z, IgnoreNotFound (Some e))
  | Ok pool =>
      if deleting (pool_Meta pool) then mret (0%Z, None)
      else
        res ← call (GetTemplate (om_Namespace (pool_Meta pool), pl_TemplateRef (pool_Spec pool)));
        match res with
        | Err e => if IsNotFound e then mret (poolResync, None) else mret (0%Z, Some e)
        | Ok tpl =>
            let hash := TemplateHash tpl (pr_Platform r) (pr_Layout r) in
            if negb (bool_decide (tst_Admission (tpl_Status tpl) = AdmissionApproved))
            then publishStatus pool empty_state hash poolResync
            else
              res ← call (ListPods (om_Namespace (pool_Meta pool))
                            {[ LabelPool := om_Name (pool_Meta pool) ]});
              match res with
              | Err e => mret (0%Z, Some e)
              | Ok pods =>
                  st ← classify pool tpl hash pods;
                  settle pool tpl hash st
              end
        end
  end.
End Pool.

(** ** The size of the pool *)

Lemma desiredReplicas_range pool :
  let s := pool_Spec pool in
  (0 <= desiredReplicas pool)%Z /\
  (0 < pl_MaxReplicas s -> desiredReplicas pool <= Z.max 0 (pl_MaxReplicas s))%Z /\
  (0 <= pl_MinReplicas s ->
   pl_MaxReplicas s <= 0 \/ pl_MinReplicas s <= pl_MaxReplicas s ->
   pl_MinReplicas s <= desiredReplicas pool)%Z.
Proof.
  cbv zeta. unfold desiredReplicas. cbv zeta.
  generalize (pl_Replicas (pool_Spec pool)) (pl_MinReplicas (pool_Spec pool))
    (pl_MaxReplicas (pool_Spec pool)). intros want min max.
  destruct (Z.ltb_spec want min), (Z.ltb_spec 0 max); cbn [andb];
    repeat match goal with
    | |- context [Z.ltb max ?w] => destruct (Z.ltb_spec max w)
    end;
    try match goal with |- context [Z.ltb ?w 0] => destruct (Z.ltb_spec w 0) end; lia.
Qed.

Section PoolRules.
Context `{Vendor} `{ControllerUtil}.
Context (r : PoolReconciler).

(** ** What may be created and deleted *)

(** A Pod that may be deleted: the version read, or the one this pass last
    wrote, is not bound, or the sandbox its label names was found not to exist. *)
Definition unbound (p : Pod) : Prop := label (pod_Meta p) LabelState <> StateBound.
Definition may_delete (h : list Ev) (p : Pod) : Prop :=
  unbound p \/
  (exists p0, EvUpdatePod p0 (Ok p) ∈ h /\ unbound p0) \/
  exists e, EvGetSandbox (om_Namespace (pod_Meta p), label (pod_Meta p) LabelSandboxID) (Err e) ∈ h /\
    IsNotFound e = true.
Lemma may_delete_app h l p : may_delete h p -> may_delete (h ++ l) p.
Proof.
  intros [?|[(p0 & ? & ?)|(e & ? & ?)]]; [by left|right; left|right; right].
  - exists p0. split; [in_calls|done].
  - exists e. split; [in_calls|done].
Qed.

Definition is_create (ev : Ev) : bool :=
  match ev with EvCreatePod _ _ => true | _ => false end.
Definition creations (h : list Ev) : nat := length (filter (fun ev => is_create ev = true) h).

(** The rule of a pass: what is created is idle, in this pool and for an
    approved template, and what is deleted may be. *)
Definition pool_rule (h : list Ev) (ev : Ev) : Prop :=
  match ev with
  | EvDeletePod p _ => may_delete h p
  | EvCreatePod p _ =>
      label (pod_Meta p) LabelState = StateIdle /\
      (exists k tpl, EvGetTemplate k (Ok tpl) ∈ h /\
         tst_Admission (tpl_Status tpl) = AdmissionApproved /\
         om_Namespace (pod_Meta p) = om_Namespace (tpl_Meta tpl)) /\
      exists k pool, EvGetPool k (Ok pool) ∈ h /\
        label (pod_Meta p) LabelPool = om_Name (pool_Meta pool)
  | EvUpdatePod p _ => binding p = None
  | _ => True
  end.

(** All Pods of a classification may be deleted but the idle ones are only
    ever not bound. *)
Definition deletable (h : list Ev) (st : poolState) : Prop :=
  forall p, p ∈ idleCurrent st ++ stale st ++ stuck st ++ expired st ++ orphans st ->
    may_delete h p.
Lemma deletable_app h l st : deletable h st -> deletable (h ++ l) st.
Proof. intros Hd p Hp. by apply may_delete_app, Hd. Qed.

Lemma label_bound m v : om_Labels m !! LabelState = Some v -> label m LabelState = v.
Proof. unfold label. by intros ->. Qed.
Lemma unbound_binding p : unbound p -> binding p = None.
Proof.
  intros Hn. unfold binding. rewrite decide_False; [done|]. intros E. by apply label_bound in E.
Qed.

Lemma deletable_add (f : poolState -> poolState) h st p :
  (forall q, q ∈ idleCurrent (f st) ++ stale (f st) ++ stuck (f st) ++
     expired (f st) ++ orphans (f st) ->
   q = p \/ q ∈ idleCurrent st ++ stale st ++ stuck st ++ expired st ++ orphans st) ->
  deletable h st -> may_delete h p -> deletable h (f st).
Proof. intros Hf Hd Hp q [->|Hq]%Hf; [done|by apply Hd]. Qed.
Ltac add_shape := intros ?; unfold add_pending, add_stale, add_stuck, add_expired, add_idle, add_bound;
  cbn; rewrite ?elem_of_app, ?list_elem_of_singleton; tauto.
Lemma deletable_pending h st p : deletable h st -> deletable h (add_pending p st).
Proof. done. Qed.
Lemma deletable_bound_live h st p : deletable h st -> deletable h (add_bound false p st).
Proof. done. Qed.

(** The list a pass started from stays known while it goes on. *)
Lemma measure_rule h p st :
  unbound p -> deletable h st ->
  safe pool_rule h (measure r p) (fun h' res => deletable h' st /\ may_delete h' (snd res)).
Proof.
  intros Hp Hd. unfold measure. destruct (_ || _).
  { apply safe_mret. split; [done|by left]. }
  apply safe_call; [intros; exact I|]. intros [[tier reason]|e].
  2: { apply safe_mret. split; [by apply deletable_app|by left]. }
  set (m := set_om_Annotations _ _).
  assert (Hm : unbound (set_pod_Meta m p)).
  { unfold unbound, m, label, set_label. cbn. by rewrite lookup_insert_ne by done. }
  apply safe_call; [intros; by apply unbound_binding|]. intros [q|e]; apply safe_mret.
  - split; [by do 2 apply deletable_app|]. right. left. exists (set_pod_Meta m p).
    split; [in_calls|done].
  - split; [by do 2 apply deletable_app|by left].
Qed.

Lemma sandboxMissing_rule h p st :
  deletable h st ->
  safe pool_rule h (sandboxMissing p)
    (fun h' missing => deletable h' st /\ (missing = true -> may_delete h' p)).
Proof.
  intros Hd. unfold sandboxMissing. case_bool_decide; [by apply safe_mret|].
  apply safe_call; [intros; exact I|]. intros [s|e]; apply safe_mret;
    (split; [by apply deletable_app|]); [done|].
  intros He. right. right. exists e. split; [in_calls|done].
Qed.

Lemma classify_one_rule h pool tpl hash st p :
  deletable h st ->
  safe pool_rule h (classify_one r pool tpl hash st p) (fun h' st' => deletable h' st').
Proof.
  intros Hd. unfold classify_one. cbv zeta.
  destruct (deleting _); [by apply safe_mret|].
  destruct (decide (label _ LabelState = StateBound)) as [Hb|Hb].
  { apply safe_bind. eapply safe_mono; [|by apply sandboxMissing_rule].
    intros h' [] [Hd' Hm]; apply safe_mret; [|done].
    apply (deletable_add (add_bound true p) _ _ p); [add_shape|done|by apply Hm]. }
  destruct (decide _); [by apply safe_mret|].
  apply safe_call; [intros; exact I|]. intros now.
  apply (deletable_app _ [E Now now]) in Hd.
  assert (Hp : forall h', may_delete h' p) by (intros; by left).
  destruct (_ || _); [apply safe_mret; by apply (deletable_add _ _ _ p); [add_shape|..]|].
  destruct (negb (podReady p)).
  { apply safe_mret. destruct (_ <? _)%Z; [by apply (deletable_add _ _ _ p); [add_shape|..]|done]. }
  destruct (negb _); [apply safe_mret; by apply (deletable_add _ _ _ p); [add_shape|..]|].
  destruct (_ && _); [apply safe_mret; by apply (deletable_add _ _ _ p); [add_shape|..]|].
  case_bool_decide; [|apply safe_mret; by apply (deletable_add _ _ _ p); [add_shape|..]].
  apply safe_bind. eapply safe_mono; [|by apply (measure_rule _ _ st)].
  intros h' [res q] [Hd' Hq]. cbn [snd] in Hq. destruct res as [[tier' reason]|e]; [|by apply safe_mret].
  destruct (negb _); apply safe_mret; by apply (deletable_add _ _ _ q); [add_shape|..].
Qed.
Lemma classify_from_rule h pool tpl hash st ps :
  deletable h st ->
  safe pool_rule h (classify_from r pool tpl hash st ps) (fun h' st' => deletable h' st').
Proof.
  revert h st. induction ps as [|p ps IH]; intros h st Hd; cbn [classify_from];
    [by apply safe_mret|].
  apply safe_bind. eapply safe_mono; [|by apply classify_one_rule].
  intros h' st' Hd'. by apply IH.
Qed.

(** What a creation needs to know. *)
Definition approved (h : list Ev) (pool : SandboxPool) (tpl : SandboxTemplate) : Prop :=
  (exists k, EvGetTemplate k (Ok tpl) ∈ h) /\
  tst_Admission (tpl_Status tpl) = AdmissionApproved /\
  exists k, EvGetPool k (Ok pool) ∈ h.
Lemma approved_app h l pool tpl : approved h pool tpl -> approved (h ++ l) pool tpl.
Proof.
  intros ([k Hk] & Ha & [k' Hk']). split; [exists k; in_calls|]. split; [done|].
  exists k'. in_calls.
Qed.

Lemma delete_all_rule h ps Q :
  (forall p, p ∈ ps -> may_delete h p) ->
  (forall h', (exists l, h' = h ++ l) -> Q h' tt) -> safe pool_rule h (delete_all ps) Q.
Proof.
  revert h. induction ps as [|p ps IH]; intros h Hp HQ; cbn [delete_all].
  - apply safe_mret, HQ. exists []. by rewrite app_nil_r.
  - apply safe_call; [intros res; apply Hp; left|]. intros res. apply IH.
    + intros q Hq. apply may_delete_app, Hp. by right.
    + intros h' [l ->]. apply HQ. exists ([E (DeletePod p) res] ++ l). by rewrite app_assoc.
Qed.

Lemma create_warm_rule h n pool tpl :
  approved h pool tpl ->
  safe pool_rule h (create_warm r n pool tpl) (fun h' _ => exists l, h' = h ++ l).
Proof.
  revert h. induction n as [|n IH]; intros h Ha; cbn [create_warm].
  { apply safe_mret. exists []. by rewrite app_nil_r. }
  apply safe_call; [intros; exact I|]. intros token. cbv zeta.
  destruct (set_controller_reference _ _) as [m|e] eqn:Em; [|apply safe_mret; eauto].
  apply set_controller_reference_meta in Em as (refs & ->).
  apply (approved_app _ [E NewControlToken token]) in Ha as Ha'.
  apply safe_call.
  - intros res. split; [by vm_compute|]. destruct Ha' as ([k Hk] & Had & [k' Hk']). split.
    + exists k, tpl. done.
    + exists k', pool. split; [done|]. reflexivity.
  - intros [q|e]; [|apply safe_mret; eexists; by rewrite <-app_assoc].
    eapply safe_mono; [|apply IH; by apply approved_app].
    intros h' _ [l ->]. rewrite <-!app_assoc. eauto.
Qed.

Lemma settle_rule h pool tpl hash st :
  deletable h st -> approved h pool tpl ->
  safe pool_rule h (settle r pool tpl hash st) (fun _ _ => True).
Proof.
  intros Hd Ha. unfold settle.
  assert (Hin : forall h' (ps : list Pod), (exists l, h' = h ++ l) ->
    (forall p, p ∈ ps -> p ∈ idleCurrent st ++ stale st ++ stuck st ++ expired st ++ orphans st) ->
    forall p, p ∈ ps -> may_delete h' p).
  { intros h' ps [l ->] Hps p Hp. apply may_delete_app. by apply Hd, Hps. }
  assert (Ht : forall {A} n (l : list A) x, x ∈ take n l -> x ∈ l).
  { intros A n l x. apply subseteq_take. }
  assert (Happ : forall h' h'' : list Ev, (exists l, h' = h ++ l) -> (exists l, h'' = h' ++ l) ->
    exists l, h'' = h ++ l).
  { intros h' h'' [l ->] [l' ->]. rewrite <-app_assoc. eauto. }
  apply safe_bind, delete_all_rule.
  { apply Hin; [exists []; by rewrite app_nil_r|]. intros p ?%Ht. rewrite !elem_of_app. tauto. }
  intros h1 H1. apply safe_bind, delete_all_rule.
  { apply Hin; [done|]. intros p ?. rewrite !elem_of_app. tauto. }
  intros h2 H2%(Happ _ _ H1). apply safe_bind, delete_all_rule.
  { apply Hin; [done|]. intros p ?. rewrite !elem_of_app. tauto. }
  intros h3 H3%(Happ _ _ H2). apply safe_bind, delete_all_rule.
  { apply Hin; [done|]. intros p ?. rewrite !elem_of_app. tauto. }
  intros h4 H4%(Happ _ _ H3). cbv zeta. apply safe_bind. eapply safe_mono; [|apply create_warm_rule].
  - intros h5 [e|] H5%(Happ _ _ H4); [exact I|]. apply safe_bind, delete_all_rule.
    + apply Hin; [done|]. intros p ?%Ht. rewrite !elem_of_app. tauto.
    + intros h6 _. unfold publishStatus. run_with ltac:(exact I).
  - destruct H4 as [l ->]. by apply approved_app.
Qed.

(** C10: in every execution of the pool's pass, warm Pods are created only for
    an approved template, idle and in this pool; a Pod is deleted only if the
    version read (or written) in this pass is not bound, or the sandbox that
    its label names was found not to exist; and a Pod is relabelled only while
    it is not bound. *)
Theorem ReconcilePool_obeys req : obeys pool_rule (ReconcilePool r req).
Proof.
  apply (safe_obeys _ _ (fun _ _ => True)). unfold ReconcilePool.
  apply safe_call; [intros; exact I|]. intros [pool|e]; [|exact I].
  destruct (deleting _); [exact I|].
  apply safe_call; [intros; exact I|]. intros [tpl|e]; [|destruct (IsNotFound e); exact I].
  cbv zeta. case_bool_decide as Ha; cbn [negb];
    [|unfold publishStatus; run_with ltac:(exact I)].
  apply safe_call; [intros; exact I|]. intros [pods|e]; [|exact I].
  set (h := (_ ++ _) : list Ev).
  assert (Hap : approved h pool tpl).
  { split; [eexists; unfold h; in_calls|]. split; [done|]. eexists. unfold h. in_calls. }
  assert (Hmono : forall Q, safe pool_rule h (classify r pool tpl
            (TemplateHash tpl (pr_Platform r) (pr_Layout r)) pods) Q ->
          safe pool_rule h (classify r pool tpl
            (TemplateHash tpl (pr_Platform r) (pr_Layout r)) pods)
            (fun h' st => Q h' st /\ exists l, h' = h ++ l)).
  { intros Q. apply safe_history. }
  apply safe_bind. eapply safe_mono; [|apply Hmono, classify_from_rule].
  - intros h' st [Hd [l ->]]. apply settle_rule; [done|by apply approved_app].
  - intros p Hp. cbn in Hp. by apply elem_of_nil in Hp.
Qed.
End PoolRules.

(** ** Bindings and counts *)

Section PoolStore.
Context `{Vendor} `{ControllerUtil}.
Context (sem : Sem) {laws : KubeLaws sem}.
Context (r : PoolReconciler).

Lemma keeps_measure vs p : p ∈ vs -> unbound p -> keeps sem vs (measure r p).
Proof.
  intros Hp Hu. unfold measure.
  assert (Ht : forall tier reason, keeps sem vs (call (UpdatePod (set_pod_Meta
    (set_om_Annotations (<[AnnotationTierProbe := reason]>
       (om_Annotations (set_label LabelIsolationTier tier (pod_Meta p))))
       (set_label LabelIsolationTier tier (pod_Meta p))) p)))).
  { intros tier reason. apply (keeps_update sem _ p); [done|done|done|].
    by rewrite unbound_binding. }
  keeps.
Qed.
Lemma keeps_classify_one vs pool tpl hash st p :
  p ∈ vs -> keeps sem vs (classify_one r pool tpl hash st p).
Proof.
  intros Hp. pose proof (keeps_measure vs p Hp) as Hm.
  unfold classify_one, sandboxMissing. cbv zeta.
  destruct (deleting _); [apply keeps_ret|].
  destruct (decide (label _ LabelState = StateBound)) as [|Hb]; [keeps|].
  specialize (Hm Hb). keeps.
Qed.
Lemma keeps_classify_from vs pool tpl hash st ps :
  (forall p, p ∈ ps -> p ∈ vs) -> keeps sem vs (classify_from r pool tpl hash st ps).
Proof.
  revert st. induction ps as [|p ps IH]; intros st Hps; cbn [classify_from]; [apply keeps_ret|].
  apply keeps_bind; [apply keeps_classify_one, Hps; left|].
  intros st'. apply IH. intros q Hq. apply Hps. by right.
Qed.
Lemma keeps_delete_all vs ps : keeps sem vs (delete_all ps).
Proof. induction ps as [|p ps IH]; cbn [delete_all]; keeps. Qed.
Lemma keeps_create_warm vs n pool tpl : keeps sem vs (create_warm r n pool tpl).
Proof. induction n as [|n IH]; cbn [create_warm]; keeps. Qed.
Hint Resolve keeps_delete_all keeps_create_warm : keeps.
Lemma keeps_settle vs pool tpl hash st : keeps sem vs (settle r pool tpl hash st).
Proof. unfold settle, publishStatus. keeps. Qed.
Hint Resolve keeps_settle : keeps.

(** A whole pass of the pool reconciler, whatever the store and the caches
    answer, also leaves every binding in place: relabelling a warm Pod with its
    measured tier loses against a claim made in the meantime. *)
Theorem ReconcilePool_keeps_bindings req s :
  wp sem (ReconcilePool r req) s (fun _ s' => env s s' /\
    forall k uid id, bound_to s k uid id -> bound_to s' k uid id).
Proof.
  assert (Hk : keeps sem [] (ReconcilePool r req)).
  { unfold ReconcilePool. apply keeps_bind; [keeps|]. intros [pool|e]; [|keeps].
    destruct (deleting _); [keeps|].
    apply keeps_bind; [keeps|]. intros [tpl|e]; [|keeps]. cbv zeta.
    destruct (negb _); [unfold publishStatus; keeps|].
    apply keeps_list_pods; [done| |intros e; keeps]. intros ps _.
    apply keeps_bind; [|intros st; keeps].
    apply keeps_classify_from. intros p Hp. apply elem_of_app. by left. }
  eapply wp_mono; [|apply Hk; constructor].
  intros a s' He. split; [exact He|]. intros k uid id. by apply env_bound.
Qed.
End PoolStore.

Section PoolCounts.
Context `{Vendor} `{ControllerUtil}.
Context (r : PoolReconciler).

Lemma creations_app a b : creations (a ++ b) = (creations a + creations b)%nat.
Proof. unfold creations. by rewrite filter_app, length_app. Qed.
Lemma creations_cons ev l :
  creations (ev :: l) = ((if is_create ev then 1 else 0) + creations l)%nat.
Proof.
  unfold creations. destruct (is_create ev) eqn:E.
  - by rewrite filter_cons_True.
  - rewrite filter_cons_False; [done|]. by rewrite E.
Qed.
Lemma exec_delete_all ps l a : exec (delete_all ps) l a -> creations l = 0%nat.
Proof.
  revert l. induction ps as [|p ps IH]; intros l; cbn [delete_all]; [by intros [-> _]|].
  intros (res & l' & -> & Hl)%exec_call. exact (IH l' Hl).
Qed.
Lemma exec_create_warm n pool tpl l a :
  exec (create_warm r n pool tpl) l a -> (creations l <= n)%nat.
Proof.
  revert l. induction n as [|n IH]; intros l; cbn [create_warm]; [by intros [-> _]|].
  intros (token & l1 & -> & H1)%exec_call. unfold K_bind in H1. cbn [bindK] in H1.
  rewrite creations_cons. cbn [is_create E].
  destruct (set_controller_reference _ _) as [m|e]; [|destruct H1 as [-> _]; cbn; lia].
  apply exec_call in H1 as (res & l2 & -> & H2). rewrite creations_cons. cbn [is_create E].
  destruct res as [q|e]; [|destruct H2 as [-> _]; cbn; lia]. specialize (IH _ H2). lia.
Qed.

(** A pass never overshoots: it creates at most what is missing between the
    Pods that are ready or on their way and the desired number, which lies
    between zero and the configured maximum, and at least the configured
    minimum where the two agree. *)
Theorem settle_bounds pool tpl hash st l out :
  exec (settle r pool tpl hash st) l out ->
  (Z.of_nat (creations l) <=
     Z.max 0 (desiredReplicas pool - Z.of_nat (length (idleCurrent st) + length (pending st))))%Z /\
  (0 <= desiredReplicas pool)%Z /\
  (0 < pl_MaxReplicas (pool_Spec pool) ->
   desiredReplicas pool <= Z.max 0 (pl_MaxReplicas (pool_Spec pool)))%Z /\
  (0 <= pl_MinReplicas (pool_Spec pool) ->
   pl_MaxReplicas (pool_Spec pool) <= 0 \/
     pl_MinReplicas (pool_Spec pool) <= pl_MaxReplicas (pool_Spec pool) ->
   pl_MinReplicas (pool_Spec pool) <= desiredReplicas pool)%Z.
Proof.
  intros He. split; [|apply desiredReplicas_range]. revert He. unfold settle.
  intros (l1 & l1' & [] & -> & H1%exec_delete_all & He)%exec_bind.
  apply exec_bind in He as (l2 & l2' & [] & -> & H2%exec_delete_all & He).
  apply exec_bind in He as (l3 & l3' & [] & -> & H3%exec_delete_all & He).
  apply exec_bind in He as (l4 & l4' & [] & -> & H4%exec_delete_all & He). cbv zeta in He.
  apply exec_bind in He as (l5 & l5' & err & -> & H5%exec_create_warm & He).
  assert (H6 : creations l5' = 0%nat).
  { destruct err as [e|]; [by destruct He as [-> _]|].
    apply exec_bind in He as (l6 & l6' & [] & -> & H6%exec_delete_all & He).
    rewrite creations_app, H6. unfold publishStatus in He.
    apply exec_call in He as (res & l7 & -> & He). rewrite creations_cons.
    unfold K_bind in He. cbn [bindK] in He. destruct (error_of res); by destruct He as [-> _]. }
  rewrite !creations_app, H1, H2, H3, H4, H6. lia.
Qed.
End PoolCounts.

(** ** Witnesses *)

Definition wit_pool : SandboxPool :=
  {| pool_Meta := fx_meta "warm" ∅;
     pool_Spec :=
       {| pl_TemplateRef := "py"; pl_Replicas := 1; pl_MinReplicas := 0; pl_MaxReplicas := 4;
          pl_Autoscale := {| as_Enabled := false; as_TargetIdleSeconds := 0 |};
          pl_NotReadyTimeoutSeconds := 0; pl_IdleTTLSeconds := 0; pl_MaxSurge := 0 |};
     pool_Status :=
       {| pls_IdleByTier := ∅; pls_Idle := 0; pls_Bound := 0; pls_Stale := 0; pls_NotReady := 0;
          pls_TemplateHash := "" |} |}.
Definition wit_pool_reconciler : PoolReconciler :=
  {| pr_Layout := DefaultLayout; pr_Platform := fx_platform; pr_HasProber := true |}.

Lemma settle_exec_wit :
  exists l, creations l = 1%nat /\
    exec (@settle fx_vendor fx_util wit_pool_reconciler wit_pool fx_template "h" empty_state)
      l (poolResync, None).
Proof.
  eexists. split; cycle 1.
  - unfold settle. cbn -[BuildPod].
    exists "jct_1". eexists. split; [reflexivity|].
    exists (Ok (fx_pod "warm-2")). eexists. split; [reflexivity|].
    exists (Ok wit_pool). eexists. split; [reflexivity|].
    split; reflexivity.
  - reflexivity.
Defined.
Lemma settle_bounds_wit :
  exists l, creations l = 1%nat /\
    (Z.of_nat (creations l) <= Z.max 0 (desiredReplicas wit_pool - 0))%Z.
Proof.
  destruct settle_exec_wit as (l & Hc & Hl). exists l. split; [exact Hc|].
  destruct (@settle_bounds fx_vendor fx_util wit_pool_reconciler wit_pool fx_template "h"
              empty_state l (poolResync, None) Hl) as [H _].
  exact H.
Defined.
Lemma ReconcilePool_keeps_bindings_wit :
  KubeLaws fx_sem /\
  wp fx_sem (@ReconcilePool fx_vendor fx_util wit_pool_reconciler ("acme", "warm")) fx_server
    (fun _ s' => env fx_server s' /\
      forall k uid id, bound_to fx_server k uid id -> bound_to s' k uid id).
Proof.
  split; [apply fx_laws|].
  exact (@ReconcilePool_keeps_bindings fx_vendor fx_util fx_sem fx_laws wit_pool_reconciler
           ("acme", "warm") fx_server).
Defined.
