(* ===== verification/TemplateCtl.v ===== *)
(** * The SandboxTemplate reconciler (controller/template_controller.go)

    Admission: the checks on the spec ([staticAdmit]), the resolution of a tag
    ([resolveImage]), the checks on the resolved image ([resolvedAdmit]), the
    checks on the claims ([admitVolumes]) and the write of the verdict
    ([publish]).  [resolveImage] changes the status of the template in place,
    so it returns the template it leaves. *)
From S2P Require Import Prelude Calls GoStrings Api Bwrap Crd PodSpec Kube SandboxCtl Fixtures.
Open Scope string_scope.
Open Scope list_scope.

Definition AnnotationApprovedBy : string := "sandbox.jdix.io/approved-by".
Definition resolveRetry : Z := 30 * second.
Definition defaultMaxImageBytes : Z := Z.shiftl 5 30.
Definition ReadOnlyMany : string := "ReadOnlyMany".
Definition ReadWriteMany : string := "ReadWriteMany".

Record TemplateReconciler := {
  tr_AllowedRegistries : list string;
  tr_Platform : PlatformImage;
  tr_Layout : Layout;
  tr_MaxImageBytes : Z;
  tr_HasResolver : bool }.

(** ** Sizes in messages: [%.1f] of [float64(b)/(1<<30)] *)

(** [n / d] rounded to the nearest integer, halves to even. *)
Definition div_half_even (n d : Z) : Z :=
  let q := (n / d)%Z in
  let r := (n mod d)%Z in
  if (2 * r <? d)%Z then q
  else if (d <? 2 * r)%Z then (q + 1)%Z
  else if Z.even q then q else (q + 1)%Z.
(** The integer a non-negative int64 is as a float64: 53 bits of precision. *)
Definition float64_int (b : Z) : Z :=
  if (b <? 2 ^ 53)%Z then b
  else
    let ulp := (2 ^ (Z.log2 b - 52))%Z in
    (ulp * div_half_even b ulp)%Z.
(** Tenths of a GiB. *)
Definition format_gib (b : Z) : string :=
  let tenths := div_half_even (10 * float64_int b) (2 ^ 30) in
  itoa (tenths / 10)%Z +:+ "." +:+ itoa (tenths mod 10)%Z.

(** ** Admission *)

Definition on_tpl_status (f : SandboxTemplateStatus -> SandboxTemplateStatus) (t : SandboxTemplate)
  : SandboxTemplate := set_tpl_Status (f (tpl_Status t)) t.

Definition shareable (modes : list string) : bool :=
  existsb (fun m => bool_decide (m = ReadOnlyMany) || bool_decide (m = ReadWriteMany)) modes.

(** The paths a workspace may not take. *)
Definition platform_path (p : string) : bool :=
  bool_decide (p = "/opt/jdix") || has_prefix p "/opt/jdix/" ||
  bool_decide (p = "/var/lib/jdix") || has_prefix p "/var/lib/jdix/".

Section Template.
Context `{Vendor}.
Context (r : TemplateReconciler).

Definition registryAllowed (host : string) : bool :=
  match tr_AllowedRegistries r with
  | [] => true
  | allowed => existsb (fun a => bool_decide (host = a)) allowed
  end.

(** The isolation settings that contradict one another. *)
Definition isolation_conflict (s : SandboxTemplateSpec) : option string :=
  if negb (bool_decide (ts_FilesystemIsolation s = "")) then
    if negb (bool_decide (ts_FilesystemIsolation s = "bwrap")) ||
       negb (bool_decide (ts_MinIsolationTier s = ""))
    then Some "filesystemIsolation=bwrap must not be combined with minIsolationTier"
    else None
  else if bool_decide (ts_PodUserNamespace s <> None) ||
          bool_decide (ts_MinIsolationTier s = sbxv1.TierFilesystem)
  then Some "podUserNamespace requires filesystemIsolation=bwrap; filesystem is not a legacy minIsolationTier"
  else None.

Definition staticAdmit (tpl : SandboxTemplate) : AdmissionState * string :=
  match isolation_conflict (tpl_Spec tpl) with
  | Some reason => (AdmissionRejected, reason)
  | None =>
      let ref := img_Ref (ts_Image (tpl_Spec tpl)) in
      if bool_decide (ref = "") then (AdmissionRejected, "spec.image.ref is required")
      else
        let host := registryOf ref in
        if negb (registryAllowed host) then
          (AdmissionRejected,
           "registry " +:+ quote host +:+ " is not on the allowlist (" +:+
             join ", " (tr_AllowedRegistries r) +:+ ")")
        else
          let p := sbxv1.ws_Path (fd_Workspace (ts_FilesystemDefaults (tpl_Spec tpl))) in
          if negb (bool_decide (p = "")) && platform_path p
          then (AdmissionRejected, "workspace path overlaps the platform directory")
          else (AdmissionApproved, "")
  end.

(** [resolveImage]'s error is always nil in the code. *)
Definition resolveImage (tpl : SandboxTemplate) : K (Z * option KErr * SandboxTemplate) :=
  let ref := img_Ref (ts_Image (tpl_Spec tpl)) in
  let d := digestOf ref in
  if negb (bool_decide (d = "")) then
    mret (0%Z, None, on_tpl_status (fun st =>
      set_tst_ImagePinned true (set_tst_ResolvedRef ref (set_tst_ResolvedDigest d st))) tpl)
  else if negb (ShouldResolve (ts_Image (tpl_Spec tpl))) then
    mret (0%Z, None, on_tpl_status (fun st =>
      set_tst_ImagePinned false (set_tst_ImageBytes 0 (set_tst_ResolvedAt None
        (set_tst_ResolvedRef "" (set_tst_ResolvedDigest "" st))))) tpl)
  else if negb (bool_decide (tst_ResolvedDigest (tpl_Status tpl) = "")) &&
          bool_decide (tst_ResolvedRef (tpl_Status tpl) = ref) then
    mret (0%Z, None, on_tpl_status (set_tst_ImagePinned true) tpl)
  else if negb (tr_HasResolver r) then
    mret (0%Z, None, on_tpl_status (fun st =>
      set_tst_AdmissionReason "this installation cannot resolve tags: either pin spec.image.ref by digest (name@sha256:...), or set spec.image.resolve=false to let the kubelet pull by tag"
        (set_tst_Admission AdmissionRejected st)) tpl)
  else
    let secrets := match img_PullSecretRef (ts_Image (tpl_Spec tpl)) with
                   | Some name => [name] | None => [] end in
    res ← call (ResolveImage ref secrets (om_Namespace (tpl_Meta tpl)));
    match res with
    | Err (ErrImageNotFound _) =>
        mret (0%Z, None, on_tpl_status (fun st =>
          set_tst_AdmissionReason
            ("cannot pull " +:+ ref +:+ ": it does not exist, or the pull secret cannot see it")
            (set_tst_Admission AdmissionRejected st)) tpl)
    | Err (ResolveFailed msg) =>
        mret (resolveRetry, None,
          on_tpl_status (set_tst_AdmissionReason ("resolving " +:+ ref +:+ ": " +:+ msg)) tpl)
    | Ok img =>
        now ← call Now;
        mret (0%Z, None, on_tpl_status (fun st =>
          set_tst_AdmissionReason "" (set_tst_ImagePinned true (set_tst_ImageBytes (ri_Bytes img)
            (set_tst_ResolvedAt (Some now) (set_tst_ResolvedRef ref
              (set_tst_ResolvedDigest (ri_Digest img) st)))))) tpl)
    end.

(** The limit in force. *)
Definition max_image_bytes : Z :=
  if (tr_MaxImageBytes r <=? 0)%Z then defaultMaxImageBytes else tr_MaxImageBytes r.

Definition resolvedAdmit (tpl : SandboxTemplate) : AdmissionState * string :=
  let b := tst_ImageBytes (tpl_Status tpl) in
  if (0 <? b)%Z && (max_image_bytes <? b)%Z then
    (AdmissionRejected,
     "image is " +:+ format_gib b +:+ " GiB, over the " +:+ format_gib max_image_bytes +:+
       " GiB limit; a cold start would take minutes")
  else if negb (bool_decide (ts_Volumes (tpl_Spec tpl) = [])) &&
          bool_decide (annotation (tpl_Meta tpl) AnnotationApprovedBy = "") then
    (AdmissionPendingReview,
     "templates with volumes need review: a volume requires a warm pool, and warm capacity is charged to the platform")
  else (AdmissionApproved, "").

(** The loop of [admitVolumes]. *)
Fixpoint admit_volumes (ns : string) (vs : list TemplateVolume) : K (AdmissionState * string * Z) :=
  match vs with
  | [] => mret (AdmissionApproved, "", 0%Z)
  | v :: vs' =>
      res ← call (GetPVC (ns, tv_ClaimName v));
      match res with
      | Err e =>
          if IsNotFound e then
            mret (AdmissionPending,
              "volume " +:+ quote (tv_Name v) +:+ " references PersistentVolumeClaim " +:+
                quote (tv_ClaimName v) +:+ ", which does not exist in namespace " +:+ ns +:+ " yet",
              (15 * second)%Z)
          else
            mret (AdmissionPending,
              "reading PersistentVolumeClaim " +:+ quote (tv_ClaimName v) +:+ ": " +:+ ke_Msg e,
              (15 * second)%Z)
      | Ok pvc =>
          if negb (shareable (pvc_AccessModes pvc)) then
            mret (AdmissionRejected,
              "volume " +:+ quote (tv_Name v) +:+ " claims " +:+ quote (tv_ClaimName v) +:+
                ", whose access modes are [" +:+ join " " (pvc_AccessModes pvc) +:+
                "]: a warm pool holds several Pods on the same volume at once, so it needs ReadOnlyMany or ReadWriteMany. Use a claim that provides one, or drop the volume from this template",
              0%Z)
          else admit_volumes ns vs'
      end
  end.
Definition admitVolumes (tpl : SandboxTemplate) : K (AdmissionState * string * Z) :=
  admit_volumes (om_Namespace (tpl_Meta tpl)) (ts_Volumes (tpl_Spec tpl)).

Definition has_volumes (tpl : SandboxTemplate) : bool :=
  (0 <? length (ts_Volumes (tpl_Spec tpl)))%nat.
(** The status already says what [publish] would write. *)
Definition settled (tpl : SandboxTemplate) (hash : string) (state : AdmissionState) (reason : string)
  : bool :=
  bool_decide (tst_Hash (tpl_Status tpl) = hash) &&
  bool_decide (tst_Admission (tpl_Status tpl) = state) &&
  bool_decide (tst_AdmissionReason (tpl_Status tpl) = reason) &&
  Bool.eqb (tst_HasVolumes (tpl_Status tpl)) (has_volumes tpl).

Definition publish (tpl : SandboxTemplate) (state : AdmissionState) (reason : string)
  : K (option KErr) :=
  let hash := TemplateHash tpl (tr_Platform r) (tr_Layout r) in
  if settled tpl hash state reason then mret None
  else
    res ← call (UpdateTemplateStatus (on_tpl_status (fun st =>
      set_tst_HasVolumes (has_volumes tpl) (set_tst_AdmissionReason reason
        (set_tst_Admission state (set_tst_Hash hash st)))) tpl));
    mret match res with
         | Err e => if negb (IsConflict e) then Some e else None
         | Ok _ => None
         end.

(** [publish], then the answer of the pass. *)
Definition publish_then (tpl : SandboxTemplate) (state : AdmissionState) (reason : string)
    (requeue : Z) : K Outcome :=
  err ← publish tpl state reason;
  match err with
  | Some e => mret (0%Z, Some e)
  | None => mret (requeue, None)
  end.

(** From the resolved image to the end of the pass. *)
Definition admit_resolved (tpl : SandboxTemplate) : K Outcome :=
  let '(state, reason) := resolvedAdmit tpl in
  if bool_decide (state = AdmissionApproved) then
    verdict ← admitVolumes tpl;
    let '(state, reason, requeue) := verdict in
    if (0 <? requeue)%Z then publish_then tpl state reason requeue
    else publish_then tpl state reason 0
  else publish_then tpl state reason 0.

Definition ReconcileTemplate (req : ObjectKey) : K Outcome :=
  res ← call (GetTemplate req);
  match res with
  | Err e => mret (0%Z, IgnoreNotFound (Some e))
  | Ok tpl =>
      if deleting (tpl_Meta tpl) then mret (0%Z, None)
      else
        let '(state, reason) := staticAdmit tpl in
        if bool_decide (state = AdmissionRejected) then publish_then tpl state reason 0
        else
          resolved ← resolveImage tpl;
          let '(requeue, err, tpl) := resolved in
          match err with
          | Some e => mret (0%Z, Some e)
          | None =>
              if (0 <? requeue)%Z then
                publish_then tpl AdmissionPending (tst_AdmissionReason (tpl_Status tpl)) requeue
              else if bool_decide (tst_Admission (tpl_Status tpl) = AdmissionRejected) then
                publish_then tpl AdmissionRejected (tst_AdmissionReason (tpl_Status tpl)) 0
              else admit_resolved tpl
          end
  end.
End Template.
