(* ===== verification/TemplateSafety.v ===== *)
(** * What the template reconciler approves, and that it settles

    A rule over the calls of [ReconcileTemplate]: what a written verdict rests
    on.  Then, for deterministic answers, that a pass over what the previous
    one wrote writes nothing. *)
From S2P Require Import Prelude Calls GoStrings Api Bwrap Crd PodSpec Kube SandboxCtl Fixtures TemplateCtl.
Open Scope string_scope.
Open Scope list_scope.

(** ** Helpers *)

(** Membership in a list written out. *)
Ltac set_elem := rewrite ?elem_of_cons; tauto.

(** The paths refused are those of the platform's two roots. *)
Lemma platform_path_roots p :
  platform_path p = contains PlatformRoot p || contains StateRoot p.
Proof.
  unfold platform_path, contains, PlatformRoot, StateRoot.
  repeat case_bool_decide; repeat case_decide; subst; try done; try congruence.
  cbn [orb]. by rewrite orb_false_r.
Qed.

Lemma shareable_spec modes :
  shareable modes = true <-> ReadOnlyMany ∈ modes \/ ReadWriteMany ∈ modes.
Proof.
  unfold shareable. rewrite existsb_elem. split.
  - intros (m & Hm & H). apply orb_prop in H as [H|H]; apply bool_decide_eq_true in H as ->; tauto.
  - intros [H|H]; eexists; (split; [exact H|]); reflexivity.
Qed.

Lemma registryAllowed_spec r host :
  registryAllowed r host = true <->
  tr_AllowedRegistries r = [] \/ host ∈ tr_AllowedRegistries r.
Proof.
  unfold registryAllowed. destruct (tr_AllowedRegistries r) as [|a l] eqn:E.
  - split; [by left|done].
  - rewrite existsb_elem. split.
    + intros (x & Hx & H). apply bool_decide_eq_true in H as ->. by right.
    + intros [?|H]; [done|]. exists host. split; [done|]. by rewrite bool_decide_eq_true.
Qed.

(** The hash sees nothing of the status but the digest. *)
Lemma TemplateHash_ext `{Vendor} t t' p l :
  tpl_Spec t' = tpl_Spec t ->
  tst_ResolvedDigest (tpl_Status t') = tst_ResolvedDigest (tpl_Status t) ->
  TemplateHash t' p l = TemplateHash t p l.
Proof.
  destruct t as [m s st], t' as [m' s' st']. cbn. intros -> E.
  assert (Hi : ImageRef {| tpl_Meta := m'; tpl_Spec := s; tpl_Status := st' |} =
               ImageRef {| tpl_Meta := m; tpl_Spec := s; tpl_Status := st |}).
  { unfold ImageRef. cbn. by rewrite E. }
  unfold TemplateHash, buildPodSpec, basePodSpec, sandboxContainer. cbv zeta.
  by rewrite Hi.
Qed.

Section Admission.
Context `{Vendor}.
Context (r : TemplateReconciler).

(** ** Soundness of a verdict *)

(** What the spec must satisfy by itself. *)
Record spec_admissible (s : SandboxTemplateSpec) : Prop := {
  adm_isolation : isolation_conflict s = None;
  adm_ref : img_Ref (ts_Image s) <> "";
  adm_registry : tr_AllowedRegistries r = [] \/
    registryOf (img_Ref (ts_Image s)) ∈ tr_AllowedRegistries r;
  adm_workspace : let p := sbxv1.ws_Path (fd_Workspace (ts_FilesystemDefaults s)) in
    contains PlatformRoot p = false /\ contains StateRoot p = false }.

Lemma staticAdmit_cases tpl :
  (staticAdmit r tpl = (AdmissionApproved, "") /\ spec_admissible (tpl_Spec tpl)) \/
  (fst (staticAdmit r tpl) = AdmissionRejected /\ ~ spec_admissible (tpl_Spec tpl)).
Proof.
  unfold staticAdmit. destruct (isolation_conflict _) as [m|] eqn:Ei.
  { right. split; [done|]. intros []. congruence. }
  case_bool_decide as Er; [right; split; [done|]; by intros []|].
  destruct (registryAllowed _ _) eqn:Ea; cbn [negb].
  2: { right. split; [done|]. intros [_ _ Hr _]. apply registryAllowed_spec in Hr. congruence. }
  apply registryAllowed_spec in Ea.
  set (p := sbxv1.ws_Path _). rewrite platform_path_roots.
  destruct (contains PlatformRoot p || contains StateRoot p) eqn:Ep.
  - assert (Hp : bool_decide (p = "") = false).
    { apply bool_decide_eq_false. intros E. by rewrite E in Ep. }
    rewrite Hp. right. split; [done|]. intros [_ _ _ [H1 H2]]. fold p in H1, H2.
    by rewrite H1, H2 in Ep.
  - rewrite andb_false_r. left. split; [done|]. apply orb_false_elim in Ep. by constructor.
Qed.

(** Where the digest a template runs with comes from. *)
Definition image_known (h : list Ev) (old t : SandboxTemplate) : Prop :=
  let ref := img_Ref (ts_Image (tpl_Spec t)) in
  let st := tpl_Status t in
  (digestOf ref <> "" /\ tst_ResolvedDigest st = digestOf ref /\ tst_ImagePinned st = true) \/
  (digestOf ref = "" /\ ShouldResolve (ts_Image (tpl_Spec t)) = false /\
     tst_ResolvedDigest st = "" /\ tst_ImagePinned st = false) \/
  (tst_ResolvedRef st = ref /\ tst_ImagePinned st = true /\
     ((tst_ResolvedRef (tpl_Status old) = ref /\
       tst_ResolvedDigest st = tst_ResolvedDigest (tpl_Status old)) \/
      exists secrets img, EvResolveImage ref secrets (om_Namespace (tpl_Meta t)) (Ok img) ∈ h /\
        tst_ResolvedDigest st = ri_Digest img /\ tst_ImageBytes st = ri_Bytes img)).

(** What an approval rests on, given the template read and the calls made. *)
Record approvable (h : list Ev) (old t : SandboxTemplate) : Prop := {
  app_spec : spec_admissible (tpl_Spec t);
  app_image : image_known h old t;
  app_size : (tst_ImageBytes (tpl_Status t) <= max_image_bytes r)%Z;
  app_review : ts_Volumes (tpl_Spec t) <> [] ->
    annotation (tpl_Meta t) AnnotationApprovedBy <> "";
  app_claims : forall v, v ∈ ts_Volumes (tpl_Spec t) -> exists pvc,
    EvGetPVC (om_Namespace (tpl_Meta t), tv_ClaimName v) (Ok pvc) ∈ h /\
    (ReadOnlyMany ∈ pvc_AccessModes pvc \/ ReadWriteMany ∈ pvc_AccessModes pvc) }.

(** The verdict a pass may write over the template it read. *)
Record verdict_ok (h : list Ev) (old t : SandboxTemplate) : Prop := {
  ver_spec : tpl_Spec t = tpl_Spec old;
  ver_meta : tpl_Meta t = tpl_Meta old;
  ver_hash : tst_Hash (tpl_Status t) = TemplateHash t (tr_Platform r) (tr_Layout r);
  ver_volumes : tst_HasVolumes (tpl_Status t) = true <-> ts_Volumes (tpl_Spec t) <> [];
  ver_state : tst_Admission (tpl_Status t) ∈
    [AdmissionPending; AdmissionPendingReview; AdmissionApproved; AdmissionRejected];
  ver_static : ~ spec_admissible (tpl_Spec t) -> tst_Admission (tpl_Status t) = AdmissionRejected;
  ver_approved : tst_Admission (tpl_Status t) = AdmissionApproved -> approvable h old t;
  ver_sticky : tst_Admission (tpl_Status old) = AdmissionRejected ->
    tst_Admission (tpl_Status t) = AdmissionRejected \/
    tst_Admission (tpl_Status t) = AdmissionPending }.

Definition is_write (ev : Ev) : Prop :=
  match ev with
  | EvUpdateSandbox _ _ | EvUpdateSandboxStatus _ _ | EvUpdateTemplateStatus _ _
  | EvUpdatePoolStatus _ _ | EvUpdatePod _ _ | EvCreatePod _ _ | EvDeletePod _ _
  | EvBind _ _ _ | EvUnbind _ _ => True
  | _ => False
  end.
(** The rule of a pass: its only write is one verdict on the template read. *)
Definition template_rule (h : list Ev) (ev : Ev) : Prop :=
  is_write ev -> (forall e, e ∈ h -> ~ is_write e) /\
  match ev with
  | EvUpdateTemplateStatus t _ =>
      (exists k old, EvGetTemplate k (Ok old) ∈ h) /\
      forall k old, EvGetTemplate k (Ok old) ∈ h ->
        deleting (tpl_Meta old) = false /\ verdict_ok h old t
  | _ => False
  end.

(** What is known while a pass is under way. *)
Definition pass_inv (h : list Ev) (k : ObjectKey) (old t : SandboxTemplate) : Prop :=
  EvGetTemplate k (Ok old) ∈ h /\ deleting (tpl_Meta old) = false /\
  (forall e, e ∈ h -> ~ is_write e) /\
  (forall k' old', EvGetTemplate k' (Ok old') ∈ h -> old' = old) /\
  tpl_Spec t = tpl_Spec old /\ tpl_Meta t = tpl_Meta old.
Lemma pass_inv_app h k old t ev :
  (forall k' res, ev <> EvGetTemplate k' res) -> ~ is_write ev ->
  pass_inv h k old t -> pass_inv (h ++ [ev]) k old t.
Proof.
  intros Hget Hev (H1 & H2 & H3 & H4 & H5). split; [in_calls|]. split; [done|].
  split; [|split; [|done]].
  - intros e [He| ->%list_elem_of_singleton]%elem_of_app; [by apply H3|done].
  - intros k' old' [He|He%list_elem_of_singleton]%elem_of_app; [by eapply H4|].
    by destruct (Hget k' (Ok old')).
Qed.
Lemma pass_inv_status h k old t f : pass_inv h k old t -> pass_inv h k old (on_tpl_status f t).
Proof. done. Qed.

Lemma has_volumes_spec t : has_volumes t = true <-> ts_Volumes (tpl_Spec t) <> [].
Proof. unfold has_volumes. by destruct (ts_Volumes _). Qed.

(** [publish] obeys the rule when the state it is given is justified. *)
Lemma publish_then_rule h k old t state reason requeue :
  pass_inv h k old t ->
  state ∈ [AdmissionPending; AdmissionPendingReview; AdmissionApproved; AdmissionRejected] ->
  (~ spec_admissible (tpl_Spec t) -> state = AdmissionRejected) ->
  (state = AdmissionApproved -> approvable h old t) ->
  (tst_Admission (tpl_Status old) = AdmissionRejected ->
     state = AdmissionRejected \/ state = AdmissionPending) ->
  safe template_rule h (publish_then r t state reason requeue) (fun _ _ => True).
Proof.
  intros (Hk & Hd & Hw & Huniq & Hs & Hm) Hin Hst Hap Hsticky. unfold publish_then, publish. cbv zeta.
  destruct (settled _ _ _ _); [exact I|].
  apply safe_bind. intros res. split; [|by destruct res as [?|e]; [|cbn; destruct (IsConflict e)]].
  intros _. split; [exact Hw|]. split; [by exists k, old|].
  intros k' old' ->%Huniq. split; [done|]. constructor; cbn.
  - exact Hs.
  - exact Hm.
  - symmetry. by apply TemplateHash_ext.
  - apply has_volumes_spec.
  - exact Hin.
  - exact Hst.
  - intros E. destruct (Hap E) as [A1 A2 A3 A4 A5]. by constructor.
  - exact Hsticky.
Qed.

(** What [resolveImage] leaves behind. *)
Record resolved_ok (h : list Ev) (k : ObjectKey) (old t : SandboxTemplate) (requeue : Z) : Prop := {
  res_inv : pass_inv h k old t;
  res_sticky : tst_Admission (tpl_Status old) = AdmissionRejected ->
    tst_Admission (tpl_Status t) = AdmissionRejected;
  res_image : (requeue <= 0)%Z -> tst_Admission (tpl_Status t) = AdmissionRejected \/
    image_known h old t }.

Lemma resolveImage_rule h k old :
  pass_inv h k old old ->
  safe template_rule h (resolveImage r old)
    (fun h' res => let '(requeue, err, t) := res in err = None /\ resolved_ok h' k old t requeue).
Proof.
  intros Hi. unfold resolveImage. cbv zeta.
  set (ref := img_Ref _).
  case_bool_decide as Ed; cbn [negb].
  2: { apply safe_mret. split; [done|]. constructor; [exact Hi|done|]. intros _. right. by left. }
  destruct (ShouldResolve _) eqn:Es; cbn [negb].
  2: { apply safe_mret. split; [done|]. constructor; [exact Hi|done|]. intros _. right. by right; left. }
  case_bool_decide as Ee; [|case_bool_decide as Ef]; cbn [negb andb].
  2: { apply safe_mret. split; [done|]. constructor; [exact Hi|done|]. intros _. right. right. right.
       split; [done|]. split; [done|]. by left. }
  all: destruct (tr_HasResolver r); cbn [negb];
    [|by apply safe_mret; (split; [done|]); constructor; [exact Hi|done|left]].
  all: apply safe_call; [intros img []|]; intros [img|[msg|msg]].
  all: try (apply safe_call; [intros now []|]; intros now).
  all: apply safe_mret; (split; [done|]); constructor;
    [repeat (apply pass_inv_app; [done|tauto|]); exact Hi|done|].
  all: try (intros _; left; reflexivity); try (intros Hr; exfalso; revert Hr; vm_compute; congruence).
  all: intros _; right; right; right; (split; [done|]); (split; [done|]); right;
    eexists _, img; (split; [|split; reflexivity]); in_calls.
Qed.

Lemma admit_volumes_rule h k old t vs (done : list TemplateVolume) :
  pass_inv h k old t ->
  ts_Volumes (tpl_Spec t) = done ++ vs ->
  (forall v, v ∈ done -> exists pvc,
     EvGetPVC (om_Namespace (tpl_Meta t), tv_ClaimName v) (Ok pvc) ∈ h /\
     (ReadOnlyMany ∈ pvc_AccessModes pvc \/ ReadWriteMany ∈ pvc_AccessModes pvc)) ->
  safe template_rule h (admit_volumes (om_Namespace (tpl_Meta t)) vs)
    (fun h' res => let '(state, reason, requeue) := res in
      (exists l, h' = h ++ l) /\ pass_inv h' k old t /\
      ((state = AdmissionApproved /\ forall v, v ∈ ts_Volumes (tpl_Spec t) -> exists pvc,
         EvGetPVC (om_Namespace (tpl_Meta t), tv_ClaimName v) (Ok pvc) ∈ h' /\
         (ReadOnlyMany ∈ pvc_AccessModes pvc \/ ReadWriteMany ∈ pvc_AccessModes pvc)) \/
       state = AdmissionPending \/ state = AdmissionRejected)).
Proof.
  revert h done. induction vs as [|v vs IH]; intros h done Hi Hv Hd; cbn [admit_volumes].
  { apply safe_mret. rewrite app_nil_r in Hv. split; [exists []; by rewrite app_nil_r|].
    split; [exact Hi|]. left. by rewrite Hv. }
  apply safe_call; [intros res []|]. intros res.
  assert (Hi' : pass_inv (h ++ [E (GetPVC (om_Namespace (tpl_Meta t), tv_ClaimName v)) res]) k old t)
    by (apply pass_inv_app; [done|tauto|exact Hi]).
  destruct res as [pvc|e]; [destruct (shareable _) eqn:Es; cbn [negb]|destruct (IsNotFound e)].
  2-4: apply safe_mret; (split; [eauto|]); (split; [exact Hi'|]); tauto.
  eapply safe_mono; [|apply (IH _ (done ++ [v])); [exact Hi'|by rewrite <-app_assoc|]].
  - intros h' [[state reason] requeue] ([l ->] & H'). split; [|exact H'].
    rewrite <-app_assoc. eauto.
  - intros w [Hw| ->%list_elem_of_singleton]%elem_of_app.
    + destruct (Hd w Hw) as (q & Hq & Hm). exists q. split; [in_calls|exact Hm].
    + exists pvc. split; [in_calls|]. by apply shareable_spec.
Qed.

Lemma image_known_app h l old t : image_known h old t -> image_known (h ++ l) old t.
Proof.
  intros [?|[?|(H1 & H2 & [?|(s & i & Hi & H3)])]]; [by left|by right; left| |]; right; right;
    (split; [done|]); (split; [done|]); [by left|]. right. exists s, i. split; [in_calls|done].
Qed.

Lemma resolvedAdmit_cases tpl :
  let '(state, reason) := resolvedAdmit r tpl in
  (state = AdmissionApproved /\
   (tst_ImageBytes (tpl_Status tpl) <= max_image_bytes r)%Z /\
   (ts_Volumes (tpl_Spec tpl) <> [] -> annotation (tpl_Meta tpl) AnnotationApprovedBy <> "")) \/
  state = AdmissionRejected \/ state = AdmissionPendingReview.
Proof.
  unfold resolvedAdmit. cbv zeta.
  set (b := tst_ImageBytes _). set (m := max_image_bytes r).
  assert (Hm : (0 <= m)%Z).
  { unfold m, max_image_bytes. destruct (Z.leb_spec (tr_MaxImageBytes r) 0); [by vm_compute|lia]. }
  destruct ((0 <? b)%Z && (m <? b)%Z) eqn:Eb; [tauto|].
  assert (Hb : (b <= m)%Z).
  { destruct (Z.ltb_spec 0 b), (Z.ltb_spec m b); cbn in Eb; try discriminate; lia. }
  repeat case_bool_decide; cbn [negb andb]; tauto.
Qed.

(** Every pass obeys the rule. *)
Lemma template_safe req : safe template_rule [] (ReconcileTemplate r req) (fun _ _ => True).
Proof.
  unfold ReconcileTemplate. apply safe_call; [intros res []|]. intros [old|e]; [|exact I].
  destruct (deleting _) eqn:Ed; [exact I|].
  assert (Hi : pass_inv ([] ++ [E (GetTemplate req) (Ok old)]) req old old).
  { split; [in_calls|]. split; [exact Ed|]. split; [|split; [|done]].
    - intros e ->%list_elem_of_singleton [].
    - by intros k' old' [= _ ->]%list_elem_of_singleton. }
  destruct (staticAdmit r old) as [state reason] eqn:Es.
  destruct (staticAdmit_cases old) as [[E Hadm]|[E Hadm]]; rewrite Es in E.
  2: { cbn in E. subst state. rewrite bool_decide_true by done.
       eapply publish_then_rule; [exact Hi|set_elem|done|done|by left]. }
  injection E as -> _. rewrite bool_decide_false by done.
  apply safe_bind. eapply safe_mono; [|by apply resolveImage_rule].
  intros h1 [[requeue err] t] [-> [Hi1 Hst1 Him1]].
  assert (Hspec : spec_admissible (tpl_Spec t)).
  { destruct Hi1 as (_ & _ & _ & _ & -> & _). exact Hadm. }
  destruct (Z.ltb_spec 0 requeue).
  { eapply publish_then_rule; [exact Hi1|set_elem|done|done|by right]. }
  case_bool_decide as Er.
  { eapply publish_then_rule; [exact Hi1|set_elem|done|done|by left]. }
  destruct (Him1 ltac:(lia)) as [?|Him]; [done|]. unfold admit_resolved.
  pose proof (resolvedAdmit_cases t) as Hc. destruct (resolvedAdmit r t) as [state' reason'].
  destruct Hc as [(-> & Hsize & Hrev)|[-> | ->]].
  2,3: rewrite bool_decide_false by done;
    eapply publish_then_rule; [exact Hi1|set_elem|done|done|by intros ?%Hst1].
  rewrite bool_decide_true by done.
  apply safe_bind. eapply safe_mono; [|apply (admit_volumes_rule _ req old t _ []); [exact Hi1|done|]].
  2: intros v []%elem_of_nil.
  intros h2 [[state2 reason2] requeue2] ([l ->] & Hi2 & Hv).
  assert (Hp : forall q, safe template_rule (h1 ++ l) (publish_then r t state2 reason2 q) (fun _ _ => True)).
  { intros q. eapply publish_then_rule; [exact Hi2| |done| |by intros ?%Hst1].
    - destruct Hv as [[-> _]|[-> | ->]]; set_elem.
    - intros ->. destruct Hv as [[_ Hv]|[? | ?]]; [|done..].
      constructor; [done|by apply image_known_app|done|done|exact Hv]. }
  destruct (_ <? _)%Z; apply Hp.
Qed.
End Admission.

(** ** Settling *)

Section Settling.
Context `{Vendor}.
Context (r : TemplateReconciler).

(** What [publish] writes. *)
Definition written (t : SandboxTemplate) (state : AdmissionState) (reason : string) : SandboxTemplate :=
  on_tpl_status (fun st =>
    set_tst_HasVolumes (has_volumes t) (set_tst_AdmissionReason reason
      (set_tst_Admission state
        (set_tst_Hash (TemplateHash t (tr_Platform r) (tr_Layout r)) st)))) t.

(** The verdict of a pass over [tpl], and the template it is written on. *)
Definition verdict (ans : Answers) (tpl : SandboxTemplate)
  : SandboxTemplate * AdmissionState * string :=
  let '(state, reason) := staticAdmit r tpl in
  if bool_decide (state = AdmissionRejected) then (tpl, state, reason)
  else
    let '(requeue, _, t) := fst (run ans (resolveImage r tpl)) in
    if (0 <? requeue)%Z then (t, AdmissionPending, tst_AdmissionReason (tpl_Status t))
    else if bool_decide (tst_Admission (tpl_Status t) = AdmissionRejected) then
      (t, AdmissionRejected, tst_AdmissionReason (tpl_Status t))
    else
      let '(state, reason) := resolvedAdmit r t in
      if bool_decide (state = AdmissionApproved) then
        let '(state, reason, _) := fst (run ans (admitVolumes t)) in (t, state, reason)
      else (t, state, reason).

Definition is_update (ev : Ev) : bool :=
  match ev with EvUpdateTemplateStatus _ _ => true | _ => false end.
(** The templates a run writes. *)
Definition updates (l : list Ev) : list SandboxTemplate :=
  omap (fun ev => match ev with EvUpdateTemplateStatus t _ => Some t | _ => None end) l.
#[local] Arguments updates : simpl never.
Definition published (v : SandboxTemplate * AdmissionState * string) : list SandboxTemplate :=
  let '(t, state, reason) := v in
  if settled t (TemplateHash t (tr_Platform r) (tr_Layout r)) state reason then []
  else [written t state reason].

Lemma updates_app l1 l2 : updates (l1 ++ l2) = updates l1 ++ updates l2.
Proof. apply omap_app. Qed.
Lemma updates_cons ev l : is_update ev = false -> updates (ev :: l) = updates l.
Proof. by destruct ev. Qed.
Lemma run_publish ans t state reason requeue :
  updates (snd (run ans (publish_then r t state reason requeue))) = published (t, state, reason).
Proof.
  unfold publish_then. rewrite run_bind. unfold publish, published. cbv zeta.
  destruct (settled _ _ _ _); [done|]. cbn.
  destruct (ans _ _) as [?|e]; [|cbn; destruct (IsConflict e)]; done.
Qed.
Lemma run_resolve_updates ans tpl : updates (snd (run ans (resolveImage r tpl))) = [].
Proof.
  unfold resolveImage. cbv zeta.
  destruct (negb _); [done|]. destruct (negb _); [done|]. destruct (_ && _); [done|].
  destruct (negb _); [done|]. cbn. by destruct (ans _ _) as [?|[?|?]].
Qed.
Lemma run_volumes_updates ans ns vs : updates (snd (run ans (admit_volumes ns vs))) = [].
Proof.
  induction vs as [|v vs IH]; [done|]. cbn. destruct (ans _ _) as [pvc|e].
  - destruct (shareable _); cbn; [|done]. by destruct (run ans (admit_volumes ns vs)).
  - by destruct (IsNotFound e).
Qed.
Lemma resolveImage_no_error ans tpl : snd (fst (fst (run ans (resolveImage r tpl)))) = None.
Proof.
  unfold resolveImage. cbv zeta.
  destruct (negb _); [done|]. destruct (negb _); [done|]. destruct (_ && _); [done|].
  destruct (negb _); [done|]. cbn. by destruct (ans _ _) as [?|[?|?]].
Qed.

Lemma run_Reconcile (ans : Answers) req tpl :
  ans _ (GetTemplate req) = Ok tpl -> deleting (tpl_Meta tpl) = false ->
  updates (snd (run ans (ReconcileTemplate r req))) = published (verdict ans tpl).
Proof.
  intros Hg Hd. unfold ReconcileTemplate. rewrite run_bind. cbn [run call]. rewrite Hg, Hd.
  unfold verdict. destruct (staticAdmit r tpl) as [state reason]. case_bool_decide.
  { etrans; [|apply (run_publish ans _ _ _ 0%Z)].
    by destruct (run ans (publish_then _ _ _ _ _)). }
  rewrite run_bind. pose proof (run_resolve_updates ans tpl) as Hu.
  pose proof (resolveImage_no_error ans tpl) as He.
  destruct (run ans (resolveImage r tpl)) as [[[requeue err] t] l1]. cbn [fst snd] in Hu, He |- *.
  subst err.
  assert (Hl : forall (p : K Outcome) v, updates (snd (run ans p)) = published v ->
    updates (snd (let '(b, l') := let '(b, l') := run ans p in (b, l1 ++ l') in
                  (b, [EvGetTemplate req (Ok tpl)] ++ l'))) = published v).
  { intros p v Hp. destruct (run ans p) as [b l']. cbn in Hp |- *.
    by rewrite updates_cons, updates_app, Hu. }
  destruct (_ <? _)%Z; [apply Hl, run_publish|]. case_bool_decide; [apply Hl, run_publish|].
  apply Hl. unfold admit_resolved. destruct (resolvedAdmit r t) as [s2 m2].
  case_bool_decide; [|apply run_publish].
  rewrite run_bind. unfold admitVolumes. pose proof (run_volumes_updates ans (om_Namespace (tpl_Meta t))
    (ts_Volumes (tpl_Spec t))) as Hv.
  destruct (run ans (admit_volumes _ _)) as [[[s3 m3] q] l3]. cbn [snd] in Hv. cbn [fst].
  assert (Hp : forall q', updates (snd (run ans (publish_then r t s3 m3 q'))) =
    published (t, s3, m3)) by (intros; apply run_publish).
  destruct (_ <? _)%Z.
  - specialize (Hp q). destruct (run ans (publish_then r t s3 m3 q)) as [b l']. cbn [snd] in Hp |- *.
    by rewrite updates_app, Hv.
  - specialize (Hp 0%Z). destruct (run ans (publish_then r t s3 m3 0)) as [b l']. cbn [snd] in Hp |- *.
    by rewrite updates_app, Hv.
Qed.

(** Answers that agree where a verdict depends on them, from a registry whose
    digests are not empty. *)
Record steady (ans ans' : Answers) : Prop := {
  st_claims : forall k, ans' _ (GetPVC k) = ans _ (GetPVC k);
  st_images : forall ref secrets ns,
    ans' _ (ResolveImage ref secrets ns) = ans _ (ResolveImage ref secrets ns);
  st_digest : forall ref secrets ns img,
    ans _ (ResolveImage ref secrets ns) = Ok img -> ri_Digest img <> "" }.

(** Resolving again on what a pass wrote changes nothing that matters. *)
Lemma resolve_again ans ans' tpl state reason :
  steady ans ans' ->
  let '(q, _, t) := fst (run ans (resolveImage r tpl)) in
  let t1 := written t state reason in
  let '(q', _, t2) := fst (run ans' (resolveImage r t1)) in
  tpl_Spec t = tpl_Spec tpl /\ tpl_Meta t = tpl_Meta tpl /\
  tpl_Spec t2 = tpl_Spec t /\ tpl_Meta t2 = tpl_Meta t /\
  tst_Hash (tpl_Status t2) = tst_Hash (tpl_Status t1) /\
  tst_HasVolumes (tpl_Status t2) = has_volumes t /\
  tst_ResolvedDigest (tpl_Status t2) = tst_ResolvedDigest (tpl_Status t) /\
  tst_ImageBytes (tpl_Status t2) = tst_ImageBytes (tpl_Status t) /\ q' = q /\
  (q = 0%Z /\ tst_Admission (tpl_Status t2) = state /\ tst_AdmissionReason (tpl_Status t2) = reason \/
   q = 0%Z /\ tst_Admission (tpl_Status t) = AdmissionRejected /\
     tst_Admission (tpl_Status t2) = AdmissionRejected /\
     tst_AdmissionReason (tpl_Status t2) = tst_AdmissionReason (tpl_Status t) \/
   q = resolveRetry /\ tst_Admission (tpl_Status t2) = state /\
     tst_AdmissionReason (tpl_Status t2) = tst_AdmissionReason (tpl_Status t)).
Proof.
  intros [_ Himg Hdig].
  destruct tpl as [meta spec st]. unfold resolveImage. cbn -[digestOf resolveRetry].
  set (ref := img_Ref (ts_Image spec)).
  destruct (bool_decide (digestOf ref = "")) eqn:E1; cbn -[digestOf resolveRetry];
    fold ref; rewrite ?E1; cbn -[digestOf resolveRetry]; [|tauto].
  destruct (ShouldResolve (ts_Image spec)) eqn:E2; cbn -[digestOf resolveRetry];
    fold ref; rewrite ?E1, ?E2; cbn -[digestOf resolveRetry]; [|tauto].
  destruct (negb (bool_decide (tst_ResolvedDigest st = "")) && bool_decide (tst_ResolvedRef st = ref)) eqn:E3;
    cbn -[digestOf resolveRetry]; fold ref; rewrite ?E1, ?E2, ?E3; cbn -[digestOf resolveRetry]; [tauto|].
  destruct (tr_HasResolver r) eqn:E4; cbn -[digestOf resolveRetry]; fold ref;
    rewrite ?E1, ?E2, ?E3, ?E4; cbn -[digestOf resolveRetry]; [|tauto].
  set (secrets := match img_PullSecretRef (ts_Image spec) with Some n => [n] | None => [] end).
  destruct (ans _ (ResolveImage ref secrets (om_Namespace meta))) as [img|[msg|msg]] eqn:E5;
    cbn -[digestOf resolveRetry]; fold ref; rewrite ?E1, ?E2; cbn -[digestOf resolveRetry].
  - rewrite (bool_decide_false (ri_Digest img = "")) by (by eapply Hdig).
    rewrite (bool_decide_true (ref = ref)) by done. cbn -[digestOf resolveRetry]. tauto.
  - rewrite E3. cbn -[digestOf resolveRetry]. fold secrets. rewrite Himg, E5.
    cbn -[digestOf resolveRetry]. tauto.
  - rewrite E3. cbn -[digestOf resolveRetry]. fold secrets. rewrite Himg, E5.
    cbn -[digestOf resolveRetry]. tauto.
Qed.

Lemma run_volumes_steady ans ans' ns vs :
  steady ans ans' -> fst (run ans' (admit_volumes ns vs)) = fst (run ans (admit_volumes ns vs)).
Proof.
  intros Hs. induction vs as [|v vs IH]; [done|]. cbn. rewrite (st_claims _ _ Hs).
  destruct (ans _ _) as [pvc|e].
  - destruct (shareable _); cbn; [|done].
    destruct (run ans' (admit_volumes ns vs)), (run ans (admit_volumes ns vs)). exact IH.
  - by destruct (IsNotFound e).
Qed.
Lemma resolvedAdmit_ext t t2 :
  tpl_Spec t2 = tpl_Spec t -> tpl_Meta t2 = tpl_Meta t ->
  tst_ImageBytes (tpl_Status t2) = tst_ImageBytes (tpl_Status t) ->
  resolvedAdmit r t2 = resolvedAdmit r t.
Proof. unfold resolvedAdmit. by intros -> -> ->. Qed.
Lemma staticAdmit_ext t t2 : tpl_Spec t2 = tpl_Spec t -> staticAdmit r t2 = staticAdmit r t.
Proof. unfold staticAdmit. by intros ->. Qed.

(** The status a pass leaves is what the next would write. *)
Lemma settled_ok t t2 state reason :
  tpl_Spec t2 = tpl_Spec t ->
  tst_ResolvedDigest (tpl_Status t2) = tst_ResolvedDigest (tpl_Status t) ->
  tst_Hash (tpl_Status t2) = TemplateHash t (tr_Platform r) (tr_Layout r) ->
  tst_HasVolumes (tpl_Status t2) = has_volumes t ->
  tst_Admission (tpl_Status t2) = state -> tst_AdmissionReason (tpl_Status t2) = reason ->
  published (t2, state, reason) = [].
Proof.
  intros Hs Hd Hh Hv Ha Hr. unfold published, settled.
  rewrite (TemplateHash_ext t t2), Hh, Hv, Ha, Hr by done. unfold has_volumes. rewrite Hs.
  rewrite !bool_decide_true by done. by rewrite Bool.eqb_reflx.
Qed.

Lemma verdict_again ans ans' tpl :
  steady ans ans' ->
  let '(t, state, reason) := verdict ans tpl in
  published (verdict ans' (written t state reason)) = [] /\ tpl_Meta t = tpl_Meta tpl.
Proof.
  intros Hs. unfold verdict.
  destruct (staticAdmit r tpl) as [s m] eqn:Es. case_bool_decide as E1.
  { rewrite (staticAdmit_ext tpl (written tpl s m)), Es, bool_decide_true by done.
    split; [by apply (settled_ok tpl)|done]. }
  assert (Hres := fun s' m' => resolve_again ans ans' tpl s' m' Hs).
  destruct (fst (run ans (resolveImage r tpl))) as [[q err] t]. cbv zeta in Hres.
  assert (Hst : forall s' m', tpl_Spec t = tpl_Spec tpl ->
    staticAdmit r (written t s' m') = (s, m)).
  { intros s' m' E. rewrite <-Es. by apply staticAdmit_ext. }
  (* what the second pass does where the first wrote [s'] and [m'] *)
  assert (Hagain : forall s' m',
    ((0 < q)%Z -> s' = AdmissionPending /\ m' = tst_AdmissionReason (tpl_Status t)) ->
    (q = 0%Z -> tst_Admission (tpl_Status t) = AdmissionRejected ->
       s' = AdmissionRejected /\ m' = tst_AdmissionReason (tpl_Status t)) ->
    (q = 0%Z -> s' <> AdmissionRejected ->
       (resolvedAdmit r t = (s', m') /\ s' <> AdmissionApproved) \/
       (exists q', fst (resolvedAdmit r t) = AdmissionApproved /\
          fst (run ans (admitVolumes t)) = (s', m', q'))) ->
    published (verdict ans' (written t s' m')) = [] /\ tpl_Meta t = tpl_Meta tpl).
  { intros s' m' Hp Hr Ho. specialize (Hres s' m').
    unfold verdict. destruct (fst (run ans' (resolveImage r (written t s' m')))) as [[q' err'] t2].
    destruct Hres as (R1 & R2 & R3 & R4 & R5 & R6 & R7 & R8 & -> & Hc). split; [|done].
    rewrite Hst, bool_decide_false by done.
    destruct Hc as [(-> & Ha & Hm)|[(-> & Ha1 & Ha & Hm)|(-> & Ha & Hm)]].
    - rewrite (Z.ltb_irrefl 0). case_bool_decide as Er.
      { rewrite Hm. by apply (settled_ok t). }
      destruct (Ho eq_refl ltac:(congruence)) as [[Hv Hna]|(q2 & Hv & Hvol)].
      + rewrite (resolvedAdmit_ext t t2), Hv, bool_decide_false by done. by apply (settled_ok t).
      + rewrite (resolvedAdmit_ext t t2) by done. destruct (resolvedAdmit r t) as [s3 m3].
        cbn in Hv. rewrite bool_decide_true by done.
        unfold admitVolumes in *. rewrite R3, R4, (run_volumes_steady ans ans'), Hvol by done.
        by apply (settled_ok t).
    - rewrite (Z.ltb_irrefl 0), bool_decide_true by done.
      destruct (Hr eq_refl Ha1) as [-> ->]. rewrite Hm. by apply (settled_ok t).
    - destruct Hp as [-> ->]; [by vm_compute|]. rewrite (proj2 (Z.ltb_lt 0 resolveRetry)) by by vm_compute.
      rewrite Hm. by apply (settled_ok t). }
  destruct (Z.ltb_spec 0 q) as [Hq|Hq].
  { apply Hagain; [done|lia|lia]. }
  case_bool_decide as Er.
  { apply Hagain; [lia|done|done]. }
  destruct (resolvedAdmit r t) as [s2 m2] eqn:E2. case_bool_decide as E3.
  - destruct (fst (run ans (admitVolumes t))) as [[s3 m3] q3] eqn:E4.
    apply Hagain; [lia|done|]. intros _ _. right. by exists q3.
  - apply Hagain; [lia|done|]. intros _ _. by left.
Qed.
End Settling.

(** ** The properties *)

Section Properties.
Context `{Vendor}.
Context (r : TemplateReconciler).

(** C11: in every execution of a template's pass, whatever its calls answer: the
    only write is one verdict, on the template read, unchanged but for its
    status, with the hash of the Pods it gives.  A spec that fails the static
    checks is rejected; an approved one passes them, runs an image whose digest
    is the reference's own, or was resolved from this reference, or is openly
    unpinned, is within the size limit, has a reviewer if it has volumes, and
    every claim it mounts was read in this pass and can be shared. *)
Theorem ReconcileTemplate_obeys req : obeys (template_rule r) (ReconcileTemplate r req).
Proof. exact (safe_obeys _ _ _ (template_safe r req)). Qed.

(** C12: with steady answers a pass settles: over the template a pass has
    written, the next pass writes nothing; and no pass writes twice. *)
Theorem ReconcileTemplate_settles (ans ans' : Answers) req tpl :
  ans _ (GetTemplate req) = Ok tpl -> deleting (tpl_Meta tpl) = false -> steady ans ans' ->
  (length (updates (snd (run ans (ReconcileTemplate r req)))) <= 1)%nat /\
  forall t, updates (snd (run ans (ReconcileTemplate r req))) = [t] ->
    ans' _ (GetTemplate req) = Ok t ->
    updates (snd (run ans' (ReconcileTemplate r req))) = [].
Proof.
  intros Hg Hd Hs. pose proof (verdict_again r ans ans' tpl Hs) as Hv.
  rewrite (run_Reconcile r ans req tpl Hg Hd). destruct (verdict r ans tpl) as [[t s] m].
  destruct Hv as [Hv Hm]. unfold published at 1 2. split.
  { destruct (settled _ _ _ _); cbn; lia. }
  intros t' E Hg'. rewrite (run_Reconcile r ans' req t' Hg').
  - revert E. destruct (settled _ _ _ _); [discriminate|]. by intros [= <-].
  - revert E. destruct (settled _ _ _ _); [discriminate|]. intros [= <-]. cbn. by rewrite Hm.
Qed.

(** A template whose status says Rejected is never approved, or sent to
    review, by any later pass, whatever its spec has become: a pass only ever
    writes Rejected or, after a registry failure, Pending over it. *)
Theorem rejected_is_sticky req l out k old l1 t res l2 :
  exec (ReconcileTemplate r req) l out -> l = l1 ++ EvUpdateTemplateStatus t res :: l2 ->
  EvGetTemplate k (Ok old) ∈ l1 -> tst_Admission (tpl_Status old) = AdmissionRejected ->
  tst_Admission (tpl_Status t) ∈ [AdmissionRejected; AdmissionPending].
Proof.
  intros He El Hin Hrej.
  destruct (safe_obeys _ _ _ (template_safe r req) l out l1 _ l2 He El I) as [_ [_ Hv]].
  destruct (Hv k old Hin) as [_ [_ _ _ _ _ _ _ Hs]].
  destruct (Hs Hrej) as [-> | ->]; set_elem.
Qed.
End Properties.

(** ** Witnesses *)

Definition wit_digest : string :=
  "sha256:0123456789abcdef0123456789abcdef0123456789abcdef0123456789abcdef".
(** A template that was rejected and has since been pinned to an allowed image. *)
Definition wit_fixed : SandboxTemplate :=
  {| tpl_Meta := fx_meta "py" ∅;
     tpl_Spec :=
       {| ts_MinIsolationTier := ""; ts_FilesystemIsolation := ""; ts_PodUserNamespace := None;
          ts_RuntimeClassName := ""; ts_DefaultTTLSeconds := 1800; ts_MaxTTLSeconds := 14400;
          ts_Image := {| img_Ref := "reg.io/py@" +:+ wit_digest; img_Resolve := None;
                         img_PullPolicy := ""; img_PullSecretRef := None |};
          ts_FilesystemDefaults := ts_FilesystemDefaults (tpl_Spec fx_template);
          ts_Volumes := []; ts_Network := ts_Network (tpl_Spec fx_template);
          ts_Resources := ""; ts_PodOverrides := None |};
     tpl_Status := set_tst_AdmissionReason "spec.image.ref is required"
       (set_tst_Admission AdmissionRejected (tpl_Status fx_template)) |}.
Definition wit_template_reconciler : TemplateReconciler :=
  {| tr_AllowedRegistries := ["reg.io"]; tr_Platform := fx_platform; tr_Layout := DefaultLayout;
     tr_MaxImageBytes := 0; tr_HasResolver := true |}.
(** Every call is answered: the template from [t], anything else with an error. *)
Definition wit_answers (t : SandboxTemplate) : Answers := fun R e =>
  match e in CtlE R return R with
  | GetSandbox _ => Err (plain_error "down")
  | GetTemplate _ => Ok t
  | GetPool _ => Err (plain_error "down")
  | GetPVC _ => Err (plain_error "down")
  | GetPod _ => Err (plain_error "down")
  | ListPods _ _ => Err (plain_error "down")
  | UpdateSandbox _ => Err (plain_error "down")
  | UpdateSandboxStatus _ => Err (plain_error "down")
  | UpdateTemplateStatus t => Ok t
  | UpdatePoolStatus _ => Err (plain_error "down")
  | UpdatePod _ => Err (plain_error "down")
  | CreatePod _ => Err (plain_error "down")
  | DeletePod _ => Err (plain_error "down")
  | Bind _ _ => Err "down"
  | Unbind _ => Err "down"
  | ProbePod _ => Err "down"
  | ResolveImage _ _ _ => Ok {| ri_Digest := wit_digest; ri_Bytes := 1000 |}
  | Now => 100%Z
  | NewToken => "t"
  | NewControlToken => "c"
  | Shuffle ps => ps
  end.
Lemma wit_steady t t' : steady (wit_answers t) (wit_answers t').
Proof. by split; [..|intros ??? img [= <-]]. Qed.

(** The first pass over [fx_template] resolves its tag and asks for a review;
    the second, over what the first wrote, writes nothing. *)
Definition wit_first : list SandboxTemplate :=
  updates (snd (run (wit_answers fx_template)
    (@ReconcileTemplate fx_vendor wit_template_reconciler ("acme", "py")))).
Lemma ReconcileTemplate_settles_wit : exists t,
  wit_first = [t] /\ tst_Admission (tpl_Status t) = AdmissionPendingReview /\
  tst_ResolvedDigest (tpl_Status t) = wit_digest /\
  updates (snd (run (wit_answers t)
    (@ReconcileTemplate fx_vendor wit_template_reconciler ("acme", "py")))) = [].
Proof.
  eexists. split; [vm_compute; reflexivity|]. split; [reflexivity|]. split; [reflexivity|].
  eapply (@ReconcileTemplate_settles fx_vendor wit_template_reconciler (wit_answers fx_template)).
  - reflexivity.
  - reflexivity.
  - apply wit_steady.
  - vm_compute. reflexivity.
  - reflexivity.
Defined.

(** Statically fine and pinned, and still rejected. *)
Definition wit_sticky_run : Outcome * list Ev :=
  run (wit_answers wit_fixed) (@ReconcileTemplate fx_vendor wit_template_reconciler ("acme", "py")).
Lemma rejected_is_sticky_wit : exists t res l2,
  staticAdmit wit_template_reconciler wit_fixed = (AdmissionApproved, "") /\
  snd wit_sticky_run = [EvGetTemplate ("acme", "py") (Ok wit_fixed)] ++ EvUpdateTemplateStatus t res :: l2 /\
  tst_Admission (tpl_Status t) ∈ [AdmissionRejected; AdmissionPending].
Proof.
  eexists _, _, _. split; [vm_compute; reflexivity|].
  assert (E : snd wit_sticky_run = [EvGetTemplate ("acme", "py") (Ok wit_fixed)] ++ _ :: _)
    by (vm_compute; reflexivity).
  split; [exact E|].
  eapply (@rejected_is_sticky fx_vendor wit_template_reconciler ("acme", "py") _ (fst wit_sticky_run)
            ("acme", "py") wit_fixed).
  - apply run_exec.
  - exact E.
  - left.
  - reflexivity.
Defined.
