(* ===== verification/Schema.v ===== *)
(** * What the controllers write is what the types admit (pkg/apis; controller/)

    The custom resources' schema, as the markers in pkg/apis/sandbox/v1alpha1
    state it, the sandbox's phases as a state machine, and the passes of the
    reconcilers against both. *)
From S2P Require Import Prelude Calls GoStrings Api Bwrap Crd PodSpec Kube SandboxCtl Fixtures TemplateCtl TemplateSafety.
Open Scope string_scope.
Open Scope list_scope.

(** ** The schema *)

Definition phases : list SandboxPhase :=
  [PhasePending; PhaseBinding; PhaseRunning; PhaseExpired; PhaseFailed; PhaseTerminating].
Definition tiers : list IsolationTier :=
  [sbxv1.TierUserns; sbxv1.TierCapAdmin; sbxv1.TierChroot; sbxv1.TierFilesystem].
Definition admissions : list AdmissionState :=
  [AdmissionPending; AdmissionPendingReview; AdmissionApproved; AdmissionRejected].
(** A field marked [omitempty] is left out where it is empty. *)
Definition one_of_or_absent (values : list string) (v : string) : bool :=
  bool_decide (v = "") || bool_decide (v ∈ values).
Definition mount_schema (m : sbxv1.Mount) : bool :=
  has_prefix (sbxv1.m_Path m) "/" && negb (bool_decide (sbxv1.src_Volume (sbxv1.m_Source m) = "")).
Definition spec_schema (sp : SandboxSpec) : bool :=
  (negb (bool_decide (sp_TemplateRef sp = "")) && (-1 <=? sp_TTLSeconds sp)%Z) &&
  (((length (sbxv1.fs_Mounts (sp_Filesystem sp)) <=? 32)%nat) &&
   forallb mount_schema (sbxv1.fs_Mounts (sp_Filesystem sp))).
Definition status_schema (st : SandboxStatus) : bool :=
  one_of_or_absent phases (ss_Phase st) && one_of_or_absent tiers (ss_IsolationTier st).
Definition sandbox_schema (s : Sandbox) : bool := spec_schema (sbx_Spec s) && status_schema (sbx_Status s).
Definition admission_schema (st : SandboxTemplateStatus) : bool := one_of_or_absent admissions (tst_Admission st).

(** ** The phases *)

(** How a pass may move a sandbox on: [Expired] and [Failed] are final. *)
Definition transition (p p' : SandboxPhase) : Prop :=
  ((p ∉ [PhaseBinding; PhaseRunning; PhaseExpired; PhaseFailed]) /\ (p' ∈ [PhaseBinding; PhaseFailed])) \/
  (p = PhaseBinding /\ (p' ∈ [PhaseRunning; PhaseFailed])) \/
  (p = PhaseRunning /\ p' = PhaseExpired).

(** The API server serves what it admitted, and execd reports a tier it knows. *)
Definition answers_well (ev : Ev) : Prop :=
  match ev with
  | EvGetSandbox _ (Ok s) | EvUpdateSandbox _ (Ok s) => sandbox_schema s = true
  | EvBind _ _ (Ok resp) => bs_IsolationTier resp ∈ tiers
  | _ => True
  end.
(** [s] was read, or written and answered, in this pass. *)
Definition current (h : list Ev) (s : Sandbox) : Prop :=
  (exists k, EvGetSandbox k (Ok s) ∈ h) \/ (exists s0, EvUpdateSandbox s0 (Ok s) ∈ h).
Definition schema_rule (h : list Ev) (ev : Ev) : Prop :=
  match ev with
  | EvUpdateSandbox s _ =>
      (exists s0, current h s0 /\ sbx_Spec s = sbx_Spec s0 /\ sbx_Status s = sbx_Status s0) /\
      (Forall answers_well h -> sandbox_schema s = true)
  | EvUpdateSandboxStatus s _ =>
      (exists s0, current h s0 /\ sbx_Meta s = sbx_Meta s0 /\ sbx_Spec s = sbx_Spec s0 /\
         transition (ss_Phase (sbx_Status s0)) (ss_Phase (sbx_Status s))) /\
      (Forall answers_well h -> sandbox_schema s = true)
  | EvUpdateTemplateStatus t _ => admission_schema (tpl_Status t) = true
  | _ => True
  end.
#[local] Arguments schema_rule : simpl never.

(** ** Lemmas *)

Lemma one_of_or_absent_in values v : v ∈ values -> one_of_or_absent values v = true.
Proof. intros Hv. unfold one_of_or_absent. rewrite (bool_decide_eq_true_2 _ Hv). apply orb_true_r. Qed.
Lemma transition_phase p p' : transition p p' -> p' ∈ phases.
Proof. unfold phases, transition. rewrite !elem_of_cons. intros [[_ ?]|[[_ ?]|[_ ->]]]; tauto. Qed.
Lemma current_app h l s : current h s -> current (h ++ l) s.
Proof. intros [[k ?]|[s0 ?]]; [left; exists k|right; exists s0]; in_calls. Qed.
Lemma current_schema h s : current h s -> Forall answers_well h -> sandbox_schema s = true.
Proof. rewrite Forall_forall. intros [[k Hin]|[s0 Hin]] Hw; exact (Hw _ Hin). Qed.

Section Writes.
Context `{Vendor} `{ControllerUtil}.
Context (r : SandboxReconciler).
Implicit Types h : list Ev.

(** A status written over a current sandbox, along a transition, with the tier
    it had or the one execd answered. *)
Lemma status_write h sbx s' res :
  current h sbx -> sbx_Meta s' = sbx_Meta sbx -> sbx_Spec s' = sbx_Spec sbx ->
  transition (ss_Phase (sbx_Status sbx)) (ss_Phase (sbx_Status s')) ->
  (ss_IsolationTier (sbx_Status s') = ss_IsolationTier (sbx_Status sbx) \/
   exists ref b resp, EvBind ref b (Ok resp) ∈ h /\
     ss_IsolationTier (sbx_Status s') = bs_IsolationTier resp) ->
  schema_rule h (EvUpdateSandboxStatus s' res).
Proof.
  intros Hc Hm Hs Ht Hi. split; [by exists sbx|]. intros Hw.
  pose proof (current_schema h sbx Hc Hw) as Hsch. unfold sandbox_schema, status_schema in *.
  apply andb_prop in Hsch as [Hsp [_ Htier]%andb_prop].
  rewrite !andb_true_iff, Hs. split; [exact Hsp|]. split.
  - by eapply one_of_or_absent_in, transition_phase.
  - destruct Hi as [->|(ref & b & resp & Hb & ->)]; [done|].
    apply one_of_or_absent_in. rewrite Forall_forall in Hw. exact (Hw _ Hb).
Qed.
(** An update of the metadata of a current sandbox. *)
Lemma meta_write h sbx m res :
  current h sbx -> schema_rule h (EvUpdateSandbox (set_sbx_Meta m sbx) res).
Proof. intros Hc. split; [by exists sbx|]. exact (current_schema h sbx Hc). Qed.

Ltac now_current := repeat apply current_app; eassumption.
Ltac writes := run_with ltac:(first [exact I
  | eapply status_write; [now_current|reflexivity|reflexivity|assumption|left; reflexivity]
  | apply meta_write; now_current]).

Lemma fail_schema h sbx reason msg :
  current h sbx -> transition (ss_Phase (sbx_Status sbx)) PhaseFailed ->
  safe schema_rule h (fail sbx reason msg) (fun _ _ => True).
Proof. intros Hc Ht. unfold fail. writes. Qed.
Lemma record_binding_schema h sbx f :
  current h sbx -> transition (ss_Phase (sbx_Status sbx)) (ss_Phase (f (sbx_Status sbx))) ->
  ss_IsolationTier (f (sbx_Status sbx)) = ss_IsolationTier (sbx_Status sbx) ->
  safe schema_rule h (record_binding (on_status f sbx)) (fun _ _ => True).
Proof.
  intros Hc Ht Hi. unfold record_binding.
  run_with ltac:(eapply status_write; [exact Hc|done|done|exact Ht|by left]).
Qed.

(** ** The parts of a pass *)

(** What a part without writes leaves current. *)
Lemma keeps_current {A} h (p : K A) sbx :
  safe schema_rule h p (fun _ _ => True) -> current h sbx ->
  safe schema_rule h p (fun h' _ => current h' sbx).
Proof.
  intros Hp Hc. eapply safe_mono; [|apply (safe_history _ _ _ _ Hp)].
  intros h' a [_ [l ->]]. by apply current_app.
Qed.
Lemma claim_first_schema h sbx ps : safe schema_rule h (claim_first sbx ps) (fun _ _ => True).
Proof. revert h. induction ps as [|p ps IH]; intros h; cbn [claim_first]; [exact I|]. writes. Qed.
Lemma deletePod_schema h sbx : safe schema_rule h (deletePod r sbx) (fun _ _ => True).
Proof. unfold deletePod. writes. Qed.
Lemma createPod_schema h sbx tpl : safe schema_rule h (createPod r sbx tpl) (fun _ _ => True).
Proof. unfold createPod. writes. Qed.

(** A part without writes first, then the rest over the same sandbox. *)
Ltac carry lem :=
  lazymatch goal with
  | |- safe _ _ (mbind _ _) _ => apply safe_bind
  | _ => idtac
  end;
  eapply safe_mono; [|apply keeps_current; [apply lem|now_current]].
Ltac phase_move := unfold transition; rewrite ?elem_of_cons; subst; intuition congruence.

Lemma acquirePod_schema h sbx :
  current h sbx ->
  ss_Phase (sbx_Status sbx) ∉ [PhaseBinding; PhaseRunning; PhaseExpired; PhaseFailed] ->
  safe schema_rule h (acquirePod r sbx) (fun _ _ => True).
Proof.
  intros Hc Hp.
  assert (Hb : transition (ss_Phase (sbx_Status sbx)) PhaseBinding) by (left; split; [done|set_elem]).
  assert (Hf : transition (ss_Phase (sbx_Status sbx)) PhaseFailed) by (left; split; [done|set_elem]).
  assert (Hfail : forall h' reason msg, current h' sbx ->
    safe schema_rule h' (fail sbx reason msg) (fun _ _ => True)) by (intros; by apply fail_schema).
  assert (Hrec : forall h' f, current h' sbx -> ss_Phase (f (sbx_Status sbx)) = PhaseBinding ->
    ss_IsolationTier (f (sbx_Status sbx)) = ss_IsolationTier (sbx_Status sbx) ->
    safe schema_rule h' (record_binding (on_status f sbx)) (fun _ _ => True)).
  { intros h' f Hc' Ef Et. apply record_binding_schema; [done|by rewrite Ef|done]. }
  unfold acquirePod, template, findClaimedPod, claimWarmPod. writes.
  all: try (apply Hfail; now_current).
  all: try (apply Hrec; [now_current|reflexivity|reflexivity]).
  carry claim_first_schema. intros h' [[pod|]|e] Hc'; [apply safe_ret| |exact I].
  - apply Hrec; [exact Hc'|reflexivity|reflexivity].
  - carry createPod_schema. intros h2 [pod|e] Hc2; [|by apply Hfail].
    apply Hrec; [exact Hc2|reflexivity|reflexivity].
Qed.

(** The parts of [bind] with the sandbox in phase [Binding]. *)
Lemma publish_running_schema h sbx tpl pod tier token resp boundAt ex ref b :
  current h sbx -> ss_Phase (sbx_Status sbx) = PhaseBinding -> EvBind ref b (Ok resp) ∈ h ->
  safe schema_rule h (publish_running r sbx tpl pod tier token resp boundAt ex) (fun _ _ => True).
Proof.
  intros Hc Hp Hb. unfold publish_running. cbv zeta. apply safe_call; [intros; exact I|]. intros readyAt.
  apply safe_call; [|intros; writes]. intros res.
  eapply (status_write _ sbx); [now_current|done|done| |].
  - right. left. split; [done|]. destruct (sr_EndpointFor r); set_elem.
  - right. exists ref, b, resp. split; [in_calls|]. by destruct (sr_EndpointFor r).
Qed.
Lemma bind_schema h sbx :
  current h sbx -> ss_Phase (sbx_Status sbx) = PhaseBinding ->
  safe schema_rule h (bind r sbx) (fun _ _ => True).
Proof.
  intros Hc Hp.
  assert (Hfail : forall h' reason msg, current h' sbx ->
    safe schema_rule h' (fail sbx reason msg) (fun _ _ => True)).
  { intros h' reason msg Hc'. apply fail_schema; [done|]. right. left. split; [done|set_elem]. }
  unfold bind, template, bind_pod. writes.
  all: try (apply Hfail; now_current).
  all: eapply publish_running_schema; [now_current|exact Hp|in_calls].
Qed.
Lemma watchExpiry_schema h sbx :
  current h sbx -> ss_Phase (sbx_Status sbx) = PhaseRunning ->
  safe schema_rule h (watchExpiry r sbx) (fun _ _ => True).
Proof.
  intros Hc Hp. unfold watchExpiry, expire. destruct (ss_ExpiresAt (sbx_Status sbx)); [|exact I].
  apply safe_call; [intros; exact I|]. intros now. cbv zeta. destruct (0 <? _)%Z; [exact I|].
  carry deletePod_schema. intros h' [e|] Hc'; [exact I|].
  assert (transition (ss_Phase (sbx_Status sbx)) PhaseExpired) by (right; by right). writes.
Qed.
Lemma finalize_schema h sbx : current h sbx -> safe schema_rule h (finalize r sbx) (fun _ _ => True).
Proof. intros Hc. unfold finalize. carry deletePod_schema. intros h' [e|] Hc'; writes. Qed.
Lemma dispatch_schema h sbx : current h sbx -> safe schema_rule h (dispatch r sbx) (fun _ _ => True).
Proof.
  intros Hc. unfold dispatch.
  assert (Hq : forall p : SandboxPhase, p ∈ [""; PhasePending] ->
    p ∉ [PhaseBinding; PhaseRunning; PhaseExpired; PhaseFailed]).
  { intros p. rewrite !elem_of_cons, !elem_of_nil. intros [->|[->|[]]]; intuition discriminate. }
  repeat case_bool_decide; cbn [orb];
    first [exact I | by apply bind_schema | by apply watchExpiry_schema | idtac].
  all: apply acquirePod_schema; [done|].
  all: try (apply Hq; set_elem).
  rewrite !elem_of_cons, elem_of_nil. intuition congruence.
Qed.

(** C36: typing of the resources.  In every execution of the Sandbox and the
    SandboxTemplate reconciler, whatever their calls answer: a sandbox is
    written only over one read, or written, in the same pass; a metadata
    update leaves its spec and status alone, a status update its metadata and
    spec, and moves its phase along the declared machine only (no way out of
    [Expired] and [Failed], [Running] only from [Binding], [Expired] only from
    [Running]).  While the API server serves sandboxes of the declared schema
    and execd answers a known tier, every sandbox written is of the schema
    again; an admission written is always one of the declared values. *)
Theorem written_resources_typed (tr : TemplateReconciler) req :
  obeys schema_rule (Reconcile r req) /\ obeys schema_rule (ReconcileTemplate tr req).
Proof.
  split.
  - apply (safe_obeys _ _ (fun _ _ => True)). unfold Reconcile.
    apply safe_call; [intros; exact I|]. intros [sbx|e]; [|exact I].
    assert (Hc : current ([] ++ [EvGetSandbox req (Ok sbx)]) sbx) by (left; exists req; in_calls).
    destruct (deleting (sbx_Meta sbx)); [by apply finalize_schema|].
    destruct (negb _); [|by apply dispatch_schema].
    apply safe_call; [intros; by apply meta_write|]. intros [s|e]; [|exact I].
    apply dispatch_schema. right. eexists. in_calls.
  - intros l out l1 ev l2 He El.
    pose proof (safe_obeys _ _ _ (template_safe tr req) l out l1 ev l2 He El) as Hr.
    destruct ev; try exact I; destruct (Hr I) as [_ Hw]; try done.
    destruct Hw as [(k & old & Hk) Hv]. destruct (Hv k old Hk) as [_ [_ _ _ _ Hst _ _ _]].
    by apply one_of_or_absent_in.
Qed.
End Writes.
