(* ===== verification/GoHeap.v ===== *)
(** * Go values over a memory, and what a deep copy is

    The values the custom resources are made of: scalars, structs, and pointers,
    slices and maps into a memory of blocks; the tree a value stands for in a
    memory and the blocks it reaches; the forms a generated DeepCopyInto takes
    for a field, as programs over the memory. A copier of a type [copies] it when
    what it answers stands for the same tree and reaches only new blocks. *)
From S2P Require Import Prelude.
Open Scope string_scope.
Open Scope list_scope.

(** ** Types, values, memory *)

Inductive Kind := KString | KInt | KBool.
Inductive Scalar := GoString (s : string) | GoInt (z : Z) | GoBool (b : bool).
Inductive GoTy := TScalar (k : Kind) | TPtr (t : GoTy) | TSlice (t : GoTy) | TMap (t : GoTy)
  | TStruct (fields : list (string * GoTy)).
(** A pointer names a cell of a block, a slice the cells of a block from one on. *)
Inductive GoVal := Atom (a : Scalar) | NilRef | Ptr (l : positive) (i : nat)
  | Slice (l : positive) (off len : nat) | MapRef (l : positive) | Struct (vs : list GoVal).
Inductive Block := Cells (vs : list GoVal) | Entries (es : gmap string GoVal).
Abbreviation Mem := (gmap positive Block).

#[export] Instance Kind_eq : EqDecision Kind.
Proof. solve_decision. Defined.
Definition kind_of (a : Scalar) : Kind :=
  match a with GoString _ => KString | GoInt _ => KInt | GoBool _ => KBool end.
Definition zero_scalar (k : Kind) : Scalar :=
  match k with KString => GoString "" | KInt => GoInt 0 | KBool => GoBool false end.
Fixpoint zero (t : GoTy) : GoVal :=
  match t with
  | TScalar k => Atom (zero_scalar k)
  | TStruct fs => Struct (map (fun '(_, t) => zero t) fs)
  | _ => NilRef
  end.

Definition cells_at (m : Mem) (l : positive) : option (list GoVal) :=
  match m !! l with Some (Cells vs) => Some vs | _ => None end.
Definition cell (m : Mem) (l : positive) (i : nat) : option GoVal := cells_at m l ≫= fun vs => vs !! i.
Definition cells (m : Mem) (l : positive) (off len : nat) : option (list GoVal) :=
  vs ← cells_at m l;
  if bool_decide (off + len <= length vs)%nat then Some (take len (drop off vs)) else None.
Definition entries (m : Mem) (l : positive) : option (gmap string GoVal) :=
  match m !! l with Some (Entries es) => Some es | _ => None end.

(** ** The tree a value stands for, the blocks it reaches *)

Inductive Data := DScalar (a : Scalar) | DNil | DPtr (d : Data) | DList (ds : list Data)
  | DMap (es : list (string * Data)) | DStruct (ds : list Data).
Section Fields.
Context {A : Type} (f : GoTy -> GoVal -> option A).
Fixpoint each_field (fs : list (string * GoTy)) (vs : list GoVal) : option (list A) :=
  match fs, vs with
  | [], [] => Some []
  | (_, t) :: fs', v :: vs' => a ← f t v; rest ← each_field fs' vs'; Some (a :: rest)
  | _, _ => None
  end.
End Fields.
Section Reached.
Context {A : Type} (f : GoTy -> GoVal -> list A).
Fixpoint all_fields (fs : list (string * GoTy)) (vs : list GoVal) : list A :=
  match fs, vs with
  | (_, t) :: fs', v :: vs' => f t v ++ all_fields fs' vs'
  | _, _ => []
  end.
End Reached.
(** [None]: no value of the type, or a reference to nowhere. *)
Fixpoint value (m : Mem) (t : GoTy) (v : GoVal) : option Data :=
  match t, v with
  | TScalar k, Atom a => if bool_decide (kind_of a = k) then Some (DScalar a) else None
  | (TPtr _ | TSlice _ | TMap _), NilRef => Some DNil
  | TPtr t, Ptr l i => w ← cell m l i; DPtr <$> value m t w
  | TSlice t, Slice l off len => ws ← cells m l off len; DList <$> mapM (value m t) ws
  | TMap t, MapRef l =>
      es ← entries m l; DMap <$> mapM (fun e => pair (fst e) <$> value m t (snd e)) (map_to_list es)
  | TStruct fs, Struct vs => DStruct <$> each_field (value m) fs vs
  | _, _ => None
  end.
Fixpoint reach (m : Mem) (t : GoTy) (v : GoVal) : list positive :=
  match t, v with
  | TPtr t, Ptr l i => l :: match cell m l i with Some w => reach m t w | None => [] end
  | TSlice t, Slice l off len => l :: concat (map (reach m t) (default [] (cells m l off len)))
  | TMap t, MapRef l => l :: concat (map (fun e => reach m t (snd e)) (map_to_list (default ∅ (entries m l))))
  | TStruct fs, Struct vs => all_fields (reach m) fs vs
  | _, _ => []
  end.
(** A type without references. *)
Fixpoint flat (t : GoTy) : bool :=
  match t with
  | TScalar _ => true
  | TStruct fs => forallb (fun '(_, t) => flat t) fs
  | _ => false
  end.

(** ** Programs over the memory *)

(** [None] is a panic. *)
Definition Heap (A : Type) := Mem -> option (A * Mem).
#[export] Instance Heap_ret : MRet Heap := fun A a m => Some (a, m).
#[export] Instance Heap_bind : MBind Heap := fun A B f p m =>
  match p m with Some (a, m') => f a m' | None => None end.
Definition panic {A} : Heap A := fun _ => None.
Definition load {A} (read : Mem -> option A) : Heap A := fun m =>
  match read m with Some a => Some (a, m) | None => None end.
Definition alloc (b : Block) : Heap positive := fun m =>
  let l := fresh (dom m) in Some (l, <[l := b]> m).
Definition set_cell (l : positive) (i : nat) (v : GoVal) : Heap unit := fun m =>
  match m !! l with
  | Some (Cells vs) => if bool_decide (i < length vs)%nat then Some (tt, <[l := Cells (<[i := v]> vs)]> m) else None
  | _ => None
  end.
Definition set_key (l : positive) (k : string) (v : GoVal) : Heap unit := fun m =>
  match m !! l with Some (Entries es) => Some (tt, <[l := Entries (<[k := v]> es)]> m) | _ => None end.

Definition Copier := GoVal -> Heap GoVal.
(** [*out = *in] *)
Definition assign : Copier := mret.
(** The cells of [l] from [i] on become the copies of [ws]. *)
Fixpoint fill (l : positive) (i : nat) (f : Copier) (ws : list GoVal) : Heap unit :=
  match ws with
  | [] => mret tt
  | w :: ws => v ← f w; set_cell l i v;; fill l (S i) f ws
  end.
Fixpoint put_all (l : positive) (es : list (string * GoVal)) : Heap unit :=
  match es with
  | [] => mret tt
  | (k, v) :: es => set_key l k v;; put_all l es
  end.
(** [if in != nil { out = new(T); in.DeepCopyInto(out) }] *)
Definition new_ptr (t : GoTy) (f : Copier) : Copier := fun v =>
  match v with
  | NilRef => mret NilRef
  | Ptr l i => w ← load (fun m => cell m l i); l' ← alloc (Cells [zero t]); fill l' 0 f [w];; mret (Ptr l' 0)
  | _ => panic
  end.
(** [if in != nil { out = make([]T, len(in)); ... }], an element at a time. *)
Definition make_slice (t : GoTy) (f : Copier) : Copier := fun v =>
  match v with
  | NilRef => mret NilRef
  | Slice l off len =>
      ws ← load (fun m => cells m l off len); l' ← alloc (Cells (replicate len (zero t)));
      fill l' 0 f ws;; mret (Slice l' 0 len)
  | _ => panic
  end.
Definition not_nil (f : Copier) : Copier := fun v => match v with NilRef => mret NilRef | _ => f v end.
(** A struct's fields, each by the copier named for it and assigned otherwise. *)
Fixpoint lookup_op (n : string) (ops : list (string * Copier)) : Copier :=
  match ops with [] => assign | (n', f) :: ops => if String.eqb n' n then f else lookup_op n ops end.
Fixpoint copy_fields (fs : list (string * GoTy)) (ops : list (string * Copier)) (vs : list GoVal) : Heap (list GoVal) :=
  match fs, vs with
  | (n, _) :: fs, v :: vs => w ← lookup_op n ops v; ws ← copy_fields fs ops vs; mret (w :: ws)
  | _, _ => mret []
  end.
Definition copy_struct (t : GoTy) (ops : list (string * Copier)) : Copier := fun v =>
  match t, v with
  | TStruct fs, Struct vs => ws ← copy_fields fs ops vs; mret (Struct ws)
  | _, _ => panic
  end.
Section Range.
(** The order in which [range] walks a map. *)
Context (range : gmap string GoVal -> list (string * GoVal)).
Definition make_map : Copier := fun v =>
  match v with
  | NilRef => mret NilRef
  | MapRef l => es ← load (fun m => entries m l); l' ← alloc (Entries ∅); put_all l' (range es);; mret (MapRef l')
  | _ => panic
  end.
End Range.

(** ** The frame: a value is what the blocks it reaches hold *)

Section GoTyInd.
Context (P : GoTy -> Prop).
Context (HScalar : forall k, P (TScalar k)) (HPtr : forall t, P t -> P (TPtr t)) (HSlice : forall t, P t -> P (TSlice t)).
Context (HMap : forall t, P t -> P (TMap t)) (HStruct : forall fs, Forall (fun e => P (snd e)) fs -> P (TStruct fs)).
Fixpoint GoTy_nested_ind (t : GoTy) : P t :=
  match t with
  | TScalar k => HScalar k
  | TPtr t => HPtr t (GoTy_nested_ind t)
  | TSlice t => HSlice t (GoTy_nested_ind t)
  | TMap t => HMap t (GoTy_nested_ind t)
  | TStruct fs =>
      HStruct fs ((fix go (fs : list (string * GoTy)) : Forall (fun e => P (snd e)) fs :=
        match fs with
        | [] => Forall_nil_2 _
        | e :: fs => Forall_cons_2 _ _ _ (GoTy_nested_ind (snd e)) (go fs)
        end) fs)
  end.
End GoTyInd.

Lemma mapM_ext_in {A B} (f g : A -> option B) l : (forall x, x ∈ l -> f x = g x) -> mapM f l = mapM g l.
Proof.
  induction l as [|x l IH]; intros H; cbn; [done|].
  rewrite H by left. by rewrite IH by (intros; apply H; by right).
Qed.
Lemma elem_of_concat_map {A B} (f : A -> list B) l b : b ∈ concat (map f l) <-> exists a, a ∈ l /\ b ∈ f a.
Proof.
  induction l as [|a l IH]; cbn; [split; [by intros ?%elem_of_nil|by intros (? & ?%elem_of_nil & _)]|].
  rewrite elem_of_app, IH. split.
  - intros [H|(a' & H & Hb)]; [exists a|exists a']; (split; [|done]); [left|by right].
  - intros (a' & [->|H]%elem_of_cons & Hb); [by left|right; eauto].
Qed.
Lemma concat_map_ext_in {A B} (f g : A -> list B) l : (forall x, x ∈ l -> f x = g x) -> concat (map f l) = concat (map g l).
Proof.
  induction l as [|x l IH]; intros H; cbn; [done|]. rewrite H by left. f_equal. apply IH. intros; apply H; by right.
Qed.

Definition agrees (m m' : Mem) (t : GoTy) (v : GoVal) : Prop := forall l, l ∈ reach m t v -> m' !! l = m !! l.
Lemma frame t : forall m m' v, agrees m m' t v -> value m' t v = value m t v /\ reach m' t v = reach m t v.
Proof.
  induction t as [k|t IH|t IH|t IH|fs IH] using GoTy_nested_ind; intros m m' v H; destruct v as [a| |l i|l off len|l|vs]; try done.
  - assert (El : m' !! l = m !! l) by (apply H; cbn; by left). cbn [value reach].
    assert (Ec : cell m' l i = cell m l i) by (unfold cell, cells_at; by rewrite El). rewrite Ec.
    destruct (cell m l i) as [w|] eqn:Ew; [|done]. cbn.
    destruct (IH m m' w) as [-> ->]; [|done]. intros l' Hl'. apply H. cbn. rewrite Ew. by right.
  - assert (El : m' !! l = m !! l) by (apply H; cbn; by left). cbn [value reach].
    assert (Ec : cells m' l off len = cells m l off len) by (unfold cells, cells_at; by rewrite El). rewrite Ec.
    destruct (cells m l off len) as [ws|] eqn:Ew; [|done]. cbn.
    assert (Hw : forall w, w ∈ ws -> value m' t w = value m t w /\ reach m' t w = reach m t w).
    { intros w Hw. apply IH. intros l' Hl'. apply H. cbn. rewrite Ew. cbn. right. apply elem_of_concat_map. eauto. }
    split; [f_equal; apply mapM_ext_in|f_equal; apply concat_map_ext_in]; intros; by apply Hw.
  - assert (El : m' !! l = m !! l) by (apply H; cbn; by left). cbn [value reach].
    assert (Ec : entries m' l = entries m l) by (unfold entries; by rewrite El). rewrite Ec.
    destruct (entries m l) as [es|] eqn:Ew; [|done]. cbn [default option_bind mbind].
    assert (Hw : forall e, e ∈ map_to_list es -> value m' t (snd e) = value m t (snd e) /\ reach m' t (snd e) = reach m t (snd e)).
    { intros e He. apply IH. intros l' Hl'. apply H. cbn [reach]. rewrite Ew. right. apply elem_of_concat_map. eauto. }
    split; [f_equal; apply mapM_ext_in|f_equal; apply concat_map_ext_in]; intros; [f_equal|]; by apply Hw.
  - unfold agrees in H. cbn [value reach] in *.
    assert (Hf : each_field (value m') fs vs = each_field (value m) fs vs /\
      all_fields (reach m') fs vs = all_fields (reach m) fs vs); [|by destruct Hf as [-> ->]].
    revert vs H. induction IH as [|[n t] fs Ht _ IHfs]; intros vs H; destruct vs as [|v vs]; try done. cbn in *.
    destruct (Ht m m' v) as [-> ->]; [intros l Hl; apply H, elem_of_app; by left|].
    destruct (IHfs vs) as [-> ->]; [|done]. intros l Hl. apply H, elem_of_app. by right.
Qed.
Lemma mapM_some {A B} (f : A -> option B) l k x : mapM f l = Some k -> x ∈ l -> is_Some (f x).
Proof.
  intros H%mapM_Some Hx. induction H as [|? ? ? ? E ? IH]; [by apply elem_of_nil in Hx|].
  apply elem_of_cons in Hx as [->|Hx]; [by eexists|by apply IH].
Qed.
Lemma reach_alloc t : forall m v d l, value m t v = Some d -> l ∈ reach m t v -> is_Some (m !! l).
Proof.
  induction t as [k|t IH|t IH|t IH|fs IH] using GoTy_nested_ind; intros m v d x Hv Hx;
    destruct v as [a| |l i|l off len|l|vs]; cbn in Hv, Hx; try (by apply elem_of_nil in Hx); try done.
  - destruct (cell m l i) as [w|] eqn:Ew; [|done]. cbn in Hv.
    apply elem_of_cons in Hx as [->|Hx].
    + revert Ew. unfold cell, cells_at. by destruct (m !! l).
    + destruct (value m t w) eqn:E; [|done]. by eapply IH.
  - destruct (cells m l off len) as [ws|] eqn:Ew; [|done]. cbn in Hv.
    apply elem_of_cons in Hx as [->|Hx].
    + revert Ew. unfold cells, cells_at. by destruct (m !! l).
    + destruct (mapM _ ws) as [ds|] eqn:E; [|done]. apply elem_of_concat_map in Hx as (w & Hw & Hx).
      destruct (mapM_some _ _ _ _ E Hw) as [d' Hd]. by eapply IH.
  - destruct (entries m l) as [es|] eqn:Ew; [|done]. cbn in Hv.
    apply elem_of_cons in Hx as [->|Hx].
    + revert Ew. unfold entries. by destruct (m !! l).
    + destruct (mapM _ _) as [ds|] eqn:E; [|done]. apply elem_of_concat_map in Hx as (e & He & Hx).
      destruct (mapM_some _ _ _ _ E He) as [d' Hd]. destruct (value m t (snd e)) eqn:E'; [|done]. by eapply IH.
  - destruct (each_field _ fs vs) as [ds|] eqn:E; [|done]. clear Hv d. revert vs ds E Hx.
    induction IH as [|[n t] fs Ht _ IHfs]; intros vs ds E Hx; destruct vs as [|v vs]; cbn in *; try (by apply elem_of_nil in Hx).
    destruct (value m t v) eqn:Ev; [|done]. cbn in E. destruct (each_field _ fs vs) eqn:Evs; [|done].
    apply elem_of_app in Hx as [Hx|Hx]; [by eapply Ht|by eapply IHfs].
Qed.
(** A memory that only has more blocks holds the same values. *)
Lemma value_mono m m' t v d : value m t v = Some d -> m ⊆ m' -> value m' t v = Some d /\ reach m' t v = reach m t v.
Proof.
  intros Hv Hm. destruct (frame t m m' v) as [E1 E2]; [|by rewrite E1, E2].
  intros l Hl. destruct (reach_alloc _ _ _ _ _ Hv Hl) as [b Hb]. rewrite Hb. by eapply lookup_weaken.
Qed.

Lemma flat_reach t : flat t = true -> forall m v, reach m t v = [].
Proof.
  induction t as [k|t IH|t IH|t IH|fs IH] using GoTy_nested_ind; intros Hf m v; destruct v; try done. cbn [reach].
  revert vs Hf. induction IH as [|[n t] fs Ht _ IHfs]; intros vs Hf; destruct vs as [|v vs]; try done.
  cbn in Hf. apply andb_true_iff in Hf as [Hf1 Hf2]. cbn. by rewrite (Ht Hf1), (IHfs _ Hf2).
Qed.

(** ** Copiers *)

Definition copies (t : GoTy) (f : Copier) : Prop :=
  forall m v d, value m t v = Some d ->
  exists v' m', f v m = Some (v', m') /\ m ⊆ m' /\ value m' t v' = Some d /\
    forall l, l ∈ reach m' t v' -> m !! l = None.

Lemma copies_assign t : flat t = true -> copies t assign.
Proof.
  intros Hf m v d Hv. exists v, m. repeat split; [done|done|]. intros l. rewrite flat_reach by done. by intros ?%elem_of_nil.
Qed.
Lemma alloc_spec b m : exists l, alloc b m = Some (l, <[l := b]> m) /\ m !! l = None.
Proof. eexists. split; [done|]. apply not_elem_of_dom, is_fresh. Qed.
Lemma bind_some {A B} (p : Heap A) (f : A -> Heap B) m a m' : p m = Some (a, m') -> (p ≫= f) m = f a m'.
Proof. intros E. unfold mbind, Heap_bind. by rewrite E. Qed.
Lemma load_some {A} (read : Mem -> option A) m a : read m = Some a -> load read m = Some (a, m).
Proof. intros E. unfold load. by rewrite E. Qed.

(** Filling the cells of a block that the values copied do not reach. *)
Lemma fill_spec t f l m0 : copies t f -> m0 !! l = None -> forall ws ds i m cs,
  mapM (value m0 t) ws = Some ds -> m0 ⊆ m -> m !! l = Some (Cells cs) -> (i + length ws <= length cs)%nat ->
  exists m' ws', fill l i f ws m = Some (tt, m') /\ length ws' = length ws /\
    m' !! l = Some (Cells (take i cs ++ ws' ++ drop (i + length ws) cs)) /\
    (forall l' b, l' <> l -> m !! l' = Some b -> m' !! l' = Some b) /\
    mapM (value m' t) ws' = Some ds /\
    (forall w l', w ∈ ws' -> l' ∈ reach m' t w -> m !! l' = None).
Proof.
  intros Hf Hl. induction ws as [|w ws IH]; intros ds i m cs Hv Hm Hb Hlen.
  { cbn in Hv. injection Hv as <-. exists m, []. cbn [length] in *. rewrite Nat.add_0_r. cbn [app]. rewrite take_drop.
    repeat (split; [done|]). by intros w l' ?%elem_of_nil. }
  cbn [length] in *. cbn [mapM] in Hv. destruct (value m0 t w) as [d|] eqn:Ew; [|done]. cbn in Hv.
  destruct (mapM (value m0 t) ws) as [ds'|] eqn:Ews; [|done]. injection Hv as <-.
  destruct (Hf m w d) as (v' & m1 & Ev & Hm1 & Hv1 & Hfresh); [by eapply value_mono|].
  assert (Hl1 : m1 !! l = Some (Cells cs)) by by eapply lookup_weaken.
  assert (Hnl : l ∉ reach m1 t v') by (intros Hin; by rewrite (Hfresh _ Hin) in Hb).
  set (m2 := <[l := Cells (<[i := v']> cs)]> m1).
  assert (H12 : forall l', l' <> l -> m2 !! l' = m1 !! l') by (intros; unfold m2; by rewrite lookup_insert_ne).
  destruct (frame t m1 m2 v') as [Hv2 Hr2]; [intros l' Hl'; apply H12; by intros ->|].
  destruct (IH ds' (S i) m2 (<[i := v']> cs) eq_refl) as (m' & ws' & Er & Hlen' & Hb' & Hkeep & Hval & Hfr).
  { apply map_subseteq_spec. intros l' b Hb'. rewrite H12 by congruence. eapply lookup_weaken; [|done]. by eapply lookup_weaken. }
  { apply lookup_insert_eq. }
  { rewrite length_insert. lia. }
  destruct (frame t m2 m' v') as [Hv3 Hr3].
  { intros l' Hl'. rewrite Hr2 in Hl'. destruct (reach_alloc _ _ _ _ _ Hv1 Hl') as [b Hb1].
    assert (l' <> l) by by intros ->. rewrite H12, Hb1 by done. apply Hkeep; [done|]. by rewrite H12. }
  exists m', (v' :: ws'). split; [|split; [cbn; lia|split; [|split; [|split]]]].
  - cbn [fill]. rewrite (bind_some _ _ _ _ _ Ev).
    assert (Hset : set_cell l i v' m1 = Some (tt, m2)).
    { unfold set_cell. rewrite Hl1. by rewrite bool_decide_eq_true_2 by lia. }
    by rewrite (bind_some _ _ _ _ _ Hset).
  - rewrite Hb'. f_equal. f_equal. rewrite drop_insert_lt by lia. replace (S i + length ws)%nat with (i + S (length ws))%nat by lia.
    rewrite (take_S_r _ _ v') by (apply list_lookup_insert_eq; lia). rewrite take_insert_ge by lia. by rewrite <-app_assoc.
  - intros l' b Hne Hlk. apply Hkeep; [done|]. rewrite H12 by done. by eapply lookup_weaken.
  - cbn [mapM]. by rewrite Hv3, Hv2, Hv1, Hval.
  - intros w' l' [->|Hw]%elem_of_cons Hl'.
    + apply Hfresh. by rewrite Hr3, Hr2 in Hl'.
    + specialize (Hfr _ _ Hw Hl'). destruct (decide (l' = l)) as [->|Hne].
      * exfalso. unfold m2 in Hfr. by rewrite lookup_insert_eq in Hfr.
      * rewrite H12 in Hfr by done. destruct (m !! l') eqn:E; [|done]. by rewrite (lookup_weaken _ _ _ _ E Hm1) in Hfr.
Qed.
(** A new block filled with copies. *)
Lemma fill_new t f m z ws ds l :
  copies t f -> mapM (value m t) ws = Some ds -> m !! l = None -> length z = length ws ->
  exists m' ws', fill l 0 f ws (<[l := Cells z]> m) = Some (tt, m') /\ m ⊆ m' /\ length ws' = length ws /\
    m' !! l = Some (Cells ws') /\ mapM (value m' t) ws' = Some ds /\
    (forall w l', w ∈ ws' -> l' ∈ reach m' t w -> m !! l' = None).
Proof.
  intros Hf Hv Hl Hz. destruct (fill_spec t f l m Hf Hl ws ds 0 (<[l := Cells z]> m) z Hv) as (m' & ws' & Er & Hlen & Hb & Hkeep & Hval & Hfr).
  - by apply insert_subseteq.
  - apply lookup_insert_eq.
  - lia.
  - exists m', ws'. split; [done|]. split.
    { apply map_subseteq_spec. intros l' b Hb'. apply Hkeep; [congruence|]. rewrite lookup_insert_ne by congruence. done. }
    split; [done|]. split.
    { rewrite Hb. cbn. rewrite drop_ge by lia. by rewrite app_nil_r. }
    split; [done|]. intros w l' Hw Hl'. specialize (Hfr _ _ Hw Hl'). destruct (decide (l' = l)) as [->|Hne]; [done|].
    by rewrite lookup_insert_ne in Hfr.
Qed.

Lemma copies_new_ptr t f : copies t f -> copies (TPtr t) (new_ptr t f).
Proof.
  intros Hf m v d Hv. destruct v as [a| |l i|l off len|l|vs]; try done.
  { exists NilRef, m. repeat split; [done|done|]. by intros l ?%elem_of_nil. }
  cbn in Hv. destruct (cell m l i) as [w|] eqn:Ew; [|done]. cbn in Hv. destruct (value m t w) as [d'|] eqn:Ev; [|done].
  injection Hv as <-. destruct (alloc_spec (Cells [zero t]) m) as (l' & Ea & Hl').
  destruct (fill_new t f m [zero t] [w] [d'] l') as (m' & ws' & Er & Hm & Hlen & Hb & Hval & Hfr); [done|by cbn; rewrite Ev|done|done|].
  destruct ws' as [|w' []]; try done. exists (Ptr l' 0), m'. cbn [new_ptr].
  rewrite (bind_some _ _ _ _ _ (load_some _ _ _ Ew)), (bind_some _ _ _ _ _ Ea), (bind_some _ _ _ _ _ Er).
  assert (Ec : cell m' l' 0 = Some w') by (unfold cell, cells_at; by rewrite Hb).
  split; [done|]. split; [done|]. cbn [value reach]. rewrite Ec. cbn [mbind option_bind]. cbn in Hval.
  destruct (value m' t w') as [d2|]; [|done]. injection Hval as ->. split; [done|].
  intros x [->|Hx]%elem_of_cons; [done|]. apply (Hfr w'); [by left|done].
Qed.
Lemma copies_make_slice t f : copies t f -> copies (TSlice t) (make_slice t f).
Proof.
  intros Hf m v d Hv. destruct v as [a| |l i|l off len|l|vs]; try done.
  { exists NilRef, m. repeat split; [done|done|]. by intros l ?%elem_of_nil. }
  cbn in Hv. destruct (cells m l off len) as [ws|] eqn:Ew; [|done]. cbn in Hv. destruct (mapM (value m t) ws) as [ds|] eqn:Ev; [|done].
  injection Hv as <-.
  assert (Hwl : length ws = len).
  { unfold cells in Ew. destruct (cells_at m l) as [vs|]; [|done]. cbn in Ew. case_bool_decide; [|done]. injection Ew as <-.
    rewrite length_take, length_drop. lia. }
  destruct (alloc_spec (Cells (replicate len (zero t))) m) as (l' & Ea & Hl').
  destruct (fill_new t f m (replicate len (zero t)) ws ds l') as (m' & ws' & Er & Hm & Hlen & Hb & Hval & Hfr); [done|done|done|by rewrite length_replicate|].
  exists (Slice l' 0 len), m'. cbn [make_slice].
  rewrite (bind_some _ _ _ _ _ (load_some _ _ _ Ew)), (bind_some _ _ _ _ _ Ea), (bind_some _ _ _ _ _ Er).
  assert (Ec : cells m' l' 0 len = Some ws').
  { unfold cells, cells_at. rewrite Hb. cbn [mbind option_bind]. rewrite bool_decide_eq_true_2 by lia. by rewrite drop_0, take_ge by lia. }
  split; [done|]. split; [done|]. cbn [value reach]. rewrite Ec. cbn [mbind option_bind default].
  rewrite Hval. split; [done|].
  intros x [->|(w' & Hw' & Hx)%elem_of_concat_map]%elem_of_cons; [done|]. by apply (Hfr w').
Qed.
Lemma copies_not_nil t f : copies t f -> copies t (not_nil f).
Proof.
  intros Hf m v d Hv. destruct v as [a| |l i|l off len|l|vs]; try by apply Hf.
  exists NilRef, m. split; [done|]. split; [done|]. split; [done|]. destruct t; intros l Hl; by apply elem_of_nil in Hl.
Qed.

Section RangeOrder.
Context (range : gmap string GoVal -> list (string * GoVal)).
(** [range] walks each entry once, in whatever order. *)
Context (Hrange : forall es, range es ≡ₚ map_to_list es).
Lemma put_all_spec l es : forall m e0, m !! l = Some (Entries e0) ->
  put_all l es m = Some (tt, <[l := Entries (foldl (fun e '(k, v) => <[k := v]> e) e0 es)]> m).
Proof.
  induction es as [|[k v] es IH]; intros m e0 Hb; cbn [put_all foldl].
  { by rewrite insert_id. }
  assert (Hset : set_key l k v m = Some (tt, <[l := Entries (<[k := v]> e0)]> m)) by (unfold set_key; by rewrite Hb).
  rewrite (bind_some _ _ _ _ _ Hset), (IH _ (<[k := v]> e0)) by apply lookup_insert_eq. by rewrite insert_insert_eq.
Qed.
Lemma foldl_range es : foldl (fun (e : gmap string GoVal) '(k, v) => <[k := v]> e) ∅ (range es) = es.
Proof.
  transitivity (list_to_map (reverse (range es)) : gmap string GoVal).
  - rewrite <-(reverse_involutive (range es)) at 1. induction (reverse (range es)) as [|[k v] l IH]; [done|].
    rewrite reverse_cons, foldl_app. cbn. by rewrite IH.
  - symmetry. apply list_to_map_flip. by rewrite reverse_Permutation, Hrange.
Qed.
Lemma flat_value t : flat t = true -> forall m m' v, value m' t v = value m t v.
Proof. intros Hf m m' v. apply frame. intros l. rewrite flat_reach by done. by intros ?%elem_of_nil. Qed.
Lemma copies_make_map t : flat t = true -> copies (TMap t) (make_map range).
Proof.
  intros Hf m v d Hv. destruct v as [a| |l i|l off len|l|vs]; try done.
  { exists NilRef, m. repeat split; [done|done|]. by intros l ?%elem_of_nil. }
  cbn [value] in Hv. destruct (entries m l) as [es|] eqn:Ew; [|done]. cbn [mbind option_bind] in Hv.
  destruct (alloc_spec (Entries ∅) m) as (l' & Ea & Hl'). exists (MapRef l'), (<[l' := Entries es]> m). cbn [make_map].
  rewrite (bind_some _ _ _ _ _ (load_some _ _ _ Ew)), (bind_some _ _ _ _ _ Ea).
  rewrite (bind_some _ _ _ _ _ (put_all_spec l' (range es) _ ∅ (lookup_insert_eq _ _ _))), insert_insert_eq, foldl_range.
  assert (Ec : entries (<[l' := Entries es]> m) l' = Some es) by (unfold entries; by rewrite lookup_insert_eq).
  split; [done|]. split; [by apply insert_subseteq|]. cbn [value reach]. rewrite Ec. cbn [mbind option_bind default]. split.
  - rewrite <-Hv. f_equal. apply mapM_ext_in. intros e _. f_equal. by apply flat_value.
  - intros x [->|(e & _ & Hx)%elem_of_concat_map]%elem_of_cons; [done|]. rewrite flat_reach in Hx by done. by apply elem_of_nil in Hx.
Qed.
End RangeOrder.

(** The copiers a struct's fields are given. *)
Definition fields_copied (ops : list (string * Copier)) (fs : list (string * GoTy)) : Prop :=
  Forall (fun e => copies (snd e) (lookup_op (fst e) ops)) fs.
Lemma copies_struct fs ops : fields_copied ops fs -> copies (TStruct fs) (copy_struct (TStruct fs) ops).
Proof.
  intros Hf m v d Hv. destruct v as [| | | | |vs]; try done. cbn [value] in Hv.
  destruct (each_field (value m) fs vs) as [ds|] eqn:Ev; [|done]. injection Hv as <-.
  assert (Hc : exists ws m', copy_fields fs ops vs m = Some (ws, m') /\ m ⊆ m' /\ each_field (value m') fs ws = Some ds /\
    forall l, l ∈ all_fields (reach m') fs ws -> m !! l = None).
  { revert m vs ds Ev. induction Hf as [|[n t] fs Ht _ IH]; intros m vs ds Ev; destruct vs as [|v vs]; try done.
    { exists [], m. repeat split; [done|by injection Ev as <-|]. by intros l ?%elem_of_nil. }
    cbn in Ev. destruct (value m t v) as [d|] eqn:E1; [|done]. cbn in Ev. destruct (each_field (value m) fs vs) as [ds'|] eqn:E2; [|done].
    injection Ev as <-. destruct (Ht m v d E1) as (w & m1 & Ew & Hm1 & Hv1 & Hfr1). cbn [fst snd] in *.
    assert (E2' : each_field (value m1) fs vs = Some ds').
    { clear -E2 Hm1. revert vs ds' E2. induction fs as [|[n t] fs IH]; intros vs ds' E2; destruct vs as [|v vs]; try done.
      cbn in *. destruct (value m t v) as [d|] eqn:E1; [|done]. cbn in E2. destruct (each_field (value m) fs vs) as [r|] eqn:Er; [|done].
      destruct (value_mono _ _ _ _ _ E1 Hm1) as [-> _]. cbn. by rewrite (IH _ _ Er). }
    destruct (IH m1 vs ds' E2') as (ws & m2 & Ews & Hm2 & Hvs & Hfr2). exists (w :: ws), m2. cbn [copy_fields].
    rewrite (bind_some _ _ _ _ _ Ew), (bind_some _ _ _ _ _ Ews). split; [done|]. split; [by transitivity m1|].
    destruct (value_mono _ _ _ _ _ Hv1 Hm2) as [Hv2 Hr2]. cbn [each_field all_fields]. rewrite Hv2, Hvs, Hr2. split; [done|].
    intros l [Hl|Hl]%elem_of_app; [by apply Hfr1|]. specialize (Hfr2 _ Hl).
    destruct (m !! l) eqn:E; [|done]. by rewrite (lookup_weaken _ _ _ _ E Hm1) in Hfr2. }
  destruct Hc as (ws & m' & Ec & Hm & Hval & Hfr). exists (Struct ws), m'. cbn [copy_struct].
  rewrite (bind_some _ _ _ _ _ Ec). split; [done|]. split; [done|]. cbn [value reach]. by rewrite Hval.
Qed.

(** What a deep copy is for: nothing done to the copy shows in the original, and
    nothing done to what was there before shows in the copy. *)
Lemma copies_isolate t f m v d :
  copies t f -> value m t v = Some d ->
  exists v' m', f v m = Some (v', m') /\ value m' t v' = Some d /\ m ⊆ m' /\
    (forall m2, (forall l, l ∉ reach m' t v' -> m2 !! l = m' !! l) -> value m2 t v = Some d) /\
    (forall m2, (forall l, m !! l = None -> m2 !! l = m' !! l) -> value m2 t v' = Some d).
Proof.
  intros Hf Hv. destruct (Hf m v d Hv) as (v' & m' & Er & Hm & Hv' & Hfr). exists v', m'.
  destruct (value_mono _ _ _ _ _ Hv Hm) as [Hvm Hrm].
  assert (Hdisj : forall l, l ∈ reach m t v -> l ∉ reach m' t v').
  { intros l Hl Hl'. destruct (reach_alloc _ _ _ _ _ Hv Hl) as [b Hb]. by rewrite (Hfr _ Hl') in Hb. }
  split; [done|]. split; [done|]. split; [done|]. split.
  - intros m2 H2. destruct (frame t m' m2 v) as [-> _]; [|done]. intros l Hl. rewrite Hrm in Hl. by apply H2, Hdisj.
  - intros m2 H2. destruct (frame t m' m2 v') as [-> _]; [|done]. intros l Hl. by apply H2, Hfr.
Qed.
