(* ===== verification/DeepCopy.v ===== *)
(** * The generated deep copies (pkg/apis/sandbox/v1alpha1/zz_generated.deepcopy.go)

    The Go types of the custom resources with their references, and each type's
    DeepCopyInto, DeepCopy and DeepCopyObject over the memory of GoHeap.v; then
    that a copy has the original's value and shares nothing with it. The API
    machinery hands the reconcilers copies of what its cache holds, by these.

    The types of the Kubernetes libraries are parameters, with the copiers those
    libraries generate for them. *)
From S2P Require Import Prelude GoHeap.
Open Scope string_scope.
Open Scope list_scope.

(** [runtime.Object]: an interface that holds a pointer, or is nil. *)
Definition as_object (f : Copier) : GoVal -> Heap (option GoVal) := fun v =>
  c ← f v; mret (match c with NilRef => None | _ => Some c end).

Section DeepCopy.
(** The order in which [range] walks a map. *)
Context (range : gmap string GoVal -> list (string * GoVal)).
(** metav1 and corev1. *)
Context (TypeMeta_ty ObjectMeta_ty ListMeta_ty Time_ty Condition_ty : GoTy).
Context (LocalObjectReference_ty ResourceRequirements_ty PodSpec_ty : GoTy).
Context (ObjectMeta_DeepCopyInto ListMeta_DeepCopyInto Condition_DeepCopyInto : Copier).
Context (ResourceRequirements_DeepCopyInto PodSpec_DeepCopyInto : Copier).
(** On a pointer. *)
Context (Time_DeepCopy : Copier).

Local Abbreviation str := (TScalar KString).
Local Abbreviation int := (TScalar KInt).
Local Abbreviation bool := (TScalar KBool).

Definition AutoscaleSpec_ty : GoTy :=
  TStruct [("Enabled", bool); ("TargetIdleSeconds", int)].
Definition AutoscaleSpec_DeepCopyInto : Copier := assign.
Definition AutoscaleSpec_DeepCopy : Copier := new_ptr AutoscaleSpec_ty AutoscaleSpec_DeepCopyInto.
Definition EnvVar_ty : GoTy :=
  TStruct [("Name", str); ("Value", str)].
Definition EnvVar_DeepCopyInto : Copier := assign.
Definition EnvVar_DeepCopy : Copier := new_ptr EnvVar_ty EnvVar_DeepCopyInto.
Definition Workspace_ty : GoTy :=
  TStruct [("Path", str); ("SizeLimit", str)].
Definition Workspace_DeepCopyInto : Copier := assign.
Definition Workspace_DeepCopy : Copier := new_ptr Workspace_ty Workspace_DeepCopyInto.
Definition FilesystemDefaults_ty : GoTy :=
  TStruct [("Workspace", Workspace_ty); ("AllowSystemPaths", TSlice str)].
Definition FilesystemDefaults_DeepCopyInto : Copier :=
  copy_struct FilesystemDefaults_ty
    [("AllowSystemPaths", make_slice str assign)].
Definition FilesystemDefaults_DeepCopy : Copier := new_ptr FilesystemDefaults_ty FilesystemDefaults_DeepCopyInto.
Definition MountSource_ty : GoTy :=
  TStruct [("Volume", str); ("SubPath", str)].
Definition MountSource_DeepCopyInto : Copier := assign.
Definition MountSource_DeepCopy : Copier := new_ptr MountSource_ty MountSource_DeepCopyInto.
Definition Mount_ty : GoTy :=
  TStruct [("Path", str); ("Source", MountSource_ty); ("ReadOnly", bool)].
Definition Mount_DeepCopyInto : Copier := assign.
Definition Mount_DeepCopy : Copier := new_ptr Mount_ty Mount_DeepCopyInto.
Definition FilesystemSpec_ty : GoTy :=
  TStruct [("Workspace", Workspace_ty); ("Mounts", TSlice Mount_ty); ("AllowSystemPaths", TSlice str);
           ("Hide", TSlice str)].
Definition FilesystemSpec_DeepCopyInto : Copier :=
  copy_struct FilesystemSpec_ty
    [("Mounts", make_slice Mount_ty assign); ("AllowSystemPaths", make_slice str assign);
     ("Hide", make_slice str assign)].
Definition FilesystemSpec_DeepCopy : Copier := new_ptr FilesystemSpec_ty FilesystemSpec_DeepCopyInto.
Definition ImageSpec_ty : GoTy :=
  TStruct [("Ref", str); ("Resolve", TPtr bool); ("PullPolicy", str);
           ("PullSecretRef", TPtr LocalObjectReference_ty)].
Definition ImageSpec_DeepCopyInto : Copier :=
  copy_struct ImageSpec_ty
    [("Resolve", new_ptr bool assign); ("PullSecretRef", new_ptr LocalObjectReference_ty assign)].
Definition ImageSpec_DeepCopy : Copier := new_ptr ImageSpec_ty ImageSpec_DeepCopyInto.
Definition NetworkSpec_ty : GoTy :=
  TStruct [("Egress", str); ("AllowCIDRs", TSlice str); ("DenyCIDRs", TSlice str);
           ("AllowedFQDN", TSlice str)].
Definition NetworkSpec_DeepCopyInto : Copier :=
  copy_struct NetworkSpec_ty
    [("AllowCIDRs", make_slice str assign); ("DenyCIDRs", make_slice str assign);
     ("AllowedFQDN", make_slice str assign)].
Definition NetworkSpec_DeepCopy : Copier := new_ptr NetworkSpec_ty NetworkSpec_DeepCopyInto.
Definition SecretRef_ty : GoTy :=
  TStruct [("Name", str)].
Definition SecretRef_DeepCopyInto : Copier := assign.
Definition SecretRef_DeepCopy : Copier := new_ptr SecretRef_ty SecretRef_DeepCopyInto.
Definition TemplateVolume_ty : GoTy :=
  TStruct [("Name", str); ("ClaimName", str); ("MountPath", str); ("ReadOnly", bool)].
Definition TemplateVolume_DeepCopyInto : Copier := assign.
Definition TemplateVolume_DeepCopy : Copier := new_ptr TemplateVolume_ty TemplateVolume_DeepCopyInto.
Definition SandboxSpec_ty : GoTy :=
  TStruct [("TemplateRef", str); ("TTLSeconds", int); ("Filesystem", FilesystemSpec_ty);
           ("Env", TSlice EnvVar_ty); ("SecretRefs", TSlice SecretRef_ty); ("Metadata", TMap str)].
Definition SandboxSpec_DeepCopyInto : Copier :=
  copy_struct SandboxSpec_ty
    [("Filesystem", FilesystemSpec_DeepCopyInto); ("Env", make_slice EnvVar_ty assign);
     ("SecretRefs", make_slice SecretRef_ty assign); ("Metadata", make_map range)].
Definition SandboxSpec_DeepCopy : Copier := new_ptr SandboxSpec_ty SandboxSpec_DeepCopyInto.
Definition SandboxStatus_ty : GoTy :=
  TStruct [("Phase", str); ("PodName", str); ("PodIP", str); ("NodeName", str); ("IsolationTier", str);
           ("ColdStart", bool); ("Endpoint", str); ("Token", str); ("BoundAt", TPtr Time_ty);
           ("ExpiresAt", TPtr Time_ty); ("Reason", str); ("Conditions", TSlice Condition_ty)].
Definition SandboxStatus_DeepCopyInto : Copier :=
  copy_struct SandboxStatus_ty
    [("BoundAt", not_nil Time_DeepCopy); ("ExpiresAt", not_nil Time_DeepCopy);
     ("Conditions", make_slice Condition_ty Condition_DeepCopyInto)].
Definition SandboxStatus_DeepCopy : Copier := new_ptr SandboxStatus_ty SandboxStatus_DeepCopyInto.
Definition Sandbox_ty : GoTy :=
  TStruct [("TypeMeta", TypeMeta_ty); ("ObjectMeta", ObjectMeta_ty); ("Spec", SandboxSpec_ty);
           ("Status", SandboxStatus_ty)].
Definition Sandbox_DeepCopyInto : Copier :=
  copy_struct Sandbox_ty
    [("ObjectMeta", ObjectMeta_DeepCopyInto); ("Spec", SandboxSpec_DeepCopyInto);
     ("Status", SandboxStatus_DeepCopyInto)].
Definition Sandbox_DeepCopy : Copier := new_ptr Sandbox_ty Sandbox_DeepCopyInto.
Definition Sandbox_DeepCopyObject : GoVal -> Heap (option GoVal) := as_object Sandbox_DeepCopy.
Definition SandboxList_ty : GoTy :=
  TStruct [("TypeMeta", TypeMeta_ty); ("ListMeta", ListMeta_ty); ("Items", TSlice Sandbox_ty)].
Definition SandboxList_DeepCopyInto : Copier :=
  copy_struct SandboxList_ty
    [("ListMeta", ListMeta_DeepCopyInto); ("Items", make_slice Sandbox_ty Sandbox_DeepCopyInto)].
Definition SandboxList_DeepCopy : Copier := new_ptr SandboxList_ty SandboxList_DeepCopyInto.
Definition SandboxList_DeepCopyObject : GoVal -> Heap (option GoVal) := as_object SandboxList_DeepCopy.
Definition SandboxPoolSpec_ty : GoTy :=
  TStruct [("TemplateRef", str); ("Replicas", int); ("MinReplicas", int); ("MaxReplicas", int);
           ("Autoscale", AutoscaleSpec_ty); ("NotReadyTimeoutSeconds", int); ("IdleTTLSeconds", int);
           ("MaxSurge", int)].
Definition SandboxPoolSpec_DeepCopyInto : Copier := assign.
Definition SandboxPoolSpec_DeepCopy : Copier := new_ptr SandboxPoolSpec_ty SandboxPoolSpec_DeepCopyInto.
Definition SandboxPoolStatus_ty : GoTy :=
  TStruct [("IdleByTier", TMap int); ("Idle", int); ("Bound", int); ("Stale", int); ("NotReady", int);
           ("TemplateHash", str); ("Conditions", TSlice Condition_ty)].
Definition SandboxPoolStatus_DeepCopyInto : Copier :=
  copy_struct SandboxPoolStatus_ty
    [("IdleByTier", make_map range); ("Conditions", make_slice Condition_ty Condition_DeepCopyInto)].
Definition SandboxPoolStatus_DeepCopy : Copier := new_ptr SandboxPoolStatus_ty SandboxPoolStatus_DeepCopyInto.
Definition SandboxPool_ty : GoTy :=
  TStruct [("TypeMeta", TypeMeta_ty); ("ObjectMeta", ObjectMeta_ty); ("Spec", SandboxPoolSpec_ty);
           ("Status", SandboxPoolStatus_ty)].
Definition SandboxPool_DeepCopyInto : Copier :=
  copy_struct SandboxPool_ty
    [("ObjectMeta", ObjectMeta_DeepCopyInto); ("Status", SandboxPoolStatus_DeepCopyInto)].
Definition SandboxPool_DeepCopy : Copier := new_ptr SandboxPool_ty SandboxPool_DeepCopyInto.
Definition SandboxPool_DeepCopyObject : GoVal -> Heap (option GoVal) := as_object SandboxPool_DeepCopy.
Definition SandboxPoolList_ty : GoTy :=
  TStruct [("TypeMeta", TypeMeta_ty); ("ListMeta", ListMeta_ty); ("Items", TSlice SandboxPool_ty)].
Definition SandboxPoolList_DeepCopyInto : Copier :=
  copy_struct SandboxPoolList_ty
    [("ListMeta", ListMeta_DeepCopyInto); ("Items", make_slice SandboxPool_ty SandboxPool_DeepCopyInto)].
Definition SandboxPoolList_DeepCopy : Copier := new_ptr SandboxPoolList_ty SandboxPoolList_DeepCopyInto.
Definition SandboxPoolList_DeepCopyObject : GoVal -> Heap (option GoVal) := as_object SandboxPoolList_DeepCopy.
Definition SandboxTemplateSpec_ty : GoTy :=
  TStruct [("MinIsolationTier", str); ("FilesystemIsolation", str); ("PodUserNamespace", TPtr bool);
           ("RuntimeClassName", str); ("DefaultTTLSeconds", int); ("MaxTTLSeconds", int);
           ("Image", ImageSpec_ty); ("FilesystemDefaults", FilesystemDefaults_ty);
           ("Volumes", TSlice TemplateVolume_ty); ("Network", NetworkSpec_ty);
           ("Resources", ResourceRequirements_ty); ("PodOverrides", TPtr PodSpec_ty)].
Definition SandboxTemplateSpec_DeepCopyInto : Copier :=
  copy_struct SandboxTemplateSpec_ty
    [("PodUserNamespace", new_ptr bool assign); ("Image", ImageSpec_DeepCopyInto);
     ("FilesystemDefaults", FilesystemDefaults_DeepCopyInto);
     ("Volumes", make_slice TemplateVolume_ty assign); ("Network", NetworkSpec_DeepCopyInto);
     ("Resources", ResourceRequirements_DeepCopyInto);
     ("PodOverrides", new_ptr PodSpec_ty PodSpec_DeepCopyInto)].
Definition SandboxTemplateSpec_DeepCopy : Copier := new_ptr SandboxTemplateSpec_ty SandboxTemplateSpec_DeepCopyInto.
Definition SandboxTemplateStatus_ty : GoTy :=
  TStruct [("Hash", str); ("Admission", str); ("AdmissionReason", str); ("ResolvedDigest", str);
           ("ResolvedRef", str); ("ResolvedAt", TPtr Time_ty); ("ImageBytes", int);
           ("ImagePinned", bool); ("HasVolumes", bool); ("Conditions", TSlice Condition_ty)].
Definition SandboxTemplateStatus_DeepCopyInto : Copier :=
  copy_struct SandboxTemplateStatus_ty
    [("ResolvedAt", not_nil Time_DeepCopy);
     ("Conditions", make_slice Condition_ty Condition_DeepCopyInto)].
Definition SandboxTemplateStatus_DeepCopy : Copier := new_ptr SandboxTemplateStatus_ty SandboxTemplateStatus_DeepCopyInto.
Definition SandboxTemplate_ty : GoTy :=
  TStruct [("TypeMeta", TypeMeta_ty); ("ObjectMeta", ObjectMeta_ty); ("Spec", SandboxTemplateSpec_ty);
           ("Status", SandboxTemplateStatus_ty)].
Definition SandboxTemplate_DeepCopyInto : Copier :=
  copy_struct SandboxTemplate_ty
    [("ObjectMeta", ObjectMeta_DeepCopyInto); ("Spec", SandboxTemplateSpec_DeepCopyInto);
     ("Status", SandboxTemplateStatus_DeepCopyInto)].
Definition SandboxTemplate_DeepCopy : Copier := new_ptr SandboxTemplate_ty SandboxTemplate_DeepCopyInto.
Definition SandboxTemplate_DeepCopyObject : GoVal -> Heap (option GoVal) := as_object SandboxTemplate_DeepCopy.
Definition SandboxTemplateList_ty : GoTy :=
  TStruct [("TypeMeta", TypeMeta_ty); ("ListMeta", ListMeta_ty); ("Items", TSlice SandboxTemplate_ty)].
Definition SandboxTemplateList_DeepCopyInto : Copier :=
  copy_struct SandboxTemplateList_ty
    [("ListMeta", ListMeta_DeepCopyInto);
     ("Items", make_slice SandboxTemplate_ty SandboxTemplate_DeepCopyInto)].
Definition SandboxTemplateList_DeepCopy : Copier := new_ptr SandboxTemplateList_ty SandboxTemplateList_DeepCopyInto.
Definition SandboxTemplateList_DeepCopyObject : GoVal -> Heap (option GoVal) := as_object SandboxTemplateList_DeepCopy.

(** The types with a generated DeepCopy. *)
Definition generated : list (GoTy * Copier) :=
  [ (AutoscaleSpec_ty, AutoscaleSpec_DeepCopy);
    (EnvVar_ty, EnvVar_DeepCopy);
    (Workspace_ty, Workspace_DeepCopy);
    (FilesystemDefaults_ty, FilesystemDefaults_DeepCopy);
    (MountSource_ty, MountSource_DeepCopy);
    (Mount_ty, Mount_DeepCopy);
    (FilesystemSpec_ty, FilesystemSpec_DeepCopy);
    (ImageSpec_ty, ImageSpec_DeepCopy);
    (NetworkSpec_ty, NetworkSpec_DeepCopy);
    (SecretRef_ty, SecretRef_DeepCopy);
    (TemplateVolume_ty, TemplateVolume_DeepCopy);
    (SandboxSpec_ty, SandboxSpec_DeepCopy);
    (SandboxStatus_ty, SandboxStatus_DeepCopy);
    (Sandbox_ty, Sandbox_DeepCopy);
    (SandboxList_ty, SandboxList_DeepCopy);
    (SandboxPoolSpec_ty, SandboxPoolSpec_DeepCopy);
    (SandboxPoolStatus_ty, SandboxPoolStatus_DeepCopy);
    (SandboxPool_ty, SandboxPool_DeepCopy);
    (SandboxPoolList_ty, SandboxPoolList_DeepCopy);
    (SandboxTemplateSpec_ty, SandboxTemplateSpec_DeepCopy);
    (SandboxTemplateStatus_ty, SandboxTemplateStatus_DeepCopy);
    (SandboxTemplate_ty, SandboxTemplate_DeepCopy);
    (SandboxTemplateList_ty, SandboxTemplateList_DeepCopy) ].
(** Those that are objects of the API. *)
Definition objects : list (GoTy * (GoVal -> Heap (option GoVal))) :=
  [ (Sandbox_ty, Sandbox_DeepCopyObject);
    (SandboxList_ty, SandboxList_DeepCopyObject);
    (SandboxPool_ty, SandboxPool_DeepCopyObject);
    (SandboxPoolList_ty, SandboxPoolList_DeepCopyObject);
    (SandboxTemplate_ty, SandboxTemplate_DeepCopyObject);
    (SandboxTemplateList_ty, SandboxTemplateList_DeepCopyObject) ].

(** ** They copy *)

(** What the Kubernetes libraries' types and copiers are documented to be. *)
Context (HTypeMeta : flat TypeMeta_ty = true) (HLocal : flat LocalObjectReference_ty = true).
Context (HObjectMeta : copies ObjectMeta_ty ObjectMeta_DeepCopyInto) (HListMeta : copies ListMeta_ty ListMeta_DeepCopyInto).
Context (HCondition : copies Condition_ty Condition_DeepCopyInto) (HTime : copies (TPtr Time_ty) Time_DeepCopy).
Context (HResources : copies ResourceRequirements_ty ResourceRequirements_DeepCopyInto).
Context (HPodSpec : copies PodSpec_ty PodSpec_DeepCopyInto).
Context (Hrange : forall es, range es ≡ₚ map_to_list es).

(** By the form of the copier. *)
Create HintDb copiers discriminated.
Hint Constants Opaque : copiers.
Ltac copier :=
  lazymatch goal with
  | |- copies _ (copy_struct _ _) =>
      apply copies_struct; unfold fields_copied; repeat apply Forall_cons_2; try apply Forall_nil_2;
      cbn [fst snd lookup_op String.eqb Ascii.eqb Bool.eqb]; copier
  | |- copies _ (new_ptr _ _) => apply copies_new_ptr; copier
  | |- copies _ (make_slice _ _) => apply copies_make_slice; copier
  | |- copies _ (make_map _) => apply copies_make_map; [exact Hrange|reflexivity]
  | |- copies _ (not_nil _) => apply copies_not_nil; copier
  | |- copies _ assign => apply copies_assign; first [assumption|reflexivity]
  | |- _ => first [assumption|auto with copiers]
  end.
Lemma AutoscaleSpec_copies : copies AutoscaleSpec_ty AutoscaleSpec_DeepCopyInto.
Proof. unfold AutoscaleSpec_DeepCopyInto. copier. Qed.
Hint Resolve AutoscaleSpec_copies : copiers.
Lemma EnvVar_copies : copies EnvVar_ty EnvVar_DeepCopyInto.
Proof. unfold EnvVar_DeepCopyInto. copier. Qed.
Hint Resolve EnvVar_copies : copiers.
Lemma Workspace_copies : copies Workspace_ty Workspace_DeepCopyInto.
Proof. unfold Workspace_DeepCopyInto. copier. Qed.
Hint Resolve Workspace_copies : copiers.
Lemma FilesystemDefaults_copies : copies FilesystemDefaults_ty FilesystemDefaults_DeepCopyInto.
Proof. unfold FilesystemDefaults_DeepCopyInto. copier. Qed.
Hint Resolve FilesystemDefaults_copies : copiers.
Lemma MountSource_copies : copies MountSource_ty MountSource_DeepCopyInto.
Proof. unfold MountSource_DeepCopyInto. copier. Qed.
Hint Resolve MountSource_copies : copiers.
Lemma Mount_copies : copies Mount_ty Mount_DeepCopyInto.
Proof. unfold Mount_DeepCopyInto. copier. Qed.
Hint Resolve Mount_copies : copiers.
Lemma FilesystemSpec_copies : copies FilesystemSpec_ty FilesystemSpec_DeepCopyInto.
Proof. unfold FilesystemSpec_DeepCopyInto. copier. Qed.
Hint Resolve FilesystemSpec_copies : copiers.
Lemma ImageSpec_copies : copies ImageSpec_ty ImageSpec_DeepCopyInto.
Proof. unfold ImageSpec_DeepCopyInto. copier. Qed.
Hint Resolve ImageSpec_copies : copiers.
Lemma NetworkSpec_copies : copies NetworkSpec_ty NetworkSpec_DeepCopyInto.
Proof. unfold NetworkSpec_DeepCopyInto. copier. Qed.
Hint Resolve NetworkSpec_copies : copiers.
Lemma SecretRef_copies : copies SecretRef_ty SecretRef_DeepCopyInto.
Proof. unfold SecretRef_DeepCopyInto. copier. Qed.
Hint Resolve SecretRef_copies : copiers.
Lemma TemplateVolume_copies : copies TemplateVolume_ty TemplateVolume_DeepCopyInto.
Proof. unfold TemplateVolume_DeepCopyInto. copier. Qed.
Hint Resolve TemplateVolume_copies : copiers.
Lemma SandboxSpec_copies : copies SandboxSpec_ty SandboxSpec_DeepCopyInto.
Proof. unfold SandboxSpec_DeepCopyInto. copier. Qed.
Hint Resolve SandboxSpec_copies : copiers.
Lemma SandboxStatus_copies : copies SandboxStatus_ty SandboxStatus_DeepCopyInto.
Proof. unfold SandboxStatus_DeepCopyInto. copier. Qed.
Hint Resolve SandboxStatus_copies : copiers.
Lemma Sandbox_copies : copies Sandbox_ty Sandbox_DeepCopyInto.
Proof. unfold Sandbox_DeepCopyInto. copier. Qed.
Hint Resolve Sandbox_copies : copiers.
Lemma SandboxList_copies : copies SandboxList_ty SandboxList_DeepCopyInto.
Proof. unfold SandboxList_DeepCopyInto. copier. Qed.
Hint Resolve SandboxList_copies : copiers.
Lemma SandboxPoolSpec_copies : copies SandboxPoolSpec_ty SandboxPoolSpec_DeepCopyInto.
Proof. unfold SandboxPoolSpec_DeepCopyInto. copier. Qed.
Hint Resolve SandboxPoolSpec_copies : copiers.
Lemma SandboxPoolStatus_copies : copies SandboxPoolStatus_ty SandboxPoolStatus_DeepCopyInto.
Proof. unfold SandboxPoolStatus_DeepCopyInto. copier. Qed.
Hint Resolve SandboxPoolStatus_copies : copiers.
Lemma SandboxPool_copies : copies SandboxPool_ty SandboxPool_DeepCopyInto.
Proof. unfold SandboxPool_DeepCopyInto. copier. Qed.
Hint Resolve SandboxPool_copies : copiers.
Lemma SandboxPoolList_copies : copies SandboxPoolList_ty SandboxPoolList_DeepCopyInto.
Proof. unfold SandboxPoolList_DeepCopyInto. copier. Qed.
Hint Resolve SandboxPoolList_copies : copiers.
Lemma SandboxTemplateSpec_copies : copies SandboxTemplateSpec_ty SandboxTemplateSpec_DeepCopyInto.
Proof. unfold SandboxTemplateSpec_DeepCopyInto. copier. Qed.
Hint Resolve SandboxTemplateSpec_copies : copiers.
Lemma SandboxTemplateStatus_copies : copies SandboxTemplateStatus_ty SandboxTemplateStatus_DeepCopyInto.
Proof. unfold SandboxTemplateStatus_DeepCopyInto. copier. Qed.
Hint Resolve SandboxTemplateStatus_copies : copiers.
Lemma SandboxTemplate_copies : copies SandboxTemplate_ty SandboxTemplate_DeepCopyInto.
Proof. unfold SandboxTemplate_DeepCopyInto. copier. Qed.
Hint Resolve SandboxTemplate_copies : copiers.
Lemma SandboxTemplateList_copies : copies SandboxTemplateList_ty SandboxTemplateList_DeepCopyInto.
Proof. unfold SandboxTemplateList_DeepCopyInto. copier. Qed.
Hint Resolve SandboxTemplateList_copies : copiers.

Lemma generated_copies : Forall (fun e => exists h, snd e = new_ptr (fst e) h /\ copies (fst e) h) generated.
Proof.
  unfold generated. repeat apply Forall_cons_2; [..|apply Forall_nil_2]; cbn [fst snd];
    (eexists; split; [reflexivity|auto with copiers]).
Qed.
Ltac find_pair :=
  lazymatch goal with
  | |- (?T, _) ∈ (?T', _) :: _ => tryif constr_eq T T' then left else (right; find_pair)
  end.
Lemma objects_generated : Forall (fun e => exists f, (fst e, f) ∈ generated /\ snd e = as_object f) objects.
Proof.
  unfold objects, generated. repeat apply Forall_cons_2; [..|apply Forall_nil_2]; cbn [fst snd];
    (eexists; split; [find_pair|reflexivity]).
Qed.
Lemma new_ptr_pointer T h l i m p m' : new_ptr T h (Ptr l i) m = Some (p, m') -> p <> NilRef.
Proof.
  unfold new_ptr, mbind, Heap_bind. intros H ->. by repeat (case_match; try discriminate).
Qed.

(** [f], given a pointer, answers one to a copy: the same value, with nothing
    written there showing in the original, nor anything written to what there
    was before showing in the copy. *)
Definition isolated (T : GoTy) (m : Mem) (p : GoVal) (d : Data) (p' : GoVal) (m' : Mem) : Prop :=
  value m' (TPtr T) p' = Some d /\
  (forall m2, (forall l, l ∉ reach m' (TPtr T) p' -> m2 !! l = m' !! l) -> value m2 (TPtr T) p = Some d) /\
  (forall m2, (forall l, m !! l = None -> m2 !! l = m' !! l) -> value m2 (TPtr T) p' = Some d).

(** C40: a resource that the API machinery copies out of its cache is a resource of
    its own. For every type of the package, DeepCopy of a pointer to a value of
    the type returns, whatever the size of its lists and maps, a pointer to an
    equal value, and the two share no memory: whatever is later written through
    the copy, the original reads as before, and whatever is written to memory
    that there was before the copy, the copy reads as it was made. Every list,
    map and pointer of every struct is so duplicated; none is shared by a copier
    that assigns. DeepCopyObject answers the same pointer as an object, and the
    nil object, not an object that holds nil, for a nil pointer. *)
Theorem deep_copies_isolate :
  (forall T f m p d, (T, f) ∈ generated -> value m (TPtr T) p = Some d ->
     exists p' m', f p m = Some (p', m') /\ isolated T m p d p' m') /\
  (forall T g m p d, (T, g) ∈ objects -> value m (TPtr T) p = Some d ->
     (p = NilRef /\ g p m = Some (None, m)) \/
     (p <> NilRef /\ exists p' m', g p m = Some (Some p', m') /\ isolated T m p d p' m')).
Proof.
  assert (Hgen : forall T f m p d, (T, f) ∈ generated -> value m (TPtr T) p = Some d ->
     exists p' m', f p m = Some (p', m') /\ isolated T m p d p' m').
  { intros T f m p d Hin Hv. destruct (proj1 (Forall_forall _ _) generated_copies _ Hin) as (h & Ef & Hh). cbn [fst snd] in *. subst f.
    destruct (copies_isolate _ _ _ _ _ (copies_new_ptr _ _ Hh) Hv) as (p' & m' & Er & Hv' & _ & H1 & H2). by exists p', m'. }
  split; [exact Hgen|]. intros T g m p d Hin Hv. destruct (proj1 (Forall_forall _ _) objects_generated _ Hin) as (f & Hf & Eg). cbn [fst snd] in *. subst g.
  destruct (Hgen T f m p d Hf Hv) as (p' & m' & Er & Hiso).
  destruct (proj1 (Forall_forall _ _) generated_copies _ Hf) as (h & Ef & _). cbn [fst snd] in *. subst f. unfold as_object.
  destruct p as [a| |l i|l off len|l|vs]; try done.
  - left. split; [done|]. reflexivity.
  - right. split; [done|]. exists p', m'. split; [|done].
    rewrite (bind_some _ _ _ _ _ Er). pose proof (new_ptr_pointer _ _ _ _ _ _ _ Er). by destruct p'.
Qed.
End DeepCopy.

(** ** Witness: a Sandbox with labels, two mounts, metadata and a deadline *)

Definition wit_range (es : gmap string GoVal) : list (string * GoVal) := map_to_list es.
Definition wit_strings (names : list string) : GoTy := TStruct (map (fun n => (n, TScalar KString)) names).
Definition wit_TypeMeta : GoTy := wit_strings ["Kind"; "APIVersion"].
Definition wit_ObjectMeta : GoTy := TStruct [("Name", TScalar KString); ("Labels", TMap (TScalar KString))].
Definition wit_ObjectMeta_DeepCopyInto : Copier := copy_struct wit_ObjectMeta [("Labels", make_map wit_range)].
Definition wit_ListMeta : GoTy := wit_strings ["ResourceVersion"].
Definition wit_Time : GoTy := TStruct [("Unix", TScalar KInt)].
Definition wit_Condition : GoTy := wit_strings ["Type"; "Status"].
Definition wit_Resources : GoTy := TStruct [("Limits", TMap (TScalar KInt))].
Definition wit_Resources_DeepCopyInto : Copier := copy_struct wit_Resources [("Limits", make_map wit_range)].
Definition wit_PodSpec : GoTy := TStruct [("Containers", TSlice (wit_strings ["Image"]))].
Definition wit_PodSpec_DeepCopyInto : Copier :=
  copy_struct wit_PodSpec [("Containers", make_slice (wit_strings ["Image"]) assign)].
Definition wit_copy : GoVal -> Heap (option GoVal) :=
  Sandbox_DeepCopyObject wit_range wit_TypeMeta wit_ObjectMeta wit_Time wit_Condition
    wit_ObjectMeta_DeepCopyInto assign (new_ptr wit_Time assign).
Definition wit_Sandbox : GoTy := Sandbox_ty wit_TypeMeta wit_ObjectMeta wit_Time wit_Condition.

Definition wit_str (x : string) : GoVal := Atom (GoString x).
Definition wit_mem : Mem := {[
  1%positive := Cells [Struct
    [ Struct [wit_str "Sandbox"; wit_str "v1alpha1"]; Struct [wit_str "sbx-1"; MapRef 2];
      Struct [wit_str "python"; Atom (GoInt 600);
              Struct [Struct [wit_str "/workspace"; wit_str ""]; Slice 3 0 2; NilRef; NilRef]; NilRef; NilRef; MapRef 4];
      Struct [wit_str "Running"; wit_str "pod-1"; wit_str "10.0.0.1"; wit_str "node-1"; wit_str "userns"; Atom (GoBool false); wit_str ""; wit_str "st_1";
              NilRef; Ptr 5 0; wit_str ""; NilRef] ]];
  2%positive := Entries {[ "app" := wit_str "sbx" ]};
  3%positive := Cells [Struct [wit_str "/data"; Struct [wit_str "data"; wit_str ""]; Atom (GoBool true)];
                       Struct [wit_str "/out"; Struct [wit_str "out"; wit_str "a"]; Atom (GoBool false)]; wit_str "beyond the slice"];
  4%positive := Entries {[ "owner" := wit_str "acme"; "run" := wit_str "7" ]};
  5%positive := Cells [Struct [Atom (GoInt 500)]] ]}.
Lemma wit_flat_copies names : copies (wit_strings names) assign.
Proof.
  apply copies_assign. unfold wit_strings. cbn [flat]. apply forallb_forall. by intros [n t] (n' & [= _ <-] & _)%in_map_iff.
Qed.
Lemma deep_copies_isolate_wit : exists d p' m',
  value wit_mem (TPtr wit_Sandbox) (Ptr 1 0) = Some d /\
  wit_copy (Ptr 1 0) wit_mem = Some (Some p', m') /\ isolated wit_Sandbox wit_mem (Ptr 1 0) d p' m' /\
  wit_copy NilRef wit_mem = Some (None, wit_mem).
Proof.
  assert (Hr : forall es, wit_range es ≡ₚ map_to_list es) by reflexivity.
  assert (Hom : copies wit_ObjectMeta wit_ObjectMeta_DeepCopyInto).
  { apply copies_struct. repeat apply Forall_cons_2; try apply Forall_nil_2.
    - by apply copies_assign.
    - by apply copies_make_map. }
  assert (Hres : copies wit_Resources wit_Resources_DeepCopyInto).
  { apply copies_struct. repeat apply Forall_cons_2; try apply Forall_nil_2. by apply copies_make_map. }
  assert (Hpod : copies wit_PodSpec wit_PodSpec_DeepCopyInto).
  { apply copies_struct. repeat apply Forall_cons_2; try apply Forall_nil_2. apply copies_make_slice, wit_flat_copies. }
  assert (Hall := deep_copies_isolate wit_range wit_TypeMeta wit_ObjectMeta wit_ListMeta wit_Time wit_Condition
    (wit_strings ["Name"]) wit_Resources wit_PodSpec wit_ObjectMeta_DeepCopyInto assign assign
    wit_Resources_DeepCopyInto wit_PodSpec_DeepCopyInto (new_ptr wit_Time assign) eq_refl eq_refl Hom
    (wit_flat_copies _) (wit_flat_copies _) (copies_new_ptr wit_Time _ (copies_assign wit_Time eq_refl)) Hres Hpod Hr).
  destruct Hall as [_ Hobj].
  assert (Hin : (wit_Sandbox, wit_copy) ∈ objects wit_range wit_TypeMeta wit_ObjectMeta wit_ListMeta wit_Time wit_Condition
    (wit_strings ["Name"]) wit_Resources wit_PodSpec wit_ObjectMeta_DeepCopyInto assign assign
    wit_Resources_DeepCopyInto wit_PodSpec_DeepCopyInto (new_ptr wit_Time assign)) by left.
  assert (Hv : exists d, value wit_mem (TPtr wit_Sandbox) (Ptr 1 0) = Some d) by (eexists; vm_compute; reflexivity).
  destruct Hv as [d Hv]. exists d.
  destruct (Hobj _ _ _ _ _ Hin Hv) as [[[=] _]|(_ & p' & m' & Er & Hiso)].
  exists p', m'. split; [exact Hv|]. split; [exact Er|]. split; [exact Hiso|].
  destruct (Hobj _ _ wit_mem NilRef DNil Hin eq_refl) as [[_ Hn]|[Hn _]]; [exact Hn|by destruct Hn].
Defined.
