(* ===== verification/Reaper.v ===== *)
(** * The single owner of wait4 (pkg/reaper)

    A [Reaper]'s state with its channels, one operation per critical section:
    what runs under [r.mu] is atomic, and a caller that blocks in [Wait] holds
    the channel it found.  The kernel is the sequence of answers [wait4]
    gives. *)
From S2P Require Import Prelude.

Definition maxPending : nat := 256.

(** ** Exit statuses (syscall.WaitStatus of Linux) *)

Definition Exited (ws : Z) : bool := (Z.land ws 127 =? 0)%Z.
Definition Signaled (ws : Z) : bool := negb (Z.land ws 127 =? 127)%Z && negb (Z.land ws 127 =? 0)%Z.
Definition Signal (ws : Z) : Z := if negb (Signaled ws) then (-1)%Z else Z.land ws 127.
Definition ExitStatus (ws : Z) : Z :=
  if negb (Exited ws) then (-1)%Z else Z.land (Z.shiftr ws 8) 255.

Definition waitStatusCode (ws : Z) : Z :=
  if Signaled ws then (128 + Signal ws)%Z else ExitStatus ws.

(** ** The reaper *)

(** Channels are numbered as they are made; each holds at most one status. *)
Record Reaper := {
  waiters : gmap Z nat;
  pending : gmap Z Z;
  order : list Z;
  chans : gmap nat (option Z);
  next_chan : nat }.
Definition NewReaper : Reaper :=
  {| waiters := ∅; pending := ∅; order := []; chans := ∅; next_chan := 0 |}.

(** [r.waiters[pid] = make(chan int, 1)] *)
Definition add_waiter (pid : Z) (r : Reaper) : Reaper :=
  {| waiters := <[pid := next_chan r]> (waiters r); pending := pending r; order := order r;
     chans := <[next_chan r := None]> (chans r); next_chan := S (next_chan r) |}.

(** [StartCmd]: [started] is what [cmd.Start] answered. *)
Definition StartCmd {E} (started : result E Z) (r : Reaper) : result E Z * Reaper :=
  match started with
  | Err e => (Err e, r)
  | Ok pid => (Ok pid, add_waiter pid r)
  end.

Definition Adopt (pid : Z) (r : Reaper) : Reaper :=
  match pending r !! pid with
  | Some _ => r
  | None => match waiters r !! pid with Some _ => r | None => add_waiter pid r end
  end.

(** The first occurrence leaves the ring. *)
Fixpoint remove_first (pid : Z) (l : list Z) : list Z :=
  match l with
  | [] => []
  | p :: l' => if decide (p = pid) then l' else p :: remove_first pid l'
  end.
Definition forget (pid : Z) (r : Reaper) : Reaper :=
  {| waiters := waiters r; pending := base.delete pid (pending r);
     order := remove_first pid (order r); chans := chans r; next_chan := next_chan r |}.
Definition drop_waiter (pid : Z) (r : Reaper) : Reaper :=
  {| waiters := base.delete pid (waiters r); pending := pending r; order := order r;
     chans := chans r; next_chan := next_chan r |}.

(** The loop that evicts the oldest statuses. *)
Fixpoint evict (fuel : nat) (r : Reaper) : Reaper :=
  match fuel with
  | O => r
  | S fuel' =>
      if (maxPending <? length (order r))%nat then
        match order r with
        | [] => r
        | oldest :: rest =>
            evict fuel' {| waiters := waiters r; pending := base.delete oldest (pending r);
                           order := rest; chans := chans r; next_chan := next_chan r |}
        end
      else r
  end.

Definition deliver (pid code : Z) (r : Reaper) : Reaper :=
  match waiters r !! pid with
  | Some ch =>
      match chans r !! ch with
      | Some None =>
          {| waiters := waiters r; pending := pending r; order := order r;
             chans := <[ch := Some code]> (chans r); next_chan := next_chan r |}
      | _ => r
      end
  | None =>
      let order' := match pending r !! pid with
                    | None => (order r ++ [pid])%list | Some _ => order r end in
      evict (length order')
        {| waiters := waiters r; pending := <[pid := code]> (pending r); order := order';
           chans := chans r; next_chan := next_chan r |}
  end.

(** [Wait] up to the point where it returns or blocks. *)
Inductive Waiting := Returned (code : Z) | Blocked (ch : nat).
Definition wait_begin (pid : Z) (r : Reaper) : Waiting * Reaper :=
  match pending r !! pid with
  | Some code => (Returned code, drop_waiter pid (forget pid r))
  | None =>
      match waiters r !! pid with
      | None => (Returned (-1)%Z, r)
      | Some ch => (Blocked ch, r)
      end
  end.
(** [code := <-ch]: [None] while there is nothing to receive. *)
Definition receive (ch : nat) (r : Reaper) : option (Z * Reaper) :=
  match chans r !! ch with
  | Some (Some code) =>
      Some (code, {| waiters := waiters r; pending := pending r; order := order r;
                     chans := <[ch := None]> (chans r); next_chan := next_chan r |})
  | _ => None
  end.
(** The end of [Wait]. *)
Definition wait_end (pid : Z) (r : Reaper) : Reaper := drop_waiter pid r.

(** [Wait] where nothing runs in between: [None] where it would block for
    good. *)
Definition Wait (pid : Z) (r : Reaper) : option (Z * Reaper) :=
  let '(w, r) := wait_begin pid r in
  match w with
  | Returned code => Some (code, r)
  | Blocked ch =>
      match receive ch r with
      | Some (code, r) => Some (code, wait_end pid r)
      | None => None
      end
  end.

(** ** reap *)

Inductive Wait4 := EINTR | Child (pid ws : Z) | NoneExited | ECHILD.
(** The loop, over the answers of [wait4]; the rest of them is what later
    calls get. *)
Fixpoint reap (answers : list Wait4) (r : Reaper) : Reaper * list Wait4 :=
  match answers with
  | [] => (r, [])
  | EINTR :: l => reap l r
  | Child pid ws :: l =>
      if (pid <=? 0)%Z then (r, l) else reap l (deliver pid (waitStatusCode ws) r)
  | NoneExited :: l | ECHILD :: l => (r, l)
  end.

(** ** Statuses *)

(** An exit status is the low byte the process exited with, a signal is
    128 plus its number whether or not it dumped core, and a stop or a
    continuation is -1: never mistaken for either. *)
Theorem waitStatusCode_correct :
  (forall n, (0 <= n < 256)%Z -> waitStatusCode (Z.shiftl n 8) = n) /\
  (forall s core, (0 < s < 127)%Z ->
     waitStatusCode (Z.lor s (if core : bool then 128 else 0)) = (128 + s)%Z) /\
  (forall ws, Exited ws = false -> Signaled ws = false -> waitStatusCode ws = (-1)%Z) /\
  (forall ws, (-1 <= waitStatusCode ws <= 255)%Z).
Proof.
  assert (Hm : forall ws, Z.land ws 127 = (ws mod 128)%Z).
  { intros ws. change 127%Z with (Z.ones 7). by rewrite Z.land_ones. }
  assert (Hb : forall z, Z.land z 255 = (z mod 256)%Z).
  { intros z. change 255%Z with (Z.ones 8). by rewrite Z.land_ones. }
  assert (Hr : forall ws, (-1 <= waitStatusCode ws <= 255)%Z).
  { intros ws. unfold waitStatusCode, Signal, ExitStatus.
    destruct (Signaled ws), (Exited ws); cbn [negb]; rewrite ?Hm, ?Hb; try lia;
      pose proof (Z.mod_pos_bound ws 128); pose proof (Z.mod_pos_bound (Z.shiftr ws 8) 256); lia. }
  split; [|split; [|split; [|exact Hr]]]; unfold waitStatusCode, Signaled, Signal, ExitStatus, Exited.
  - intros n Hn. rewrite Hm, Hb, Z.shiftl_mul_pow2, Z.shiftr_div_pow2 by lia.
    replace ((n * 2 ^ 8) mod 128)%Z with 0%Z.
    2: { change (2 ^ 8)%Z with (2 * 128)%Z. by rewrite Z.mul_assoc, Z.mod_mul. }
    cbn. rewrite Z.div_mul by done. by apply Z.mod_small.
  - intros s core Hs.
    assert (E : Z.land (Z.lor s (if core then 128 else 0)) 127 = s).
    { rewrite Z.land_lor_distr_l, Hm, (Z.mod_small s) by lia.
      destruct core; cbn; apply Z.lor_0_r. }
    unfold Signaled. rewrite E. destruct (Z.eqb_spec s 127), (Z.eqb_spec s 0); cbn; lia.
  - intros ws He Hs. by rewrite Hs, He.
Qed.

(** ** Interleavings *)

(** The critical sections that may run between any two others. *)
Inductive Op :=
| OpStart (pid : Z)
| OpAdopt (pid : Z)
| OpDeliver (pid code : Z)
| OpWaitBegin (pid : Z)
| OpReceive (ch : nat)
| OpWaitEnd (pid : Z).
Definition apply_op (o : Op) (r : Reaper) : Reaper :=
  match o with
  | OpStart pid => snd (StartCmd (E := unit) (Ok pid) r)
  | OpAdopt pid => Adopt pid r
  | OpDeliver pid code => deliver pid code r
  | OpWaitBegin pid => snd (wait_begin pid r)
  | OpReceive ch => match receive ch r with Some (_, r') => r' | None => r end
  | OpWaitEnd pid => wait_end pid r
  end.
Definition run_ops (ops : list Op) (r : Reaper) : Reaper := foldl (fun r o => apply_op o r) r ops.

(** The ring and the map of unclaimed statuses agree and are bounded; every
    waiter has a channel of its own. *)
Record wf (r : Reaper) : Prop := {
  wf_nodup : NoDup (order r);
  wf_pending : forall p, p ∈ order r <-> is_Some (pending r !! p);
  wf_bound : (length (order r) <= maxPending)%nat;
  wf_chans : forall p ch, waiters r !! p = Some ch ->
    (ch < next_chan r)%nat /\ is_Some (chans r !! ch);
  wf_own : forall p q ch, waiters r !! p = Some ch -> waiters r !! q = Some ch -> p = q }.

Lemma remove_first_notin p l : p ∉ l -> remove_first p l = l.
Proof.
  induction l as [|x l IH]; [done|]. cbn. rewrite not_elem_of_cons. intros [Hx Hl].
  rewrite decide_False by done. by rewrite IH.
Qed.
Lemma remove_first_app p a b : p ∉ a -> remove_first p (a ++ p :: b) = (a ++ b)%list.
Proof.
  induction a as [|x a IH]; cbn; [by rewrite decide_True|].
  rewrite not_elem_of_cons. intros [Hx Ha]. rewrite decide_False by done. by rewrite IH.
Qed.
Lemma remove_first_elem p q l : NoDup l -> q ∈ remove_first p l <-> q ∈ l /\ q <> p.
Proof.
  intros Hl. destruct (decide (p ∈ l)) as [(a & b & ->)%list_elem_of_split|Hp].
  - apply NoDup_app in Hl as (Ha & Hab & Hb). apply NoDup_cons in Hb as [Hb _].
    assert (Hpa : p ∉ a) by (intros H; apply (Hab p H); left).
    rewrite remove_first_app by done. rewrite !elem_of_app, elem_of_cons.
    split; [|tauto]. intros [H|H]; (split; [tauto|]); by intros ->.
  - rewrite remove_first_notin by done. split; [|tauto]. intros H. split; [done|]. by intros ->.
Qed.
Lemma remove_first_NoDup p l : NoDup l -> NoDup (remove_first p l).
Proof.
  intros Hl. destruct (decide (p ∈ l)) as [(a & b & ->)%list_elem_of_split|Hp];
    [|by rewrite remove_first_notin].
  pose proof Hl as Hl'. apply NoDup_app in Hl' as (Ha & Hab & Hb). apply NoDup_cons in Hb as [_ Hb].
  rewrite remove_first_app by (intros H; apply (Hab p H); left).
  apply NoDup_app. split; [done|]. split; [|done]. intros x Hx H. apply (Hab x Hx). by right.
Qed.
Lemma remove_first_length p l : (length (remove_first p l) <= length l)%nat.
Proof. induction l as [|x l IH]; cbn; [lia|]. destruct (decide _); cbn; lia. Qed.

Lemma evict_small n r : (length (order r) <= maxPending)%nat -> evict n r = r.
Proof.
  intros Hl. destruct n as [|n]; [done|]. cbn [evict].
  by destruct (Nat.ltb_spec maxPending (length (order r))); [lia|].
Qed.
(** One status too many costs the oldest. *)
Lemma evict_one n r oldest rest :
  order r = oldest :: rest -> length rest = maxPending ->
  evict (S n) r = {| waiters := waiters r; pending := base.delete oldest (pending r);
                     order := rest; chans := chans r; next_chan := next_chan r |}.
Proof.
  intros Ho Hr. cbn [evict]. rewrite Ho. cbn [length].
  rewrite (proj2 (Nat.ltb_lt _ _)) by lia. apply evict_small. cbn. lia.
Qed.

Lemma add_waiter_wf pid r : wf r -> wf (add_waiter pid r).
Proof.
  intros [H1 H2 H3 H4 H5]. constructor; cbn; [done..| |].
  - intros p ch [[-> <-]|[Hp [Hc Hs]%H4]]%lookup_insert_Some.
    + split; [lia|]. rewrite lookup_insert_eq. by eexists.
    + split; [lia|]. rewrite lookup_insert_ne by lia. done.
  - intros p q ch [[-> <-]|[Hp Hpc]]%lookup_insert_Some [[-> E]|[Hq Hqc]]%lookup_insert_Some.
    + done.
    + apply H4 in Hqc as [? _]. lia.
    + subst ch. apply H4 in Hpc as [? _]. lia.
    + by eapply H5.
Qed.
Lemma drop_waiter_wf pid r : wf r -> wf (drop_waiter pid r).
Proof.
  intros [H1 H2 H3 H4 H5]. constructor; cbn; [done..| |].
  - intros p ch [_ H]%lookup_delete_Some. by eapply H4.
  - intros p q ch [_ Hp]%lookup_delete_Some [_ Hq]%lookup_delete_Some. by eapply H5.
Qed.
Lemma forget_wf pid r : wf r -> wf (forget pid r).
Proof.
  intros [H1 H2 H3 H4 H5]. constructor; cbn; [| | |done..].
  - by apply remove_first_NoDup.
  - intros p. rewrite remove_first_elem, H2 by done. destruct (decide (p = pid)) as [->|Hp].
    + rewrite lookup_delete_eq. split; [tauto|]. by intros [? [=]].
    + rewrite lookup_delete_ne by done. tauto.
  - pose proof (remove_first_length pid (order r)). lia.
Qed.
(** Changing what a channel holds. *)
Lemma set_chan_wf ch v r : is_Some (chans r !! ch) -> wf r ->
  wf {| waiters := waiters r; pending := pending r; order := order r;
        chans := <[ch := v]> (chans r); next_chan := next_chan r |}.
Proof.
  intros Hc [H1 H2 H3 H4 H5]. constructor; cbn; [done..| |done].
  intros p ch' [Hl Hs]%H4. split; [done|]. destruct (decide (ch = ch')) as [->|Hne].
  - rewrite lookup_insert_eq. by eexists.
  - by rewrite lookup_insert_ne.
Qed.

(** A status put into the ring, in full: where it goes and what it evicts. *)
Lemma deliver_pending pid code r :
  wf r -> waiters r !! pid = None -> pending r !! pid = None ->
  deliver pid code r =
    let ring := (order r ++ [pid])%list in
    let full := <[pid := code]> (pending r) in
    if decide (length (order r) < maxPending)%nat then
      {| waiters := waiters r; pending := full; order := ring;
         chans := chans r; next_chan := next_chan r |}
    else
      {| waiters := waiters r;
         pending := match ring with oldest :: _ => base.delete oldest full | [] => full end;
         order := tail ring; chans := chans r; next_chan := next_chan r |}.
Proof.
  intros [_ _ Hb _ _] Hw Hp. unfold deliver. rewrite Hw, Hp. cbv zeta.
  case_decide as Hl.
  - apply evict_small. cbn. rewrite length_app. cbn. lia.
  - destruct (order r) as [|o l] eqn:Eo; [cbn in Hl; unfold maxPending in Hl; lia|].
    cbn in Hl, Hb. cbn [length app tail]. match goal with |- evict _ ?s = _ => apply (evict_one _ s o (l ++ [pid])%list); [done|] end.
    rewrite length_app. cbn. lia.
Qed.
Lemma deliver_known pid code r old :
  wf r -> waiters r !! pid = None -> pending r !! pid = Some old ->
  deliver pid code r =
    {| waiters := waiters r; pending := <[pid := code]> (pending r); order := order r;
       chans := chans r; next_chan := next_chan r |}.
Proof.
  intros [_ _ Hb _ _] Hw Hp. unfold deliver. rewrite Hw, Hp. cbv zeta. by apply evict_small.
Qed.

Lemma deliver_wf pid code r : wf r -> wf (deliver pid code r).
Proof.
  intros Hwf. destruct (waiters r !! pid) as [ch|] eqn:Hw.
  { unfold deliver. rewrite Hw. destruct (chans r !! ch) as [[c|]|] eqn:Hc; [done| |done].
    apply set_chan_wf; [by eexists|done]. }
  destruct (pending r !! pid) as [old|] eqn:Hp.
  { rewrite (deliver_known pid code r old) by done. destruct Hwf as [H1 H2 H3 H4 H5].
    constructor; cbn; [done| |done..]. intros p. rewrite H2.
    destruct (decide (pid = p)) as [->|Hne];
      [rewrite lookup_insert_eq; split; eauto; by rewrite Hp; eexists|by rewrite lookup_insert_ne]. }
  rewrite deliver_pending by done. cbv zeta. destruct Hwf as [H1 H2 H3 H4 H5].
  assert (Hnot : pid ∉ order r) by (rewrite H2, Hp; by intros [? [=]]).
  assert (Hnd : NoDup (order r ++ [pid])).
  { apply NoDup_app. split; [done|]. split; [|apply NoDup_singleton].
    intros x Hx ->%list_elem_of_singleton. done. }
  assert (Hfull : forall p, p ∈ order r ++ [pid] <-> is_Some (<[pid := code]> (pending r) !! p)).
  { intros p. rewrite elem_of_app, list_elem_of_singleton, H2.
    destruct (decide (pid = p)) as [->|Hne];
      [rewrite lookup_insert_eq; split; eauto|rewrite lookup_insert_ne by done]. split; [|tauto].
    intros [?| ->]; done. }
  case_decide as Hl.
  - constructor; cbn; [done|done| |done..]. rewrite length_app. cbn. lia.
  - destruct (order r ++ [pid]) as [|o l] eqn:El; [by destruct (order r)|].
    apply NoDup_cons in Hnd as [Ho Hnd].
    constructor; cbn; [done| | |done..].
    + intros p. specialize (Hfull p). rewrite elem_of_cons in Hfull.
      destruct (decide (o = p)) as [->|Hne].
      * rewrite lookup_delete_eq. split; [done|]. by intros [? [=]].
      * rewrite lookup_delete_ne by done. rewrite <-Hfull. split; [by right|].
        by intros [?|?]; [subst|].
    + assert (E : length (order r ++ [pid]) = S (length l)) by by rewrite El.
      rewrite length_app in E. cbn in E. lia.
Qed.
Lemma Adopt_wf pid r : wf r -> wf (Adopt pid r).
Proof.
  unfold Adopt. destruct (pending r !! pid), (waiters r !! pid); auto using add_waiter_wf.
Qed.
Lemma wait_begin_wf pid r : wf r -> wf (snd (wait_begin pid r)).
Proof.
  unfold wait_begin. destruct (pending r !! pid); [|by destruct (waiters r !! pid)].
  intros. by apply drop_waiter_wf, forget_wf.
Qed.
Lemma receive_wf ch r : wf r -> wf (apply_op (OpReceive ch) r).
Proof.
  cbn. unfold receive. destruct (chans r !! ch) as [[c|]|] eqn:Hc; [|done..].
  intros. apply set_chan_wf; [by eexists|done].
Qed.
Lemma apply_op_wf o r : wf r -> wf (apply_op o r).
Proof.
  destruct o; cbn; auto using add_waiter_wf, Adopt_wf, deliver_wf, wait_begin_wf, drop_waiter_wf.
  apply receive_wf.
Qed.
Lemma run_ops_wf ops r : wf r -> wf (run_ops ops r).
Proof.
  revert r. induction ops as [|o ops IH]; intros r Hr; [done|]. by apply IH, apply_op_wf.
Qed.
Lemma NewReaper_wf : wf NewReaper.
Proof.
  constructor; cbn; [constructor| |unfold maxPending; lia|done|done].
  intros p. rewrite lookup_empty. split; [by intros ?%elem_of_nil|]. by intros [? [=]].
Qed.

(** Whatever the sandbox's processes do and however the critical sections
    interleave, at most [maxPending] unclaimed statuses are held, each exactly
    once in the ring, and no two waiters share a channel. *)
Theorem Reaper_bounded ops :
  let r := run_ops ops NewReaper in
  size (pending r) = length (order r) /\ (length (order r) <= 256)%nat /\ NoDup (order r) /\
  forall p q ch, waiters r !! p = Some ch -> waiters r !! q = Some ch -> p = q.
Proof.
  cbv zeta. destruct (run_ops_wf ops _ NewReaper_wf) as [H1 H2 H3 H4 H5].
  split; [|split; [exact H3|split; [exact H1|exact H5]]].
  rewrite <-(size_list_to_set (C := gset Z) _ H1), <-size_dom. f_equal.
  apply set_eq. intros p. by rewrite elem_of_dom, elem_of_list_to_set, H2.
Qed.

(** ** A status reaches the one who waits for it *)

(** Critical sections about other processes and other channels. *)
Definition other (pid : Z) (ch : nat) (o : Op) : Prop :=
  match o with
  | OpStart p | OpAdopt p | OpDeliver p _ | OpWaitBegin p | OpWaitEnd p => p <> pid
  | OpReceive c => c <> ch
  end.

(** [pid] has a waiter of its own, whose channel holds [st]. *)
Record waited (pid : Z) (ch : nat) (st : option Z) (r : Reaper) : Prop := {
  wt_wf : wf r;
  wt_waiter : waiters r !! pid = Some ch;
  wt_pending : pending r !! pid = None;
  wt_chan : chans r !! ch = Some st }.

(** A status put into the ring touches no waiter. *)
Lemma evict_frame n r : waiters (evict n r) = waiters r /\ chans (evict n r) = chans r.
Proof.
  revert r. induction n as [|n IH]; intros r; [done|]. cbn [evict].
  destruct (_ <? _)%nat; [|done]. destruct (order r); [done|].
  split; [by rewrite (proj1 (IH _))|by rewrite (proj2 (IH _))].
Qed.
Lemma deliver_frame pid code r :
  waiters r !! pid = None ->
  waiters (deliver pid code r) = waiters r /\ chans (deliver pid code r) = chans r.
Proof.
  intros Hw. unfold deliver. rewrite Hw. cbv zeta.
  split; [by rewrite (proj1 (evict_frame _ _))|by rewrite (proj2 (evict_frame _ _))].
Qed.

Lemma pending_evicted pid p code r :
  wf r -> p <> pid -> waiters r !! p = None -> pending r !! pid = None ->
  pending (deliver p code r) !! pid = None.
Proof.
  intros Hwf Hne Hw Hn. destruct (pending r !! p) as [old|] eqn:Hp.
  - rewrite (deliver_known p code r old) by done. cbn. by rewrite lookup_insert_ne.
  - rewrite deliver_pending by done. cbv zeta.
    assert (Hf : (<[p := code]> (pending r)) !! pid = None) by by rewrite lookup_insert_ne.
    case_decide; cbn; [done|]. destruct (order r ++ [p])%list; [done|].
    destruct (decide (z = pid)) as [->|?]; [apply lookup_delete_eq|by rewrite lookup_delete_ne].
Qed.

Lemma add_waiter_waited pid ch st p r :
  p <> pid -> waited pid ch st r -> waited pid ch st (add_waiter p r).
Proof.
  intros Ho [Hwf Hw Hp Hc]. constructor; cbn; [by apply add_waiter_wf| |done|].
  - by rewrite lookup_insert_ne.
  - destruct (wf_chans r Hwf pid ch Hw) as [Hl _]. by rewrite lookup_insert_ne by lia.
Qed.
Lemma waited_other pid ch st o r :
  other pid ch o -> waited pid ch st r -> waited pid ch st (apply_op o r).
Proof.
  intros Ho Hwt. pose proof Hwt as [Hwf Hw Hp Hc]. destruct o as [p|p|p c|p|c|p]; cbn in Ho |- *.
  - by apply add_waiter_waited.
  - unfold Adopt. destruct (pending r !! p), (waiters r !! p); try done. by apply add_waiter_waited.
  - destruct (waiters r !! p) as [ch'|] eqn:Hw'.
    + unfold deliver. rewrite Hw'. destruct (chans r !! ch') as [[c'|]|] eqn:Hc'; [done| |done].
      constructor; cbn; [apply set_chan_wf; [by eexists|done]|done|done|].
      rewrite lookup_insert_ne; [done|]. intros ->. by destruct (Ho (wf_own r Hwf p pid ch Hw' Hw)).
    + destruct (deliver_frame p c r Hw') as [Ew Ec].
      constructor; [by apply deliver_wf|by rewrite Ew|by apply pending_evicted|by rewrite Ec].
  - unfold wait_begin. destruct (pending r !! p) eqn:Hp'; [|by destruct (waiters r !! p)].
    constructor; cbn; [by apply drop_waiter_wf, forget_wf| | |done].
    + by rewrite lookup_delete_ne.
    + by rewrite lookup_delete_ne.
  - unfold receive. destruct (chans r !! c) as [[c'|]|] eqn:Hc'; [|done..].
    constructor; cbn; [apply set_chan_wf; [by eexists|done]|done|done|by rewrite lookup_insert_ne].
  - constructor; cbn; [by apply drop_waiter_wf|by rewrite lookup_delete_ne|done|done].
Qed.
Lemma waited_others pid ch st ops r :
  Forall (other pid ch) ops -> waited pid ch st r -> waited pid ch st (run_ops ops r).
Proof.
  intros Ho. revert r. induction Ho as [|o ops Ho _ IH]; intros r Hr; [done|].
  by apply IH, waited_other.
Qed.
Lemma waited_deliver pid ch code r :
  waited pid ch None r -> waited pid ch (Some code) (deliver pid code r).
Proof.
  intros [Hwf Hw Hp Hc]. unfold deliver. rewrite Hw, Hc.
  constructor; cbn; [apply set_chan_wf; [by eexists|done]|done|done|apply lookup_insert_eq].
Qed.
Lemma add_waiter_fresh pid r :
  wf r -> pending r !! pid = None -> waited pid (next_chan r) None (add_waiter pid r).
Proof.
  intros Hwf Hp. constructor; cbn; [by apply add_waiter_wf|apply lookup_insert_eq|done|
    apply lookup_insert_eq].
Qed.

(** The status of a child started under the lock reaches its waiter, and
    only once, whatever runs in between for other processes: waiting after
    the exit returns it at once; waiting before blocks until the exit and then
    receives it; afterwards nothing of it is left.  The child's number must not
    have an unclaimed status of an earlier process. *)
Theorem StartCmd_status ops r0 pid code l1 l2 l3 :
  r0 = run_ops ops NewReaper -> pending r0 !! pid = None ->
  Forall (other pid (next_chan r0)) (l1 ++ l2 ++ l3) ->
  let r1 := run_ops l1 (snd (StartCmd (E := unit) (Ok pid) r0)) in
  (exists r', Wait pid (run_ops l2 (deliver pid code r1)) = Some (code, r') /\
     waiters r' !! pid = None /\ pending r' !! pid = None) /\
  wait_begin pid r1 = (Blocked (next_chan r0), r1) /\
  receive (next_chan r0) (run_ops l2 r1) = None /\
  exists r', receive (next_chan r0) (run_ops l3 (deliver pid code (run_ops l2 r1))) = Some (code, r').
Proof.
  intros -> Hp [H1 [H2 H3]%Forall_app]%Forall_app. cbv zeta. cbn [StartCmd snd].
  set (r0 := run_ops ops NewReaper) in *. set (ch := next_chan r0) in *.
  assert (W1 : waited pid ch None (run_ops l1 (add_waiter pid r0))).
  { apply waited_others; [done|]. apply add_waiter_fresh; [apply run_ops_wf, NewReaper_wf|done]. }
  set (r1 := run_ops l1 _) in *.
  assert (W2 : waited pid ch None (run_ops l2 r1)) by by apply waited_others.
  split; [|split; [|split]].
  - assert (W : waited pid ch (Some code) (run_ops l2 (deliver pid code r1)))
      by by apply waited_others, waited_deliver.
    destruct W as [_ Hw Hn Hc]. unfold Wait, wait_begin. rewrite Hn, Hw. unfold receive. rewrite Hc.
    eexists. split; [done|]. cbn. split; [apply lookup_delete_eq|done].
  - destruct W1 as [_ Hw Hn _]. unfold wait_begin. by rewrite Hn, Hw.
  - destruct W2 as [_ _ _ Hc]. unfold receive. by rewrite Hc.
  - assert (W : waited pid ch (Some code) (run_ops l3 (deliver pid code (run_ops l2 r1))))
      by by apply waited_others, waited_deliver.
    destruct W as [_ _ _ Hc]. unfold receive. rewrite Hc. by eexists.
Qed.

(** ** A status that arrives before anyone asks *)

(** [pid]'s status is in the ring with at most [n] younger ones. *)
Record held (pid code : Z) (n : nat) (r : Reaper) : Prop := {
  hd_wf : wf r;
  hd_waiter : waiters r !! pid = None;
  hd_pending : pending r !! pid = Some code;
  hd_place : exists a b, order r = (a ++ pid :: b)%list /\ (length b <= n)%nat }.
(** Sections about other processes. *)
Definition about_other (pid : Z) (o : Op) : Prop :=
  match o with
  | OpStart p | OpAdopt p | OpDeliver p _ | OpWaitBegin p | OpWaitEnd p => p <> pid
  | OpReceive _ => True
  end.
Definition exits (ops : list Op) : nat :=
  length (List.filter (fun o => match o with OpDeliver _ _ => true | _ => false end) ops).

Lemma held_deliver_other pid code n p c r :
  (n < 255)%nat -> p <> pid -> held pid code n r -> held pid code (S n) (deliver p c r).
Proof.
  intros Hn Hne [Hwf Hw Hp (a & b & Ho & Hb)].
  destruct (waiters r !! p) as [ch|] eqn:Hwp.
  { unfold deliver. rewrite Hwp. destruct (chans r !! ch) as [[c'|]|] eqn:Hc;
      constructor; cbn; try done; try (apply set_chan_wf; [by eexists|done]);
      (exists a, b; split; [done|lia]). }
  destruct (deliver_frame p c r Hwp) as [Ew _].
  assert (Hwf' := deliver_wf p c r Hwf).
  destruct (pending r !! p) as [old|] eqn:Hpp.
  { revert Ew Hwf'. rewrite (deliver_known p c r old) by done. intros _ Hwf'.
    constructor; cbn; [done|done|by rewrite lookup_insert_ne|]. exists a, b. split; [done|lia]. }
  revert Ew Hwf'. rewrite deliver_pending by done. cbv zeta. intros Ew Hwf'.
  assert (Hf : (<[p := c]> (pending r)) !! pid = Some code) by by rewrite lookup_insert_ne.
  case_decide as Hl; (constructor; cbn in Ew |- *; [exact Hwf'|exact Hw| |]).
  - exact Hf.
  - exists a, (b ++ [p])%list. rewrite Ho, <-app_assoc. split; [done|]. rewrite length_app. cbn. lia.
  - destruct a as [|x a].
    + pose proof (f_equal length Ho) as E. cbn in E. unfold maxPending in Hl. lia.
    + rewrite Ho. cbn. rewrite lookup_delete_ne; [exact Hf|]. intros ->.
      pose proof (wf_nodup r Hwf) as Hnd. rewrite Ho in Hnd. cbn in Hnd.
      apply NoDup_cons in Hnd as [Hnd _]. apply Hnd, elem_of_app. right. left.
  - destruct a as [|x a].
    + pose proof (f_equal length Ho) as E. cbn in E. unfold maxPending in Hl. lia.
    + rewrite Ho. cbn. exists a, (b ++ [p])%list. rewrite <-app_assoc. split; [done|].
      rewrite length_app. cbn. lia.
Qed.

Lemma held_other pid code n o r :
  about_other pid o -> (n + exits [o] <= 255)%nat -> held pid code n r ->
  held pid code (n + exits [o]) (apply_op o r).
Proof.
  intros Ho Hn Hh. pose proof Hh as [Hwf Hw Hp (a & b & Hord & Hb)].
  destruct o as [p|p|p c|p|ch|p]; cbn in Ho, Hn |- *; rewrite ?Nat.add_0_r in *.
  - constructor; cbn; [by apply add_waiter_wf|by rewrite lookup_insert_ne|done|eauto].
  - unfold Adopt. destruct (pending r !! p), (waiters r !! p); try done.
    constructor; cbn; [by apply add_waiter_wf|by rewrite lookup_insert_ne|done|eauto].
  - rewrite Nat.add_1_r. apply held_deliver_other; [lia|done|done].
  - unfold wait_begin. destruct (pending r !! p) eqn:Hp'; [|by destruct (waiters r !! p)].
    constructor; cbn; [by apply drop_waiter_wf, forget_wf|by rewrite lookup_delete_ne|
      by rewrite lookup_delete_ne|].
    rewrite Hord. destruct (decide (p ∈ a)) as [(a1 & a2 & ->)%list_elem_of_split|Ha].
    + pose proof (wf_nodup r Hwf) as Hnd. rewrite Hord, <-app_assoc in Hnd.
      apply NoDup_app in Hnd as (_ & Hd & _).
      rewrite <-app_assoc. cbn [app]. rewrite remove_first_app; [|intros H; apply (Hd p H); left].
      exists (a1 ++ a2)%list, b. rewrite <-app_assoc. done.
    + exists a, (remove_first p b). split; [|pose proof (remove_first_length p b); lia].
      clear -Ho Ha. induction a as [|x a IH]; cbn; [by rewrite decide_False|].
      rewrite not_elem_of_cons in Ha. destruct Ha. rewrite decide_False by done. by rewrite IH.
  - unfold receive. destruct (chans r !! ch) as [[c'|]|] eqn:Hc; [|done..].
    constructor; cbn; [apply set_chan_wf; [by eexists|done]|done|done|eauto].
  - constructor; cbn; [by apply drop_waiter_wf|by rewrite lookup_delete_ne|done|eauto].
Qed.
Lemma exits_cons o ops : exits (o :: ops) = (exits [o] + exits ops)%nat.
Proof. unfold exits. cbn. by destruct o. Qed.
Lemma held_others pid code n ops r :
  Forall (about_other pid) ops -> (n + exits ops <= 255)%nat -> held pid code n r ->
  held pid code (n + exits ops) (run_ops ops r).
Proof.
  intros Ho. revert n r. induction Ho as [|o ops Ho _ IH]; intros n r Hn Hr.
  { cbn. by rewrite Nat.add_0_r. }
  rewrite exits_cons in Hn |- *. rewrite Nat.add_assoc. apply IH; [lia|].
  apply held_other; [done|lia|done].
Qed.
Lemma deliver_held pid code r :
  wf r -> waiters r !! pid = None -> pending r !! pid = None ->
  held pid code 0 (deliver pid code r).
Proof.
  intros Hwf Hw Hp. assert (Hwf' := deliver_wf pid code r Hwf).
  destruct (deliver_frame pid code r Hw) as [Ew _]. revert Hwf' Ew.
  rewrite deliver_pending by done. cbv zeta. intros Hwf' Ew.
  assert (Hnot : pid ∉ order r).
  { intros Hin. apply (wf_pending r Hwf) in Hin. rewrite Hp in Hin. by destruct Hin. }
  case_decide as Hl; (constructor; cbn in Ew |- *; [exact Hwf'|exact Hw| |]).
  - by rewrite lookup_insert_eq.
  - exists (order r), []. split; [done|cbn; lia].
  - destruct (order r) as [|x l] eqn:Eo; [cbn in Hl; unfold maxPending in Hl; lia|].
    cbn. rewrite lookup_delete_ne; [by rewrite lookup_insert_eq|]. intros ->. apply Hnot. left.
  - destruct (order r) as [|x l] eqn:Eo; [cbn in Hl; unfold maxPending in Hl; lia|].
    exists l, []. split; [done|cbn; lia].
Qed.

(** The status of a process nobody had registered is kept for whoever asks,
    across any sections about other processes, as long as at most 255 other
    exits come in between; [Adopt] then registers nothing, [Wait] returns the
    status at once, and nothing of it is left. *)
Theorem Adopt_status ops r0 pid code l1 l2 :
  r0 = run_ops ops NewReaper -> waiters r0 !! pid = None -> pending r0 !! pid = None ->
  Forall (about_other pid) (l1 ++ l2) -> (exits l1 + exits l2 <= 255)%nat ->
  let r1 := run_ops l1 (deliver pid code r0) in
  Adopt pid r1 = r1 /\
  exists r', Wait pid (run_ops l2 r1) = Some (code, r') /\
    waiters r' !! pid = None /\ pending r' !! pid = None /\ pid ∉ order r'.
Proof.
  intros -> Hw Hp [H1 H2]%Forall_app Hn. cbv zeta. set (r0 := run_ops ops NewReaper) in *.
  assert (Hwf : wf r0) by apply run_ops_wf, NewReaper_wf.
  assert (W1 : held pid code (exits l1) (run_ops l1 (deliver pid code r0))).
  { apply (held_others pid code 0); [done|lia|by apply deliver_held]. }
  set (r1 := run_ops l1 _) in *. split.
  { unfold Adopt. by rewrite (hd_pending _ _ _ _ W1). }
  assert (W2 : held pid code (exits l1 + exits l2) (run_ops l2 r1)) by by apply held_others.
  destruct W2 as [Hwf2 Hw2 Hp2 _]. unfold Wait, wait_begin. rewrite Hp2.
  eexists. split; [done|]. cbn. split; [apply lookup_delete_eq|]. split; [apply lookup_delete_eq|].
  rewrite remove_first_elem by apply (wf_nodup _ Hwf2). tauto.
Qed.

(** What the code does with a number that comes round again while the status
    of its previous owner is still unclaimed: [StartCmd] does not clear it, and
    [Wait] returns it before the new child has exited. *)
Theorem stale_status pid old r :
  pending r !! pid = Some old ->
  exists r', Wait pid (snd (StartCmd (E := unit) (Ok pid) r)) = Some (old, r') /\
    waiters r' !! pid = None.
Proof.
  intros Hp. unfold Wait, wait_begin. cbn. rewrite Hp. eexists. split; [done|].
  cbn. apply lookup_delete_eq.
Qed.

(** One call of [reap] collects every exited child up to the first answer
    that says there is none, interrupted calls aside, and leaves later answers
    to later calls. *)
Theorem reap_collects pre stop rest r :
  Forall (fun a => match a with Child pid _ => (0 < pid)%Z | EINTR => True | _ => False end) pre ->
  match stop with NoneExited | ECHILD => True | _ => False end ->
  reap (pre ++ stop :: rest) r =
    (run_ops (omap (fun a => match a with
        | Child pid ws => Some (OpDeliver pid (waitStatusCode ws)) | _ => None end) pre) r, rest).
Proof.
  intros Hpre Hstop. revert r. induction Hpre as [|a pre Ha _ IH]; intros r.
  - by destruct stop.
  - destruct a as [|pid ws| |]; try done; cbn [app reap].
    + apply IH.
    + destruct (Z.leb_spec pid 0); [lia|]. rewrite IH. reflexivity.
Qed.

(** ** Witnesses *)

Lemma StartCmd_status_wit :
  exists r', Wait 7 (run_ops [OpDeliver 9 1] (deliver 7 3
    (run_ops [OpStart 8] (add_waiter 7 (run_ops [OpDeliver 5 0] NewReaper))))) = Some (3%Z, r').
Proof.
  destruct (StartCmd_status [OpDeliver 5 0] (run_ops [OpDeliver 5 0] NewReaper) 7 3
              [OpStart 8] [OpDeliver 9 1] []) as [(r' & H & _) _].
  - reflexivity.
  - vm_compute. reflexivity.
  - repeat constructor; discriminate.
  - exists r'. exact H.
Defined.
Lemma Adopt_status_wit :
  exists r', Wait 7 (run_ops [OpDeliver 9 1] (run_ops [OpStart 8] (deliver 7 3 NewReaper)))
    = Some (3%Z, r').
Proof.
  destruct (Adopt_status [] NewReaper 7 3 [OpStart 8] [OpDeliver 9 1]) as [_ (r' & H & _)].
  - reflexivity.
  - reflexivity.
  - reflexivity.
  - repeat constructor; discriminate.
  - vm_compute. lia.
  - exists r'. exact H.
Defined.
Lemma reap_collects_wit :
  reap [Child 4 256; EINTR; Child 5 9; NoneExited; Child 6 0] NewReaper =
    (run_ops [OpDeliver 4 1; OpDeliver 5 137] NewReaper, [Child 6 0]).
Proof.
  exact (reap_collects [Child 4 256; EINTR; Child 5 9] NoneExited [Child 6 0] NewReaper
           ltac:(repeat constructor) I).
Defined.
