(* ===== verification/Url.v ===== *)
(** * The parts of Go's [net/url] and [net] the gateway uses

    Percent-encoding in the modes that occur, [URL.EscapedPath], [URL.Query] and
    [Values.Encode], and [net.SplitHostPort]/[JoinHostPort]; [url.Parse] and
    [URL.String] are in Location.v. *)
From S2P Require Import Prelude GoStrings.
Open Scope string_scope.

(** ** Percent-encoding *)

Inductive encoding :=
| encodePath | encodePathSegment | encodeQueryComponent
| encodeHost | encodeUserPassword | encodeFragment.

Definition is_alnum (a : ascii) : bool :=
  let n := nat_of_ascii a in
  (((97 <=? n) && (n <=? 122)) || ((65 <=? n) && (n <=? 90)) || ((48 <=? n) && (n <=? 57)))%nat.
Fixpoint one_of (a : ascii) (set : string) : bool :=
  match set with
  | EmptyString => false
  | String b set' => if ascii_dec a b then true else one_of a set'
  end.
(** What a host may hold unescaped beside the unreserved bytes; 34 is the
    double quote. *)
Definition host_bytes : string := String (ascii_of_nat 34) "!$&'()*+,;=:[]<>".
(** [shouldEscape] *)
Definition shouldEscape (a : ascii) (mode : encoding) : bool :=
  if is_alnum a then false
  else if match mode with encodeHost => one_of a host_bytes | _ => false end then false
  else if one_of a "-_.~" then false
  else if one_of a "$&+,/:;=?@" then
    match mode with
    | encodePath => one_of a "?"
    | encodePathSegment => one_of a "/;,?"
    | encodeQueryComponent => true
    | encodeHost => true
    | encodeUserPassword => one_of a "@/?:"
    | encodeFragment => false
    end
  else match mode with encodeFragment => negb (one_of a "!()*") | _ => true end.
Definition upper_hex (n : nat) : ascii := ascii_of_nat (if (n <? 10)%nat then 48 + n else 55 + n).
Definition space : ascii := " "%char.
Fixpoint escape (s : string) (mode : encoding) : string :=
  match s with
  | EmptyString => EmptyString
  | String a s' =>
      if ascii_dec a space then
        match mode with
        | encodeQueryComponent => String "+" (escape s' mode)
        | _ => String "%" (String "2" (String "0" (escape s' mode)))
        end
      else if shouldEscape a mode then
        let n := nat_of_ascii a in
        String "%" (String (upper_hex (n / 16)) (String (upper_hex (n mod 16)) (escape s' mode)))
      else String a (escape s' mode)
  end.

Definition hex_val (a : ascii) : option nat :=
  let n := nat_of_ascii a in
  if ((48 <=? n) && (n <=? 57))%nat then Some (n - 48)%nat
  else if ((97 <=? n) && (n <=? 102))%nat then Some (n - 87)%nat
  else if ((65 <=? n) && (n <=? 70))%nat then Some (n - 55)%nat
  else None.
(** [unescape]: [None] where Go returns an [EscapeError]. *)
Fixpoint unescape (s : string) (mode : encoding) : option string :=
  match s with
  | EmptyString => Some EmptyString
  | String a s' =>
      if ascii_dec a "%" then
        match s' with
        | String h (String l s'') =>
            match hex_val h, hex_val l, unescape s'' mode with
            | Some x, Some y, Some t => Some (String (ascii_of_nat (16 * x + y)) t)
            | _, _, _ => None
            end
        | _ => None
        end
      else
        let a := match mode with
                 | encodeQueryComponent => if ascii_dec a "+" then space else a
                 | _ => a
                 end in
        match unescape s' mode with Some t => Some (String a t) | None => None end
  end.
Definition PathUnescape (s : string) : option string := unescape s encodePathSegment.
Definition QueryUnescape (s : string) : option string := unescape s encodeQueryComponent.
Definition QueryEscape (s : string) : string := escape s encodeQueryComponent.

Fixpoint validEncoded (s : string) (mode : encoding) : bool :=
  match s with
  | EmptyString => true
  | String a s' =>
      (one_of a "!$&'()*+,;=:@" || one_of a "[]" || one_of a "%" || negb (shouldEscape a mode)) &&
      validEncoded s' mode
  end.

(** ** URLs *)

Record URL := { u_Path : string; u_RawPath : string; u_RawQuery : string }.

Definition EscapedPath (u : URL) : string :=
  let default := if bool_decide (u_Path u = "*") then "*" else escape (u_Path u) encodePath in
  if negb (bool_decide (u_RawPath u = "")) && validEncoded (u_RawPath u) encodePath then
    match unescape (u_RawPath u) encodePath with
    | Some p => if bool_decide (p = u_Path u) then u_RawPath u else default
    | None => default
    end
  else default.

(** ** Query strings *)

Abbreviation Values := (gmap string (list string)).

Definition amp : ascii := "&"%char.
Definition equals_sign : ascii := "="%char.
Definition semicolon : ascii := ";"%char.
(** One [key=value] of a query; what does not parse is skipped. *)
Definition parse_pair (piece : string) : option (string * string) :=
  if contains_byte piece semicolon then None
  else if bool_decide (piece = "") then None
  else
    let '(key, value, _) := cut piece equals_sign in
    match QueryUnescape key, QueryUnescape value with
    | Some k, Some v => Some (k, v)
    | _, _ => None
    end.
(** [m[key] = append(m[key], value)] *)
Definition add_pair (m : Values) (kv : string * string) : Values :=
  <[fst kv := (default [] (m !! fst kv) ++ [snd kv])%list]> m.
(** [URL.Query]: [ParseQuery], errors ignored. *)
Definition parse_query (raw : string) : Values :=
  foldl add_pair ∅ (omap parse_pair (split amp raw)).

Definition pair_string (k v : string) : string := QueryEscape k +:+ "=" +:+ QueryEscape v.
(** [Values.Encode]: sorted by key. *)
Definition encode_query (q : Values) : string :=
  join "&" (concat (map (fun k => map (pair_string k) (default [] (q !! k)))
    (sort_by str_ltb (map fst (map_to_list q))))).

(** [Values.Get] *)
Definition query_get (q : Values) (k : string) : string :=
  match q !! k with Some (v :: _) => v | _ => "" end.

(** ** Hosts and ports *)

(** [net.SplitHostPort] on ["host:port"] and ["[host]:port"]. *)
Definition colon : ascii := ":"%char.
Definition SplitHostPort (hp : string) : option (string * string) :=
  match last_index_byte hp colon with
  | None => None
  | Some i =>
      let port := drop_string (S i) hp in
      match hp with
      | String c hp' =>
          if ascii_dec c "[" then
            match index_byte hp "]" with
            | None => None
            | Some e =>
                if (e + 1 =? i)%nat then
                  let host := take_string (e - 1) hp' in
                  if contains_byte host "[" || contains_byte (drop_string (e + 1) hp) "]" ||
                     contains_byte (drop_string (e + 1) hp) "["
                  then None else Some (host, port)
                else None
            end
          else
            let host := take_string i hp in
            if contains_byte host colon || contains_byte hp "[" || contains_byte hp "]" then None
            else Some (host, port)
      | EmptyString => None
      end
  end.
Definition JoinHostPort (host port : string) : string :=
  if contains_byte host colon then "[" +:+ host +:+ "]:" +:+ port
  else host +:+ ":" +:+ port.

(** ** Lemmas *)

(** A fact about every byte, by computation. *)
Definition all_bytes (f : ascii -> bool) : bool :=
  forallb (fun n => f (ascii_of_nat n)) (seq 0 256).
Lemma all_bytes_spec f : all_bytes f = true -> forall a, f a = true.
Proof.
  intros H a. unfold all_bytes in H. rewrite forallb_forall in H.
  rewrite <-(ascii_nat_embedding a). apply H, in_seq.
  pose proof (nat_ascii_bounded a). lia.
Qed.

Lemma hex_round a :
  let n := nat_of_ascii a in
  hex_val (upper_hex (n / 16)) = Some (n / 16)%nat /\
  hex_val (upper_hex (n mod 16)) = Some (n mod 16)%nat /\
  ascii_of_nat (16 * (n / 16) + n mod 16) = a.
Proof.
  cbv zeta. assert (H := all_bytes_spec (fun a =>
    let n := nat_of_ascii a in
    bool_decide (hex_val (upper_hex (n / 16)) = Some (n / 16)%nat) &&
    bool_decide (hex_val (upper_hex (n mod 16)) = Some (n mod 16)%nat))).
  specialize (H ltac:(vm_compute; reflexivity) a). cbv beta zeta in H.
  apply andb_prop in H as [H1%bool_decide_eq_true H2%bool_decide_eq_true].
  split; [done|]. split; [done|].
  rewrite <-Nat.div_mod by lia. apply ascii_nat_embedding.
Qed.

(** Decoding undoes encoding, whatever follows. *)
Lemma unescape_escape_app s t mode :
  unescape (escape s mode +:+ t) mode =
    match unescape t mode with Some u => Some (s +:+ u) | None => None end.
Proof.
  induction s as [|a s IH]; cbn [escape].
  { cbn. by destruct (unescape t mode). }
  destruct (ascii_dec a space) as [->|Ha].
  { destruct mode; cbn [String.append unescape];
      [| |destruct (ascii_dec "+" "%"); [done|]; rewrite IH; cbv zeta;
        destruct (ascii_dec "+" "+"); [|done]; by destruct (unescape t _)|..];
      (destruct (ascii_dec "%" "%"); [|done]); rewrite IH; by destruct (unescape t _). }
  destruct (shouldEscape a mode) eqn:Es.
  - cbv zeta. cbn [String.append unescape]. destruct (ascii_dec "%" "%"); [|done].
    destruct (hex_round a) as (-> & -> & Hb). rewrite IH. cbv zeta in Hb.
    destruct (unescape t mode); [|done]. by rewrite Hb.
  - cbn [String.append unescape]. destruct (ascii_dec a "%") as [->|_]; [by destruct mode|].
    rewrite IH. destruct (unescape t mode); [|done].
    destruct mode; try done. destruct (ascii_dec a "+") as [->|]; done.
Qed.
Lemma unescape_escape s mode : unescape (escape s mode) mode = Some s.
Proof. rewrite <-(app_empty_r (escape s mode)), unescape_escape_app. cbn. by rewrite app_empty_r. Qed.

(** What an encoded query component is made of. *)
Definition plain_byte (a : ascii) : bool := is_alnum a || one_of a "-_.~%+".
Fixpoint plain (s : string) : bool :=
  match s with EmptyString => true | String a s' => plain_byte a && plain s' end.
Lemma QueryEscape_plain s : plain (QueryEscape s) = true.
Proof.
  unfold QueryEscape. induction s as [|a s IH]; [done|]. cbn [escape].
  destruct (ascii_dec a space); [done|].
  destruct (shouldEscape a encodeQueryComponent) eqn:Es.
  - cbv zeta. cbn [plain]. rewrite IH.
    assert (H := all_bytes_spec (fun a => let n := nat_of_ascii a in
      plain_byte (upper_hex (n / 16)) && plain_byte (upper_hex (n mod 16)))
      ltac:(vm_compute; reflexivity) a).
    cbv beta zeta in H. apply andb_prop in H as [-> ->]. done.
  - cbn [plain]. rewrite IH, andb_true_r. clear IH s.
    assert (H := all_bytes_spec (fun a => shouldEscape a encodeQueryComponent || plain_byte a)
      ltac:(vm_compute; reflexivity) a).
    cbv beta in H. by rewrite Es in H.
Qed.
Lemma plain_no_byte c s : plain_byte c = false -> plain s = true -> no_byte c s.
Proof.
  intros Hc. induction s as [|a s IH]; [done|]. cbn. intros [Ha Hs]%andb_prop.
  split; [|by apply IH]. intros ->. congruence.
Qed.

Lemma contains_byte_absent s c : no_byte c s -> contains_byte s c = false.
Proof. intros H. unfold contains_byte. apply index_byte_none in H. by rewrite H. Qed.

Lemma parse_pair_string k v : parse_pair (pair_string k v) = Some (k, v).
Proof.
  assert (Hk := QueryEscape_plain k). assert (Hv := QueryEscape_plain v).
  unfold parse_pair, pair_string. cbn [String.append].
  rewrite contains_byte_absent.
  2: { rewrite no_byte_app. split; [by apply plain_no_byte|]. split; [done|by apply plain_no_byte]. }
  rewrite bool_decide_false by (by destruct (QueryEscape k)).
  rewrite cut_app by by apply plain_no_byte.
  unfold QueryUnescape, QueryEscape. by rewrite !unescape_escape.
Qed.

Lemma split_join_sep c l :
  l <> [] -> Forall (no_byte c) l -> split c (join (String c "") l) = l.
Proof.
  intros Hne. induction 1 as [|x l Hx Hl IH]; [done|].
  destruct l as [|y l]; [by apply split_no_byte|].
  rewrite join_cons. cbn [String.append]. rewrite split_app by done. by rewrite IH.
Qed.

Lemma join_split_sep c s : join (String c "") (split c s) = s.
Proof.
  induction s as [|a s IH]; cbn [split]; [done|]. pose proof (split_not_nil c s) as Hn.
  destruct (ascii_dec a c) as [->|_]; destruct (split c s) as [|h [|h' t]]; try done;
    cbn [join String.append] in IH |- *; by rewrite IH.
Qed.
Lemma join_snoc sep l x : l <> [] -> join sep (l ++ [x]) = join sep l +:+ sep +:+ x.
Proof.
  induction l as [|y l IH]; [done|]. intros _. destruct l as [|z l]; [done|].
  change ((y :: z :: l) ++ [x])%list with (y :: z :: (l ++ [x]))%list.
  rewrite !join_cons. change (z :: l ++ [x])%list with ((z :: l) ++ [x])%list.
  rewrite IH by done. by rewrite !app_assoc_str.
Qed.

(** The pairs of an encoded query, key by key. *)
Definition sorted_keys (q : Values) : list string := sort_by str_ltb (map fst (map_to_list q)).
Definition pairs_of (q : Values) (ks : list string) : list (string * string) :=
  concat (map (fun k => map (pair k) (default [] (q !! k))) ks).
Lemma encode_query_pairs q :
  encode_query q = join "&" (map (fun kv => pair_string (fst kv) (snd kv)) (pairs_of q (sorted_keys q))).
Proof.
  unfold encode_query, pairs_of, sorted_keys. f_equal. rewrite concat_map, map_map. f_equal.
  apply map_ext. intros k. by rewrite map_map.
Qed.
Lemma parse_encoded ps :
  omap parse_pair (split amp (join "&" (map (fun kv => pair_string (fst kv) (snd kv)) ps))) = ps.
Proof.
  destruct ps as [|p ps]; [done|].
  rewrite (split_join_sep amp); [|done|].
  2: { apply Forall_forall. intros x ([k v] & -> & _)%list_elem_of_fmap. unfold pair_string.
       cbn [fst snd String.append]. rewrite no_byte_app.
       split; [|split; [done|]]; apply plain_no_byte; done || apply QueryEscape_plain. }
  induction (p :: ps) as [|[k v] l IH]; [done|]. cbn [map fst snd]. cbn [omap list_omap].
  by rewrite parse_pair_string, IH.
Qed.

Lemma add_values (m : Values) k vs :
  vs <> [] \/ is_Some (m !! k) ->
  foldl add_pair m (map (pair k) vs) = <[k := (default [] (m !! k) ++ vs)%list]> m.
Proof.
  revert m. induction vs as [|v vs IH]; intros m Hvs; cbn [map foldl].
  - rewrite app_nil_r. destruct Hvs as [?|[x Hx]]; [done|]. rewrite Hx. cbn [default from_option id]. symmetry. by apply insert_id.
  - rewrite IH.
    + unfold add_pair. cbn. rewrite lookup_insert_eq, insert_insert_eq. cbn. by rewrite <-app_assoc.
    + right. unfold add_pair. cbn. rewrite lookup_insert_eq. by eexists.
Qed.
Lemma add_groups (q m : Values) ks :
  NoDup ks -> (forall k, k ∈ ks -> m !! k = None) ->
  (forall k, k ∈ ks -> exists v vs, q !! k = Some (v :: vs)) ->
  forall k, foldl add_pair m (pairs_of q ks) !! k = if decide (k ∈ ks) then q !! k else m !! k.
Proof.
  intros Hnd. revert m. induction Hnd as [|x ks Hx Hnd IH]; intros m Hm Hq k.
  { cbn. rewrite decide_False; [done|]. by intros ?%elem_of_nil. }
  unfold pairs_of. cbn [map concat]. rewrite foldl_app.
  destruct (Hq x) as (v & vs & Ex); [left|]. rewrite Ex. cbn [default].
  rewrite add_values by by left. rewrite Hm by left. cbn [default app]. rewrite IH.
  - destruct (decide (k ∈ ks)) as [Hk|Hk]; [by rewrite decide_True by by right|].
    destruct (decide (k = x)) as [->|Hne].
    + rewrite lookup_insert_eq, decide_True by left. done.
    + rewrite lookup_insert_ne by done. rewrite decide_False; [done|]. by intros [?|?]%elem_of_cons.
  - intros y Hy. rewrite lookup_insert_ne by (by intros ->). apply Hm. by right.
  - intros y Hy. apply Hq. by right.
Qed.

Lemma sorted_keys_spec q k : k ∈ sorted_keys q <-> is_Some (q !! k).
Proof.
  unfold sorted_keys. rewrite sort_by_elem. rewrite list_elem_of_fmap. split.
  - intros ([k' vs] & -> & H%elem_of_map_to_list). by eexists.
  - intros [vs H]. exists (k, vs). split; [done|]. by apply elem_of_map_to_list.
Qed.

(** Encoding and parsing a query is the identity on values. *)
Lemma parse_encode_query (q : Values) :
  (forall k, q !! k <> Some []) -> parse_query (encode_query q) = q.
Proof.
  intros Hq. unfold parse_query. rewrite encode_query_pairs, parse_encoded.
  apply map_eq. intros k. rewrite add_groups.
  - case_decide as Hk; [done|]. rewrite lookup_empty. rewrite sorted_keys_spec in Hk.
    destruct (q !! k); [|done]. destruct Hk. by eexists.
  - unfold sorted_keys. rewrite sort_by_perm. apply NoDup_fst_map_to_list.
  - intros; apply lookup_empty.
  - intros x [[|v vs] E]%sorted_keys_spec; [by destruct (Hq x)|eauto].
Qed.
(** A parsed query has no key without a value. *)
Lemma parse_query_nonempty raw k : parse_query raw !! k <> Some [].
Proof.
  unfold parse_query. generalize (omap parse_pair (split amp raw)). intros ps.
  assert (H : forall m : Values, (forall k, m !! k <> Some []) ->
    forall k, foldl add_pair m ps !! k <> Some []).
  { induction ps as [|[k' v] ps IH]; intros m Hm x; [apply Hm|]. cbn. apply IH.
    intros y. unfold add_pair. cbn. destruct (decide (k' = y)) as [->|Hne].
    - rewrite lookup_insert_eq. by destruct (default [] (m !! y)).
    - by rewrite lookup_insert_ne. }
  by apply H.
Qed.
