(* ===== verification/Route.v ===== *)
(** * How a request names a sandbox (gateway/route.go)

    The two routing schemes, each with both directions: parsing a request and
    rendering the public URLs.  The interface [Router] is a record of the three
    operations; what a resolver knows is a function of the sandbox's id. *)
From S2P Require Import Prelude GoStrings Url.
Open Scope string_scope.

Definition DataPlanePort : Z := 8080.
Definition DefaultPathPrefix : string := "/s".
Definition userPortSegment : string := "p".

Record Route := {
  rt_SandboxID : string;
  rt_Port : Z;
  rt_UserPort : bool;
  rt_Rest : string;
  rt_RawRest : string;
  rt_Prefix : string }.

(** The parts of an [http.Request] the gateway reads; header names are in
    canonical form. *)
Record Request := {
  rq_Method : string;
  rq_Host : string;
  rq_URL : URL;
  rq_Header : gmap string (list string);
  rq_RemoteAddr : string;
  rq_TLS : bool;
  rq_Body : string }.

(** [Exists]; [None] is a nil function. *)
Definition Exists : Type := option (string -> bool).

(** The interface: [None] is [errNoRoute]. *)
Record Router := {
  route_of : Request -> option Route;
  EndpointURL : string -> string;
  PortURL : string -> Z -> string }.

Definition cutSegment (p : string) : string * string :=
  match p with
  | String a p' =>
      if ascii_dec a slash then
        match index_byte p' slash with
        | Some i => (take_string i p', drop_string i p')
        | None => (p', "")
        end
      else ("", p)
  | EmptyString => ("", p)
  end.

Definition data_route (id : string) : Route :=
  {| rt_SandboxID := id; rt_Port := DataPlanePort; rt_UserPort := false;
     rt_Rest := ""; rt_RawRest := ""; rt_Prefix := "" |}.
Definition user_route (id : string) (port : Z) : Route :=
  {| rt_SandboxID := id; rt_Port := port; rt_UserPort := true;
     rt_Rest := ""; rt_RawRest := ""; rt_Prefix := "" |}.

Definition known (exists_ : Exists) (id : string) : bool :=
  match exists_ with None => true | Some f => f id end.
(** The port reading of a label, where it is plausible and the sandbox exists. *)
Definition port_reading (label : string) (exists_ : Exists) : option Route :=
  match last_index_byte label "-"%char with
  | Some (S i) =>
      match atoi (drop_string (S (S i)) label) with
      | Some port =>
          if (0 <? port)%Z && (port <? 65536)%Z then
            let id := take_string (S i) label in
            if known exists_ id then Some (user_route id port) else None
          else None
      | None => None
      end
  | _ => None
  end.

Definition ParseHost (host suffix : string) (exists_ : Exists) : option Route :=
  let host := match index_byte host colon with Some i => take_string i host | None => host end in
  let host := to_lower (trim_suffix host ".") in
  let suffix := to_lower (trim_prefix suffix ".") in
  if negb (has_suffix host ("." +:+ suffix)) then None
  else
    let label := trim_suffix host ("." +:+ suffix) in
    if bool_decide (label = "") || contains_byte label dot then None
    else
      match port_reading label exists_ with
      | Some rt => Some rt
      | None => if negb (known exists_ label) then None else Some (data_route label)
      end.

(** ** Host routing *)

Record HostRouter := {
  hr_Suffix : string;
  hr_Scheme : string;
  hr_Resolver : Exists }.
Definition with_rest (rest raw : string) (rt : Route) : Route :=
  {| rt_SandboxID := rt_SandboxID rt; rt_Port := rt_Port rt; rt_UserPort := rt_UserPort rt;
     rt_Rest := rest; rt_RawRest := raw; rt_Prefix := rt_Prefix rt |}.
Definition HostRouter_Route (h : HostRouter) (r : Request) : option Route :=
  match ParseHost (rq_Host r) (hr_Suffix h) (hr_Resolver h) with
  | None => None
  | Some rt =>
      let rest := u_Path (rq_URL r) in
      if bool_decide (rest = "") then Some (with_rest "/" "/" rt)
      else Some (with_rest rest (EscapedPath (rq_URL r)) rt)
  end.
Definition HostRouter_origin (h : HostRouter) (host : string) : string :=
  if bool_decide (hr_Scheme h = "") then "//" +:+ host else hr_Scheme h +:+ "://" +:+ host.
(** The hostnames of a sandbox. *)
Definition data_host (h : HostRouter) (id : string) : string :=
  id +:+ "." +:+ trim_prefix (hr_Suffix h) ".".
Definition port_host (h : HostRouter) (id : string) (port : Z) : string :=
  id +:+ "-" +:+ itoa port +:+ "." +:+ trim_prefix (hr_Suffix h) ".".
Definition HostRouter_EndpointURL (h : HostRouter) (id : string) : string :=
  HostRouter_origin h (data_host h id).
Definition HostRouter_PortURL (h : HostRouter) (id : string) (port : Z) : string :=
  HostRouter_origin h (port_host h id port) +:+ "/".
Definition host_router (h : HostRouter) : Router :=
  {| route_of := HostRouter_Route h; EndpointURL := HostRouter_EndpointURL h;
     PortURL := HostRouter_PortURL h |}.

(** ** Path routing *)

Record PathRouter := { pa_Prefix : string; pa_Base : string }.
Definition PathRouter_prefix (p : PathRouter) : string :=
  if bool_decide (pa_Prefix p = "") then DefaultPathPrefix
  else "/" +:+ trim_byte slash (pa_Prefix p).

(** The end of [PathRouter.Route]. *)
Definition path_route (id : string) (port : Z) (user : bool) (prefix rest : string) : option Route :=
  match PathUnescape rest with
  | None => None
  | Some dec =>
      Some {| rt_SandboxID := id; rt_Port := port; rt_UserPort := user;
              rt_Rest := dec; rt_RawRest := rest; rt_Prefix := prefix |}
  end.
Definition PathRouter_Route (p : PathRouter) (r : Request) : option Route :=
  let prefix := PathRouter_prefix p in
  let esc := EscapedPath (rq_URL r) in
  if negb (bool_decide (esc = prefix)) && negb (has_prefix esc (prefix +:+ "/")) then None
  else
    let '(id, rest) := cutSegment (trim_prefix esc prefix) in
    if bool_decide (id = "") then None
    else
      let '(head, after) := cutSegment rest in
      if bool_decide (head = userPortSegment) then
        let '(portSeg, tail) := cutSegment after in
        match atoi portSeg with
        | None => None
        | Some port =>
            if (port <=? 0)%Z || (65535 <? port)%Z then None
            else path_route id port true
                   (prefix +:+ "/" +:+ id +:+ "/" +:+ userPortSegment +:+ "/" +:+ portSeg) tail
        end
      else path_route id DataPlanePort false (prefix +:+ "/" +:+ id) rest.
Definition PathRouter_EndpointURL (p : PathRouter) (id : string) : string :=
  trim_suffix (pa_Base p) "/" +:+ PathRouter_prefix p +:+ "/" +:+ id.
Definition PathRouter_PortURL (p : PathRouter) (id : string) (port : Z) : string :=
  PathRouter_EndpointURL p id +:+ "/" +:+ userPortSegment +:+ "/" +:+ itoa port +:+ "/".
Definition path_router (p : PathRouter) : Router :=
  {| route_of := PathRouter_Route p; EndpointURL := PathRouter_EndpointURL p;
     PortURL := PathRouter_PortURL p |}.

(** ** A chain of schemes *)

Fixpoint ChainRouter_Route (c : list Router) (r : Request) : option Route :=
  match c with
  | [] => None
  | router :: c' =>
      match route_of router r with
      | Some rt => Some rt
      | None => ChainRouter_Route c' r
      end
  end.
Definition ChainRouter_EndpointURL (c : list Router) (id : string) : string :=
  match c with [] => "" | router :: _ => EndpointURL router id end.
Definition ChainRouter_PortURL (c : list Router) (id : string) (port : Z) : string :=
  match c with [] => "" | router :: _ => PortURL router id port end.
Definition chain_router (c : list Router) : Router :=
  {| route_of := ChainRouter_Route c; EndpointURL := ChainRouter_EndpointURL c;
     PortURL := ChainRouter_PortURL c |}.

(** ** Lemmas *)

Lemma index_byte_split s c i :
  index_byte s c = Some i ->
  s = take_string i s +:+ drop_string i s /\ no_byte c (take_string i s) /\
  exists t, drop_string i s = String c t.
Proof.
  revert i. induction s as [|a s IH]; cbn; intros i; [done|].
  destruct (ascii_dec a c) as [->|Hne].
  - intros [= <-]. cbn. eauto.
  - destruct (index_byte s c) as [j|]; [|done]. intros [= <-].
    destruct (IH j eq_refl) as (E & Hn & t & Ht). cbn [take_string drop_string String.append].
    split; [by rewrite <-E|]. split; [by split|eauto].
Qed.
(** A cut segment holds no slash, and what is left is empty or starts with one. *)
Lemma cutSegment_spec p seg rest :
  cutSegment p = (seg, rest) ->
  (p = "/" +:+ seg +:+ rest /\ no_byte slash seg /\ (rest = "" \/ exists t, rest = "/" +:+ t)) \/
  (seg = "" /\ rest = p /\ forall t, p <> "/" +:+ t).
Proof.
  unfold cutSegment. destruct p as [|a p].
  { intros [= <- <-]. right. split; [done|]. split; [done|]. by intros [|]. }
  destruct (ascii_dec a slash) as [->|Hne].
  2: { intros [= <- <-]. right. split; [done|]. split; [done|]. intros t [= E _]. by apply Hne. }
  destruct (index_byte p slash) as [i|] eqn:Ei; intros [= <- <-]; left.
  - apply index_byte_split in Ei as (E & Hn & t & Ht).
    split; [rewrite slash_app; by rewrite <-E|]. split; [done|]. right. exists t. by rewrite Ht.
  - apply index_byte_none in Ei. split; [by rewrite app_empty_r|]. split; [done|by left].
Qed.
Lemma cutSegment_app seg rest :
  no_byte slash seg -> rest = "" \/ (exists t, rest = "/" +:+ t) ->
  cutSegment ("/" +:+ seg +:+ rest) = (seg, rest).
Proof.
  intros Hs Hr. rewrite slash_app. unfold cutSegment. destruct (ascii_dec slash slash); [|done].
  destruct Hr as [->|[t ->]].
  - rewrite app_empty_r. by rewrite (proj2 (index_byte_none _ _) Hs).
  - rewrite slash_app, index_byte_app by done.
    by rewrite take_length_app, drop_length_app.
Qed.

Lemma prefix_cases prefix esc :
  esc = prefix \/ has_prefix esc (prefix +:+ "/") = true <->
  exists t, esc = prefix +:+ t /\ (t = "" \/ exists u, t = "/" +:+ u).
Proof.
  split.
  - intros [->|[u ->]%has_prefix_spec]; [exists ""; rewrite app_empty_r; eauto|].
    exists ("/" +:+ u). rewrite app_assoc_str. eauto.
  - intros (t & -> & [->|[u ->]]); [left; by rewrite app_empty_r|right].
    rewrite <-app_assoc_str. apply has_prefix_app.
Qed.

(** What [PathRouter.Route] does behind the routing prefix. *)
Definition path_behind (prefix t : string) : option Route :=
  let '(id, rest) := cutSegment t in
  if bool_decide (id = "") then None
  else
    let '(head, after) := cutSegment rest in
    if bool_decide (head = userPortSegment) then
      let '(portSeg, tail) := cutSegment after in
      match atoi portSeg with
      | None => None
      | Some port =>
          if (port <=? 0)%Z || (65535 <? port)%Z then None
          else path_route id port true
                 (prefix +:+ "/" +:+ id +:+ "/" +:+ userPortSegment +:+ "/" +:+ portSeg) tail
      end
    else path_route id DataPlanePort false (prefix +:+ "/" +:+ id) rest.
Lemma PathRouter_Route_behind p r t :
  EscapedPath (rq_URL r) = PathRouter_prefix p +:+ t -> t = "" \/ (exists u, t = "/" +:+ u) ->
  PathRouter_Route p r = path_behind (PathRouter_prefix p) t.
Proof.
  intros E Ht. unfold PathRouter_Route. rewrite E. cbv zeta.
  destruct (proj2 (prefix_cases (PathRouter_prefix p) (PathRouter_prefix p +:+ t))) as [H|H]; [eauto| |].
  - rewrite (bool_decide_true _ H). cbn [negb andb]. by rewrite trim_prefix_app.
  - rewrite H. cbn [negb]. rewrite andb_false_r. by rewrite trim_prefix_app.
Qed.
Lemma PathRouter_Route_prefix p r rt :
  PathRouter_Route p r = Some rt ->
  exists t, EscapedPath (rq_URL r) = PathRouter_prefix p +:+ t /\ (t = "" \/ exists u, t = "/" +:+ u).
Proof.
  unfold PathRouter_Route. cbv zeta. case_bool_decide as E; cbn [negb andb].
  - intros _. apply prefix_cases. by left.
  - destruct (has_prefix _ _) eqn:Ep; [|done]. intros _. apply prefix_cases. by right.
Qed.

(** Path routing cannot be fooled: the escaped path is exactly the prefix
    that is reported, which names the sandbox in one segment that holds no
    slash, escaped or not as sent, and the raw rest, which decodes to the rest
    and is empty or starts with a slash; the port is 8080 or, after the segment
    [p], the valid port number that the next segment spells. *)
Theorem PathRouter_exact p r rt :
  PathRouter_Route p r = Some rt ->
  EscapedPath (rq_URL r) = rt_Prefix rt +:+ rt_RawRest rt /\
  rt_SandboxID rt <> "" /\ no_byte slash (rt_SandboxID rt) /\
  PathUnescape (rt_RawRest rt) = Some (rt_Rest rt) /\
  (rt_RawRest rt = "" \/ exists t, rt_RawRest rt = "/" +:+ t) /\
  (0 < rt_Port rt <= 65535)%Z /\
  let base := PathRouter_prefix p +:+ "/" +:+ rt_SandboxID rt in
  if rt_UserPort rt then exists seg, no_byte slash seg /\ atoi seg = Some (rt_Port rt) /\
    rt_Prefix rt = base +:+ "/p/" +:+ seg
  else rt_Port rt = DataPlanePort /\ rt_Prefix rt = base.
Proof.
  intros H. destruct (PathRouter_Route_prefix p r rt H) as (t & E & Ht).
  rewrite (PathRouter_Route_behind p r t E Ht) in H. rewrite E. clear E.
  set (prefix := PathRouter_prefix p) in *. unfold path_behind in H.
  destruct (cutSegment t) as [id rest] eqn:E1. case_bool_decide as Hid; [done|].
  apply cutSegment_spec in E1 as [(-> & Hn & Hrest)|[-> _]]; [|done].
  destruct (cutSegment rest) as [head after] eqn:E2. case_bool_decide as Hh.
  - subst head. apply cutSegment_spec in E2 as [(-> & _ & Hafter)|[? _]]; [|done].
    destruct (cutSegment after) as [seg tail] eqn:E3. destruct (atoi seg) as [port|] eqn:Ep; [|done].
    destruct (Z.leb_spec port 0); [done|]. destruct (Z.ltb_spec 65535 port); [done|].
    cbn [orb] in H. unfold path_route in H.
    destruct (PathUnescape tail) as [dec|] eqn:Ed; [|done]. injection H as <-. cbn.
    apply cutSegment_spec in E3 as [(-> & Hs & Htail)|[-> _]]; [|done].
    split; [by rewrite !app_assoc_str; cbn; rewrite ?app_assoc_str|].
    do 4 (split; [done|]). split; [lia|]. exists seg. do 2 (split; [done|]).
    by rewrite !app_assoc_str.
  - unfold path_route in H. destruct (PathUnescape rest) as [dec|] eqn:Ed; [|done].
    injection H as <-. cbn. 
    split; [by rewrite !app_assoc_str; cbn; rewrite ?app_assoc_str|]. by do 5 (split; [done|]).
Qed.

(** A path behind the prefix that names the data plane. *)
Lemma PathRouter_data p r id rest dec :
  id <> "" -> no_byte slash id -> rest = "" \/ (exists t, rest = "/" +:+ t) ->
  PathUnescape rest = Some dec -> fst (cutSegment rest) <> "p" ->
  EscapedPath (rq_URL r) = PathRouter_prefix p +:+ "/" +:+ id +:+ rest ->
  PathRouter_Route p r =
    Some {| rt_SandboxID := id; rt_Port := DataPlanePort; rt_UserPort := false; rt_Rest := dec;
            rt_RawRest := rest; rt_Prefix := PathRouter_prefix p +:+ "/" +:+ id |}.
Proof.
  intros Hid Hns Hr Hd Hp E.
  rewrite (PathRouter_Route_behind p r _ E) by (right; eexists; reflexivity).
  unfold path_behind. rewrite cutSegment_app by done.
  rewrite bool_decide_false by done.
  destruct (cutSegment rest) as [head after]. cbn in Hp. rewrite bool_decide_false by done.
  unfold path_route. by rewrite Hd.
Qed.

Lemma PathRouter_user p r id rest after seg tail port dec :
  id <> "" -> no_byte slash id -> rest = "" \/ (exists t, rest = "/" +:+ t) ->
  cutSegment rest = ("p", after) -> cutSegment after = (seg, tail) -> atoi seg = Some port ->
  (0 < port <= 65535)%Z -> PathUnescape tail = Some dec ->
  EscapedPath (rq_URL r) = PathRouter_prefix p +:+ "/" +:+ id +:+ rest ->
  PathRouter_Route p r =
    Some {| rt_SandboxID := id; rt_Port := port; rt_UserPort := true; rt_Rest := dec; rt_RawRest := tail;
            rt_Prefix := PathRouter_prefix p +:+ "/" +:+ id +:+ "/p/" +:+ seg |}.
Proof.
  intros Hid Hns Hr Hc1 Hc2 Hp Hrange Hd E.
  rewrite (PathRouter_Route_behind p r _ E) by (right; eexists; reflexivity).
  unfold path_behind. rewrite cutSegment_app by done. rewrite bool_decide_false, Hc1 by done.
  rewrite bool_decide_true, Hc2, Hp by done.
  destruct (Z.leb_spec port 0); [lia|]. destruct (Z.ltb_spec 65535 port); [lia|]. cbn [orb].
  unfold path_route. by rewrite Hd.
Qed.

(** Path routing's two directions are inverses: a request for the public URL
    of a port, with anything after it, is routed to that sandbox and port, and
    one for its endpoint to the data plane unless it asks for a port. *)
Theorem PathRouter_inverse p r id dec :
  id <> "" -> no_byte slash id ->
  let origin := trim_suffix (pa_Base p) "/" in
  (forall port tail, (0 < port <= 65535)%Z -> PathUnescape ("/" +:+ tail) = Some dec ->
     origin +:+ EscapedPath (rq_URL r) = PathRouter_PortURL p id port +:+ tail ->
     PathRouter_Route p r =
       Some {| rt_SandboxID := id; rt_Port := port; rt_UserPort := true; rt_Rest := dec;
               rt_RawRest := "/" +:+ tail;
               rt_Prefix := PathRouter_prefix p +:+ "/" +:+ id +:+ "/p/" +:+ itoa port |}) /\
  (forall rest, rest = "" \/ (exists t, rest = "/" +:+ t) -> PathUnescape rest = Some dec ->
     fst (cutSegment rest) <> "p" ->
     origin +:+ EscapedPath (rq_URL r) = PathRouter_EndpointURL p id +:+ rest ->
     PathRouter_Route p r =
       Some {| rt_SandboxID := id; rt_Port := DataPlanePort; rt_UserPort := false; rt_Rest := dec;
               rt_RawRest := rest; rt_Prefix := PathRouter_prefix p +:+ "/" +:+ id |}).
Proof.
  intros Hid Hns. cbv zeta. unfold PathRouter_PortURL, PathRouter_EndpointURL. split.
  - intros port tail Hp Hd E. rewrite !app_assoc_str in E. apply app_inj_l in E.
    rewrite (PathRouter_Route_behind p r _ E) by (right; eexists; reflexivity).
    unfold path_behind. rewrite cutSegment_app by (done || (right; eexists; reflexivity)).
    rewrite bool_decide_false by done.
    rewrite cutSegment_app by (done || (right; eexists; reflexivity)).
    rewrite bool_decide_true by done.
    rewrite cutSegment_app.
    + rewrite atoi_itoa by (unfold in_int64; lia).
      destruct (Z.leb_spec port 0); [lia|]. destruct (Z.ltb_spec 65535 port); [lia|].
      unfold path_route. by rewrite Hd.
    + apply itoa_no_byte; [done|lia].
    + right. by eexists.
  - intros rest Hr Hd Hp E. rewrite !app_assoc_str in E. apply app_inj_l in E.
    by apply PathRouter_data.
Qed.

(** ** Hostnames *)

Lemma snoc_inj s t a b : s +:+ String a "" = t +:+ String b "" -> a = b.
Proof.
  revert t. induction s as [|x s IH]; intros [|y t]; cbn; intros E.
  - by injection E.
  - injection E as _ E. by destruct t.
  - injection E as _ E. by destruct s.
  - injection E as _ E. by eapply IH.
Qed.
Lemma to_lower_app s t : to_lower (s +:+ t) = to_lower s +:+ to_lower t.
Proof. induction s as [|a s IH]; cbn; [done|]. by rewrite IH. Qed.
Lemma to_lower_no_upper c s :
  (forall a, lower_ascii a = c -> a = c) -> no_byte c s -> no_byte c (to_lower s).
Proof.
  intros Hc. induction s as [|a s IH]; cbn; [done|]. intros [Ha Hs]. split; [|by apply IH].
  intros E. by apply Ha, Hc.
Qed.
Lemma digit_lower n : (0 <= n < 10)%Z -> lower_ascii (digit n) = digit n.
Proof.
  intros Hn. rewrite <-(Z2Nat.id n) in * by lia. revert Hn. generalize (Z.to_nat n). intros k Hk.
  do 10 (destruct k as [|k]; [done|]). lia.
Qed.
Lemma digits_lower fuel n t : to_lower (digits fuel n t) = digits fuel n (to_lower t).
Proof.
  revert n t. induction fuel as [|fuel IH]; intros n t; cbn; [done|].
  destruct (n <=? 0)%Z eqn:E; [done|]. rewrite IH. cbn. f_equal. f_equal.
  apply digit_lower. by apply Z.mod_pos_bound.
Qed.
Lemma itoa_lower n : (0 <= n)%Z -> to_lower (itoa n) = itoa n.
Proof.
  intros Hn. unfold itoa. destruct (Z.eqb_spec n 0); [done|].
  destruct (Z.ltb_spec n 0); [lia|]. apply digits_lower.
Qed.

(** The label a rendered host is reduced to. *)
Lemma ParseHost_label label suffix exists_ s0 c :
  trim_prefix suffix "." = s0 +:+ String c "" -> c <> dot -> no_byte colon (s0 +:+ String c "") ->
  to_lower label = label -> label <> "" -> no_byte dot label -> no_byte colon label ->
  ParseHost (label +:+ "." +:+ trim_prefix suffix ".") suffix exists_ =
    match port_reading label exists_ with
    | Some rt => Some rt
    | None => if negb (known exists_ label) then None else Some (data_route label)
    end.
Proof.
  intros Hsfx Hc Hcol Hl Hne Hd Hlc. unfold ParseHost. rewrite Hsfx.
  set (sfx := s0 +:+ String c "") in *.
  assert (Hnc : no_byte colon (label +:+ "." +:+ sfx)).
  { rewrite no_byte_app. split; [done|]. split; [done|exact Hcol]. }
  rewrite (proj2 (index_byte_none _ _) Hnc). cbv zeta.
  assert (Hs : has_suffix (label +:+ "." +:+ sfx) "." = false).
  { destruct (has_suffix _ _) eqn:E; [|done]. apply has_suffix_spec in E as [t E].
    unfold sfx in E. rewrite <-!app_assoc_str in E. by apply snoc_inj in E. }
  assert (Ht : trim_suffix (label +:+ "." +:+ sfx) "." = label +:+ "." +:+ sfx).
  { unfold trim_suffix. by rewrite Hs. }
  rewrite Ht, !to_lower_app, Hl. change (to_lower ".") with ".".
  rewrite (proj2 (has_suffix_spec _ _)) by (by eexists).
  cbn [negb]. rewrite trim_suffix_app. rewrite (bool_decide_false _ Hne).
  unfold contains_byte. by rewrite (proj2 (index_byte_none _ _) Hd).
Qed.

(** The ids the control plane makes: ["sbx-"] and sixteen base-32 characters. *)
Definition base32 : string := "abcdefghijklmnopqrstuvwxyz234567".
Fixpoint all_in (set s : string) : bool :=
  match s with EmptyString => true | String a s' => one_of a set && all_in set s' end.
Definition generated_id (id : string) : Prop :=
  exists s, id = "sbx-" +:+ s /\ all_in base32 s = true /\ String.length s = 16%nat.

Lemma all_in_no_byte set c s : one_of c set = false -> all_in set s = true -> no_byte c s.
Proof.
  intros Hc. induction s as [|a s IH]; cbn; [done|]. intros [Ha Hs]%andb_prop.
  split; [intros ->; congruence|by apply IH].
Qed.
Lemma parse_digits_ge acc s n :
  (0 <= acc)%Z -> parse_digits acc s = Some n -> (acc * 10 ^ Z.of_nat (String.length s) <= n)%Z.
Proof.
  revert acc. induction s as [|a s IH]; intros acc Hacc; cbn -[Z.of_nat Z.pow].
  - intros [= ->]. cbn. lia.
  - destruct (digit_val a) as [d|] eqn:Ed; [|done]. intros H.
    assert (0 <= d)%Z.
    { unfold digit_val in Ed. destruct (_ && _) eqn:E; [|done]. injection Ed as <-.
      apply andb_prop in E as [E _]. apply Z.leb_le in E. lia. }
    apply IH in H; [|lia]. rewrite Nat2Z.inj_succ, Z.pow_succ_r by lia.
    etrans; [|exact H]. rewrite Z.mul_assoc. apply Z.mul_le_mono_nonneg_r; [|lia].
    apply Z.pow_nonneg. lia.
Qed.
(** Such an id is never read as another id and a port. *)
Lemma generated_no_port id exists_ : generated_id id -> port_reading id exists_ = None.
Proof.
  intros (s & -> & Hs & Hlen). unfold port_reading.
  change ("sbx-" +:+ s) with ("sbx" +:+ String "-" s).
  rewrite last_index_byte_app by by apply (all_in_no_byte base32).
  change (String.length "sbx") with 3%nat. cbv iota beta.
  change (drop_string 4 ("sbx" +:+ String "-" s)) with s.
  destruct s as [|a s]; [done|]. cbn [all_in] in Hs.
  apply andb_prop in Hs as [Ha Hs]. unfold atoi.
  destruct (ascii_dec a "-") as [->|_]; [done|]. destruct (ascii_dec a "+") as [->|_]; [done|].
  cbn [parse_digits]. destruct (digit_val a) as [d|] eqn:Ed; [|done].
  assert (Hd : (2 <= d)%Z).
  { assert (H := all_bytes_spec (fun a => negb (one_of a base32) ||
      match digit_val a with Some d => (2 <=? d)%Z | None => true end)
      ltac:(vm_compute; reflexivity) a).
    cbv beta in H. rewrite Ha, Ed in H. by apply Z.leb_le. }
  destruct (parse_digits _ s) as [n|] eqn:En; [|done].
  apply parse_digits_ge in En; [|lia]. cbn in Hlen. injection Hlen as Hlen. rewrite Hlen in En.
  assert (65536 <= n)%Z.
  { etrans; [|exact En]. change (10 ^ Z.of_nat 15)%Z with 1000000000000000%Z. lia. }
  destruct (_ && _); [|done]. destruct (Z.ltb_spec 0 n), (Z.ltb_spec n 65536); cbn [andb]; done || lia.
Qed.

(** The rendered hostname of a sandbox names its data plane. *)
Lemma HostRouter_data h r id s0 c :
  trim_prefix (hr_Suffix h) "." = s0 +:+ String c "" -> c <> dot ->
  no_byte colon (s0 +:+ String c "") ->
  to_lower id = id -> id <> "" -> no_byte dot id -> no_byte colon id ->
  known (hr_Resolver h) id = true ->
  port_reading id (hr_Resolver h) = None \/ generated_id id -> rq_Host r = data_host h id ->
  ParseHost (rq_Host r) (hr_Suffix h) (hr_Resolver h) = Some (data_route id).
Proof.
  intros Hsfx Hc Hcol Hl Hne Hd Hlc Hk Hp E. rewrite E. unfold data_host.
  rewrite (ParseHost_label _ _ _ s0 c) by done.
  assert (Hn : port_reading id (hr_Resolver h) = None).
  { destruct Hp; [done|by apply generated_no_port]. }
  by rewrite Hn, Hk.
Qed.

(** Host routing's two directions are inverses: the rendered hostname of a
    port is routed to that sandbox and port, and the rendered hostname of a
    sandbox to its data plane, which is unambiguous for every id the control
    plane makes. *)
Theorem HostRouter_inverse h r id s0 c :
  trim_prefix (hr_Suffix h) "." = s0 +:+ String c "" -> c <> dot ->
  no_byte colon (s0 +:+ String c "") ->
  to_lower id = id -> id <> "" -> no_byte dot id -> no_byte colon id ->
  known (hr_Resolver h) id = true ->
  (forall port, (0 < port < 65536)%Z -> rq_Host r = port_host h id port ->
     exists rest raw, HostRouter_Route h r = Some (with_rest rest raw (user_route id port))) /\
  (port_reading id (hr_Resolver h) = None \/ generated_id id -> rq_Host r = data_host h id ->
     exists rest raw, HostRouter_Route h r = Some (with_rest rest raw (data_route id))).
Proof.
  intros Hsfx Hc Hcol Hl Hne Hd Hlc Hk.
  assert (Hrest : forall rt,
    ParseHost (rq_Host r) (hr_Suffix h) (hr_Resolver h) = Some rt ->
    exists rest raw, HostRouter_Route h r = Some (with_rest rest raw rt)).
  { intros rt E. unfold HostRouter_Route. rewrite E. cbv zeta. case_bool_decide; eauto. }
  split.
  - intros port Hp E. apply Hrest. rewrite E. unfold port_host.
    set (n := itoa port).
    assert (Hn : forall b, digit_val b = None -> no_byte b n) by (intros; apply itoa_no_byte; [done|lia]).
    replace (id +:+ "-" +:+ n +:+ "." +:+ trim_prefix (hr_Suffix h) ".")
      with ((id +:+ "-" +:+ n) +:+ "." +:+ trim_prefix (hr_Suffix h) ".") by by rewrite !app_assoc_str.
    rewrite (ParseHost_label _ _ _ s0 c); [|done|done|done| | | |].
    + unfold port_reading. change ("-" +:+ n) with (String "-" n).
      rewrite last_index_byte_app by by apply Hn.
      destruct id as [|a id']; [done|]. cbn [String.length].
      replace (S (S (String.length id'))) with (String.length (String a id') + 1)%nat by (cbn; lia).
      assert (Edrop : drop_string (String.length (String a id') + 1) (String a id' +:+ String "-" n) = n).
      { clear. generalize (String a id'). intros s. induction s as [|x s IH]; [done|exact IH]. }
      rewrite Edrop. unfold n. rewrite atoi_itoa by (unfold in_int64; lia).
      destruct (Z.ltb_spec 0 port); [|lia]. destruct (Z.ltb_spec port 65536); [|lia]. cbn [andb].
      change (S (String.length id')) with (String.length (String a id')).
      rewrite take_length_app, Hk. done.
    + rewrite !to_lower_app, Hl. unfold n. by rewrite itoa_lower by lia.
    + by destruct id.
    + rewrite !no_byte_app. split; [done|]. split; [done|by apply Hn].
    + rewrite !no_byte_app. split; [done|]. split; [done|by apply Hn].
  - intros Hp E. apply Hrest. by apply (HostRouter_data h r id s0 c).
Qed.

(** ** Witnesses *)

Definition wit_url (path : string) : URL := {| u_Path := path; u_RawPath := ""; u_RawQuery := "" |}.
Definition wit_request (host path : string) : Request :=
  {| rq_Method := "GET"; rq_Host := host; rq_URL := wit_url path; rq_Header := ∅;
     rq_RemoteAddr := "10.1.2.3:999"; rq_TLS := true; rq_Body := "" |}.
Definition wit_path_router : PathRouter := {| pa_Prefix := ""; pa_Base := "https://api.example.com" |}.
Definition wit_host_router : HostRouter :=
  {| hr_Suffix := "Sbx.example.com"; hr_Scheme := "https"; hr_Resolver := None |}.
Definition wit_id : string := "sbx-abcdefgh23456723".

Lemma PathRouter_exact_wit : exists rt,
  PathRouter_Route wit_path_router (wit_request "api.example.com" "/s/sbx-1/p/8000/a b") = Some rt /\
  rt_Port rt = 8000%Z /\ rt_RawRest rt = "/a%20b" /\ rt_Prefix rt = "/s/sbx-1/p/8000" /\
  no_byte slash (rt_SandboxID rt).
Proof.
  eexists. assert (E : PathRouter_Route wit_path_router
    (wit_request "api.example.com" "/s/sbx-1/p/8000/a b") = Some _) by (vm_compute; reflexivity).
  split; [exact E|]. split; [reflexivity|]. split; [reflexivity|]. split; [reflexivity|].
  exact (proj1 (proj2 (proj2 (PathRouter_exact _ _ _ E)))).
Defined.
Lemma PathRouter_inverse_wit :
  PathRouter_PortURL wit_path_router "sbx-1" 8000 = "https://api.example.com/s/sbx-1/p/8000/" /\
  exists rt, PathRouter_Route wit_path_router (wit_request "api.example.com" "/s/sbx-1/p/8000/x")
    = Some rt /\ rt_UserPort rt = true /\ rt_SandboxID rt = "sbx-1".
Proof.
  split; [vm_compute; reflexivity|]. eexists. split.
  - apply (PathRouter_inverse wit_path_router (wit_request "api.example.com" "/s/sbx-1/p/8000/x")
             "sbx-1" "/x") with (port := 8000%Z) (tail := "x").
    + discriminate.
    + repeat split; discriminate.
    + lia.
    + vm_compute. reflexivity.
    + vm_compute. reflexivity.
  - split; reflexivity.
Defined.
Lemma HostRouter_inverse_wit :
  generated_id wit_id /\ port_host wit_host_router wit_id 8000 = "sbx-abcdefgh23456723-8000.Sbx.example.com" /\
  exists rest raw,
    HostRouter_Route wit_host_router (wit_request (data_host wit_host_router wit_id) "/v1/exec")
      = Some (with_rest rest raw (data_route wit_id)).
Proof.
  split; [exists "abcdefgh23456723"; vm_compute; auto|]. split; [vm_compute; reflexivity|].
  apply (HostRouter_inverse wit_host_router
           (wit_request (data_host wit_host_router wit_id) "/v1/exec") wit_id "Sbx.example.co" "m").
  - reflexivity.
  - discriminate.
  - cbn. repeat split; discriminate.
  - reflexivity.
  - discriminate.
  - cbn. repeat split; discriminate.
  - cbn. repeat split; discriminate.
  - reflexivity.
  - right. exists "abcdefgh23456723". vm_compute. auto.
  - reflexivity.
Defined.
