(* ===== verification/Mux.v ===== *)
(** * Patterns of net/http's ServeMux, as the servers use them

    A pattern is a method and a path of literal segments and wildcards; a
    request is first sent to its clean path, then to the first pattern that
    matches it (no two of a server's patterns overlap). *)
From S2P Require Import Prelude GoStrings Url Route.
Open Scope string_scope.

(** A wildcard, whatever its name. *)
Definition wildcard : string := "{}".
(** A wildcard matches one segment that is not empty. *)
Fixpoint match_path (pattern segs : list string) (found : string) : option string :=
  match pattern, segs with
  | [], [] => Some found
  | p :: pattern', s :: segs' =>
      if bool_decide (p = wildcard)
      then (if bool_decide (s = "") then None else match_path pattern' segs' s)
      else if bool_decide (p = s) then match_path pattern' segs' found else None
  | _, _ => None
  end.
(** A GET pattern also matches HEAD. *)
Definition match_method (pattern method : string) : bool :=
  bool_decide (pattern = method) ||
  (bool_decide (pattern = "GET") && bool_decide (method = "HEAD")).
Definition segments_of (escaped : string) : list string :=
  map (fun s => default s (PathUnescape s)) (split slash (drop_string 1 escaped)).
Definition path_segments (r : Request) : list string := segments_of (EscapedPath (rq_URL r)).
Definition cleanPath (p : string) : string :=
  if bool_decide (p = "") then "/" else
  let p := if has_prefix p "/" then p else "/" +:+ p in
  let np := clean p in
  if has_suffix p "/" && negb (bool_decide (np = "/")) then np +:+ "/" else np.
(** Whether the request is served where it is; it is redirected otherwise. *)
Definition canonical_path (r : Request) : bool :=
  bool_decide (rq_Method r = "CONNECT") ||
  bool_decide (cleanPath (EscapedPath (rq_URL r)) = EscapedPath (rq_URL r)).

(** What a mux makes of a request. *)
Inductive Dispatch (H : Type) := DRedirect (path : string) | DFound (h : H) (found : string) | DWrongMethod | DUnknown.
Arguments DRedirect {H} path.
Arguments DFound {H} h found.
Arguments DWrongMethod {H}.
Arguments DUnknown {H}.
Fixpoint find_route {H} (routes : list (string * list string * H)) (method : string) (segs : list string)
    : option (H * string) :=
  match routes with
  | [] => None
  | (m, pattern, h) :: routes' =>
      if match_method m method then
        match match_path pattern segs "" with
        | Some found => Some (h, found)
        | None => find_route routes' method segs
        end
      else find_route routes' method segs
  end.
Definition dispatch_to {H} (routes : list (string * list string * H)) (r : Request) : Dispatch H :=
  if negb (canonical_path r) then DRedirect (cleanPath (EscapedPath (rq_URL r)))
  else
    match find_route routes (rq_Method r) (path_segments r) with
    | Some (h, found) => DFound h found
    | None =>
        if existsb (fun e => match match_path (snd (fst e)) (path_segments r) "" with Some _ => true | None => false end) routes
        then DWrongMethod else DUnknown
    end.

Lemma find_route_found {H} (routes : list (string * list string * H)) method segs :
  is_Some (find_route routes method segs) <->
  exists m pattern h, (m, pattern, h) ∈ routes /\ match_method m method = true /\
    is_Some (match_path pattern segs "").
Proof.
  induction routes as [|[[m pattern] h] routes IH]; cbn [find_route].
  { split; [by intros []|]. by intros (? & ? & ? & ?%elem_of_nil & _). }
  split.
  - destruct (match_method m method) eqn:Em; [destruct (match_path pattern segs "") eqn:Ep|].
    + intros _. exists m, pattern, h. split; [left|]. rewrite Ep. eauto.
    + intros (m' & p' & h' & Hin & ?)%IH. exists m', p', h'. split; [by right|done].
    + intros (m' & p' & h' & Hin & ?)%IH. exists m', p', h'. split; [by right|done].
  - intros (m' & p' & h' & [[= -> -> ->]|Hin]%elem_of_cons & Hm & Hp).
    + rewrite Hm. destruct Hp as [f ->]. eauto.
    + assert (is_Some (find_route routes method segs)) by (apply IH; eauto 10).
      destruct (match_method m method); [destruct (match_path pattern segs "")|]; eauto.
Qed.
