(* ===== verification/Gateway.v ===== *)
(** * The gateway's server and transports (gateway/server.go, transport.go)

    Who may reach which sandbox ([Server.route]), what travels into it
    ([presentToken] and the two transports), the resolver's cache, the port
    URLs, and the repair of cookies under path routing.

    The mux in front of [route], the hook on answers and [rewriteLocation] are
    in Location.v.  The reverse proxy itself ([httputil.ReverseProxy]) and the
    JSON codec are not modelled; what a request is proxied with is the outbound
    request the [Rewrite] hook leaves. *)
From S2P Require Import Prelude GoStrings Api Crd Url Route.
Open Scope string_scope.

(** ** Headers *)

Abbreviation Header := (gmap string (list string)).
Definition header_get (h : Header) (k : string) : string :=
  match h !! k with Some (v :: _) => v | _ => "" end.
Definition header_set (k v : string) (h : Header) : Header := <[k := [v]]> h.
Definition header_del (k : string) (h : Header) : Header := base.delete k h.
Definition header_add (k v : string) (h : Header) : Header :=
  <[k := (default [] (h !! k) ++ [v])%list]> h.

(** ** Targets and the resolver's cache *)

Record Target := {
  tg_SandboxID : string;
  tg_Namespace : string;
  tg_PodName : string;
  tg_PodIP : string;
  tg_TenantID : string;
  tg_Token : string;
  tg_ExpiresAt : Time;
  tg_Phase : string }.
Definition no_target : Target :=
  {| tg_SandboxID := ""; tg_Namespace := ""; tg_PodName := ""; tg_PodIP := "";
     tg_TenantID := ""; tg_Token := ""; tg_ExpiresAt := 0%Z; tg_Phase := "" |}.

Record cached := { ca_target : Target; ca_at : Time }.
Record CachedResolver := { cr_TTL : Z; cr_cache : gmap string cached }.
Definition NewCachedResolver : CachedResolver := {| cr_TTL := 2 * second; cr_cache := ∅ |}.
Definition cr_store (id : string) (t : Target) (now : Time) (c : CachedResolver) : CachedResolver :=
  {| cr_TTL := cr_TTL c; cr_cache := <[id := {| ca_target := t; ca_at := now |}]> (cr_cache c) |}.
Definition target_of (id : string) (s : Sandbox) : Target :=
  {| tg_SandboxID := id;
     tg_Namespace := om_Namespace (sbx_Meta s);
     tg_PodName := ss_PodName (sbx_Status s);
     tg_PodIP := ss_PodIP (sbx_Status s);
     tg_TenantID := label (sbx_Meta s) LabelTenant;
     tg_Token := ss_Token (sbx_Status s);
     tg_ExpiresAt := default 0%Z (ss_ExpiresAt (sbx_Status s));
     tg_Phase := ss_Phase (sbx_Status s) |}.
Definition has_ip (t : Target) : bool := negb (bool_decide (tg_PodIP t = "")).
(** [Resolve]: [now] when the cache is looked up, [listed] what the informer
    answers if asked, [now'] when its answer is stored. *)
Definition CachedResolver_Resolve {E} (c : CachedResolver) (id : string) (now : Time)
    (listed : result E (list Sandbox)) (now' : Time) : Target * bool * CachedResolver :=
  let miss :=
    match listed with
    | Err _ => (no_target, false, c)
    | Ok [] => (no_target, false, cr_store id no_target now' c)
    | Ok (s :: _) =>
        let t := target_of id s in (t, has_ip t, cr_store id t now' c)
    end in
  match cr_cache c !! id with
  | Some e =>
      if (now - ca_at e <? cr_TTL c)%Z then (ca_target e, has_ip (ca_target e), c) else miss
  | None => miss
  end.

(** ** Transports *)

(** The outbound request the hook works on. *)
Record Outbound := {
  ob_Origin : string;
  ob_Host : string;
  ob_URL : URL;
  ob_Header : Header }.
Definition on_header (f : Header -> Header) (o : Outbound) : Outbound :=
  {| ob_Origin := ob_Origin o; ob_Host := ob_Host o; ob_URL := ob_URL o;
     ob_Header := f (ob_Header o) |}.
Definition set_paths (path raw : string) (o : Outbound) : Outbound :=
  {| ob_Origin := ob_Origin o; ob_Host := ob_Host o;
     ob_URL := {| u_Path := path; u_RawPath := raw; u_RawQuery := u_RawQuery (ob_URL o) |};
     ob_Header := ob_Header o |}.
Definition set_raw_query (q : string) (o : Outbound) : Outbound :=
  {| ob_Origin := ob_Origin o; ob_Host := ob_Host o;
     ob_URL := {| u_Path := u_Path (ob_URL o); u_RawPath := u_RawPath (ob_URL o); u_RawQuery := q |};
     ob_Header := ob_Header o |}.
(** [pr.SetURL]: the paths are overwritten by every caller. *)
Definition set_origin (origin host : string) (o : Outbound) : Outbound :=
  {| ob_Origin := origin; ob_Host := host; ob_URL := ob_URL o; ob_Header := ob_Header o |}.

Definition presentToken (t : Target) (rt : Route) (set : string -> Outbound -> Outbound)
    (o : Outbound) : Outbound :=
  let o := on_header (header_del "Authorization") o in
  let o := on_header (header_del ControlTokenHeader) o in
  let q := parse_query (u_RawQuery (ob_URL o)) in
  let o := match q !! "token" with
           | Some _ => set_raw_query (encode_query (base.delete "token" q)) o
           | None => o
           end in
  if rt_UserPort rt || bool_decide (tg_Token t = "") then o else set (tg_Token t) o.

Inductive Transport := DirectTransport | APIProxyTransport (base : string).
Definition DirectTransport_Reachable (t : Target) : option string :=
  if bool_decide (tg_PodIP t = "")
  then Some ("sandbox " +:+ tg_SandboxID t +:+ " has no Pod IP yet") else None.
Definition APIProxyTransport_Reachable (t : Target) : option string :=
  if bool_decide (tg_Namespace t = "") || bool_decide (tg_PodName t = "")
  then Some ("sandbox " +:+ tg_SandboxID t +:+ " is not bound to a named Pod yet") else None.
Definition Reachable (tr : Transport) (t : Target) : option string :=
  match tr with
  | DirectTransport => DirectTransport_Reachable t
  | APIProxyTransport _ => APIProxyTransport_Reachable t
  end.
Definition DirectTransport_Rewrite (inHost : string) (t : Target) (rt : Route) (o : Outbound)
  : Outbound :=
  let o := set_origin ("http://" +:+ JoinHostPort (tg_PodIP t) (itoa (rt_Port rt))) inHost o in
  let o := set_paths (rt_Rest rt) (rt_RawRest rt) o in
  presentToken t rt
    (fun token => on_header (header_set "Authorization" ("Bearer " +:+ token))) o.
Definition APIProxyTransport_Rewrite (base : string) (t : Target) (rt : Route) (o : Outbound)
  : Outbound :=
  let prefix := "/api/v1/namespaces/" +:+ tg_Namespace t +:+ "/pods/http:" +:+ tg_PodName t
    +:+ ":" +:+ itoa (rt_Port rt) +:+ "/proxy" in
  let o := set_origin base "" o in
  let o := set_paths (prefix +:+ rt_Rest rt) (prefix +:+ rt_RawRest rt) o in
  presentToken t rt (fun token => on_header (header_set ControlTokenHeader token)) o.
Definition Rewrite (tr : Transport) (inHost : string) (t : Target) (rt : Route) (o : Outbound)
  : Outbound :=
  match tr with
  | DirectTransport => DirectTransport_Rewrite inHost t rt o
  | APIProxyTransport base => APIProxyTransport_Rewrite base t rt o
  end.

(** What [NewAPIProxyTransport] reads of a [rest.Config]. *)
Record RestConfig := {
  rc_Host : string;
  rc_CAFile : string;
  rc_CAData : string;
  rc_CertFile : string;
  rc_CertData : string;
  rc_Insecure : bool }.
(** A server's address: its scheme and host, and a path. *)
Record ServerURL := { su_Origin : string; su_Path : string }.
Definition api_host (cfg : RestConfig) : string :=
  if bool_decide (rc_Host cfg = "") then "localhost" else rc_Host cfg.
Definition defaultTLS (cfg : RestConfig) : bool :=
  negb (Nat.eqb (String.length (rc_CAFile cfg)) 0) || negb (Nat.eqb (String.length (rc_CAData cfg)) 0) ||
  negb (Nat.eqb (String.length (rc_CertFile cfg)) 0) || negb (Nat.eqb (String.length (rc_CertData cfg)) 0) ||
  rc_Insecure cfg.
(** [url] is client-go's [DefaultServerURL], [rt] its [TransportFor].  Of the
    address only the origin is kept: the rewrite replaces the path. *)
Definition NewAPIProxyTransport {R} (url : string -> bool -> result string ServerURL)
    (rt : RestConfig -> result string R) (cfg : RestConfig) : result string (Transport * R) :=
  match url (api_host cfg) (defaultTLS cfg) with
  | Err e => Err ("reading the API server address: " +:+ e)
  | Ok base =>
      match rt cfg with
      | Err e => Err ("building the API server transport: " +:+ e)
      | Ok tr => Ok (APIProxyTransport (su_Origin base), tr)
      end
  end.
Definition RoundTripper {R} (tr : Transport) (rt : option R) : option R :=
  match tr with DirectTransport => None | APIProxyTransport _ => rt end.

(** ** The server *)

Record Caller := { cl_TenantID : string; cl_MayUse : bool }.

(** Why a caller is turned away; [Denied] carries the authenticator's error. *)
Inductive AuthError (E : Type) :=
| NoAuthenticator
| Forbidden
| Denied (e : E).
Arguments NoAuthenticator {E}.
Arguments Forbidden {E}.
Arguments Denied {E} e.

Inductive Answer (E : Type) :=
| AError (status : Z) (code msg : string)
| ADeny (e : E)
| ARedirect (status : Z) (url : string)
| AExposed (port : Z) (url : string)
| AProxied (target : Target) (rt : Route) (out : Outbound).
Arguments AError {E} status code msg.
Arguments ADeny {E} e.
Arguments ARedirect {E} status url.
Arguments AExposed {E} port url.
Arguments AProxied {E} target rt out.

Record Server (E : Type) := {
  sv_Resolver : string -> Target * bool;
  sv_Router : option Router;
  sv_Suffix : string;
  sv_Transport : option Transport;
  sv_Auth : option (string -> string -> result E Caller) }.
Arguments sv_Resolver {E}.
Arguments sv_Router {E}.
Arguments sv_Suffix {E}.
Arguments sv_Transport {E}.
Arguments sv_Auth {E}.

Definition portsPath : string := "/v1/ports".

Definition bearer (r : Request) : string :=
  let h := header_get (rq_Header r) "Authorization" in
  if (7 <? String.length h)%nat && bool_decide (take_string 7 h = "Bearer ") then drop_string 7 h
  else query_get (parse_query (u_RawQuery (rq_URL r))) "token".
Definition clientIP (r : Request) : string :=
  match SplitHostPort (rq_RemoteAddr r) with Some (host, _) => host | None => rq_RemoteAddr r end.
Definition scheme (r : Request) : string :=
  let p := header_get (rq_Header r) "X-Forwarded-Proto" in
  if negb (bool_decide (p = "")) then p
  else if rq_TLS r then "https" else "http".
Definition absolute (r : Request) (ref : string) : string :=
  if contains_string ref "://" then ref
  else if has_prefix ref "//" then scheme r +:+ ":" +:+ ref
  else scheme r +:+ "://" +:+ rq_Host r +:+ ref.

Section Server.
Context {E : Type}.
(** The JSON decoder of [exposeRequest]: an error text, or the port. *)
Context (decode_expose : string -> result string Z).
Context (s : Server E).

Definition transport : Transport := default DirectTransport (sv_Transport s).
Definition router : Router :=
  match sv_Router s with
  | Some r => r
  | None => host_router {| hr_Suffix := sv_Suffix s; hr_Scheme := "";
                           hr_Resolver := Some (fun id => snd (sv_Resolver s id)) |}
  end.

Definition authenticate (r : Request) : result (AuthError E) Caller :=
  match sv_Auth s with
  | None => Err NoAuthenticator
  | Some verify =>
      match verify (bearer r) (clientIP r) with
      | Err e => Err (Denied e)
      | Ok caller => if negb (cl_MayUse caller) then Err Forbidden else Ok caller
      end
  end.
Definition denied (e : AuthError E) : Answer E :=
  match e with
  | Forbidden => AError 403 "forbidden" "this API key may not use this sandbox"
  | Denied e => ADeny e
  | NoAuthenticator => AError 401 "unauthorized" "an API key is required"
  end.

Definition exposePort (r : Request) (rt : Route) : Answer E :=
  match decode_expose (rq_Body r) with
  | Err msg => AError 400 "invalid_body" msg
  | Ok port =>
      if (port <=? 0)%Z || (65535 <? port)%Z then
        AError 400 "invalid_port" "port must be between 1 and 65535"
      else if (port =? DataPlanePort)%Z then
        AError 400 "reserved_port"
          "port 8080 is the sandbox's own data plane and is reached at the endpoint itself"
      else AExposed port (absolute r (PortURL router (rt_SandboxID rt) port))
  end.

(** The [Rewrite] hook: [o] is the outbound request the proxy starts from. *)
Definition rewrite_hook (r : Request) (t : Target) (rt : Route) (o : Outbound) : Outbound :=
  let o := Rewrite transport (rq_Host r) t rt o in
  let o := match SplitHostPort (rq_RemoteAddr r) with
           | Some (ip, _) => on_header (header_set "X-Forwarded-For" ip) o
           | None => o
           end in
  let o := on_header (header_set "X-Forwarded-Proto" "https") o in
  if negb (bool_decide (rt_Prefix rt = ""))
  then on_header (header_set "X-Forwarded-Prefix" (rt_Prefix rt)) o
  else on_header (header_del "X-Forwarded-Prefix") o.

Definition unknown_sandbox : Answer E :=
  AError 404 "unknown_sandbox" "this URL does not correspond to a running sandbox".

(** [Server.route] at the time [now]; [o] is what the reverse proxy would start
    the outbound request from. *)
Definition serve_route (now : Time) (r : Request) (o : Outbound) : Answer E :=
  match authenticate r with
  | Err e => denied e
  | Ok caller =>
      match route_of router r with
      | None => unknown_sandbox
      | Some rt =>
          let '(target, ok) := sv_Resolver s (rt_SandboxID rt) in
          if negb ok then unknown_sandbox
          else if bool_decide (tg_TenantID target = "") ||
                  negb (bool_decide (cl_TenantID caller = tg_TenantID target))
          then denied Forbidden
          else if negb (is_zero_time (tg_ExpiresAt target)) && after now (tg_ExpiresAt target)
          then AError 410 "expired" "this sandbox has expired"
          else if negb (bool_decide (rt_Prefix rt = "")) && bool_decide (rt_Rest rt = "") then
            ARedirect 301 (rt_Prefix rt +:+ "/" +:+
              (if negb (bool_decide (u_RawQuery (rq_URL r) = ""))
               then "?" +:+ u_RawQuery (rq_URL r) else ""))
          else if negb (rt_UserPort rt) && bool_decide (rq_Method r = "POST") &&
                  bool_decide (rt_Rest rt = portsPath)
          then exposePort r rt
          else
            match Reachable transport target with
            | Some msg => AError 502 "sandbox_unreachable" msg
            | None => AProxied target rt (rewrite_hook r target rt o)
            end
      end
  end.
End Server.

(** ** Cookies under path routing *)

Definition named_path (part : string) : bool :=
  let '(name, _, _) := cut part equals_sign in equal_fold (trim_space name) "path".
(** The new Path attribute in the place of [part]. *)
Definition scoped_part (part prefix : string) : string :=
  let '(_, value, _) := cut part equals_sign in
  let p := trim_space value in
  let p := if negb (has_prefix p "/") then "/" +:+ p else p in
  " Path=" +:+ prefix +:+ p.
(** The loop: [None] where no part is a Path attribute. *)
Fixpoint scope_parts (parts : list string) (prefix : string) : option (list string) :=
  match parts with
  | [] => None
  | part :: parts' =>
      if negb (named_path part) then option_map (cons part) (scope_parts parts' prefix)
      else Some (scoped_part part prefix :: parts')
  end.
Definition scopeCookie (cookie prefix : string) : string :=
  match split semicolon cookie with
  | [] => cookie +:+ "; Path=" +:+ prefix +:+ "/"
  | first :: parts =>
      match scope_parts parts prefix with
      | Some parts => join ";" (first :: parts)
      | None => cookie +:+ "; Path=" +:+ prefix +:+ "/"
      end
  end.
Definition rewriteCookiePaths (h : Header) (prefix : string) : Header :=
  match default [] (h !! "Set-Cookie") with
  | [] => h
  | cookies =>
      foldl (fun h c => header_add "Set-Cookie" (scopeCookie c prefix) h)
        (header_del "Set-Cookie" h) cookies
  end.

(** ** The outbound request carries no credential of the caller *)

(** [presentToken]'s result, when [set] only adds one header [k]. *)
Lemma presentToken_spec t rt k f o :
  let o' := presentToken t rt (fun token => on_header (header_set k (f token))) o in
  parse_query (u_RawQuery (ob_URL o')) = base.delete "token" (parse_query (u_RawQuery (ob_URL o))) /\
  u_Path (ob_URL o') = u_Path (ob_URL o) /\ u_RawPath (ob_URL o') = u_RawPath (ob_URL o) /\
  ob_Origin o' = ob_Origin o /\ ob_Host o' = ob_Host o /\
  forall j, ob_Header o' !! j =
    if decide (rt_UserPort rt = false /\ tg_Token t <> "" /\ j = k) then Some [f (tg_Token t)]
    else if decide (j = "Authorization" \/ j = ControlTokenHeader) then None
    else ob_Header o !! j.
Proof.
  unfold presentToken. cbv zeta.
  set (o0 := on_header (header_del ControlTokenHeader) (on_header (header_del "Authorization") o)).
  change (ob_URL o0) with (ob_URL o). set (q := parse_query (u_RawQuery (ob_URL o))).
  set (o1 := match q !! "token" with
             | Some _ => set_raw_query (encode_query (base.delete "token" q)) o0
             | None => o0 end).
  assert (Hq : parse_query (u_RawQuery (ob_URL o1)) = base.delete "token" q).
  { unfold o1. destruct (q !! "token") as [vs|] eqn:Et; cbn [set_raw_query ob_URL u_RawQuery].
    - apply parse_encode_query. intros j. destruct (decide (j = "token")) as [->|Hj].
      + by rewrite lookup_delete_eq.
      + rewrite lookup_delete_ne by done. apply parse_query_nonempty.
    - rewrite delete_id by done. reflexivity. }
  assert (Hh : ob_Header o1 = header_del ControlTokenHeader (header_del "Authorization" (ob_Header o))).
  { unfold o1. by destruct (q !! "token"). }
  assert (Hp : u_Path (ob_URL o1) = u_Path (ob_URL o) /\ u_RawPath (ob_URL o1) = u_RawPath (ob_URL o) /\
     ob_Origin o1 = ob_Origin o /\ ob_Host o1 = ob_Host o).
  { unfold o1. by destruct (q !! "token"). }
  assert (Hl : forall j, ob_Header o1 !! j =
    if decide (j = "Authorization" \/ j = ControlTokenHeader) then None else ob_Header o !! j).
  { intros j. rewrite Hh. unfold header_del. case_decide as Hj.
    - destruct Hj as [-> | ->]; [|apply lookup_delete_eq].
      rewrite lookup_delete_ne by done. apply lookup_delete_eq.
    - rewrite !lookup_delete_ne by (intros <-; tauto). done. }
  clearbody o1. destruct Hp as (Hp1 & Hp2 & Hp3 & Hp4).
  destruct (rt_UserPort rt || bool_decide (tg_Token t = "")) eqn:Eu.
  - repeat (split; [done|]). intros j. rewrite decide_False; [apply Hl|].
    intros (Hu & Ht & _). rewrite Hu in Eu. cbn in Eu. by apply bool_decide_eq_true in Eu.
  - apply orb_false_elim in Eu as [Hu Ht%bool_decide_eq_false].
    repeat (split; [done|]). intros j. cbn [on_header ob_Header]. unfold header_set.
    destruct (decide (j = k)) as [->|Hj].
    + rewrite lookup_insert_eq, decide_True by done. done.
    + rewrite lookup_insert_ne by done. rewrite decide_False by tauto. apply Hl.
Qed.

(** The header a transport presents the sandbox's token in. *)
Definition token_header (tr : Transport) : string :=
  match tr with DirectTransport => "Authorization" | APIProxyTransport _ => ControlTokenHeader end.
Definition token_value (tr : Transport) (token : string) : string :=
  match tr with DirectTransport => "Bearer " +:+ token | APIProxyTransport _ => token end.
(** Where the rest of the path is put. *)
Definition upstream_prefix (tr : Transport) (t : Target) (rt : Route) : string :=
  match tr with
  | DirectTransport => ""
  | APIProxyTransport _ => "/api/v1/namespaces/" +:+ tg_Namespace t +:+ "/pods/http:" +:+ tg_PodName t
      +:+ ":" +:+ itoa (rt_Port rt) +:+ "/proxy"
  end.

Lemma Rewrite_spec tr inHost t rt o :
  let o1 := Rewrite tr inHost t rt o in
  parse_query (u_RawQuery (ob_URL o1)) = base.delete "token" (parse_query (u_RawQuery (ob_URL o))) /\
  u_Path (ob_URL o1) = upstream_prefix tr t rt +:+ rt_Rest rt /\
  u_RawPath (ob_URL o1) = upstream_prefix tr t rt +:+ rt_RawRest rt /\
  forall j, ob_Header o1 !! j =
    if decide (rt_UserPort rt = false /\ tg_Token t <> "" /\ j = token_header tr)
    then Some [token_value tr (tg_Token t)]
    else if decide (j = "Authorization" \/ j = ControlTokenHeader) then None
    else ob_Header o !! j.
Proof.
  split; [|split; [|split]]; destruct tr as [|base];
    cbn [Rewrite]; unfold DirectTransport_Rewrite, APIProxyTransport_Rewrite; cbv zeta; unfold token_value, token_header;
    match goal with |- context [presentToken t rt (fun token => on_header (header_set ?k (@?f token))) ?x] =>
      destruct (presentToken_spec t rt k f x) as (Hq & Hp & Hrp & _ & _ & Hh) end; done.
Qed.

(** The forwarding headers the hook adds. *)
Lemma rewrite_hook_spec {E} (s : Server E) r t rt o :
  let o1 := Rewrite (transport s) (rq_Host r) t rt o in
  let o' := rewrite_hook s r t rt o in
  ob_URL o' = ob_URL o1 /\
  (forall host port, SplitHostPort (rq_RemoteAddr r) = Some (host, port) ->
     ob_Header o' !! "X-Forwarded-For" = Some [host]) /\
  ob_Header o' !! "X-Forwarded-Proto" = Some ["https"] /\
  ob_Header o' !! "X-Forwarded-Prefix" =
    (if bool_decide (rt_Prefix rt = "") then None else Some [rt_Prefix rt]) /\
  forall k, k ∉ ["X-Forwarded-For"; "X-Forwarded-Proto"; "X-Forwarded-Prefix"] ->
    ob_Header o' !! k = ob_Header o1 !! k.
Proof.
  cbv zeta. unfold rewrite_hook. generalize (Rewrite (transport s) (rq_Host r) t rt o). intros o1.
  cbv zeta. unfold header_set, header_del.
  destruct (SplitHostPort _) as [[ip pt]|]; case_bool_decide; cbn;
    (split; [done|]); (split; [intros host port [= -> ->] || (intros ?? [=])|]);
    rewrite ?lookup_delete_ne, ?lookup_insert_ne by done;
    rewrite ?lookup_insert_ne by done; rewrite ?lookup_delete_eq, ?lookup_insert_eq;
    try done; (split; [done|]); (split; [done|]);
    intros k; rewrite !not_elem_of_cons; intros (K1 & K2 & K3 & _);
    by rewrite ?lookup_delete_ne, ?lookup_insert_ne by done;
      rewrite ?lookup_insert_ne by done.
Qed.

(** C4: whatever the caller sent, what goes into the Pod carries neither its
    Authorization nor its control-token header nor a [token] query parameter;
    on a user port it carries no token at all, on the data plane exactly the
    sandbox's own, where the transport puts it; the other parameters, and the
    headers but for the three forwarding ones, travel unchanged, and the path is
    the route's rest behind the transport's own prefix. *)
Theorem rewrite_hook_credentials {E} (s : Server E) r t rt o :
  let tr := transport s in
  let o' := rewrite_hook s r t rt o in
  parse_query (u_RawQuery (ob_URL o')) = base.delete "token" (parse_query (u_RawQuery (ob_URL o))) /\
  u_Path (ob_URL o') = upstream_prefix tr t rt +:+ rt_Rest rt /\
  u_RawPath (ob_URL o') = upstream_prefix tr t rt +:+ rt_RawRest rt /\
  (rt_UserPort rt = true \/ tg_Token t = "" ->
     ob_Header o' !! "Authorization" = None /\ ob_Header o' !! ControlTokenHeader = None) /\
  (rt_UserPort rt = false -> tg_Token t <> "" ->
     ob_Header o' !! token_header tr = Some [token_value tr (tg_Token t)] /\
     forall k, k <> token_header tr -> k = "Authorization" \/ k = ControlTokenHeader ->
       ob_Header o' !! k = None) /\
  (forall host port, SplitHostPort (rq_RemoteAddr r) = Some (host, port) ->
     ob_Header o' !! "X-Forwarded-For" = Some [host]) /\
  ob_Header o' !! "X-Forwarded-Proto" = Some ["https"] /\
  ob_Header o' !! "X-Forwarded-Prefix" =
    (if bool_decide (rt_Prefix rt = "") then None else Some [rt_Prefix rt]) /\
  forall k, k ∉ ["Authorization"; ControlTokenHeader; "X-Forwarded-For"; "X-Forwarded-Proto";
                 "X-Forwarded-Prefix"] ->
    ob_Header o' !! k = ob_Header o !! k.
Proof.
  cbv zeta. set (tr := transport s).
  destruct (rewrite_hook_spec s r t rt o) as (Hu & Hf & Hproto & Hprefix & Hrest).
  destruct (Rewrite_spec tr (rq_Host r) t rt o) as (Hq & Hp & Hrp & Hh).
  cbv zeta in *. fold tr in Hu, Hrest. rewrite Hu.
  split; [exact Hq|]. split; [exact Hp|]. split; [exact Hrp|].
  assert (Hauth : forall k, k = "Authorization" \/ k = ControlTokenHeader ->
    k ∉ ["X-Forwarded-For"; "X-Forwarded-Proto"; "X-Forwarded-Prefix"]).
  { intros k Hk. rewrite !not_elem_of_cons. destruct Hk as [-> | ->];
      (do 3 (split; [discriminate|])); apply not_elem_of_nil. }
  split; [|split; [|split; [exact Hf|split; [exact Hproto|split; [exact Hprefix|]]]]].
  - intros Hu'. split; rewrite Hrest, Hh by (apply Hauth; tauto);
      (rewrite decide_False by (intros (? & ? & _); destruct Hu'; congruence));
      by rewrite decide_True by tauto.
  - intros Hn Ht. split.
    + rewrite Hrest, Hh by (apply Hauth; destruct tr; tauto). by rewrite decide_True.
    + intros k Hk Ha. rewrite Hrest, Hh by by apply Hauth.
      rewrite decide_False by tauto. by rewrite decide_True.
  - intros k. rewrite !not_elem_of_cons. intros (K1 & K2 & K3 & K4 & K5 & Hnil).
    rewrite Hrest, Hh by (rewrite !not_elem_of_cons; tauto).
    rewrite !decide_False; [done|tauto|]. intros (_ & _ & ->). by destruct tr.
Qed.

(** ** Who gets in *)

(** The caller owns the sandbox the request names, which is alive. *)
Definition entitled {E} (s : Server E) (now : Time) (r : Request) (target : Target) (rt : Route)
  : Prop :=
  (exists verify caller, sv_Auth s = Some verify /\ verify (bearer r) (clientIP r) = Ok caller /\
     cl_MayUse caller = true /\ cl_TenantID caller = tg_TenantID target) /\
  tg_TenantID target <> "" /\
  route_of (router s) r = Some rt /\ sv_Resolver s (rt_SandboxID rt) = (target, true) /\
  (tg_ExpiresAt target = 0%Z \/ (now <= tg_ExpiresAt target)%Z).

Lemma entitled_intro {E} (s : Server E) now r caller rt target :
  authenticate s r = Ok caller -> route_of (router s) r = Some rt ->
  sv_Resolver s (rt_SandboxID rt) = (target, true) ->
  bool_decide (tg_TenantID target = "") || negb (bool_decide (cl_TenantID caller = tg_TenantID target)) = false ->
  negb (is_zero_time (tg_ExpiresAt target)) && after now (tg_ExpiresAt target) = false ->
  entitled s now r target rt.
Proof.
  intros Ha Hr Hs [Ht1 Ht2]%orb_false_elim He.
  apply bool_decide_eq_false in Ht1. apply negb_false_iff, bool_decide_eq_true in Ht2.
  split; [|split; [done|split; [done|split; [done|]]]].
  - unfold authenticate in Ha. destruct (sv_Auth s) as [verify|]; [|done].
    destruct (verify _ _) as [c|e] eqn:Ev; [|done]. destruct (cl_MayUse c) eqn:Em; [|done].
    injection Ha as ->. by exists verify, caller.
  - unfold is_zero_time, after in He.
    destruct (Z.eqb_spec (tg_ExpiresAt target) 0); [by left|].
    destruct (Z.ltb_spec (tg_ExpiresAt target) now); [done|by right].
Qed.

(** What is proxied is proxied for an entitled caller, as the hook rewrote it. *)
Lemma served_entitled {E} decode (s : Server E) now r o rt target out :
  serve_route decode s now r o = AProxied target rt out ->
  entitled s now r target rt /\ out = rewrite_hook s r target rt o.
Proof.
  unfold serve_route, unknown_sandbox. destruct (authenticate s r) as [caller|e] eqn:Ha; [|by destruct e].
  destruct (route_of (router s) r) as [rt'|] eqn:Hr; [|done].
  destruct (sv_Resolver s (rt_SandboxID rt')) as [target' [|]] eqn:Hs; cbn [negb]; [|done].
  destruct (_ || _) eqn:Et; [done|]. destruct (_ && after _ _) eqn:Ee; [done|].
  pose proof (entitled_intro s now r caller rt' target' Ha Hr Hs Et Ee) as Hent.
  destruct (_ && _) in |- *; [done|]. destruct (_ && bool_decide (rt_Rest rt' = portsPath)) in |- *.
  { unfold exposePort. destruct (decode _); [|done]. by repeat case_match. }
  destruct (Reachable _ _); [done|]. by intros [= <- <- <-].
Qed.

(** C3: only the sandbox's own tenant reaches it: a request is proxied,
    redirected or told a port's URL only if its key verifies, may use the data
    plane and belongs to the tenant the sandbox's label names, and the sandbox
    resolves and has not expired; what is proxied goes to that sandbox's Pod.
    Without a good key the answer does not depend on the resolver or the routing
    at all, and with another tenant's it is the same refusal whatever the state
    of the sandbox. *)
Theorem serve_route_safe {E} decode (s : Server E) now r o :
  (forall rt target out, serve_route decode s now r o = AProxied target rt out ->
     entitled s now r target rt /\ Reachable (transport s) target = None /\
     out = rewrite_hook s r target rt o) /\
  (forall status url, serve_route decode s now r o = ARedirect status url ->
     exists target rt, entitled s now r target rt /\
       url = rt_Prefix rt +:+ "/" +:+ (if negb (bool_decide (u_RawQuery (rq_URL r) = ""))
                                       then "?" +:+ u_RawQuery (rq_URL r) else "")) /\
  (forall port url, serve_route decode s now r o = AExposed port url ->
     exists target rt, entitled s now r target rt /\ (0 < port <= 65535)%Z /\ port <> DataPlanePort /\
       url = absolute r (PortURL (router s) (rt_SandboxID rt) port)) /\
  (forall e, authenticate s r = Err e -> serve_route decode s now r o = denied e) /\
  (forall caller rt target, authenticate s r = Ok caller -> route_of (router s) r = Some rt ->
     sv_Resolver s (rt_SandboxID rt) = (target, true) ->
     tg_TenantID target = "" \/ cl_TenantID caller <> tg_TenantID target ->
     serve_route decode s now r o = denied Forbidden).
Proof.
  unfold serve_route, unknown_sandbox.
  destruct (authenticate s r) as [caller|e] eqn:Ha.
  2: { destruct e; (split; [done|]); (split; [done|]); (split; [done|]); (split; [by intros ? [= <-]|done]). }
  destruct (route_of (router s) r) as [rt|] eqn:Hr; [|by repeat split].
  destruct (sv_Resolver s (rt_SandboxID rt)) as [target [|]] eqn:Hs; cbn [negb].
  2: { repeat (split; [done|]). intros ??? _ [= <-]. by rewrite Hs. }
  pose proof (entitled_intro s now r caller rt target Ha Hr Hs) as Hent.
  destruct (_ || _) eqn:Et.
  { repeat (split; [done|]). done. }
  assert (Hno : forall caller' rt' target', Ok caller = Ok caller' :> result (AuthError E) Caller ->
    Some rt = Some rt' -> sv_Resolver s (rt_SandboxID rt') = (target', true) ->
    tg_TenantID target' = "" \/ cl_TenantID caller' <> tg_TenantID target' -> False).
  { intros c' rt' t' [= <-] [= <-] Hs' Hbad. rewrite Hs in Hs'. injection Hs' as <-.
    apply orb_false_elim in Et as [E1%bool_decide_eq_false E2%negb_false_iff].
    apply bool_decide_eq_true in E2. tauto. }
  specialize (Hent eq_refl).
  destruct (_ && _) eqn:Ee.
  { repeat (split; [done|]). intros c' rt' t' H1 H2 H3 H4. by destruct (Hno c' rt' t'). }
  specialize (Hent eq_refl).
  destruct (_ && _) eqn:Ed in |- *.
  { split; [done|]. split; [intros ?? [= <- <-]; eauto|]. split; [done|]. split; [done|].
    intros c' rt' t' H1 H2 H3 H4. by destruct (Hno c' rt' t'). }
  destruct (_ && bool_decide (rt_Rest rt = portsPath)) in |- *.
  { unfold exposePort. destruct (decode _) as [port|msg];
      [destruct (Z.leb_spec port 0); cbn [orb]; [|destruct (Z.ltb_spec 65535 port);
        [|destruct (Z.eqb_spec port DataPlanePort)]]|];
      (split; [done|]); (split; [done|]);
      (split; [try done|split; [done|intros c' rt' t' H1 H2 H3 H4; by destruct (Hno c' rt' t')]]).
    intros ?? [= <- <-]. exists target, rt. split; [done|]. split; [lia|done]. }
  destruct (Reachable _ _) as [msg|] eqn:Er.
  { repeat (split; [done|]). intros c' rt' t' H1 H2 H3 H4. by destruct (Hno c' rt' t'). }
  split; [by intros ??? [= <- <- <-]|]. repeat (split; [done|]).
  intros c' rt' t' H1 H2 H3 H4. by destruct (Hno c' rt' t').
Qed.

(** ** Cookies *)

(** A cookie's Path attributes, as a browser splits them (RFC 6265, 5.2). *)
Definition path_attrs (cookie : string) : list string :=
  omap (fun part => if named_path part
                    then let '(_, value, _) := cut part equals_sign in Some (trim_space value)
                    else None) (tail (split semicolon cookie)).

Lemma trim_right_app x y : trim_right y <> "" -> trim_right (x +:+ y) = x +:+ trim_right y.
Proof.
  intros Hy. induction x as [|a x IH]; [done|]. cbn [String.append trim_right]. rewrite IH.
  destruct (x +:+ trim_right y) eqn:E; [|done].
  exfalso. destruct x; [by rewrite <-E in Hy|done].
Qed.
Lemma trim_right_idem s : trim_right (trim_right s) = trim_right s.
Proof.
  induction s as [|a s IH]; [done|]. cbn [trim_right].
  destruct (trim_right s) as [|b t] eqn:E.
  - destruct (is_space a) eqn:Ea; [done|]. cbn. by rewrite Ea.
  - cbn [trim_right] in IH |- *. by rewrite IH.
Qed.
Lemma trim_no_byte c s : no_byte c s -> no_byte c (trim_space s).
Proof.
  unfold trim_space. intros H.
  assert (Hl : no_byte c (trim_left s)).
  { induction s as [|a s IH]; [done|]. cbn. destruct (is_space a); [|done]. apply IH, H. }
  revert Hl. generalize (trim_left s). clear. intros s.
  induction s as [|a s IH]; [done|]. cbn. intros [Ha Hs]. specialize (IH Hs).
  destruct (trim_right s) as [|b t]; [by destruct (is_space a)|]. by split.
Qed.

(** The value a Path attribute is given. *)
Lemma scoped_part_spec part prefix u :
  prefix = "/" +:+ u -> no_byte semicolon prefix -> no_byte semicolon part ->
  no_byte semicolon (scoped_part part prefix) /\ named_path (scoped_part part prefix) = true /\
  exists v, cut (scoped_part part prefix) equals_sign = (" Path", prefix +:+ "/" +:+ v, true) /\
    trim_space (prefix +:+ "/" +:+ v) = prefix +:+ "/" +:+ v.
Proof.
  intros Hpre Hp Hpart. unfold scoped_part.
  destruct (cut part equals_sign) as [[name value] ok] eqn:Ec. cbv zeta.
  assert (Hv : no_byte semicolon value).
  { destruct ok.
    - apply cut_ok in Ec as [-> _]. rewrite no_byte_app in Hpart. by destruct Hpart as [_ [_ ?]].
    - assert (value = "") as ->; [|done]. clear -Ec. revert name value Ec.
      induction part as [|a s IH]; cbn; [by intros ?? [= _ <-]|]. intros name value.
      destruct (ascii_dec a equals_sign); [done|]. destruct (cut s equals_sign) as [[l r] ok].
      intros [= _ <- ->]. by eapply IH. }
  set (p0 := trim_space value).
  set (p := if negb (has_prefix p0 "/") then "/" +:+ p0 else p0).
  assert (Hps : exists v, p = "/" +:+ v /\ trim_right p = p).
  { unfold p. destruct (has_prefix p0 "/") eqn:E; cbn [negb].
    - apply has_prefix_spec in E as [v E]. exists v. split; [done|]. apply trim_right_idem.
    - exists p0. split; [done|]. destruct (decide (p0 = "")) as [->|Hne]; [done|].
      rewrite (trim_right_app "/"); unfold p0, trim_space; by rewrite trim_right_idem. }
  destruct Hps as (v & Ep & Ht).
  assert (Hpn : no_byte semicolon p).
  { unfold p. assert (no_byte semicolon p0) by by apply trim_no_byte.
    destruct (negb _); [by split|done]. }
  assert (Htrim : trim_space (prefix +:+ p) = prefix +:+ p).
  { unfold trim_space.
    assert (trim_left (prefix +:+ p) = prefix +:+ p) as -> by by rewrite Hpre.
    rewrite trim_right_app by (rewrite Ht, Ep; done). by rewrite Ht. }
  assert (Hcut : cut (" Path=" +:+ prefix +:+ p) equals_sign = (" Path", prefix +:+ p, true)).
  { change (" Path=" +:+ prefix +:+ p) with (" Path" +:+ String equals_sign (prefix +:+ p)).
    by apply cut_app. }
  split; [|split].
  - rewrite !no_byte_app. done.
  - unfold named_path. by rewrite Hcut.
  - exists v. by rewrite Hcut, <-Ep.
Qed.

Lemma scope_parts_spec parts prefix :
  match scope_parts parts prefix with
  | None => Forall (fun part => named_path part = false) parts
  | Some parts' => exists before part after,
      parts = (before ++ part :: after)%list /\ named_path part = true /\
      Forall (fun part => named_path part = false) before /\
      parts' = (before ++ scoped_part part prefix :: after)%list
  end.
Proof.
  induction parts as [|part parts IH]; cbn [scope_parts]; [constructor|].
  destruct (named_path part) eqn:En; cbn [negb].
  - exists [], part, parts. done.
  - destruct (scope_parts parts prefix) as [parts'|]; cbn [option_map]; [|by constructor].
    destruct IH as (before & p & after & -> & Hp & Hb & ->).
    exists (part :: before), p, after. split; [done|]. split; [done|]. split; [by constructor|done].
Qed.
(** The attributes of a list of parts. *)
Definition attrs_of (parts : list string) : list string :=
  omap (fun part => if named_path part
                    then let '(_, value, _) := cut part equals_sign in Some (trim_space value)
                    else None) parts.
Lemma attrs_of_app a b : attrs_of (a ++ b) = (attrs_of a ++ attrs_of b)%list.
Proof. apply omap_app. Qed.
Lemma attrs_of_none parts : Forall (fun part => named_path part = false) parts -> attrs_of parts = [].
Proof.
  induction 1 as [|part parts Hp _ IH]; [done|]. unfold attrs_of. cbn [omap list_omap]. by rewrite Hp.
Qed.
Lemma attrs_of_cons part value parts :
  named_path part = true -> (exists name ok, cut part equals_sign = (name, value, ok)) ->
  attrs_of (part :: parts) = trim_space value :: attrs_of parts.
Proof.
  intros Hn (name & ok & Hc). unfold attrs_of. cbn [omap list_omap]. by rewrite Hn, Hc.
Qed.

(** Putting a scoped attribute in the place of an old one. *)
Lemma replaced_path first before old after prefix u :
  prefix = "/" +:+ u -> no_byte semicolon prefix -> no_byte semicolon old ->
  no_byte semicolon first -> Forall (no_byte semicolon) before -> Forall (no_byte semicolon) after ->
  Forall (fun part => named_path part = false) before ->
  let cookie' := join ";" (first :: before ++ scoped_part old prefix :: after) in
  split semicolon cookie' = (first :: before ++ scoped_part old prefix :: after)%list /\
  exists v, path_attrs cookie' = (prefix +:+ "/" +:+ v) :: attrs_of after.
Proof.
  intros Hpre Hp Hno Hfirst Hnb Hna Hb. cbv zeta.
  destruct (scoped_part_spec old prefix u Hpre Hp Hno) as (Hns & Hnp & v & Hc & Ht).
  assert (Esp : split semicolon (join ";" (first :: before ++ scoped_part old prefix :: after)) =
                (first :: before ++ scoped_part old prefix :: after)%list).
  { apply split_join_sep; [done|]. constructor; [done|]. apply Forall_app. split; [done|]. by constructor. }
  split; [exact Esp|]. exists v. unfold path_attrs. rewrite Esp. cbn [tail].
  fold (attrs_of (before ++ scoped_part old prefix :: after)).
  rewrite attrs_of_app, attrs_of_none by done. cbn [app].
  rewrite (attrs_of_cons _ (prefix +:+ "/" +:+ v)) by eauto. by rewrite Ht.
Qed.
(** Appending one to a cookie that has none. *)
Lemma appended_path cookie prefix u first parts :
  prefix = "/" +:+ u -> no_byte semicolon prefix ->
  split semicolon cookie = (first :: parts)%list ->
  Forall (fun part => named_path part = false) parts ->
  let cookie' := cookie +:+ "; Path=" +:+ prefix +:+ "/" in
  split semicolon cookie' = (first :: parts ++ [" Path=" +:+ prefix +:+ "/"])%list /\
  path_attrs cookie' = [prefix +:+ "/"].
Proof.
  intros Hpre Hp Es Hsp. cbv zeta.
  assert (Hc : cut (" Path=" +:+ prefix +:+ "/") equals_sign = (" Path", prefix +:+ "/", true)).
  { change (" Path=" +:+ prefix +:+ "/") with (" Path" +:+ String equals_sign (prefix +:+ "/")).
    by apply cut_app. }
  assert (Esp : split semicolon (cookie +:+ "; Path=" +:+ prefix +:+ "/") =
                (first :: parts ++ [" Path=" +:+ prefix +:+ "/"])%list).
  { assert (Hn : no_byte semicolon (" Path=" +:+ prefix +:+ "/")) by (rewrite !no_byte_app; done).
    pose proof (split_segs_no_byte semicolon cookie) as Hsegs. rewrite Es in Hsegs.
    assert (Ec : cookie = join ";" (first :: parts)).
    { rewrite <-Es. symmetry. apply (join_split_sep semicolon). }
    rewrite Ec. change ("; Path=" +:+ prefix +:+ "/") with (";" +:+ " Path=" +:+ prefix +:+ "/").
    rewrite <-(join_snoc ";" (first :: parts)) by done.
    apply (split_join_sep semicolon (first :: parts ++ [_])); [done|].
    apply (Forall_app _ (first :: parts)). split; [done|by apply Forall_singleton]. }
  split; [exact Esp|]. unfold path_attrs. rewrite Esp. cbn [tail].
  fold (attrs_of (parts ++ [" Path=" +:+ prefix +:+ "/"])).
  rewrite attrs_of_app, attrs_of_none by done. cbn [app].
  rewrite (attrs_of_cons _ (prefix +:+ "/")).
  - unfold trim_space. assert (trim_left (prefix +:+ "/") = prefix +:+ "/") as -> by by rewrite Hpre.
    by rewrite trim_right_app.
  - unfold named_path. by rewrite Hc.
  - by eauto.
Qed.

(** A sandbox's cookie is scoped to its prefix: its first Path attribute,
    or a new last one where it has none, is the prefix followed by a slash and
    the attribute's old value, every other byte between semicolons is kept as
    it was, and a cookie with at most one Path attribute has no other Path. *)
Theorem scopeCookie_scoped cookie prefix u :
  prefix = "/" +:+ u -> no_byte semicolon prefix ->
  exists first before after part v,
    split semicolon (scopeCookie cookie prefix) = (first :: before ++ part :: after)%list /\
    attrs_of before = [] /\ path_attrs (scopeCookie cookie prefix) =
      (prefix +:+ "/" +:+ v) :: attrs_of after /\
    ((exists old, split semicolon cookie = (first :: before ++ old :: after)%list /\ named_path old = true) \/
     (split semicolon cookie = (first :: before)%list /\ after = [] /\ v = "")) /\
    ((length (path_attrs cookie) <= 1)%nat ->
     path_attrs (scopeCookie cookie prefix) = [prefix +:+ "/" +:+ v]).
Proof.
  intros Hpre Hp. unfold scopeCookie.
  pose proof (split_segs_no_byte semicolon cookie) as Hsegs.
  destruct (split semicolon cookie) as [|first parts] eqn:Es; [by destruct (split_not_nil semicolon cookie)|].
  inversion_clear Hsegs as [|? ? Hfirst Hparts].
  pose proof (scope_parts_spec parts prefix) as Hsp.
  destruct (scope_parts parts prefix) as [parts'|].
  - destruct Hsp as (before & old & after & -> & Hold & Hb & ->).
    apply Forall_app in Hparts as [Hnb Hpa]. inversion_clear Hpa as [|? ? Hno Hna].
    destruct (replaced_path first before old after prefix u) as (Esp & v & Epa); [done..|].
    exists first, before, after, (scoped_part old prefix), v.
    split; [exact Esp|]. split; [by apply attrs_of_none|]. split; [exact Epa|].
    split; [left; by exists old|]. intros Hlen. rewrite Epa.
    unfold path_attrs in Hlen. rewrite Es in Hlen. cbn [tail] in Hlen.
    fold (attrs_of (before ++ old :: after)) in Hlen.
    rewrite attrs_of_app, attrs_of_none in Hlen by done. cbn [app] in Hlen.
    destruct (cut old equals_sign) as [[name value] ok] eqn:Eo.
    rewrite (attrs_of_cons _ value) in Hlen by eauto. cbn in Hlen.
    destruct (attrs_of after); [done|]. cbn in Hlen. lia.
  - destruct (appended_path cookie prefix u first parts) as (Esp & Epa); [done..|].
    exists first, parts, [], (" Path=" +:+ prefix +:+ "/"), "".
    split; [exact Esp|]. split; [by apply attrs_of_none|]. split; [exact Epa|].
    split; [by right|]. intros _. exact Epa.
Qed.

(** A cookie with two Path attributes keeps the second, which is the one a
    browser uses. *)
Lemma second_path_unscoped :
  path_attrs (scopeCookie "a=b; Path=/x; Path=/" "/s/sbx-1") = ["/s/sbx-1/x"; "/"].
Proof. vm_compute. reflexivity. Qed.

(** ** The resolver's cache *)

(** The resolver never answers for another sandbox: whatever is cached under
    an id is a target of that id or none, so an answer names the sandbox asked
    for, is at most the cache's lifetime old or comes from the list just made,
    and is positive only with a Pod IP. *)
Theorem CachedResolver_own {E} c id now (listed : result E (list Sandbox)) now' t ok c' :
  (forall j e, cr_cache c !! j = Some e -> ca_target e = no_target \/ tg_SandboxID (ca_target e) = j) ->
  CachedResolver_Resolve c id now listed now' = (t, ok, c') ->
  (ok = true -> tg_SandboxID t = id /\ tg_PodIP t <> "") /\
  (forall j e, cr_cache c' !! j = Some e -> ca_target e = no_target \/ tg_SandboxID (ca_target e) = j) /\
  ((exists e, cr_cache c !! id = Some e /\ t = ca_target e /\ c' = c /\ (now - ca_at e < cr_TTL c)%Z) \/
   (exists s rest, listed = Ok (s :: rest) /\ t = target_of id s) \/ (ok = false /\ t = no_target)).
Proof.
  intros Hinv. unfold CachedResolver_Resolve.
  set (miss := match listed with Err _ => _ | Ok _ => _ end).
  assert (Hmiss : miss = (t, ok, c') ->
    (ok = true -> tg_SandboxID t = id /\ tg_PodIP t <> "") /\
    (forall j e, cr_cache c' !! j = Some e -> ca_target e = no_target \/ tg_SandboxID (ca_target e) = j) /\
    ((exists s rest, listed = Ok (s :: rest) /\ t = target_of id s) \/ (ok = false /\ t = no_target))).
  { unfold miss. destruct listed as [[|s rest]|e]; intros [= <- <- <-].
    - split; [done|]. split; [|by right]. cbn.
      intros j e' [[<- <-]|[_ H]]%lookup_insert_Some; [by left|by apply Hinv].
    - split; [|split; [|left; by exists s, rest]].
      + unfold has_ip. intros H%negb_true_iff%bool_decide_eq_false. done.
      + cbn. intros j e' [[<- <-]|[_ H]]%lookup_insert_Some; [by right|by apply Hinv].
    - split; [done|]. split; [done|by right]. }
  destruct (cr_cache c !! id) as [e|] eqn:Ec; [|intros H; destruct (Hmiss H) as (H1 & H2 & H3); tauto].
  destruct (Z.ltb_spec (now - ca_at e) (cr_TTL c)) as [Hlt|_];
    [|intros H; destruct (Hmiss H) as (H1 & H2 & H3); tauto].
  intros [= <- <- <-]. split; [|split; [done|left; by exists e]].
  unfold has_ip. intros H%negb_true_iff%bool_decide_eq_false. split; [|done].
  destruct (Hinv id e Ec) as [E0|?]; [|done]. by rewrite E0 in H.
Qed.

(** ** Witnesses *)

Definition wit_target : Target :=
  {| tg_SandboxID := "sbx-1"; tg_Namespace := "acme"; tg_PodName := "warm-1"; tg_PodIP := "10.0.0.7";
     tg_TenantID := "acme"; tg_Token := "st_1"; tg_ExpiresAt := 500%Z; tg_Phase := "Running" |}.
Definition wit_gateway : Server string :=
  {| sv_Resolver := fun id => if bool_decide (id = "sbx-1") then (wit_target, true) else (no_target, false);
     sv_Router := Some (path_router wit_path_router); sv_Suffix := "";
     sv_Transport := None;
     sv_Auth := Some (fun key ip =>
       if bool_decide (key = "sk_acme") then Ok {| cl_TenantID := "acme"; cl_MayUse := true |}
       else Err "bad key") |}.
Definition wit_gw_request : Request :=
  {| rq_Method := "GET"; rq_Host := "api.example.com"; rq_URL := wit_url "/s/sbx-1/v1/exec";
     rq_Header := {[ "Authorization" := ["Bearer sk_acme"] ]}; rq_RemoteAddr := "10.1.2.3:999";
     rq_TLS := true; rq_Body := "" |}.
Definition wit_outbound : Outbound :=
  {| ob_Origin := ""; ob_Host := ""; ob_URL := rq_URL wit_gw_request;
     ob_Header := rq_Header wit_gw_request |}.
Definition wit_served : Answer string :=
  serve_route (fun _ => Err "no body") wit_gateway 100%Z wit_gw_request wit_outbound.
Lemma serve_route_safe_wit : exists rt out,
  wit_served = AProxied wit_target rt out /\
  ob_Origin out = "http://10.0.0.7:8080" /\
  ob_Header out !! "Authorization" = Some ["Bearer st_1"] /\
  entitled wit_gateway 100%Z wit_gw_request wit_target rt.
Proof.
  assert (E : exists rt out, wit_served = AProxied wit_target rt out /\
    ob_Origin out = "http://10.0.0.7:8080" /\ ob_Header out !! "Authorization" = Some ["Bearer st_1"]).
  { eexists _, _. split; [vm_compute; reflexivity|]. split; vm_compute; reflexivity. }
  destruct E as (rt & out & E & Ho & Ha). exists rt, out.
  split; [exact E|]. split; [exact Ho|]. split; [exact Ha|].
  exact (proj1 (proj1 (serve_route_safe (fun _ => Err "no body") wit_gateway 100%Z wit_gw_request
                         wit_outbound) rt wit_target out E)).
Defined.
Lemma scopeCookie_scoped_wit :
  path_attrs (scopeCookie "sid=1; Partitioned; path=admin" "/s/sbx-1") = ["/s/sbx-1/admin"] /\
  exists v, path_attrs (scopeCookie "sid=1; Partitioned; path=admin" "/s/sbx-1") = ["/s/sbx-1" +:+ "/" +:+ v].
Proof.
  split; [vm_compute; reflexivity|].
  destruct (scopeCookie_scoped "sid=1; Partitioned; path=admin" "/s/sbx-1" "s/sbx-1")
    as (first & before & after & part & v & _ & _ & _ & _ & H).
  - reflexivity.
  - repeat split; discriminate.
  - exists v. apply H. vm_compute. lia.
Defined.
Lemma CachedResolver_own_wit :
  exists c', CachedResolver_Resolve (E := string) NewCachedResolver "sbx-1" 5%Z (Ok []) 6%Z = (no_target, false, c') /\
    forall j e, cr_cache c' !! j = Some e -> ca_target e = no_target \/ tg_SandboxID (ca_target e) = j.
Proof.
  eexists. split; [reflexivity|].
  refine (proj1 (proj2 (CachedResolver_own (E := string) NewCachedResolver "sbx-1" 5%Z (Ok []) 6%Z
                          no_target false _ _ eq_refl))).
  intros j e. cbn. rewrite lookup_empty. discriminate.
Defined.
