(* ===== verification/Execd.v ===== *)
(** * execd: binding a Pod to its sandbox (pkg/execd)

    [launch] with its environment (the kernel, bubblewrap and the clock) as a
    record of answers, the control plane's handlers as operations on the
    server's state, and the data plane's gate.  [handleBind] releases the lock
    between its check and its publication; both halves are definitions of their
    own, and [handleBind] is their composition where nothing runs in between.

    What the handlers do to processes, files and the clock on the way is
    ExecdRun.v's, the control routes and JSON bodies are ControlPlane.v's. *)
From S2P Require Import Prelude GoStrings Api Bwrap Url Route Gateway.
Open Scope string_scope.
Open Scope list_scope.

(** ** State *)

Record Config := {
  cfg_Layout : Layout;
  cfg_Tier : Tier;
  cfg_Volumes : gmap string string;
  cfg_UID : Z;
  cfg_GID : Z;
  cfg_InternalToken : string;
  cfg_StatIsDir : string -> bool }.

Record sandbox := {
  sb_id : string;
  sb_tenant : string;
  sb_token : string;
  sb_boundAt : Time;
  sb_expiresAt : Time;
  sb_argv : list string }.

(** [s.sb] and [s.expired]; [es_timer] is when the sandbox's own TTL timer fires,
    if it has one. *)
Record ExecdServer := {
  es_sb : option sandbox;
  es_expired : bool;
  es_timer : option Time }.
Definition New : ExecdServer := {| es_sb := None; es_expired := false; es_timer := None |}.

(** ** launch *)

(** An open file handed to bubblewrap. *)
Definition File : Type := string.
Inductive LaunchError :=
| LInvalid (e : ValidationError)
| LOpen (msg : string)
| LGenerate (e : GenerateError)
| LFilter (msg : string)
| LStart (msg : string)
| LSocket (msg : string).
(** What the kernel, bubblewrap and the clock answer one launch. *)
Record World := {
  w_OpenMount : string -> string -> result string File;
  w_Filter : result string File;
  w_Start : list string -> list File -> result string Z;
  w_Socket : result string unit;
  w_Diag : string;
  w_Now : Time }.

(** The loop over the mounts: the files opened so far and [SourceFDs]. *)
Fixpoint open_mounts (w : World) (volumes : gmap string string) (ms : list Mount)
    (files : list File) (fds : gmap string Z) : result LaunchError (list File * gmap string Z) :=
  match ms with
  | [] => Ok (files, fds)
  | m :: ms' =>
      match w_OpenMount w (default "" (volumes !! src_Volume (m_Source m))) (src_SubPath (m_Source m)) with
      | Err e => Err (LOpen e)
      | Ok f =>
          open_mounts w volumes ms' (files ++ [f])
            (<[m_Path m := (3 + Z.of_nat (length files))%Z]> fds)
      end
  end.

Definition bind_policy (cfg : Config) (fds : gmap string Z) : Policy :=
  {| SourceFDs := fds; pTier := cfg_Tier cfg; UID := cfg_UID cfg; GID := cfg_GID cfg;
     Hostname := "sandbox"; pMaxMounts := MaxMounts; SystemAllowlist := DefaultSystemPaths;
     Volumes := cfg_Volumes cfg; IsDirFunc := None |}.

(** What bubblewrap is started with. *)
Definition bind_argv (w : World) (cfg : Config) (req : BindRequest)
  : result LaunchError (list string * list File) :=
  let spec := br_Filesystem req in
  match Validate (bind_policy cfg ∅) spec (cfg_Layout cfg) with
  | Err e => Err (LInvalid e)
  | Ok _ =>
      let filesystem := bool_decide (cfg_Tier cfg = TierFilesystem) in
      let? opened :=
        if filesystem then open_mounts w (cfg_Volumes cfg) (fs_Mounts spec) [] ∅
        else Ok ([], ∅) in
      let '(files, fds) := opened in
      match Generate (cfg_StatIsDir cfg) spec (bind_policy cfg fds) (cfg_Layout cfg) with
      | Err e => Err (LGenerate e)
      | Ok argv =>
          if filesystem then
            match w_Filter w with
            | Err e => Err (LFilter e)
            | Ok filter =>
                Ok ("--seccomp" :: itoa (3 + Z.of_nat (length files)) :: argv, files ++ [filter])
            end
          else Ok (argv, files)
      end
  end.

Definition launch (w : World) (cfg : Config) (req : BindRequest) : result LaunchError sandbox :=
  let? started := bind_argv w cfg req in
  let '(argv, files) := started in
  match w_Start w argv files with
  | Err e => Err (LStart e)
  | Ok pid =>
      match w_Socket w with
      | Err e => Err (LSocket (if negb (bool_decide (w_Diag w = "")) then w_Diag w else e))
      | Ok _ =>
          Ok {| sb_id := br_SandboxID req; sb_tenant := br_Tenant req; sb_token := br_Token req;
                sb_boundAt := w_Now w;
                sb_expiresAt := if (0 <? br_TTLSeconds req)%Z
                                then (w_Now w + seconds (br_TTLSeconds req))%Z else 0%Z;
                sb_argv := argv |}
      end
  end.

(** What jdix-init is told ([configureInit]'s body). *)
Definition configure_request (req : BindRequest) : ConfigureRequest :=
  let spec := br_Filesystem req in
  let ws := ws_Path (fs_Workspace spec) in
  let ws := if bool_decide (ws = "") then DefaultWorkspacePath else ws in
  {| cf_SandboxID := br_SandboxID req; cf_Env := br_Env req; cf_Secrets := br_Secrets req;
     cf_Roots := {| root_Path := ws; root_ReadOnly := false |} ::
       map (fun m => {| root_Path := m_Path m; root_ReadOnly := m_ReadOnly m |}) (fs_Mounts spec);
     cf_Workspace := ws |}.

(** ** The control plane *)

Inductive Reply :=
| RError (status : Z) (code msg : string)
| RBound (resp : BindResponse)
| ROk
| RExpiresAt (t : Time)
| RProxied (header : Header).

Definition tokenMatches (got want : string) : bool :=
  if bool_decide (got = "") || bool_decide (want = "") then false
  else bool_decide (got = want).
Definition execd_bearer (r : Request) : string :=
  let h := header_get (rq_Header r) "Authorization" in
  if has_prefix h "Bearer " then trim_prefix h "Bearer "
  else
    let h := header_get (rq_Header r) ControlTokenHeader in
    if negb (bool_decide (h = "")) then h
    else query_get (parse_query (u_RawQuery (rq_URL r))) "token".

(** [requireInternal]: the refusal, if any. *)
Definition requireInternal (cfg : Config) (r : Request) : option Reply :=
  if negb (bool_decide (cfg_InternalToken cfg = "")) &&
     negb (tokenMatches (execd_bearer r) (cfg_InternalToken cfg))
  then Some (RError 401 "unauthorized" "invalid control-plane token")
  else None.

(** [handleBind] up to where it releases the lock: the refusal, if any. *)
Definition bind_check (s : ExecdServer) (req : BindRequest) : option Reply :=
  if bool_decide (br_SandboxID req = "") || bool_decide (br_Token req = "")
  then Some (RError 400 "invalid_request" "sandboxId and token are required")
  else
    match es_sb s with
    | Some sb => Some (RError 409 "already_bound" ("this Pod is already bound to sandbox " +:+ sb_id sb))
    | None =>
        if es_expired s then Some (RError 410 "expired" "this Pod is shutting down") else None
    end.
(** The section that publishes the sandbox. *)
Definition bind_publish (sb : sandbox) (s : ExecdServer) : ExecdServer :=
  {| es_sb := Some sb; es_expired := es_expired s;
     es_timer := if negb (is_zero_time (sb_expiresAt sb)) then Some (sb_expiresAt sb)
                 else None |}.
(** [handleBind] with nothing in between; [configured] is what jdix-init
    answered, [tier] the measured one, [render] the text of a launch error. *)
Definition handleBind (cfg : Config) (tier : Tier) (render : LaunchError -> string)
    (w : World) (configured : result string unit) (req : BindRequest) (s : ExecdServer)
  : Reply * ExecdServer :=
  match bind_check s req with
  | Some refusal => (refusal, s)
  | None =>
      match launch w cfg req with
      | Err e => (RError 400 "bind_failed" (render e), s)
      | Ok sb =>
          match configured with
          | Err e => (RError 500 "configure_failed" e, s)
          | Ok _ =>
              (RBound {| bs_SandboxID := sb_id sb; bs_IsolationTier := tier;
                         bs_BoundAt := sb_boundAt sb; bs_ExpiresAt := sb_expiresAt sb;
                         bs_BwrapArgs := sb_argv sb |},
               bind_publish sb s)
          end
      end
  end.

(** [expire]: also what the timer and [handleUnbind] do. *)
Definition expire (s : ExecdServer) : ExecdServer :=
  if es_expired s then s
  else {| es_sb := None; es_expired := true; es_timer := None |}.

(** ** The data plane *)

Definition authorised (s : ExecdServer) (r : Request) : option sandbox :=
  match es_sb s with
  | None => None
  | Some sb => if tokenMatches (execd_bearer r) (sb_token sb) then Some sb else None
  end.

(** [fmt.Sscanf(v, "%d", &extend)] on a variable that is zero: blanks, a sign
    and the digits that follow, left at zero where that is no 64-bit number. *)
Fixpoint take_digits (s : string) : string :=
  match s with
  | String a s' => match digit_val a with Some _ => String a (take_digits s') | None => "" end
  | EmptyString => ""
  end.
Definition scan_int (v : string) : Z :=
  let v := trim_left v in
  match v with
  | String a v' =>
      if ascii_dec a "-" then default 0%Z (atoi (String a (take_digits v')))
      else if ascii_dec a "+" then default 0%Z (atoi (take_digits v'))
      else default 0%Z (atoi (take_digits v))
  | EmptyString => 0%Z
  end.
Definition extend_seconds (r : Request) : Z :=
  let v := query_get (parse_query (u_RawQuery (rq_URL r))) "ttlSeconds" in
  let extend := if negb (bool_decide (v = "")) then scan_int v else 0%Z in
  if (extend <=? 0)%Z then 300%Z else extend.

Definition keepalive (now : Time) (r : Request) (id : string) (s : ExecdServer) : Reply * ExecdServer :=
  match es_sb s with
  | None => (RError 410 "expired" "this sandbox has expired", s)
  | Some sb =>
      if negb (bool_decide (sb_id sb = id)) then
        (RError 410 "expired" "this sandbox has expired", s)
      else
        let t := (now + seconds (extend_seconds r))%Z in
        (RExpiresAt t,
         {| es_sb := Some {| sb_id := sb_id sb; sb_tenant := sb_tenant sb; sb_token := sb_token sb;
                             sb_boundAt := sb_boundAt sb; sb_expiresAt := t; sb_argv := sb_argv sb |};
            es_expired := es_expired s;
            es_timer := match es_timer s with Some _ => Some t | None => None end |})
  end.

(** [requireSandbox] in front of the proxy into the namespace. *)
Definition data_plane (now : Time) (r : Request) (s : ExecdServer) : Reply * ExecdServer :=
  match authorised s r with
  | None => (RError 401 "unauthorized" "invalid or missing sandbox token", s)
  | Some sb =>
      if negb (is_zero_time (sb_expiresAt sb)) && after now (sb_expiresAt sb) then
        (RError 410 "expired" "this sandbox has expired", s)
      else if bool_decide (u_Path (rq_URL r) = "/v1/keepalive") && bool_decide (rq_Method r = "POST")
      then keepalive now r (sb_id sb) s
      else (RProxied (header_del "Authorization" (rq_Header r)), s)
  end.

Definition handleStatus (tier : Tier) (reason : string) (startedAt : Time) (s : ExecdServer)
  : StatusResponse :=
  {| st_IsolationTier := tier; st_TierReason := reason;
     st_Bound := match es_sb s with Some _ => true | None => false end;
     st_SandboxID := match es_sb s with Some sb => sb_id sb | None => "" end;
     st_ExpiresAt := match es_sb s with
                     | Some sb => if is_zero_time (sb_expiresAt sb) then None else Some (sb_expiresAt sb)
                     | None => None
                     end;
     st_StartedAt := startedAt |}.

(** ** One sandbox for a Pod's whole life *)

(** What may happen to a Pod, one whole handler at a time: the TTL timer and an
    unbind both expire it. *)
Inductive Op :=
| OpBind (w : World) (configured : result string unit) (req : BindRequest)
| OpExpire
| OpData (now : Time) (r : Request).

Section Life.
Context (cfg : Config) (tier : Tier) (render : LaunchError -> string).

Definition handle (o : Op) (s : ExecdServer) : Reply * ExecdServer :=
  match o with
  | OpBind w configured req => handleBind cfg tier render w configured req s
  | OpExpire => (ROk, expire s)
  | OpData now r => data_plane now r s
  end.
Definition History : Type := list (Op * Reply).
Definition advance (hs : History * ExecdServer) (o : Op) : History * ExecdServer :=
  let '(h, s) := hs in
  let '(reply, s') := handle o s in
  (h ++ [(o, reply)], s').
Definition life (ops : list Op) : History * ExecdServer := foldl advance ([], New) ops.

Definition is_bound (e : Op * Reply) : bool :=
  match snd e with RBound _ => true | _ => false end.
Definition is_expire (e : Op * Reply) : bool :=
  match fst e with OpExpire => true | _ => false end.
(** The deadline in force: the bind's, or what the last keepalive answered. *)
Definition deadline_step (t : Time) (e : Op * Reply) : Time :=
  match snd e with
  | RBound resp => bs_ExpiresAt resp
  | RExpiresAt t' => t'
  | _ => t
  end.
Definition deadline (h : History) : Time := foldl deadline_step 0%Z h.

(** What was answered for the sandbox this Pod was bound to. *)
Definition bound_by (h : History) (id token : string) : Prop :=
  exists w configured req resp,
    (OpBind w configured req, RBound resp) ∈ h /\
    br_SandboxID req = id /\ bs_SandboxID resp = id /\ br_Token req = token /\ token <> "".
Definition bounds (h : History) : nat := length (List.filter is_bound h).

Record life_inv (h : History) (s : ExecdServer) : Prop := {
  li_once : (bounds h <= 1)%nat;
  li_bound : forall sb, es_sb s = Some sb ->
    bound_by h (sb_id sb) (sb_token sb) /\ existsb is_expire h = false /\ deadline h = sb_expiresAt sb;
  li_unbound : es_sb s = None -> es_expired s = false -> bounds h = 0%nat;
  li_expired : es_expired s = true -> es_sb s = None;
  li_live : es_expired s = false -> existsb is_expire h = false;
  li_proxied : forall h1 now r hd h2, h = h1 ++ (OpData now r, RProxied hd) :: h2 ->
    exists id, bound_by h1 id (execd_bearer r) /\ existsb is_expire h1 = false /\
      (deadline h1 = 0%Z \/ (now <= deadline h1)%Z) /\
      hd = header_del "Authorization" (rq_Header r) }.

Lemma bound_by_app h l id token : bound_by h id token -> bound_by (h ++ l) id token.
Proof.
  intros (w & c & req & resp & H & ?). exists w, c, req, resp. split; [|done].
  apply elem_of_app. by left.
Qed.
Lemma bounds_app h l : bounds (h ++ l) = (bounds h + bounds l)%nat.
Proof. unfold bounds. by rewrite List.filter_app, length_app. Qed.
Lemma deadline_app h e : deadline (h ++ [e]) = deadline_step (deadline h) e.
Proof. unfold deadline. by rewrite foldl_app. Qed.
Lemma expire_app h e : existsb is_expire (h ++ [e]) = existsb is_expire h || is_expire e.
Proof. rewrite existsb_app. cbn. by rewrite orb_false_r. Qed.

(** The clause about proxied requests grows with the history. *)
Lemma proxied_app h s o reply :
  life_inv h s ->
  (forall now r hd, o = OpData now r -> reply = RProxied hd ->
    exists id, bound_by h id (execd_bearer r) /\ existsb is_expire h = false /\
      (deadline h = 0%Z \/ (now <= deadline h)%Z) /\ hd = header_del "Authorization" (rq_Header r)) ->
  forall h1 now r hd h2, h ++ [(o, reply)] = h1 ++ (OpData now r, RProxied hd) :: h2 ->
    exists id, bound_by h1 id (execd_bearer r) /\ existsb is_expire h1 = false /\
      (deadline h1 = 0%Z \/ (now <= deadline h1)%Z) /\
      hd = header_del "Authorization" (rq_Header r).
Proof.
  intros Hinv Hnew h1 now r hd h2 E.
  destruct h2 as [|e h2] using rev_ind.
  - apply app_inj_tail in E as [<- [= -> ->]]. by apply Hnew.
  - change ((OpData now r, RProxied hd) :: h2 ++ [e]) with (((OpData now r, RProxied hd) :: h2) ++ [e]) in E.
    rewrite app_assoc in E. apply app_inj_tail in E as [-> _]. by eapply (li_proxied _ _ Hinv).
Qed.

(** A handler that neither binds, extends nor expires leaves everything true. *)
Lemma inv_idle h s o reply :
  life_inv h s -> is_expire (o, reply) = false ->
  match reply with RBound _ | RExpiresAt _ => False | _ => True end ->
  (forall now r hd, o = OpData now r -> reply = RProxied hd ->
    exists id, bound_by h id (execd_bearer r) /\ existsb is_expire h = false /\
      (deadline h = 0%Z \/ (now <= deadline h)%Z) /\ hd = header_del "Authorization" (rq_Header r)) ->
  life_inv (h ++ [(o, reply)]) s.
Proof.
  intros Hinv He Hr Hp. assert (Hb : bounds [(o, reply)] = 0%nat) by by destruct reply.
  assert (Hd : deadline_step (deadline h) (o, reply) = deadline h) by by destruct reply.
  constructor.
  - rewrite bounds_app, Hb. pose proof (li_once _ _ Hinv). lia.
  - intros sb Hs. destruct (li_bound _ _ Hinv sb Hs) as (H1 & H2 & H3).
    split; [by apply bound_by_app|]. rewrite expire_app, deadline_app, H2, He, Hd. done.
  - intros Hs Hx. by rewrite bounds_app, Hb, (li_unbound _ _ Hinv Hs Hx).
  - apply (li_expired _ _ Hinv).
  - intros Hx. by rewrite expire_app, He, (li_live _ _ Hinv Hx).
  - by apply proxied_app with (s := s).
Qed.

Lemma launch_ok w req sb :
  launch w cfg req = Ok sb ->
  sb_id sb = br_SandboxID req /\ sb_token sb = br_Token req.
Proof.
  unfold launch. destruct (bind_argv w cfg req) as [[argv files]|e]; [|done]. cbn.
  destruct (w_Start w argv files); [|done]. destruct (w_Socket w); [|done]. by intros [= <-].
Qed.
Lemma bind_check_ok s req :
  bind_check s req = None -> br_Token req <> "" /\ es_sb s = None /\ es_expired s = false.
Proof.
  unfold bind_check. case_bool_decide; [done|]. case_bool_decide; [done|]. cbn [orb].
  destruct (es_sb s); [done|]. by destruct (es_expired s).
Qed.
Lemma tokenMatches_spec got want : tokenMatches got want = true <-> got = want /\ want <> "".
Proof. unfold tokenMatches. repeat case_bool_decide; cbn; intuition congruence. Qed.

Lemma inv_bind h s w configured req :
  life_inv h s -> let '(reply, s') := handleBind cfg tier render w configured req s in
  life_inv (h ++ [(OpBind w configured req, reply)]) s'.
Proof.
  intros Hinv. unfold handleBind. destruct (bind_check s req) as [refusal|] eqn:Hc.
  { assert (match refusal with RBound _ | RExpiresAt _ => False | _ => True end).
    { revert Hc. unfold bind_check. destruct (_ || _); [by intros [= <-]|].
      destruct (es_sb s); [by intros [= <-]|]. by destruct (es_expired s); [intros [= <-]|]. }
    by apply inv_idle. }
  destruct (launch w cfg req) as [sb|e] eqn:Hl; [|by apply inv_idle].
  destruct configured as [[]|e]; [|by apply inv_idle].
  apply bind_check_ok in Hc as (Htok & Hs & Hx). destruct (launch_ok _ _ _ Hl) as [Hid Ht].
  pose proof (li_unbound _ _ Hinv Hs Hx) as Hb.
  set (resp := {| bs_SandboxID := _ |}).
  constructor; cbn [es_sb es_expired bind_publish].
  - rewrite bounds_app, Hb. cbn. lia.
  - intros sb' [= <-]. split; [|split].
    + exists w, (Ok tt), req, resp. split; [apply elem_of_app; right; left|]. by rewrite Ht.
    + rewrite expire_app. cbn. rewrite orb_false_r.
      apply (li_live _ _ Hinv Hx).
    + rewrite deadline_app. reflexivity.
  - done.
  - congruence.
  - intros _. by rewrite expire_app, (li_live _ _ Hinv Hx).
  - apply proxied_app with (s := s); [done|]. intros ? ? ? [=].
Qed.

Lemma inv_expire h s : life_inv h s -> life_inv (h ++ [(OpExpire, ROk)]) (expire s).
Proof.
  intros Hinv. unfold expire. destruct (es_expired s) eqn:Hx.
  - pose proof (li_expired _ _ Hinv Hx) as Hs. constructor.
    + rewrite bounds_app. cbn. pose proof (li_once _ _ Hinv). lia.
    + congruence.
    + congruence.
    + done.
    + congruence.
    + apply proxied_app with (s := s); [done|]. intros ? ? ? [=].
  - constructor; cbn; try done.
    + rewrite bounds_app. cbn. pose proof (li_once _ _ Hinv). lia.
    + apply proxied_app with (s := s); [done|]. intros ? ? ? [=].
Qed.

Lemma inv_data h s now r :
  life_inv h s -> let '(reply, s') := data_plane now r s in
  life_inv (h ++ [(OpData now r, reply)]) s'.
Proof.
  intros Hinv. unfold data_plane, authorised.
  destruct (es_sb s) as [sb|] eqn:Hs; [|by apply inv_idle].
  destruct (tokenMatches _ _) eqn:Hm; [|by apply inv_idle].
  apply tokenMatches_spec in Hm as [Hm _].
  destruct (li_bound _ _ Hinv sb Hs) as (Hb & He & Hd).
  destruct (negb _ && _) eqn:Hlate; [by apply inv_idle|].
  destruct (_ && bool_decide (rq_Method r = "POST")).
  - unfold keepalive. rewrite Hs, bool_decide_true by done. cbn [negb]. cbv zeta.
    constructor; cbn [es_sb es_expired].
    + rewrite bounds_app. cbn. pose proof (li_once _ _ Hinv). lia.
    + intros sb' [= <-]. cbn. split; [by apply bound_by_app|].
      by rewrite expire_app, deadline_app, He.
    + done.
    + intros Hx. pose proof (li_expired _ _ Hinv Hx). congruence.
    + intros Hx. by rewrite expire_app, (li_live _ _ Hinv Hx).
    + apply proxied_app with (s := s); [done|]. intros ? ? ? _ [=].
  - apply inv_idle; [done..|]. intros ??? [= <- <-] [= <-]. exists (sb_id sb).
    split; [by rewrite Hm|]. split; [done|]. split; [|done].
    rewrite Hd. unfold is_zero_time, after in Hlate.
    destruct (Z.eqb_spec (sb_expiresAt sb) 0); [by left|].
    destruct (Z.ltb_spec (sb_expiresAt sb) now); [done|by right].
Qed.
Lemma life_invariant ops : let '(h, s) := life ops in life_inv h s.
Proof.
  unfold life. assert (H0 : life_inv [] New).
  { constructor; cbn; [lia|done..|]. by intros [|]. }
  revert H0. generalize (@nil (Op * Reply)) New.
  induction ops as [|o ops IH]; intros h s Hinv; [exact Hinv|]. cbn [foldl].
  assert (Hn : let '(h', s') := advance (h, s) o in life_inv h' s').
  { unfold advance. destruct o as [w c req| |now r]; cbn [handle].
    - pose proof (inv_bind h s w c req Hinv) as H. by destruct (handleBind _ _ _ _ _ _ _).
    - by apply inv_expire.
    - pose proof (inv_data h s now r Hinv) as H. by destruct (data_plane _ _ _). }
  destruct (advance (h, s) o) as [h' s']. by apply IH.
Qed.
End Life.

(** C5: a Pod serves one sandbox for its whole life: over any sequence of bind
    requests, expiries, unbinds and data-plane requests, each handled without
    another in between, at most one bind succeeds; a request reaches the
    namespace only with that bind's token, before any expiry and not after the
    deadline the bind or the last keepalive answered, and without its
    Authorization header. *)
Theorem pod_serves_one cfg tier render ops h s :
  life cfg tier render ops = (h, s) ->
  (bounds h <= 1)%nat /\
  (existsb is_expire h = true -> es_sb s = None) /\
  forall h1 now r hd h2, h = h1 ++ (OpData now r, RProxied hd) :: h2 ->
    exists id, bound_by h1 id (execd_bearer r) /\ existsb is_expire h1 = false /\
      (deadline h1 = 0%Z \/ (now <= deadline h1)%Z) /\
      hd = header_del "Authorization" (rq_Header r).
Proof.
  intros E. pose proof (life_invariant cfg tier render ops) as Hinv. rewrite E in Hinv.
  split; [apply (li_once _ _ _ _ Hinv) || apply (li_once _ _ Hinv)|]. split.
  - intros He. destruct (es_expired s) eqn:Hx; [by apply (li_expired _ _ Hinv)|].
    by rewrite (li_live _ _ Hinv Hx) in He.
  - apply (li_proxied _ _ Hinv).
Qed.

(** ** What handlers that overlap can do *)

(** Two binds that both pass the check before either publishes: the second
    replaces the first, and its token opens the Pod. *)
Lemma overlapping_binds req1 req2 sb1 sb2 :
  bind_check New req1 = None -> bind_check New req2 = None ->
  es_sb (bind_publish sb2 (bind_publish sb1 New)) = Some sb2.
Proof. done. Qed.
(** An expiry between the check and the publication leaves a live sandbox on a
    Pod that calls itself expired, and that no later expiry takes down. *)
Lemma bind_over_expiry sb :
  let s := bind_publish sb (expire New) in es_sb s = Some sb /\ es_expired s = true /\ expire s = s.
Proof. done. Qed.

(** A keepalive gives a sandbox that was never to expire a deadline, and no
    timer: from then on the data plane refuses while the sandbox runs on. *)
Lemma keepalive_ends_endless now r sb s :
  es_sb s = Some sb -> es_timer s = None ->
  exists t sb', snd (keepalive now r (sb_id sb) s) =
    {| es_sb := Some sb'; es_expired := es_expired s; es_timer := None |} /\
    sb_expiresAt sb' = t /\ t = (now + seconds (extend_seconds r))%Z.
Proof.
  intros Hs Ht. unfold keepalive. rewrite Hs, bool_decide_true by done. cbn [negb snd]. rewrite Ht.
  by eexists _, _.
Qed.

(** The sandbox's token, where the API server's proxy makes the gateway put it,
    is passed on into the namespace. *)
Lemma control_token_travels r :
  header_del "Authorization" (rq_Header r) !! ControlTokenHeader = rq_Header r !! ControlTokenHeader.
Proof. unfold header_del. by rewrite lookup_delete_ne. Qed.

(** ** Every mount is bound from the directory that was pinned for it *)

Lemma open_mounts_spec w volumes ms files0 fds0 files fds :
  open_mounts w volumes ms files0 fds0 = Ok (files, fds) -> NoDup (map m_Path ms) ->
  exists opened, files = files0 ++ opened /\ length opened = length ms /\
    (forall i m, ms !! i = Some m -> exists f,
       w_OpenMount w (default "" (volumes !! src_Volume (m_Source m))) (src_SubPath (m_Source m)) = Ok f /\
       opened !! i = Some f /\
       fds !! m_Path m = Some (3 + Z.of_nat (length files0) + Z.of_nat i)%Z) /\
    forall p, p ∉ map m_Path ms -> fds !! p = fds0 !! p.
Proof.
  revert files0 fds0. induction ms as [|m ms IH]; intros files0 fds0; cbn [open_mounts map].
  { intros [= -> ->] _. exists []. by rewrite app_nil_r. }
  destruct (w_OpenMount w _ _) as [f|e] eqn:Ef; [|done]. intros H [Hm Hnd]%NoDup_cons.
  apply IH in H as (opened & -> & Hl & Hms & Hrest); [|done].
  exists (f :: opened). rewrite <-app_assoc. split; [done|]. split; [cbn; by rewrite Hl|].
  rewrite length_app in Hms. cbn [length] in Hms. split.
  - intros [|i] m' Hi; cbn in Hi.
    + injection Hi as <-. exists f. split; [done|]. split; [done|].
      rewrite Hrest by done. rewrite lookup_insert_eq. f_equal. lia.
    + destruct (Hms i m' Hi) as (f' & H1 & H2 & H3). exists f'. split; [done|]. split; [done|].
      rewrite H3. f_equal. lia.
  - intros p. rewrite not_elem_of_cons. intros [Hp Hps]. rewrite Hrest by done.
    by rewrite lookup_insert_ne.
Qed.

(** The mounts' arguments stand in the generated ones, in order. *)
Lemma Generate_mounts stat spec p l g :
  Generate stat spec p l = Ok g ->
  exists mts pre post, mountsArgs p (orderedMounts (fs_Mounts spec)) = Ok mts /\ g = pre ++ mts ++ post.
Proof.
  unfold Generate. destruct (Validate p spec l) as [[]|e]; [|done].
  destruct (mountsArgs _ _) as [mts|e]; [|done]. cbv zeta. intros [= <-].
  exists mts, (namespaceArgs p ++ systemArgs spec p l ++ ["--bind"; WorkspaceDir l; workspacePath spec]).
  eexists. split; [done|]. rewrite <-!app_assoc. reflexivity.
Qed.

(** The arguments of one mount, bound by descriptor. *)
Definition pinned_args (m : Mount) (fd : Z) : list string :=
  [if m_ReadOnly m then "--ro-bind-fd" else "--bind-fd"; bw_itoa fd; m_Path m].

(** C6: in filesystem mode bubblewrap is never given a path to resolve for a
    tenant's mount: each mount's directory is opened beneath its volume's root,
    the i-th at descriptor 3+i, and the arguments for that mount name exactly
    that descriptor, with the mount's own access; the last file is the seccomp
    filter, at the descriptor the leading [--seccomp] names. *)
Theorem bind_argv_pins w cfg req argv files :
  bind_argv w cfg req = Ok (argv, files) -> cfg_Tier cfg = TierFilesystem ->
  let ms := fs_Mounts (br_Filesystem req) in
  exists g fds filter mts pre post,
    argv = "--seccomp" :: itoa (3 + Z.of_nat (length ms)) :: g /\
    Generate (cfg_StatIsDir cfg) (br_Filesystem req) (bind_policy cfg fds) (cfg_Layout cfg) = Ok g /\
    w_Filter w = Ok filter /\ files !! length ms = Some filter /\ length files = S (length ms) /\
    mountsArgs (bind_policy cfg fds) (orderedMounts ms) = Ok mts /\ g = pre ++ mts ++ post /\
    forall i m, ms !! i = Some m -> exists f,
      w_OpenMount w (default "" (cfg_Volumes cfg !! src_Volume (m_Source m))) (src_SubPath (m_Source m)) = Ok f /\
      files !! i = Some f /\
      mountArgs (bind_policy cfg fds) m = Ok (pinned_args m (3 + Z.of_nat i)).
Proof.
  unfold bind_argv. cbv zeta. intros H Ht. rewrite Ht in H.
  destruct (Validate _ _ _) as [[]|e] eqn:Hv; [|done].
  rewrite bool_decide_true in H by done.
  destruct (open_mounts _ _ _ _ _) as [[fs fds]|e] eqn:Ho; [|done]. cbn in H.
  destruct (Generate _ _ _ _) as [g|e] eqn:Hg; [|done].
  destruct (w_Filter w) as [filter|e] eqn:Hf; [|done]. injection H as <- <-.
  apply Validate_iff in Hv. pose proof (ok_nodup _ _ _ Hv) as Hnd.
  apply open_mounts_spec in Ho as (opened & -> & Hl & Hms & _); [|done]. cbn [app] in *.
  rewrite Hl. destruct (Generate_mounts _ _ _ _ _ Hg) as (mts & pre & post & Hmts & Eg).
  exists g, fds, filter, mts, pre, post.
  split; [done|]. split; [done|]. split; [done|].
  split; [by rewrite lookup_app_r, Hl, Nat.sub_diag by lia|].
  split; [rewrite length_app, Hl; cbn; lia|]. split; [done|].
  split; [exact Eg|].
  intros i m Hi. destruct (Hms i m Hi) as (f & H1 & H2 & H3). exists f. split; [done|].
  split; [by apply lookup_app_l_Some|].
  unfold mountArgs. cbn [SourceFDs bind_policy]. rewrite H3. unfold pinned_args.
  by destruct (m_ReadOnly m).
Qed.

(** ** Witnesses *)

Definition wit_cfg : Config :=
  {| cfg_Layout := DefaultLayout; cfg_Tier := TierFilesystem;
     cfg_Volumes := {[ "data" := "/var/lib/jdix/vol/data" ]}; cfg_UID := 1000; cfg_GID := 1000;
     cfg_InternalToken := "jct"; cfg_StatIsDir := fun _ => true |}.
Definition wit_world : World :=
  {| w_OpenMount := fun root sub => Ok (root +:+ ":" +:+ sub); w_Filter := Ok "bpf";
     w_Start := fun _ _ => Ok 42%Z; w_Socket := Ok tt; w_Diag := ""; w_Now := 100%Z |}.
Definition wit_bind : BindRequest :=
  {| br_SandboxID := "sbx-1"; br_Tenant := "acme";
     br_Filesystem :=
       {| fs_Workspace := {| ws_Path := ""; ws_SizeLimit := "" |};
          fs_Mounts := [{| m_Path := "/data/a"; m_Source := {| src_Volume := "data"; src_SubPath := "a" |};
                           m_ReadOnly := true |};
                        {| m_Path := "/data"; m_Source := {| src_Volume := "data"; src_SubPath := "" |};
                           m_ReadOnly := false |}];
          fs_AllowSystemPaths := []; fs_Hide := [] |};
     br_Env := ∅; br_Secrets := ∅; br_TTLSeconds := 60; br_Token := "st_1" |}.
Definition wit_data_request : Request :=
  {| rq_Method := "GET"; rq_Host := "pod"; rq_URL := wit_url "/v1/exec";
     rq_Header := {[ "Authorization" := ["Bearer st_1"] ]}; rq_RemoteAddr := "10.1.2.3:9";
     rq_TLS := false; rq_Body := "" |}.
Definition wit_ops : list Op :=
  [OpBind wit_world (Ok tt) wit_bind; OpData 200%Z wit_data_request;
   OpBind wit_world (Ok tt) wit_bind; OpExpire; OpData 201%Z wit_data_request].

Lemma bind_argv_pins_wit : exists argv,
  bind_argv wit_world wit_cfg wit_bind =
    Ok (argv, ["/var/lib/jdix/vol/data:a"; "/var/lib/jdix/vol/data:"; "bpf"]) /\
  take 2 argv = ["--seccomp"; "5"] /\
  exists f, ["/var/lib/jdix/vol/data:a"; "/var/lib/jdix/vol/data:"; "bpf"] !! 1%nat = Some f /\
    w_OpenMount wit_world "/var/lib/jdix/vol/data" "" = Ok f.
Proof.
  eexists. assert (E : bind_argv wit_world wit_cfg wit_bind = Ok (_, _)) by (vm_compute; reflexivity).
  split; [exact E|]. split; [reflexivity|].
  destruct (bind_argv_pins wit_world wit_cfg wit_bind _ _ E eq_refl)
    as (g & fds & filter & mts & pre & post & _ & _ & _ & _ & _ & _ & _ & H).
  destruct (H 1%nat _ eq_refl) as (f & H1 & H2 & _).
  exists f. split; [exact H2|exact H1].
Defined.
Definition wit_replies : list Reply :=
  [RProxied ∅; RError 409 "already_bound" "this Pod is already bound to sandbox sbx-1"; ROk;
   RError 401 "unauthorized" "invalid or missing sandbox token"].
Lemma pod_serves_one_wit : exists h s,
  life wit_cfg TierFilesystem (fun _ => "") wit_ops = (h, s) /\
  (bounds h <= 1)%nat /\ es_sb s = None /\
  map snd (drop 1 h) = wit_replies.
Proof.
  destruct (life wit_cfg TierFilesystem (fun _ => "") wit_ops) as [h s] eqn:E. exists h, s.
  destruct (pod_serves_one wit_cfg TierFilesystem (fun _ => "") wit_ops h s E) as (H1 & H2 & _).
  assert (Hh : existsb is_expire h = true /\ map snd (drop 1 h) = wit_replies).
  { change h with (fst (h, s)). rewrite <-E. split; vm_compute; reflexivity. }
  split; [reflexivity|]. split; [exact H1|]. split; [exact (H2 (proj1 Hh))|].
  exact (proj2 Hh).
Defined.
