(* ===== verification/Isolation.v ===== *)
(** * Measuring and narrowing isolation (pkg/isolation)

    The seccomp program [WorkloadFilter] builds, with the classic BPF machine
    that runs it, and the two probes with what the node answers them.  The check
    from inside the view and the filesystem probe are ProbeView.v's, the sealed
    file the program is handed over in is FilterFile.v's. *)
From S2P Require Import Prelude GoStrings Bwrap.
Open Scope string_scope.
Open Scope list_scope.
Open Scope Z_scope.

(** ** Classic BPF, as seccomp runs it *)

Record SockFilter := { Code : Z; Jt : nat; Jf : nat; K : Z }.

Definition BPF_LD : Z := 0.
Definition BPF_W : Z := 0.
Definition BPF_ABS : Z := 32.
Definition BPF_JMP : Z := 5.
Definition BPF_JEQ : Z := 16.
Definition BPF_JSET : Z := 64.
Definition BPF_RET : Z := 6.
Definition BPF_K : Z := 0.
Definition SECCOMP_RET_KILL_PROCESS : Z := 2147483648.
Definition SECCOMP_RET_ERRNO : Z := 327680.
Definition SECCOMP_RET_ALLOW : Z := 2147418112.
Definition EPERM : Z := 1.
Definition ENOSYS : Z := 38.

Definition load_word : Z := Z.lor (Z.lor BPF_LD BPF_W) BPF_ABS.
Definition jump_eq : Z := Z.lor (Z.lor BPF_JMP BPF_JEQ) BPF_K.
Definition jump_set : Z := Z.lor (Z.lor BPF_JMP BPF_JSET) BPF_K.
Definition return_k : Z := Z.lor BPF_RET BPF_K.

(** [struct seccomp_data]: the words at offsets 0, 4 and 16 (the low half of
    the first argument on a little-endian machine). *)
Record seccomp_data := { sd_nr : Z; sd_arch : Z; sd_arg0 : Z }.
Definition load (d : seccomp_data) (off : Z) : option Z :=
  if (off =? 0) then Some (sd_nr d)
  else if (off =? 4) then Some (sd_arch d)
  else if (off =? 16) then Some (sd_arg0 d)
  else None.
(** [skip] instructions are jumped over; jumps only go forward.  [None] is a
    program the kernel would not have accepted. *)
Fixpoint bpf (prog : list SockFilter) (skip : nat) (d : seccomp_data) (acc : Z) : option Z :=
  match prog with
  | [] => None
  | i :: rest =>
      match skip with
      | S n => bpf rest n d acc
      | O =>
          if Code i =? load_word then
            match load d (K i) with Some v => bpf rest 0 d v | None => None end
          else if Code i =? jump_eq then bpf rest (if acc =? K i then Jt i else Jf i) d acc
          else if Code i =? jump_set then
            bpf rest (if negb (Z.land acc (K i) =? 0) then Jt i else Jf i) d acc
          else if Code i =? return_k then Some (K i)
          else None
      end
  end.

(** ** WorkloadFilter *)

(** The numbers of one architecture, from the kernel's headers. *)
Record Arch := {
  audit_arch : Z;
  denied : list Z;
  SYS_CLONE3 : Z;
  SYS_CLONE : Z }.
(** unshare, setns, mount, umount2, pivot_root, chroot, ptrace,
    process_vm_readv, process_vm_writev, pidfd_getfd, open_by_handle_at,
    name_to_handle_at, open_tree, move_mount, fsopen, fsmount, fsconfig, fspick,
    mount_setattr, bpf, perf_event_open, userfaultfd, io_uring_setup *)
Definition amd64 : Arch :=
  {| audit_arch := 3221225534;
     denied := [272; 308; 165; 166; 155; 161; 101; 310; 311; 438; 304; 303; 428; 429; 430; 432;
                431; 433; 442; 321; 298; 323; 425];
     SYS_CLONE3 := 435; SYS_CLONE := 56 |}.
Definition arm64 : Arch :=
  {| audit_arch := 3221225655;
     denied := [97; 268; 40; 39; 41; 51; 117; 270; 271; 438; 265; 264; 428; 429; 430; 432; 431;
                433; 442; 280; 241; 282; 425];
     SYS_CLONE3 := 435; SYS_CLONE := 220 |}.
Definition arch_of (goarch : string) : option Arch :=
  if bool_decide (goarch = "arm64"%string) then Some arm64
  else if bool_decide (goarch = "amd64"%string) then Some amd64
  else None.

(** CLONE_NEWUSER, NEWNS, NEWPID, NEWNET, NEWIPC, NEWUTS and NEWCGROUP. *)
Definition clone_namespaces : Z :=
  fold_right Z.lor 0 [268435456; 131072; 536870912; 1073741824; 134217728; 67108864; 33554432].

Definition instr (code : Z) (k : Z) (jt jf : nat) : SockFilter :=
  {| Code := code; Jt := jt; Jf := jf; K := k |}.
Definition deny (n errno : Z) : list SockFilter :=
  [instr jump_eq n 0 1; instr return_k (Z.lor SECCOMP_RET_ERRNO errno) 0 0].
Definition x32_bit : Z := 1073741824.
Definition workload_program (a : Arch) : list SockFilter :=
  [instr load_word 4 0 0;
   instr jump_eq (audit_arch a) 1 0;
   instr return_k SECCOMP_RET_KILL_PROCESS 0 0;
   instr load_word 0 0 0;
   instr jump_set x32_bit 0 1;
   instr return_k SECCOMP_RET_KILL_PROCESS 0 0] ++
  concat (map (fun n => deny n EPERM) (denied a)) ++
  deny (SYS_CLONE3 a) ENOSYS ++
  [instr jump_eq (SYS_CLONE a) 0 3;
   instr load_word 16 0 0;
   instr jump_set clone_namespaces 0 1;
   instr return_k (Z.lor SECCOMP_RET_ERRNO EPERM) 0 0;
   instr return_k SECCOMP_RET_ALLOW 0 0].
Definition WorkloadFilter (goarch : string) : option (list SockFilter) :=
  option_map workload_program (arch_of goarch).

(** ** Detect *)

Record Result := { res_Tier : Tier; res_Reason : string; res_Probes : gmap string string }.

Definition take200 (s : string) : string := take_string 200 s.
Definition trim (out err : string) : string :=
  let s := if (200 <? String.length out)%nat then take200 out else out in
  if bool_decide (s = ""%string) then err else s.

Definition probeBase : list string :=
  ["--ro-bind-try"; "/usr"; "/usr"; "--ro-bind-try"; "/bin"; "/bin"; "--ro-bind-try"; "/lib"; "/lib";
   "--ro-bind-try"; "/lib64"; "/lib64"; "--ro-bind-try"; "/sbin"; "/sbin"; "--proc"; "/proc";
   "--dev"; "/dev"; "--tmpfs"; "/tmp"; "--die-with-parent"; "--"; "/bin/true"]%string.
Definition probeArgsUserns : list string :=
  (["--unshare-user"; "--unshare-pid"; "--unshare-ipc"; "--unshare-uts"; "--uid"; "1000"; "--gid";
    "1000"]%string ++ probeBase).
Definition probeArgsCapAdmin : list string :=
  (["--unshare-pid"; "--unshare-ipc"; "--unshare-uts"]%string ++ probeBase).

(** What the node answers: looking the binary up, running it (its output, and
    an error if it failed), and the capability. *)
Record Node := {
  n_GOOS : string;
  n_LookPath : string -> option string;
  n_Run : string -> list string -> string * option string;
  n_HasChroot : bool }.

Definition probed (tier : Tier) (reason : string) (probes : gmap string string) : Result :=
  {| res_Tier := tier; res_Reason := reason; res_Probes := probes |}.
Definition Detect (n : Node) (bwrapPath : string) : Result :=
  let probes := {[ "goos"%string := n_GOOS n ]} in
  if negb (bool_decide (n_GOOS n = "linux"%string)) then
    probed TierChroot "not running on Linux; namespaces unavailable" probes
  else
    let bwrapPath := if bool_decide (bwrapPath = ""%string) then "bwrap"%string else bwrapPath in
    match n_LookPath n bwrapPath with
    | Some err =>
        probed TierChroot ("bubblewrap not found: " +:+ err) (<["bwrap"%string := "missing"%string]> probes)
    | None =>
        match n_Run n bwrapPath probeArgsUserns with
        | (_, None) =>
            probed TierUserns "unprivileged user namespace available"
              (<["userns"%string := "ok"%string]> probes)
        | (out, Some err) =>
            let probes := <["userns"%string := trim out err]> probes in
            match n_Run n bwrapPath probeArgsCapAdmin with
            | (_, None) =>
                probed TierCapAdmin "mount namespace available via CAP_SYS_ADMIN; no user namespace"
                  (<["capadmin"%string := "ok"%string]> probes)
            | (out, Some err) =>
                let probes := <["capadmin"%string := trim out err]> probes in
                if n_HasChroot n then
                  probed TierChroot "no mount namespace; CAP_SYS_CHROOT present"
                    (<["chroot"%string := "ok"%string]> probes)
                else
                  probed TierChroot
                    "no mount namespace and no CAP_SYS_CHROOT; isolation is limited to uid separation"
                    (<["chroot"%string := "missing"%string]> probes)
            end
        end
    end.

(** ** The filter's verdicts *)

Lemma bpf_deny d n errno rest :
  bpf (deny n errno ++ rest) 0 d (sd_nr d) =
    if sd_nr d =? n then Some (Z.lor SECCOMP_RET_ERRNO errno) else bpf rest 0 d (sd_nr d).
Proof. cbn [deny app bpf instr Code K Jt Jf]. by destruct (sd_nr d =? n). Qed.
Lemma bpf_denies d ns errno rest :
  bpf (concat (map (fun n => deny n errno) ns) ++ rest) 0 d (sd_nr d) =
    if bool_decide (sd_nr d ∈ ns) then Some (Z.lor SECCOMP_RET_ERRNO errno)
    else bpf rest 0 d (sd_nr d).
Proof.
  induction ns as [|n ns IH]; cbn [map concat].
  { rewrite bool_decide_false; [done|]. by intros ?%elem_of_nil. }
  rewrite <-app_assoc, bpf_deny. destruct (Z.eqb_spec (sd_nr d) n) as [E|E].
  - rewrite bool_decide_true; [done|]. rewrite E. left.
  - rewrite IH. rewrite (bool_decide_ext (sd_nr d ∈ n :: ns) (sd_nr d ∈ ns)); [done|].
    rewrite elem_of_cons. tauto.
Qed.

(** The program [WorkloadFilter] builds decides, for every system call: a
    foreign architecture or the x32 bit kills the process; each call on the list
    fails with EPERM; clone3 with ENOSYS; clone with EPERM exactly if it asks for
    a new namespace; every other call is allowed.  It always returns, and is
    short enough for the kernel. *)
Theorem WorkloadFilter_decides goarch prog a d :
  WorkloadFilter goarch = Some prog -> arch_of goarch = Some a ->
  bpf prog 0 d 0 =
    Some (if negb (sd_arch d =? audit_arch a) then SECCOMP_RET_KILL_PROCESS
          else if negb (Z.land (sd_nr d) x32_bit =? 0) then SECCOMP_RET_KILL_PROCESS
          else if bool_decide (sd_nr d ∈ denied a) then Z.lor SECCOMP_RET_ERRNO EPERM
          else if sd_nr d =? SYS_CLONE3 a then Z.lor SECCOMP_RET_ERRNO ENOSYS
          else if (sd_nr d =? SYS_CLONE a) && negb (Z.land (sd_arg0 d) clone_namespaces =? 0)
          then Z.lor SECCOMP_RET_ERRNO EPERM
          else SECCOMP_RET_ALLOW) /\
  (length prog <= 4096)%nat.
Proof.
  unfold WorkloadFilter. intros Hp Ha. rewrite Ha in Hp. injection Hp as <-. split.
  - unfold workload_program. cbn [app bpf instr Code K Jt Jf load load_word].
    change (load_word =? load_word) with true. cbv iota. change (load d 4) with (Some (sd_arch d)).
    cbv iota. change (jump_eq =? load_word) with false. cbv iota.
    change (jump_eq =? jump_eq) with true. cbv iota.
    destruct (sd_arch d =? audit_arch a); cbn [negb bpf]; [|done].
    change (load_word =? load_word) with true. cbv iota. change (load d 0) with (Some (sd_nr d)).
    cbv iota. change (jump_set =? load_word) with false. change (jump_set =? jump_eq) with false.
    change (jump_set =? jump_set) with true. cbv iota.
    destruct (negb (Z.land (sd_nr d) x32_bit =? 0)); cbn [bpf]; [done|].
    rewrite bpf_denies. case_bool_decide; [done|]. rewrite bpf_deny.
    destruct (sd_nr d =? SYS_CLONE3 a); [done|]. cbn [bpf instr Code K Jt Jf].
    change (jump_eq =? load_word) with false. change (jump_eq =? jump_eq) with true. cbv iota.
    destruct (sd_nr d =? SYS_CLONE a); [|done]. cbn [bpf andb].
    change (load_word =? load_word) with true. cbv iota. change (load d 16) with (Some (sd_arg0 d)).
    cbv iota. change (jump_set =? load_word) with false. change (jump_set =? jump_eq) with false.
    change (jump_set =? jump_set) with true. cbv iota.
    by destruct (negb (Z.land (sd_arg0 d) clone_namespaces =? 0)).
  - revert Ha. unfold arch_of. do 2 (case_bool_decide; [intros [= <-]; vm_compute; lia|]). done.
Qed.

(** A tier is reported only if its own probe ran, and the strongest first. *)
Lemma Detect_sound n path :
  let r := Detect n path in
  let bin := if bool_decide (path = ""%string) then "bwrap"%string else path in
  (res_Tier r = TierUserns <->
     n_GOOS n = "linux"%string /\ n_LookPath n bin = None /\ snd (n_Run n bin probeArgsUserns) = None) /\
  (res_Tier r = TierCapAdmin ->
     snd (n_Run n bin probeArgsUserns) <> None /\ snd (n_Run n bin probeArgsCapAdmin) = None) /\
  res_Tier r <> TierFilesystem.
Proof.
  cbv zeta. unfold Detect. cbv zeta. case_bool_decide as Eg; cbn [negb].
  2: { cbn. split; [split; [done|by intros [? _]]|done]. }
  set (bin := if bool_decide (path = ""%string) then _ else _).
  destruct (n_LookPath n bin) as [err|]; [by split; [split; [done|by intros (_ & ? & _)]|]|].
  destruct (n_Run n bin probeArgsUserns) as [out [err|]]; [|by repeat split].
  destruct (n_Run n bin probeArgsCapAdmin) as [out' [err'|]]; [destruct (n_HasChroot n)|];
    cbn; (split; [split; [done|by intros (_ & _ & ?)]|done]).
Qed.

(** ** Witnesses *)

Lemma WorkloadFilter_decides_wit :
  exists prog, WorkloadFilter "amd64" = Some prog /\
    bpf prog 0 {| sd_nr := 56; sd_arch := 3221225534; sd_arg0 := 268435473 |} 0 = Some (327680 + 1).
Proof.
  exists (workload_program amd64). split; [reflexivity|].
  destruct (WorkloadFilter_decides "amd64" _ amd64
              {| sd_nr := 56; sd_arch := 3221225534; sd_arg0 := 268435473 |} eq_refl eq_refl) as [H _].
  rewrite H. vm_compute. reflexivity.
Defined.
