(* ===== verification/FilterFile.v ===== *)
(** * The seccomp program in its file (pkg/isolation/filesystem_linux.go, from line 59)

    bubblewrap is given the workload's filter as an open file.  Here
    [WorkloadFilter] is the whole function: it writes the program of
    Isolation.v, encoded, into an anonymous file, rewinds and seals it.  What
    the kernel reads back from that file is the program, and nobody changes it
    any more. *)
From S2P Require Import Prelude GoStrings Calls Isolation.
Open Scope Z_scope.
Open Scope list_scope.

(** ** The encoding *)

(** [n] bytes, the lowest first. *)
Fixpoint le_bytes (n : nat) (v : Z) : list Z :=
  match n with O => [] | S n => (v mod 256) :: le_bytes n (v / 256) end.
Fixpoint le_value (bs : list Z) : Z :=
  match bs with [] => 0 | b :: bs => b + 256 * le_value bs end.
(** [struct sock_filter]: a 16-bit code, two 8-bit jumps, a 32-bit operand. *)
Definition encode_instr (i : SockFilter) : list Z :=
  le_bytes 2 (Code i) ++ le_bytes 1 (Z.of_nat (Jt i)) ++ le_bytes 1 (Z.of_nat (Jf i)) ++ le_bytes 4 (K i).
Definition encode_program (p : list SockFilter) : list Z := concat (map encode_instr p).
(** As the kernel reads an array of them. *)
Fixpoint read_program (bs : list Z) : option (list SockFilter) :=
  match bs with
  | [] => Some []
  | c0 :: c1 :: jt :: jf :: k0 :: k1 :: k2 :: k3 :: rest =>
      option_map (cons {| Code := le_value [c0; c1]; Jt := Z.to_nat jt; Jf := Z.to_nat jf;
                          K := le_value [k0; k1; k2; k3] |}) (read_program rest)
  | _ => None
  end.

(** ** The calls *)

Definition MFD_CLOEXEC : Z := 1.
Definition MFD_ALLOW_SEALING : Z := 2.
Definition F_SEAL_SEAL : Z := 1.
Definition F_SEAL_SHRINK : Z := 2.
Definition F_SEAL_GROW : Z := 4.
Definition F_SEAL_WRITE : Z := 8.
Definition has_bits (v bits : Z) : bool := Z.land v bits =? bits.

Abbreviation Errno := Z (only parsing).
Inductive MemE : Type -> Type :=
| MemfdCreate (name : string) (flags : Z) : MemE (result Errno Z)
| WriteFile (fd : Z) (bytes : list Z) : MemE (result Errno unit)
| SeekFile (fd off : Z) : MemE (result Errno unit)
| AddSeals (fd seals : Z) : MemE (result Errno unit)
| CloseFile (fd : Z) : MemE unit.

Inductive FilterErr := Unsupported (goarch : string) | FilterErrno (e : Errno).
Definition filter_name : string := "jdix-workload-seccomp".
Definition all_seals : Z := Z.lor (Z.lor (Z.lor F_SEAL_WRITE F_SEAL_GROW) F_SEAL_SHRINK) F_SEAL_SEAL.
Definition WorkloadFilter_file (goarch : string) : Prog MemE (result FilterErr Z) :=
  match WorkloadFilter goarch with
  | None => mret (Err (Unsupported goarch))
  | Some ins =>
      r ← call (MemfdCreate filter_name (Z.lor MFD_CLOEXEC MFD_ALLOW_SEALING));
      match r with
      | Err e => mret (Err (FilterErrno e))
      | Ok fd =>
          r ← call (WriteFile fd (encode_program ins));
          match r with
          | Err e => call (CloseFile fd) ≫= fun _ => mret (Err (FilterErrno e))
          | Ok _ =>
              r ← call (SeekFile fd 0);
              match r with
              | Err e => call (CloseFile fd) ≫= fun _ => mret (Err (FilterErrno e))
              | Ok _ =>
                  r ← call (AddSeals fd all_seals);
                  match r with
                  | Err e => call (CloseFile fd) ≫= fun _ => mret (Err (FilterErrno e))
                  | Ok _ => mret (Ok fd)
                  end
              end
          end
      end
  end.

(** ** The kernel *)

Record Memfd := {
  mf_file : nat;                        (* which file it is *)
  mf_content : list Z;
  mf_offset : Z;
  mf_seals : Z;
  mf_cloexec : bool }.
Record MemKernel := { mk_fds : gmap Z Memfd; mk_next : nat }.
Definition on_fd (fd : Z) (f : Memfd -> Memfd) (s : MemKernel) : MemKernel :=
  {| mk_fds := alter f fd (mk_fds s); mk_next := mk_next s |}.
(** Bytes written over a file at an offset. *)
Definition overwritten (off : Z) (bs : list Z) (content : list Z) : list Z :=
  take (Z.to_nat off) content ++ bs ++ drop (Z.to_nat off + length bs) content.
Definition write_at (bs : list Z) (m : Memfd) : Memfd :=
  {| mf_file := mf_file m; mf_content := overwritten (mf_offset m) bs (mf_content m);
     mf_offset := mf_offset m + Z.of_nat (length bs); mf_seals := mf_seals m; mf_cloexec := mf_cloexec m |}.
Definition seek_to (off : Z) (m : Memfd) : Memfd :=
  {| mf_file := mf_file m; mf_content := mf_content m; mf_offset := off; mf_seals := mf_seals m;
     mf_cloexec := mf_cloexec m |}.
Definition sealed_with (seals : Z) (m : Memfd) : Memfd :=
  {| mf_file := mf_file m; mf_content := mf_content m; mf_offset := mf_offset m;
     mf_seals := Z.lor (mf_seals m) seals; mf_cloexec := mf_cloexec m |}.
Definition empty_memfd (flags : Z) (s : MemKernel) : Memfd :=
  {| mf_file := mk_next s; mf_content := []; mf_offset := 0;
     mf_seals := if has_bits flags MFD_ALLOW_SEALING then 0 else F_SEAL_SEAL;
     mf_cloexec := has_bits flags MFD_CLOEXEC |}.
(** Any call may fail; a write may fail half-way; a file sealed against writing
    is not written, one sealed against sealing gets no more seals. *)
Definition mem_sem (R : Type) (e : MemE R) (s : MemKernel) : R -> MemKernel -> Prop :=
  match e in MemE R return R -> MemKernel -> Prop with
  | MemfdCreate name flags => fun r s' =>
      match r with
      | Ok fd => mk_fds s !! fd = None /\
          s' = {| mk_fds := <[fd := empty_memfd flags s]> (mk_fds s); mk_next := S (mk_next s) |}
      | Err _ => s' = s
      end
  | WriteFile fd bs => fun r s' =>
      exists k, (k <= length bs)%nat /\ (is_ok r = true -> k = length bs) /\
        (k <> O -> forall m, mk_fds s !! fd = Some m -> has_bits (mf_seals m) F_SEAL_WRITE = false) /\
        s' = (match k with O => s | _ => on_fd fd (write_at (take k bs)) s end)
  | SeekFile fd off => fun r s' => s' = if is_ok r then on_fd fd (seek_to off) s else s
  | AddSeals fd seals => fun r s' =>
      (is_ok r = true -> forall m, mk_fds s !! fd = Some m -> has_bits (mf_seals m) F_SEAL_SEAL = false) /\
      s' = if is_ok r then on_fd fd (sealed_with seals) s else s
  | CloseFile fd => fun _ s' => s' = {| mk_fds := delete fd (mk_fds s); mk_next := mk_next s |}
  end.
(** Open files are known by numbers below the next one. *)
Definition numbered (s : MemKernel) : Prop :=
  forall fd m, mk_fds s !! fd = Some m -> (mf_file m < mk_next s)%nat.
(** [content] is what file [n] holds, sealed, wherever it is open. *)
Definition holds_for_good (n : nat) (content : list Z) (s : MemKernel) : Prop :=
  (n < mk_next s)%nat /\ numbered s /\
  forall fd m, mk_fds s !! fd = Some m -> mf_file m = n ->
    mf_content m = content /\ has_bits (mf_seals m) F_SEAL_WRITE = true.

(** ** Reading what was written *)

Lemma le_round n v : 0 <= v < 256 ^ Z.of_nat n -> le_value (le_bytes n v) = v.
Proof.
  revert v. induction n as [|n IH]; intros v Hv; cbn [le_bytes le_value]; [cbn in Hv; lia|].
  rewrite Nat2Z.inj_succ, Z.pow_succ_r in Hv by lia. rewrite IH; [|Z.to_euclidean_division_equations; nia].
  Z.to_euclidean_division_equations. lia.
Qed.
(** An instruction its fields are wide enough for. *)
Definition narrow (i : SockFilter) : bool :=
  ((0 <=? Code i) && (Code i <? 65536)) && ((Jt i <? 256)%nat && (Jf i <? 256)%nat) &&
  ((0 <=? K i) && (K i <? 4294967296)).
Lemma read_instr i bs :
  narrow i = true -> read_program (encode_instr i ++ bs) = option_map (cons i) (read_program bs).
Proof.
  unfold narrow. rewrite !andb_true_iff, !Z.leb_le, !Z.ltb_lt, !Nat.ltb_lt.
  intros [[[Hc1 Hc2] [Hjt Hjf]] [Hk1 Hk2]].
  pose proof (le_round 2 (Code i)) as Hc. pose proof (le_round 4 (K i)) as Hk. cbn [le_bytes] in Hc, Hk.
  unfold encode_instr. cbn [le_bytes app read_program].
  rewrite Hc, Hk by (cbn; lia). rewrite !Z.mod_small, !Nat2Z.id by lia. by destruct i.
Qed.
Lemma read_encoded p : forallb narrow p = true -> read_program (encode_program p) = Some p.
Proof.
  induction p as [|i p IH]; [done|]. cbn [forallb]. intros [Hi Hp]%andb_prop.
  unfold encode_program. cbn [map concat]. rewrite read_instr by done.
  fold (encode_program p). by rewrite IH.
Qed.
Lemma workload_narrow goarch p : WorkloadFilter goarch = Some p -> forallb narrow p = true.
Proof.
  unfold WorkloadFilter, arch_of. do 2 (case_bool_decide; [intros [= <-]; vm_compute; reflexivity|]). done.
Qed.

(** ** Sealed for good *)

Lemma numbered_on_fd s fd f :
  (forall m, mf_file (f m) = mf_file m) -> numbered s -> numbered (on_fd fd f s).
Proof.
  intros Hf Hn fd' m. cbn. destruct (decide (fd = fd')) as [->|Hne].
  - rewrite lookup_alter_eq. destruct (mk_fds s !! fd') as [m'|] eqn:E; [|done]. intros [= <-]. rewrite Hf. by eapply Hn.
  - rewrite lookup_alter_ne by done. apply Hn.
Qed.
(** A change that leaves this file alone. *)
Lemma good_on_fd n content s fd f :
  (forall m, mf_file (f m) = mf_file m) ->
  (forall m, mk_fds s !! fd = Some m -> mf_file m = n ->
     mf_content (f m) = mf_content m /\ (has_bits (mf_seals m) F_SEAL_WRITE = true ->
       has_bits (mf_seals (f m)) F_SEAL_WRITE = true)) ->
  holds_for_good n content s -> holds_for_good n content (on_fd fd f s).
Proof.
  intros Hf Hsame (Hlt & Hn & Hc). split; [done|]. split; [by apply numbered_on_fd|].
  intros fd' m. cbn. destruct (decide (fd = fd')) as [->|Hne].
  - rewrite lookup_alter_eq. destruct (mk_fds s !! fd') as [m'|] eqn:E; [|done]. intros [= <-]. rewrite Hf. intros Hm.
    destruct (Hc _ _ E Hm) as [<- Hs]. destruct (Hsame m' eq_refl Hm) as [H1 H2]. split; [done|auto].
  - rewrite lookup_alter_ne by done. apply Hc.
Qed.
Lemma lor_has_bits v w bits : has_bits v bits = true -> has_bits (Z.lor v w) bits = true.
Proof.
  unfold has_bits. rewrite !Z.eqb_eq. intros H. rewrite Z.land_lor_distr_l, H.
  apply Z.bits_inj'. intros i _. rewrite Z.lor_spec, Z.land_spec. by destruct (Z.testbit bits i), (Z.testbit w i).
Qed.
Lemma good_step n content R (e : MemE R) s r s' :
  mem_sem R e s r s' -> holds_for_good n content s -> holds_for_good n content s'.
Proof.
  destruct e as [name flags|fd bs|fd off|fd seals|fd]; cbn; intros Hs Hg.
  - destruct r as [fd|e]; [destruct Hs as [_ ->]|by subst]. destruct Hg as (Hlt & Hn & Hc).
    split; [cbn; lia|]. split; intros fd' m; cbn; (destruct (decide (fd = fd')) as [->|Hne];
      [rewrite lookup_insert_eq; intros [= <-]|rewrite lookup_insert_ne by done]); cbn.
    + lia.
    + intros H. specialize (Hn _ _ H). lia.
    + lia.
    + apply Hc.
  - destruct Hs as (k & _ & _ & Hw & ->). destruct k as [|k]; [done|].
    apply good_on_fd; [done| |done]. intros m Hm Hf. destruct Hg as (_ & _ & Hc).
    destruct (Hc _ _ Hm Hf) as [_ Hx]. by rewrite (Hw ltac:(done) m Hm) in Hx.
  - subst s'. destruct r; cbn; [|done]. by apply good_on_fd.
  - destruct Hs as [_ ->]. destruct r; cbn; [|done]. apply good_on_fd; [done| |done].
    intros m _ _. split; [done|]. apply lor_has_bits.
  - subst s'. destruct Hg as (Hlt & Hn & Hc). split; [done|]. split; intros fd' m; cbn;
      intros [_ H]%lookup_delete_Some; [by eapply Hn|by eapply Hc].
Qed.
Lemma good_forever {A} n content (q : Prog MemE A) s :
  holds_for_good n content s -> wp mem_sem q s (fun _ s' => holds_for_good n content s').
Proof.
  revert s. induction q as [a|R e k IH]; intros s Hg; cbn; [done|]. intros r s' Hs. by eapply IH, good_step.
Qed.

Lemma on_fd_insert fd f m s :
  on_fd fd f {| mk_fds := <[fd := m]> (mk_fds s); mk_next := S (mk_next s) |} =
  {| mk_fds := <[fd := f m]> (mk_fds s); mk_next := S (mk_next s) |}.
Proof. unfold on_fd. cbn. f_equal. by rewrite alter_insert_eq. Qed.
Lemma closed_again fd m s :
  mk_fds s !! fd = None -> delete fd (<[fd := m]> (mk_fds s)) = mk_fds s.
Proof. intros H. rewrite delete_insert_eq. by apply delete_id. Qed.

(** C7: the filter bubblewrap is handed.  However its system calls fail,
    [WorkloadFilter] either leaves no descriptor behind or returns a new one,
    closed on exec and rewound, on a file that, read from the start, is a program
    the kernel accepts and that decides for every system call: a foreign
    architecture or the x32 bit kills the process; each call on the list fails
    with EPERM, clone3 with ENOSYS, clone with EPERM exactly if it asks for a
    new namespace; every other call is allowed.  And whatever is done afterwards
    with any descriptor, the file holds that program. *)
Theorem filter_file_decides goarch s :
  numbered s ->
  wp mem_sem (WorkloadFilter_file goarch) s (fun r s' =>
    match r with
    | Err _ => mk_fds s' = mk_fds s
    | Ok fd => mk_fds s !! fd = None /\ exists a prog m,
        arch_of goarch = Some a /\ mk_fds s' = <[fd := m]> (mk_fds s) /\
        mf_cloexec m = true /\ mf_offset m = 0 /\
        read_program (mf_content m) = Some prog /\ (length prog <= 4096)%nat /\
        (forall d, bpf prog 0 d 0 =
           Some (if negb (sd_arch d =? audit_arch a) then SECCOMP_RET_KILL_PROCESS
                 else if negb (Z.land (sd_nr d) x32_bit =? 0) then SECCOMP_RET_KILL_PROCESS
                 else if bool_decide (sd_nr d ∈ denied a) then Z.lor SECCOMP_RET_ERRNO EPERM
                 else if sd_nr d =? SYS_CLONE3 a then Z.lor SECCOMP_RET_ERRNO ENOSYS
                 else if (sd_nr d =? SYS_CLONE a) && negb (Z.land (sd_arg0 d) clone_namespaces =? 0)
                 then Z.lor SECCOMP_RET_ERRNO EPERM
                 else SECCOMP_RET_ALLOW)) /\
        forall A (q : Prog MemE A),
          wp mem_sem q s' (fun _ => holds_for_good (mf_file m) (mf_content m))
    end).
Proof.
  intros Hn. unfold WorkloadFilter_file. destruct (WorkloadFilter goarch) as [ins|] eqn:Hw; [|done].
  apply wp_call. intros [fd|e] s1; [|by intros ->]. intros [Hfd ->].
  apply wp_call. intros r s2 (k & Hk & Hall & _ & ->).
  set (m0 := empty_memfd _ s). destruct r as [[]|e].
  2:{ apply wp_call. intros [] s3 ->. apply wp_ret. destruct k; [by apply closed_again|].
      rewrite on_fd_insert. by apply closed_again. }
  rewrite (Hall eq_refl), firstn_all.
  assert (E0 : (length (encode_program ins) <> 0)%nat).
  { unfold WorkloadFilter in Hw. destruct (arch_of goarch); [|done]. by injection Hw as <-. }
  destruct (length (encode_program ins)) eqn:El; [done|]. rewrite on_fd_insert.
  apply wp_call. intros r s3 ->. destruct r as [[]|e]; cbn [is_ok]; rewrite ?on_fd_insert.
  2:{ apply wp_call. intros [] s3 ->. apply wp_ret. by apply closed_again. }
  apply wp_call. intros r s4 [_ ->]. destruct r as [[]|e]; cbn [is_ok]; rewrite ?on_fd_insert.
  2:{ apply wp_call. intros [] s4 ->. apply wp_ret. by apply closed_again. }
  apply wp_ret. split; [done|]. destruct (arch_of goarch) as [a|] eqn:Ha.
  2:{ unfold WorkloadFilter in Hw. by rewrite Ha in Hw. }
  exists a, ins, (sealed_with all_seals (seek_to 0 (write_at (encode_program ins) m0))).
  split; [done|]. split; [done|]. split; [done|]. split; [done|].
  assert (Ec : mf_content (sealed_with all_seals (seek_to 0 (write_at (encode_program ins) m0))) = encode_program ins).
  { cbn. unfold overwritten. cbn. by rewrite drop_nil, app_nil_r. }
  rewrite Ec. split; [by eapply read_encoded, workload_narrow|].
  split; [by eapply (WorkloadFilter_decides goarch ins a {| sd_nr := 0; sd_arch := 0; sd_arg0 := 0 |})|].
  split; [intros d; by apply (WorkloadFilter_decides goarch)|].
  intros A q. apply good_forever. split; [cbn; lia|]. split; intros fd' m; cbn;
    (destruct (decide (fd = fd')) as [->|Hne]; [rewrite lookup_insert_eq; intros [= <-]|rewrite lookup_insert_ne by done]).
  - cbn. lia.
  - intros H. specialize (Hn _ _ H). lia.
  - intros _. split; [exact Ec|]. reflexivity.
  - intros H Hf. specialize (Hn _ _ H). lia.
Qed.

(** From a process without open files: the filter's bytes are a multiple of
    eight and the file is sealed. *)
Definition wit_kernel : MemKernel := {| mk_fds := ∅; mk_next := 0 |}.
Lemma filter_file_decides_wit :
  length (encode_program (workload_program amd64)) = 472%nat /\
  wp mem_sem (WorkloadFilter_file "amd64") wit_kernel (fun r s' =>
    match r with
    | Err _ => mk_fds s' = ∅
    | Ok fd => mk_fds wit_kernel !! fd = None /\ exists a prog m,
        arch_of "amd64" = Some a /\ mk_fds s' = <[fd := m]> ∅ /\
        mf_cloexec m = true /\ mf_offset m = 0 /\
        read_program (mf_content m) = Some prog /\ (length prog <= 4096)%nat /\
        (forall d, bpf prog 0 d 0 =
           Some (if negb (sd_arch d =? audit_arch a) then SECCOMP_RET_KILL_PROCESS
                 else if negb (Z.land (sd_nr d) x32_bit =? 0) then SECCOMP_RET_KILL_PROCESS
                 else if bool_decide (sd_nr d ∈ denied a) then Z.lor SECCOMP_RET_ERRNO EPERM
                 else if sd_nr d =? SYS_CLONE3 a then Z.lor SECCOMP_RET_ERRNO ENOSYS
                 else if (sd_nr d =? SYS_CLONE a) && negb (Z.land (sd_arg0 d) clone_namespaces =? 0)
                 then Z.lor SECCOMP_RET_ERRNO EPERM
                 else SECCOMP_RET_ALLOW)) /\
        forall A (q : Prog MemE A),
          wp mem_sem q s' (fun _ => holds_for_good (mf_file m) (mf_content m))
    end).
Proof.
  split; [vm_compute; reflexivity|].
  apply (filter_file_decides "amd64" wit_kernel). intros fd m H. discriminate H.
Defined.
