(* ===== verification/Net.v ===== *)
(** * Addresses and prefixes of Go's package net

    [net.ParseIP], [net.ParseCIDR] and [IPNet.Contains] as the IP allowlists of
    API keys use them.  An address is 4 or 16 bytes; [ParseIP] answers 16, an
    IPv4 address being mapped into the last four. *)
From S2P Require Import Prelude GoStrings Url.
Open Scope string_scope.
Open Scope Z_scope.

Definition IP : Type := list Z.

(** [netip.parseIPv4Fields]: four decimal bytes without leading zeros. *)
Definition parse_octet (s : string) : option Z :=
  match s with
  | EmptyString => None
  | String c EmptyString => digit_val c
  | String c _ =>
      if ascii_dec c "0"%char then None
      else match parse_digits 0 s with
           | Some n => if (String.length s <=? 3)%nat && (n <=? 255) then Some n else None
           | None => None
           end
  end.
Fixpoint sequence {A} (l : list (option A)) : option (list A) :=
  match l with
  | [] => Some []
  | x :: l' => match x, sequence l' with Some a, Some r => Some (a :: r) | _, _ => None end
  end.
Definition parseIPv4 (s : string) : option (list Z) :=
  let parts := split dot s in
  if (length parts =? 4)%nat then sequence (map parse_octet parts) else None.

(** The digits of a group: its value and the rest; more than four fail. *)
Fixpoint hex_group (fuel : nat) (acc : Z) (n : nat) (s : string) : option (Z * nat * string) :=
  match s with
  | String c s' =>
      match hex_val c with
      | Some v =>
          match fuel with
          | O => None
          | S f => hex_group f (acc * 16 + Z.of_nat v) (S n) s'
          end
      | None => Some (acc, n, s)
      end
  | EmptyString => Some (acc, n, s)
  end.

(** The loop of [netip.parseIPv6]: [ip] is what has been read, [ellipsis]
    where [::] stood; every round adds two bytes, so eight rounds suffice. *)
Fixpoint v6_loop (fuel : nat) (ip : list Z) (ellipsis : option nat) (s : string)
    : option (list Z * option nat * string) :=
  match fuel with
  | O => Some (ip, ellipsis, s)
  | S fuel' =>
      match hex_group 4 0 0 s with
      | None | Some (_, O, _) => None
      | Some (acc, _, rest) =>
          match rest with
          | String c _ =>
              if ascii_dec c dot then
                if (match ellipsis with None => negb (length ip =? 12)%nat | _ => false end
                    || (16 <? length ip + 4)%nat)%bool then None
                else match parseIPv4 s with
                     | Some v4 => Some ((ip ++ v4)%list, ellipsis, "")
                     | None => None
                     end
              else if ascii_dec c colon then
                let ip := (ip ++ [acc / 256; acc mod 256])%list in
                match drop_string 1 rest with
                | EmptyString => None
                | String c' s' as s1 =>
                    if ascii_dec c' colon then
                      match ellipsis with
                      | Some _ => None
                      | None =>
                          if bool_decide (s' = "") then Some (ip, Some (length ip), "")
                          else v6_loop fuel' ip (Some (length ip)) s'
                      end
                    else v6_loop fuel' ip ellipsis s1
                end
              else None
          | EmptyString => Some ((ip ++ [acc / 256; acc mod 256])%list, ellipsis, "")
          end
      end
  end.
Definition zeros (n : nat) : list Z := repeat 0 n.
Definition parseIPv6 (s : string) : option (list Z) :=
  let '(lead, body) := if has_prefix s "::" then (Some O, drop_string 2 s) else (None, s) in
  if match lead with Some _ => bool_decide (body = "") | None => false end then Some (zeros 16)
  else match v6_loop 8 [] lead body with
       | Some (ip, ellipsis, EmptyString) =>
           if (length ip <? 16)%nat then
             match ellipsis with
             | Some e => Some (take e ip ++ zeros (16 - length ip) ++ drop e ip)%list
             | None => None
             end
           else match ellipsis with Some _ => None | None => Some ip end
       | _ => None
       end.

(** [netip.ParseAddr] without a zone: a zone makes the callers fail. *)
Inductive Addr := V4 (b : list Z) | V6 (b : list Z).
Fixpoint first_mark (s : string) : option ascii :=
  match s with
  | EmptyString => None
  | String c s' =>
      if ascii_dec c dot then Some c else if ascii_dec c colon then Some c
      else if ascii_dec c "%"%char then Some c else first_mark s'
  end.
Definition ParseAddr (s : string) : option Addr :=
  match first_mark s with
  | Some c =>
      if ascii_dec c dot then option_map V4 (parseIPv4 s)
      else if ascii_dec c colon
      then (if contains_byte s "%"%char then None else option_map V6 (parseIPv6 s))
      else None
  | None => None
  end.
Definition v4_in_v6 : list Z := (zeros 10 ++ [255; 255])%list.
Definition As16 (a : Addr) : IP := match a with V4 b => (v4_in_v6 ++ b)%list | V6 b => b end.
Definition ParseIP (s : string) : option IP := option_map As16 (ParseAddr s).
(** [IP.To4] *)
Definition To4 (ip : IP) : option IP :=
  if (length ip =? 4)%nat then Some ip
  else if (length ip =? 16)%nat && bool_decide (take 12 ip = v4_in_v6) then Some (drop 12 ip)
  else None.

(** [CIDRMask(ones, bits)] *)
Fixpoint CIDRMask (bytes : nat) (ones : Z) : list Z :=
  match bytes with
  | O => []
  | S n => (256 - 2 ^ (8 - Z.max 0 (Z.min 8 ones))) :: CIDRMask n (ones - 8)
  end.
Definition mask_bytes (ip m : list Z) : list Z := zip_with Z.land ip m.
Record IPNet := { net_IP : IP; net_Mask : list Z }.
(** [IP.Mask] at the lengths [ParseCIDR] calls it with. *)
Definition Mask (ip : IP) (m : list Z) : IP :=
  if (length m =? 4)%nat && (length ip =? 16)%nat && bool_decide (take 12 ip = v4_in_v6)
  then mask_bytes (drop 12 ip) m else mask_bytes ip m.
Definition ParseCIDR (s : string) : option IPNet :=
  let '(addr, mask, found) := cut s slash in
  if found then
    match ParseAddr addr with
    | Some a =>
        let len := match a with V4 _ => 4%nat | V6 _ => 16%nat end in
        match (if bool_decide (mask = "") then None else parse_digits 0 mask) with
        | Some n =>
            if n <=? 8 * Z.of_nat len then
              let m := CIDRMask len n in Some {| net_IP := Mask (As16 a) m; net_Mask := m |}
            else None
        | None => None
        end
    | None => None
    end
  else None.
Definition Contains (n : IPNet) (ip : IP) : bool :=
  let nn := default (net_IP n) (To4 (net_IP n)) in
  let m := if (length (net_Mask n) =? 16)%nat && (length nn =? 4)%nat
           then drop 12 (net_Mask n) else net_Mask n in
  let ip := default ip (To4 ip) in
  (length ip =? length nn)%nat && (length m =? length nn)%nat &&
  bool_decide (mask_bytes nn m = mask_bytes ip m).

Example contains_v4 :
  option_map (fun n => map (fun s => default false (option_map (Contains n) (ParseIP s)))
    ["10.1.2.3"; "10.2.0.0"; "::ffff:10.1.255.255"; "1::2"]) (ParseCIDR "10.1.0.0/16")
  = Some [true; false; true; false].
Proof. vm_compute. reflexivity. Qed.
Example contains_v6 :
  option_map (fun n => map (fun s => default false (option_map (Contains n) (ParseIP s)))
    ["2001:db8::1"; "2001:db9::1"; "10.0.0.1"]) (ParseCIDR "2001:db8::/32")
  = Some [true; false; false].
Proof. vm_compute. reflexivity. Qed.
