(* ===== verification/ApiKey.v ===== *)
(** * API keys (apiserver/apikey.go)

    The encodings of Go's [encoding/hex] and [encoding/base64] (the raw, i.e.
    unpadded, forms), the key format [jdix_sk_<keyID>_<secret>], the stored
    verifier and the key record.  argon2 is a third-party function: [IDKey] is
    a parameter of the definitions that call it. *)
From S2P Require Import Prelude GoStrings.
Open Scope string_scope.

(** ** Unpadded base64 *)

Definition letters : string := "ABCDEFGHIJKLMNOPQRSTUVWXYZabcdefghijklmnopqrstuvwxyz0123456789".
Definition std_alphabet : string := letters +:+ "+/".
Definition url_alphabet : string := letters +:+ "-_".

Section Base64.
Context (alphabet : string).

Definition sextet (n : N) : ascii := default zero (String.get (N.to_nat n) alphabet).
Definition sextet_val (c : ascii) : option N := option_map N.of_nat (index_byte alphabet c).

(** [RawEncoding.EncodeToString]: three bytes make four characters; one or
    two bytes at the end make two or three. *)
Fixpoint EncodeToString (s : string) : string :=
  match s with
  | String a (String b (String c s')) =>
      let v := (N_of_ascii a * 65536 + N_of_ascii b * 256 + N_of_ascii c)%N in
      String (sextet (v / 262144)%N) (String (sextet (v / 4096 mod 64)%N)
        (String (sextet (v / 64 mod 64)%N) (String (sextet (v mod 64)%N) (EncodeToString s'))))
  | String a (String b EmptyString) =>
      let v := ((N_of_ascii a * 256 + N_of_ascii b) * 4)%N in
      String (sextet (v / 4096)%N) (String (sextet (v / 64 mod 64)%N) (String (sextet (v mod 64)%N) ""))
  | String a EmptyString =>
      let v := (N_of_ascii a * 16)%N in
      String (sextet (v / 64)%N) (String (sextet (v mod 64)%N) "")
  | EmptyString => ""
  end.

(** [RawEncoding.DecodeString] skips line breaks, refuses every other
    character outside the alphabet and a single character at the end, and
    ignores the bits left over. *)
Definition line_break (c : ascii) : bool :=
  if ascii_dec c "010"%char then true else if ascii_dec c "013"%char then true else false.
Fixpoint sextets (s : string) : option (list N) :=
  match s with
  | EmptyString => Some []
  | String c s' =>
      if line_break c then sextets s'
      else match sextet_val c, sextets s' with
           | Some v, Some vs => Some (v :: vs)
           | _, _ => None
           end
  end.
Fixpoint join_sextets (vs : list N) : option string :=
  match vs with
  | [] => Some ""
  | [_] => None
  | [p; q] => Some (String (ascii_of_N ((p * 64 + q) / 16)%N) "")
  | [p; q; r] =>
      let v := ((p * 4096 + q * 64 + r) / 4)%N in
      Some (String (ascii_of_N (v / 256)%N) (String (ascii_of_N (v mod 256)%N) ""))
  | p :: q :: r :: s :: vs' =>
      let v := (p * 262144 + q * 4096 + r * 64 + s)%N in
      option_map (fun t => String (ascii_of_N (v / 65536)%N)
        (String (ascii_of_N (v / 256 mod 256)%N) (String (ascii_of_N (v mod 256)%N) t)))
        (join_sextets vs')
  end.
Definition DecodeString (s : string) : option string :=
  match sextets s with Some vs => join_sextets vs | None => None end.
End Base64.

(** ** Hexadecimal *)

Fixpoint hex_encode (s : string) : string :=
  match s with
  | EmptyString => ""
  | String a s' =>
      String (hex_digit (nat_of_ascii a / 16))
        (String (hex_digit (nat_of_ascii a mod 16)) (hex_encode s'))
  end.

(** ** Keys *)

Definition KeyPrefix : string := "jdix_sk_".
Definition keyIDLen : nat := 12.
Definition secretBytes : nat := 24.
Definition saltBytes : nat := 16.
Definition argonTime : Z := 1.
Definition argonMemory : Z := 64 * 1024.
Definition argonThreads : Z := 4.
Definition argonKeyLen : nat := 32.

Inductive KeyError := ErrMalformedKey | ErrKeyNotFound | ErrKeyRevoked | ErrKeyExpired.
#[export] Instance KeyError_eq_dec : EqDecision KeyError.
Proof. solve_decision. Defined.

Record GeneratedKey := { gk_KeyID : string; gk_Plaintext : string; gk_Hash : string }.

Definition underscore : ascii := "_"%char.
Definition dollar : ascii := "$"%char.

Definition ParseKey (presented : string) : result KeyError (string * string) :=
  guard has_prefix presented KeyPrefix else ErrMalformedKey ;;
  let rest := trim_prefix presented KeyPrefix in
  let '(keyID, secret, ok) := cut rest underscore in
  guard negb (negb ok || negb (String.length keyID =? keyIDLen)%nat || bool_decide (secret = ""))%bool
    else ErrMalformedKey ;;
  Ok (keyID, secret).

Section Argon.
(** [argon2.IDKey(password, salt, time, memory, threads, keyLen)] *)
Context (IDKey : string -> string -> Z -> Z -> Z -> nat -> string).

Definition derive (secret salt : string) (n : nat) : string :=
  IDKey secret salt argonTime argonMemory argonThreads n.

(** The reads of [crypto/rand] are arguments: each gives the bytes asked for
    or an error. *)
Definition HashSecret {E} (rand_salt : result E string) (secret : string) : result E string :=
  let? salt := rand_salt in
  let sum := derive secret salt argonKeyLen in
  Ok ("argon2id$" +:+ EncodeToString std_alphabet salt +:+ "$" +:+ EncodeToString std_alphabet sum).

Definition VerifySecret (secret stored : string) : bool :=
  match split dollar stored with
  | [alg; salt64; want64] =>
      if bool_decide (alg = "argon2id") then
        match DecodeString std_alphabet salt64 with
        | None => false
        | Some salt =>
            match DecodeString std_alphabet want64 with
            | None => false
            | Some want => bool_decide (derive secret salt (String.length want) = want)
            end
        end
      else false
  | _ => false
  end.

Definition GenerateKey {E} (rand_id rand_secret rand_salt : result E string)
    : result E GeneratedKey :=
  let? idBytes := rand_id in
  let? secret := rand_secret in
  let keyID := hex_encode idBytes in
  let secretStr := EncodeToString url_alphabet secret in
  let? hash := HashSecret rand_salt secretStr in
  Ok {| gk_KeyID := keyID; gk_Plaintext := KeyPrefix +:+ keyID +:+ "_" +:+ secretStr;
        gk_Hash := hash |}.
End Argon.

(** ** The key record *)

Definition Scope : Type := string.
Definition ScopeSandboxCreate : Scope := "sandbox:create".
Definition ScopeSandboxRead : Scope := "sandbox:read".
Definition ScopeSandboxDelete : Scope := "sandbox:delete".
Definition ScopeTemplateRead : Scope := "template:read".
Definition ScopeTemplateWrite : Scope := "template:write".
Definition ScopeAdmin : Scope := "admin:*".

Record APIKey := {
  ak_KeyID : string;
  ak_TenantID : string;
  ak_Name : string;
  ak_SecretHash : string;
  ak_Scopes : list Scope;
  ak_AllowedTemplates : list string;
  ak_IPAllowlist : list string;
  ak_ExpiresAt : option Time;
  ak_RevokedAt : option Time;
  ak_LastUsedAt : option Time;
  ak_CreatedAt : Time }.

Definition Allows (k : APIKey) (s : Scope) : bool :=
  existsb (fun have => bool_decide (have = ScopeAdmin) || bool_decide (have = s)) (ak_Scopes k).
Definition AllowsTemplate (k : APIKey) (name : string) : bool :=
  match ak_AllowedTemplates k with
  | [] => true
  | allowed => bool_decide (name ∈ allowed)
  end.
(** [None] is Go's nil error. *)
Definition Valid (k : APIKey) (now : Time) : option KeyError :=
  match ak_RevokedAt k with
  | Some _ => Some ErrKeyRevoked
  | None =>
      match ak_ExpiresAt k with
      | Some t => if after now t then Some ErrKeyExpired else None
      | None => None
      end
  end.

(** ** Round trips *)

Definition good_alphabet (alphabet : string) : bool :=
  forallb (fun n => bool_decide (sextet_val alphabet (sextet alphabet n) = Some n) &&
                    negb (line_break (sextet alphabet n))) (map N.of_nat (seq 0 64)).
Lemma std_good : good_alphabet std_alphabet = true.
Proof. vm_compute. reflexivity. Qed.
Lemma url_good : good_alphabet url_alphabet = true.
Proof. vm_compute. reflexivity. Qed.

Section RoundTrip.
Context (alphabet : string) (good : good_alphabet alphabet = true).

Lemma sextets_cons n s vs :
  (n < 64)%N -> sextets alphabet s = Some vs ->
  sextets alphabet (String (sextet alphabet n) s) = Some (n :: vs).
Proof.
  intros Hn Hs. unfold good_alphabet in good.
  assert (Hin : n ∈ map N.of_nat (seq 0 64)).
  { apply list_elem_of_fmap. exists (N.to_nat n). split; [lia|]. apply elem_of_seq. lia. }
  apply (proj1 (forallb_elem _ _) good) in Hin. bool_to_prop.
  cbn. by rewrite H0, H, Hs.
Qed.

Lemma byte_lt (a : ascii) : (N_of_ascii a < 256)%N.
Proof. apply N_ascii_bounded. Qed.
Lemma string_triples (P : string -> Prop) :
  P "" -> (forall a, P (String a "")) -> (forall a b, P (String a (String b ""))) ->
  (forall a b c s, P s -> P (String a (String b (String c s)))) -> forall s, P s.
Proof.
  intros H0 H1 H2 H3.
  enough (H : forall s, P s /\ (forall a, P (String a s)) /\ (forall a b, P (String a (String b s))))
    by (intros s; apply H).
  induction s as [|c s (IH0 & IH1 & IH2)]; [done|]. auto.
Qed.

Lemma decode_encode s : DecodeString alphabet (EncodeToString alphabet s) = Some s.
Proof.
  unfold DecodeString.
  enough (H : exists vs, sextets alphabet (EncodeToString alphabet s) = Some vs /\
                         join_sextets vs = Some s)
    by (destruct H as (vs & -> & H); exact H).
  induction s as [|a|a b|a b c s (vs & IH1 & IH2)] using string_triples.
  - by exists [].
  - pose proof (byte_lt a). eexists. split.
    + cbn [EncodeToString]. cbv zeta.
      apply sextets_cons; [|apply sextets_cons; [|reflexivity]].
      * divlia.
      * divlia.
    + cbn [join_sextets]. do 3 f_equal.
      assert (forall v, v / 64 * 64 + v mod 64 = v)%N as -> by divlia.
      rewrite N.div_mul by done. apply ascii_N_embedding.
  - pose proof (byte_lt a). pose proof (byte_lt b). eexists. split.
    + cbn [EncodeToString]. cbv zeta.
      apply sextets_cons; [|apply sextets_cons; [|apply sextets_cons; [|reflexivity]]];
        divlia.
    + cbn [join_sextets]. cbv zeta.
      set (v := ((N_of_ascii a * 256 + N_of_ascii b) * 4)%N).
      assert (Ev : ((v / 4096) * 4096 + (v / 64 mod 64) * 64 + v mod 64 = v)%N)
        by (clearbody v; divlia).
      rewrite Ev. assert (v / 4 / 256 = N_of_ascii a)%N as -> by (unfold v; divlia).
      assert ((v / 4) mod 256 = N_of_ascii b)%N as -> by (unfold v; divlia).
      by rewrite !ascii_N_embedding.
  - pose proof (byte_lt a). pose proof (byte_lt b). pose proof (byte_lt c). eexists. split.
    + cbn [EncodeToString]. cbv zeta. do 4 (apply sextets_cons;
        [divlia|]).
      exact IH1.
    + cbn [join_sextets]. cbv zeta. rewrite IH2. cbn [option_map].
      set (v := (N_of_ascii a * 65536 + N_of_ascii b * 256 + N_of_ascii c)%N).
      assert (Ev : ((v / 262144) * 262144 + (v / 4096 mod 64) * 4096 + (v / 64 mod 64) * 64
                    + v mod 64 = v)%N) by (clearbody v; divlia).
      rewrite Ev. assert (v / 65536 = N_of_ascii a)%N as -> by (unfold v; divlia).
      assert (v / 256 mod 256 = N_of_ascii b)%N as -> by (unfold v; divlia).
      assert (v mod 256 = N_of_ascii c)%N as -> by (unfold v; divlia).
      by rewrite !ascii_N_embedding.
Qed.
End RoundTrip.

(** ** Keys verify *)

(** Every character of an encoding is of the alphabet. *)
Lemma no_byte_encode alphabet c s :
  forallb (fun n => negb (bool_decide (sextet alphabet n = c))) (map N.of_nat (seq 0 64)) = true ->
  no_byte c (EncodeToString alphabet s).
Proof.
  intros Hall.
  assert (H : forall n, (n < 64)%N -> sextet alphabet n <> c).
  { intros n Hn. assert (Hin : n ∈ map N.of_nat (seq 0 64)).
    { apply list_elem_of_fmap. exists (N.to_nat n). split; [lia|]. apply elem_of_seq. lia. }
    apply (proj1 (forallb_elem _ _) Hall) in Hin. bool_to_prop. done. }
  induction s as [|a|a b|a b c' s IH] using string_triples; [done| | |]; cbn;
    repeat split; try exact IH; apply H;
    pose proof (byte_lt a); try pose proof (byte_lt b); try pose proof (byte_lt c'); divlia.
Qed.

Lemma hex_digit_plain n : (n < 16)%nat -> hex_digit n <> underscore.
Proof. intros Hn. do 16 (destruct n as [|n]; [done|]). lia. Qed.
Lemma no_byte_hex s : no_byte underscore (hex_encode s).
Proof.
  induction s as [|a s IH]; [done|]. pose proof (nat_ascii_bounded a).
  cbn [hex_encode no_byte]. repeat split; [| |exact IH]; apply hex_digit_plain.
  - apply Nat.Div0.div_lt_upper_bound. lia.
  - by apply Nat.mod_upper_bound.
Qed.
Lemma length_hex s : String.length (hex_encode s) = (2 * String.length s)%nat.
Proof. induction s as [|a s IH]; [done|]. cbn [hex_encode String.length]. rewrite IH. lia. Qed.

Lemma ParseKey_shape id secret :
  String.length id = keyIDLen -> no_byte underscore id -> secret <> "" ->
  ParseKey (KeyPrefix +:+ id +:+ "_" +:+ secret) = Ok (id, secret).
Proof.
  intros Hl Hn Hs. unfold ParseKey. rewrite has_prefix_app, trim_prefix_app.
  change ("_" +:+ secret) with (String underscore secret). rewrite (cut_app id secret) by done.
  cbn [negb orb]. rewrite Hl. by rewrite bool_decide_eq_false_2.
Qed.
Lemma ParseKey_inv presented id secret :
  ParseKey presented = Ok (id, secret) ->
  presented = KeyPrefix +:+ id +:+ "_" +:+ secret /\ String.length id = keyIDLen /\
  no_byte underscore id /\ secret <> "".
Proof.
  unfold ParseKey. intros [Hp H]%guard_ok. apply has_prefix_spec in Hp as [rest ->].
  rewrite trim_prefix_app in H. destruct (cut rest underscore) as [[l r] ok] eqn:Ec.
  apply guard_ok in H as [H [= -> ->]]. bool_to_prop. subst ok.
  apply cut_ok in Ec as [-> Hn]. split; [done|]. split; [by apply Nat.eqb_eq|]. done.
Qed.

Section Verifies.
Context (IDKey : string -> string -> Z -> Z -> Z -> nat -> string).
(** argon2 returns as many bytes as it is asked for. *)
Context (IDKey_length : forall p s t m th n, String.length (IDKey p s t m th n) = n).

Lemma split_hash salt64 sum64 :
  no_byte dollar salt64 -> no_byte dollar sum64 ->
  split dollar ("argon2id$" +:+ salt64 +:+ "$" +:+ sum64) = ["argon2id"; salt64; sum64].
Proof.
  intros H1 H2. change ("argon2id$" +:+ ?s) with ("argon2id" +:+ String dollar s).
  rewrite split_app by (cbn; repeat split; done).
  change ("$" +:+ sum64) with (String dollar sum64). rewrite split_app by done.
  by rewrite split_no_byte.
Qed.

Lemma VerifySecret_HashSecret {E} secret secret' salt (h : string) :
  HashSecret (E := E) IDKey (Ok salt) secret = Ok h ->
  VerifySecret IDKey secret' h = true <->
  derive IDKey secret' salt argonKeyLen = derive IDKey secret salt argonKeyLen.
Proof.
  unfold HashSecret. cbv zeta. intros H.
  assert (h = "argon2id$" +:+ EncodeToString std_alphabet salt +:+ "$" +:+
    EncodeToString std_alphabet (derive IDKey secret salt argonKeyLen)) as -> by congruence.
  unfold VerifySecret.
  rewrite split_hash by (apply no_byte_encode; vm_compute; reflexivity).
  cbn [bool_decide]. rewrite bool_decide_eq_true_2 by done.
  rewrite !(decode_encode std_alphabet std_good). 
  assert (String.length (derive IDKey secret salt argonKeyLen) = argonKeyLen) as ->
    by apply IDKey_length.
  apply bool_decide_eq_true.
Qed.

(** The key [GenerateKey] hands out is the one the record it stores
    accepts.  [ParseKey] takes the plaintext apart into the stored key id and a
    secret; the stored hash verifies that secret, and verifies another one
    exactly when argon2 maps the two to the same 32 bytes under the stored
    salt; and any other plaintext [ParseKey] splits into the same pair is the
    same plaintext. *)
Theorem GenerateKey_verifies {E} idBytes rand_secret salt (g : GeneratedKey) :
  String.length idBytes = (keyIDLen / 2)%nat ->
  String.length rand_secret = secretBytes ->
  GenerateKey (E := E) IDKey (Ok idBytes) (Ok rand_secret) (Ok salt) = Ok g ->
  exists secret,
    ParseKey (gk_Plaintext g) = Ok (gk_KeyID g, secret) /\
    VerifySecret IDKey secret (gk_Hash g) = true /\
    (forall other, VerifySecret IDKey other (gk_Hash g) = true <->
       derive IDKey other salt argonKeyLen = derive IDKey secret salt argonKeyLen) /\
    (forall presented, ParseKey presented = Ok (gk_KeyID g, secret) -> presented = gk_Plaintext g).
Proof.
  intros Hid Hsec H. unfold GenerateKey in H.
  set (secret := EncodeToString url_alphabet rand_secret) in H. exists secret.
  apply bind_ok in H as (h & Hh & [= <-]). cbn [gk_Plaintext gk_KeyID gk_Hash].
  assert (Hv := VerifySecret_HashSecret (E := E) secret). split; [|split; [|split]].
  - apply ParseKey_shape; [by rewrite length_hex, Hid|apply no_byte_hex|].
    unfold secret. intros E0. pose proof (decode_encode url_alphabet url_good rand_secret) as Hd.
    rewrite E0 in Hd. injection Hd as <-. done.
  - by apply (Hv secret salt h Hh).
  - intros other. apply (Hv other salt h Hh).
  - intros presented (-> & _)%ParseKey_inv. done.
Qed.
End Verifies.

(** ** Witness *)

(** A function with argon2's interface. *)
Fixpoint wit_bytes (c : ascii) (n : nat) : string :=
  match n with O => "" | S n' => String c (wit_bytes c n') end.
Definition wit_IDKey (p s : string) (t m th : Z) (n : nat) : string :=
  wit_bytes (ascii_of_nat (String.length p + String.length s)) n.
Lemma wit_IDKey_length p s t m th n : String.length (wit_IDKey p s t m th n) = n.
Proof. unfold wit_IDKey. by induction n as [|n IH]; cbn; [|rewrite IH]. Qed.
Definition wit_id_bytes : string := "abc123".
Definition wit_secret_bytes : string := "0123456789abcdefghijklmn".

Lemma GenerateKey_verifies_witness :
  exists g secret, GenerateKey (E := string) wit_IDKey (Ok wit_id_bytes) (Ok wit_secret_bytes) (Ok "0123456789abcdef") = Ok g /\
    ParseKey (gk_Plaintext g) = Ok (gk_KeyID g, secret).
Proof.
  eexists. assert (E : GenerateKey (E := string) wit_IDKey (Ok wit_id_bytes) (Ok wit_secret_bytes)
    (Ok "0123456789abcdef") = Ok _) by (vm_compute; reflexivity).
  destruct (GenerateKey_verifies wit_IDKey wit_IDKey_length wit_id_bytes wit_secret_bytes
    "0123456789abcdef" _ eq_refl eq_refl E) as (secret & H & _).
  exists secret. split; [exact E|exact H].
Defined.
