(* ===== verification/Store.v ===== *)
(** * The store of the API server (apiserver/store.go, memstore.go)

    The records the store keeps, and [MemStore] operation by operation: each
    is a function of the store's maps.  Locks make every operation atomic, so
    a sequence of calls is a sequence of these functions.  Records are copied
    in and out, as the code does; a returned [Tenant] or [Quota] is shared, and
    nothing writes through it. *)
From S2P Require Import Prelude GoStrings ApiKey.
Open Scope string_scope.

Inductive StoreErr := ErrNotFound | StoreFailed (msg : string).
Definition store_msg (e : StoreErr) : string :=
  match e with ErrNotFound => "not found" | StoreFailed msg => msg end.
Definition is_not_found (e : StoreErr) : bool :=
  match e with ErrNotFound => true | StoreFailed _ => false end.

Record Tenant := {
  tn_ID : string; tn_Name : string; tn_Namespace : string;
  tn_Status : string; tn_CreatedAt : Time }.
Record Quota := {
  qt_TenantID : string;
  qt_MaxConcurrent : Z;
  qt_MaxCreatePerMinute : Z;
  qt_MaxSandboxSecondsDay : Z;
  qt_MaxIdlePods : Z }.
Record SandboxRecord := {
  sr_ID : string;
  sr_TenantID : string;
  sr_APIKeyID : string;
  sr_Template : string;
  sr_State : string;
  sr_ColdStart : bool;
  sr_IsolationTier : string;
  sr_Node : string;
  sr_CreatedAt : Time;
  sr_ReadyAt : option Time;
  sr_DeletedAt : option Time;
  sr_DeleteReason : string;
  sr_Metadata : gmap string string }.
Record IdempotencyRecord := {
  id_Key : string;
  id_TenantID : string;
  id_RequestSum : string;
  id_SandboxID : string;
  id_CreatedAt : Time }.
Record WarmupRequest := {
  wr_ID : string;
  wr_TenantID : string;
  wr_Template : string;
  wr_Replicas : Z;
  wr_Reason : string;
  wr_Status : string;
  wr_RequestedBy : string;
  wr_ReviewedBy : string;
  wr_ReviewNote : string;
  wr_CreatedAt : Time;
  wr_ReviewedAt : option Time }.
Record PoolBudget := {
  pb_TotalIdlePods : Z;
  pb_TotalCPU : string;
  pb_TotalMemory : string;
  pb_Allocated : Z;
  pb_UpdatedBy : string;
  pb_UpdatedAt : Time }.
Record AuditEvent := {
  au_TenantID : string;
  au_Actor : string;
  au_Action : string;
  au_Target : string;
  au_IP : string;
  au_UserAgent : string;
  au_At : Time;
  au_Detail : gmap string string }.

Definition pending : string := "pending".
Definition approved : string := "approved".
Definition rejected : string := "rejected".

(** ** MemStore *)

Record MemStore := {
  ms_tenants : gmap string Tenant;
  ms_keys : gmap string APIKey;
  ms_quotas : gmap string Quota;
  ms_boxes : gmap string SandboxRecord;
  ms_idem : gmap string IdempotencyRecord;
  ms_warmups : gmap string WarmupRequest;
  ms_budget : PoolBudget;
  ms_audit : list AuditEvent }.

Definition set_keys (v : gmap string APIKey) (m : MemStore) : MemStore :=
  {| ms_tenants := ms_tenants m; ms_keys := v; ms_quotas := ms_quotas m; ms_boxes := ms_boxes m;
     ms_idem := ms_idem m; ms_warmups := ms_warmups m; ms_budget := ms_budget m;
     ms_audit := ms_audit m |}.
Definition set_boxes (v : gmap string SandboxRecord) (m : MemStore) : MemStore :=
  {| ms_tenants := ms_tenants m; ms_keys := ms_keys m; ms_quotas := ms_quotas m; ms_boxes := v;
     ms_idem := ms_idem m; ms_warmups := ms_warmups m; ms_budget := ms_budget m;
     ms_audit := ms_audit m |}.
Definition set_idem (v : gmap string IdempotencyRecord) (m : MemStore) : MemStore :=
  {| ms_tenants := ms_tenants m; ms_keys := ms_keys m; ms_quotas := ms_quotas m;
     ms_boxes := ms_boxes m; ms_idem := v; ms_warmups := ms_warmups m; ms_budget := ms_budget m;
     ms_audit := ms_audit m |}.
Definition set_warmups (v : gmap string WarmupRequest) (m : MemStore) : MemStore :=
  {| ms_tenants := ms_tenants m; ms_keys := ms_keys m; ms_quotas := ms_quotas m;
     ms_boxes := ms_boxes m; ms_idem := ms_idem m; ms_warmups := v; ms_budget := ms_budget m;
     ms_audit := ms_audit m |}.
Definition set_budget (v : PoolBudget) (m : MemStore) : MemStore :=
  {| ms_tenants := ms_tenants m; ms_keys := ms_keys m; ms_quotas := ms_quotas m;
     ms_boxes := ms_boxes m; ms_idem := ms_idem m; ms_warmups := ms_warmups m; ms_budget := v;
     ms_audit := ms_audit m |}.
Definition set_audit (v : list AuditEvent) (m : MemStore) : MemStore :=
  {| ms_tenants := ms_tenants m; ms_keys := ms_keys m; ms_quotas := ms_quotas m;
     ms_boxes := ms_boxes m; ms_idem := ms_idem m; ms_warmups := ms_warmups m;
     ms_budget := ms_budget m; ms_audit := v |}.

Definition NewMemStore : MemStore :=
  {| ms_tenants := ∅; ms_keys := ∅; ms_quotas := ∅; ms_boxes := ∅; ms_idem := ∅;
     ms_warmups := ∅;
     ms_budget := {| pb_TotalIdlePods := 64; pb_TotalCPU := "16"; pb_TotalMemory := "32Gi";
                     pb_Allocated := 0; pb_UpdatedBy := ""; pb_UpdatedAt := 0%Z |};
     ms_audit := [] |}.

Definition AddTenant (t : Tenant) (m : MemStore) : MemStore :=
  {| ms_tenants := <[tn_ID t := t]> (ms_tenants m); ms_keys := ms_keys m;
     ms_quotas := ms_quotas m; ms_boxes := ms_boxes m; ms_idem := ms_idem m;
     ms_warmups := ms_warmups m; ms_budget := ms_budget m; ms_audit := ms_audit m |}.
Definition AddKey (k : APIKey) (m : MemStore) : MemStore :=
  set_keys (<[ak_KeyID k := k]> (ms_keys m)) m.
Definition SetQuota (q : Quota) (m : MemStore) : MemStore :=
  {| ms_tenants := ms_tenants m; ms_keys := ms_keys m;
     ms_quotas := <[qt_TenantID q := q]> (ms_quotas m); ms_boxes := ms_boxes m;
     ms_idem := ms_idem m; ms_warmups := ms_warmups m; ms_budget := ms_budget m;
     ms_audit := ms_audit m |}.

Definition find_record {A} (m : gmap string A) (k : string) : result StoreErr A :=
  match m !! k with Some a => Ok a | None => Err ErrNotFound end.

Definition MemStore_Tenant (id : string) (m : MemStore) := find_record (ms_tenants m) id.
Definition MemStore_APIKey (id : string) (m : MemStore) := find_record (ms_keys m) id.
Definition touch (at_ : Time) (k : APIKey) : APIKey :=
  {| ak_KeyID := ak_KeyID k; ak_TenantID := ak_TenantID k; ak_Name := ak_Name k;
     ak_SecretHash := ak_SecretHash k; ak_Scopes := ak_Scopes k;
     ak_AllowedTemplates := ak_AllowedTemplates k; ak_IPAllowlist := ak_IPAllowlist k;
     ak_ExpiresAt := ak_ExpiresAt k; ak_RevokedAt := ak_RevokedAt k;
     ak_LastUsedAt := Some at_; ak_CreatedAt := ak_CreatedAt k |}.
Definition MemStore_TouchAPIKey (id : string) (at_ : Time) (m : MemStore) : MemStore :=
  match ms_keys m !! id with
  | Some k => set_keys (<[id := touch at_ k]> (ms_keys m)) m
  | None => m
  end.
Definition MemStore_Quota (id : string) (m : MemStore) := find_record (ms_quotas m) id.

(** The records a loop over the map meets; no result depends on the order. *)
Definition records {A} (m : gmap string A) : list A := map snd (map_to_list m).
Definition count_if {A} (f : A -> bool) (l : list A) : Z :=
  Z.of_nat (length (List.filter f l)).
Definition running (tenant : string) (r : SandboxRecord) : bool :=
  bool_decide (sr_TenantID r = tenant) && match sr_DeletedAt r with None => true | _ => false end.
Definition created_since (tenant : string) (since : Time) (r : SandboxRecord) : bool :=
  bool_decide (sr_TenantID r = tenant) && after (sr_CreatedAt r) since.
Definition CountRunning (tenant : string) (m : MemStore) : Z :=
  count_if (running tenant) (records (ms_boxes m)).
Definition CountCreatedSince (tenant : string) (since : Time) (m : MemStore) : Z :=
  count_if (created_since tenant since) (records (ms_boxes m)).

Definition RecordSandbox (r : SandboxRecord) (m : MemStore) : MemStore :=
  set_boxes (<[sr_ID r := r]> (ms_boxes m)) m.
Definition MemStore_UpdateSandbox (r : SandboxRecord) (m : MemStore) : MemStore := RecordSandbox r m.
Definition MemStore_Sandbox (id : string) (m : MemStore) := find_record (ms_boxes m) id.

(** Newest first, the id breaking ties. *)
Definition newer (a b : SandboxRecord) : bool :=
  if (sr_CreatedAt a =? sr_CreatedAt b)%Z then str_ltb (sr_ID a) (sr_ID b)
  else after (sr_CreatedAt a) (sr_CreatedAt b).
Definition listing (tenant : string) (m : MemStore) : list SandboxRecord :=
  sort_by newer (List.filter (fun b => bool_decide (sr_TenantID b = tenant)) (records (ms_boxes m))).
Definition page_start (cursor : string) : Z :=
  if bool_decide (cursor = "") then 0
  else match atoi cursor with Some n => if (0 <? n)%Z then n else 0 | None => 0 end.
Definition page_limit (limit : Z) : Z :=
  if (limit <=? 0)%Z || (200 <? limit)%Z then 50 else limit.
Definition ListSandboxes (tenant : string) (limit : Z) (cursor : string) (m : MemStore)
    : list SandboxRecord * string :=
  let all := listing tenant m in
  let len := Z.of_nat (length all) in
  let start := Z.min (page_start cursor) len in
  let end_ := (start + page_limit limit)%Z in
  if (end_ <? len)%Z
  then (take (Z.to_nat (end_ - start)) (drop (Z.to_nat start) all), itoa end_)
  else (drop (Z.to_nat start) all, "").

Definition idem_key (tenant key : string) : string := tenant +:+ "/" +:+ key.
Definition Idempotency (tenant key : string) (m : MemStore) : result StoreErr IdempotencyRecord :=
  find_record (ms_idem m) (idem_key tenant key).
Definition SaveIdempotency (r : IdempotencyRecord) (m : MemStore) : MemStore :=
  set_idem (<[idem_key (id_TenantID r) (id_Key r) := r]> (ms_idem m)) m.
Definition Audit (e : AuditEvent) (m : MemStore) : MemStore :=
  set_audit (ms_audit m ++ [e])%list m.

(** Requests made at the same instant come in either order. *)
Definition WarmupRequests (status : string) (m : MemStore) : list WarmupRequest :=
  sort_by (fun a b => before (wr_CreatedAt a) (wr_CreatedAt b))
    (List.filter (fun r => negb (negb (bool_decide (status = "")) &&
                                 negb (bool_decide (wr_Status r = status))))
       (records (ms_warmups m))).
Definition MemStore_WarmupRequest (id : string) (m : MemStore) := find_record (ms_warmups m) id.
Definition SaveWarmupRequest (r : WarmupRequest) (m : MemStore) : MemStore :=
  set_warmups (<[wr_ID r := r]> (ms_warmups m)) m.

(** The sum of a loop over a map is the same in every order. *)
Definition is_approved (r : WarmupRequest) : bool := bool_decide (wr_Status r = approved).
Definition allocated (m : MemStore) : Z :=
  foldr (fun r acc => if is_approved r then int64 (acc + wr_Replicas r) else acc) 0%Z
    (records (ms_warmups m)).
Definition PoolBudget_of (m : MemStore) : PoolBudget :=
  {| pb_TotalIdlePods := pb_TotalIdlePods (ms_budget m); pb_TotalCPU := pb_TotalCPU (ms_budget m);
     pb_TotalMemory := pb_TotalMemory (ms_budget m); pb_Allocated := allocated m;
     pb_UpdatedBy := pb_UpdatedBy (ms_budget m); pb_UpdatedAt := pb_UpdatedAt (ms_budget m) |}.
Definition SetPoolBudget (b : PoolBudget) (m : MemStore) : MemStore := set_budget b m.

(** ** Lemmas: counting and summing over a map *)

Lemma records_delete {A} (m : gmap string A) k a :
  m !! k = Some a -> records m ≡ₚ a :: records (base.delete k m).
Proof. intros H. unfold records. rewrite <-(map_to_list_delete m k a) by done. done. Qed.
Lemma records_insert {A} (m : gmap string A) k a :
  records (<[k := a]> m) ≡ₚ a :: records (base.delete k m).
Proof.
  rewrite (records_delete (<[k := a]> m) k a) by apply lookup_insert_eq.
  by rewrite delete_insert_eq.
Qed.
Lemma records_elem {A} (m : gmap string A) a : a ∈ records m <-> exists k, m !! k = Some a.
Proof.
  unfold records. rewrite list_elem_of_fmap. split.
  - intros ([k a'] & -> & H%elem_of_map_to_list). eauto.
  - intros [k H]. exists (k, a). by rewrite elem_of_map_to_list.
Qed.
Lemma filter_perm {A} (f : A -> bool) l l' :
  l ≡ₚ l' -> List.filter f l ≡ₚ List.filter f l'.
Proof.
  induction 1 as [|x l l' _ IH|x y l|l l' l'' _ IH1 _ IH2]; cbn; [done| | |by etrans].
  - destruct (f x); [by constructor|done].
  - destruct (f x), (f y); try done. apply Permutation_swap.
Qed.
Lemma count_if_perm {A} (f : A -> bool) l l' : l ≡ₚ l' -> count_if f l = count_if f l'.
Proof. intros H. unfold count_if. by rewrite (filter_perm f l l' H). Qed.
Lemma count_if_cons {A} (f : A -> bool) a l :
  count_if f (a :: l) = ((if f a then 1 else 0) + count_if f l)%Z.
Proof. unfold count_if. cbn. destruct (f a); cbn [length]; lia. Qed.
Lemma count_if_nonneg {A} (f : A -> bool) l : (0 <= count_if f l)%Z.
Proof. unfold count_if. lia. Qed.

(** Writing a record changes a count by at most its own share. *)
Lemma count_insert {A} (f : A -> bool) (m : gmap string A) k a :
  (count_if f (records (<[k := a]> m)) <=
   (if f a then 1 else 0) + count_if f (records m))%Z.
Proof.
  rewrite (count_if_perm f _ _ (records_insert m k a)), count_if_cons.
  destruct (m !! k) as [b|] eqn:E.
  - rewrite (count_if_perm f _ _ (records_delete m k b E)), count_if_cons. destruct (f a), (f b); lia.
  - by rewrite delete_id.
Qed.
