(* ===== verification/ApiCalls.v ===== *)
(** * The calls of the API server

    The API server's code is a program over [ApiE]: the store, the Kubernetes
    client (cached and uncached reads apart), the authenticator's cache, the
    clock and the random source.  [mem_step] says what the store calls answer
    when the store is a [MemStore]; the answers of the others are open. *)
From S2P Require Import Prelude Calls GoStrings Crd Kube ApiKey Store.
Open Scope string_scope.

(** [cacheEntry] of the Authenticator: the key and its tenant, with the time
    they were put in. *)
Record cacheEntry := { ce_key : APIKey; ce_tenant : Tenant; ce_cachedAt : Time }.

Inductive ApiE : Type -> Type :=
(* the store *)
| STenant (id : string) : ApiE (result StoreErr Tenant)
| SAPIKey (id : string) : ApiE (result StoreErr APIKey)
| STouchAPIKey (id : string) (at_ : Time) : ApiE (result StoreErr unit)
| SQuota (tenant : string) : ApiE (result StoreErr Quota)
| SCountRunning (tenant : string) : ApiE (result StoreErr Z)
| SCountCreatedSince (tenant : string) (since : Time) : ApiE (result StoreErr Z)
| SRecordSandbox (r : SandboxRecord) : ApiE (result StoreErr unit)
| SIdempotency (tenant key : string) : ApiE (result StoreErr IdempotencyRecord)
| SSaveIdempotency (r : IdempotencyRecord) : ApiE (result StoreErr unit)
| SWarmupRequests (status : string) : ApiE (result StoreErr (list WarmupRequest))
| SWarmupRequest (id : string) : ApiE (result StoreErr WarmupRequest)
| SSaveWarmupRequest (r : WarmupRequest) : ApiE (result StoreErr unit)
| SPoolBudget : ApiE (result StoreErr PoolBudget)
| SAudit (e : AuditEvent) : ApiE (result StoreErr unit)
(* the Kubernetes client: [CCreate...] and so on, [RGetSandbox] the APIReader *)
| CCreateSandbox (s : Sandbox) : ApiE (result KErr unit)
| CGetSandbox (k : ObjectKey) : ApiE (result KErr Sandbox)
| RGetSandbox (k : ObjectKey) : ApiE (result KErr Sandbox)
| CListSandboxes (ns : string) (sel : gmap string string) : ApiE (result KErr (list Sandbox))
| CDeleteSandbox (s : Sandbox) : ApiE (result KErr unit)
| CGetTemplate (k : ObjectKey) : ApiE (result KErr SandboxTemplate)
| CListTemplates (ns : string) : ApiE (result KErr (list SandboxTemplate))
| CGetPool (k : ObjectKey) : ApiE (result KErr SandboxPool)
| CCreatePool (p : SandboxPool) : ApiE (result KErr unit)
| CUpdatePool (p : SandboxPool) : ApiE (result KErr unit)
(* the authenticator's cache, under its lock *)
| CacheGet (keyID : string) : ApiE (option cacheEntry)
| CachePut (keyID : string) (e : cacheEntry) : ApiE unit
| CacheDelete (keyID : string) : ApiE unit
(* the clock, the random source, [s.NewID], the order of a map's iteration *)
| CNow : ApiE Time
| CSleep (d : Z) : ApiE bool (* whether the request's context ended first *)
| CRand (n : nat) : ApiE string
| CNewID : ApiE string
| CRange (m : gmap string string) : ApiE (list (string * string)).

Abbreviation Api := (Prog ApiE).

(** What a store call answers on a [MemStore], and the store after it; [None]
    for a call that is not the store's. *)
Definition mem_step {R} (e : ApiE R) (m : MemStore) : option (R * MemStore) :=
  match e in ApiE R return option (R * MemStore) with
  | STenant id => Some (MemStore_Tenant id m, m)
  | SAPIKey id => Some (MemStore_APIKey id m, m)
  | STouchAPIKey id at_ => Some (Ok tt, MemStore_TouchAPIKey id at_ m)
  | SQuota t => Some (MemStore_Quota t m, m)
  | SCountRunning t => Some (Ok (CountRunning t m), m)
  | SCountCreatedSince t since => Some (Ok (CountCreatedSince t since m), m)
  | SRecordSandbox r => Some (Ok tt, RecordSandbox r m)
  | SIdempotency t k => Some (Idempotency t k m, m)
  | SSaveIdempotency r => Some (Ok tt, SaveIdempotency r m)
  | SWarmupRequests st => Some (Ok (WarmupRequests st m), m)
  | SWarmupRequest id => Some (MemStore_WarmupRequest id m, m)
  | SSaveWarmupRequest r => Some (Ok tt, SaveWarmupRequest r m)
  | SPoolBudget => Some (Ok (PoolBudget_of m), m)
  | SAudit ev => Some (Ok tt, Audit ev m)
  | _ => None
  end.

(** The answers of a world in which no service works. *)
Definition no_store : StoreErr := StoreFailed "unavailable".
Definition no_kube : KErr := plain_error "unavailable".
Definition unavailable {R} (e : ApiE R) : R :=
  match e in ApiE R return R with
  | STenant _ => Err no_store | SAPIKey _ => Err no_store | STouchAPIKey _ _ => Err no_store
  | SQuota _ => Err no_store | SCountRunning _ => Err no_store
  | SCountCreatedSince _ _ => Err no_store | SRecordSandbox _ => Err no_store
  | SIdempotency _ _ => Err no_store | SSaveIdempotency _ => Err no_store
  | SWarmupRequests _ => Err no_store | SWarmupRequest _ => Err no_store
  | SSaveWarmupRequest _ => Err no_store | SPoolBudget => Err no_store | SAudit _ => Err no_store
  | CCreateSandbox _ => Err no_kube | CGetSandbox _ => Err no_kube | RGetSandbox _ => Err no_kube
  | CListSandboxes _ _ => Err no_kube | CDeleteSandbox _ => Err no_kube
  | CGetTemplate _ => Err no_kube | CListTemplates _ => Err no_kube | CGetPool _ => Err no_kube
  | CCreatePool _ => Err no_kube | CUpdatePool _ => Err no_kube
  | CacheGet _ => None | CachePut _ _ => tt | CacheDelete _ => tt
  | CNow => 0%Z | CSleep _ => false | CRand _ => "" | CNewID => "" | CRange _ => []
  end.
