(* ===== verification/PgStore.v ===== *)
(** * The Postgres store (apiserver/pgstore.go, cmd/jdix-server/schema.sql)

    Every statement of [PGStore] over the tables of the schema: a table is a map
    from its primary key to its rows, a nullable column an option.  [pg_step]
    answers the store calls of the API server from the database, as [mem_step]
    does from a [MemStore]; an error is a refusal by the database (text it
    cannot store, a reference or a range it does not accept) and changes
    nothing.  Timestamps are kept in microseconds.  [pg_call] is what the
    database makes of a call; of that, it answers as a [MemStore] would.

    The driver, connection failures, the text of database errors and columns no
    statement reads are not modelled; metadata and audit details are kept as the
    maps their JSON stands for. *)
From S2P Require Import Prelude GoStrings ApiKey Store Kube ApiCalls.
Open Scope string_scope.

(** ** Values *)

(** [timestamptz] on the wire: whole microseconds, rounded down. *)
Definition micros (t : Time) : Time := (t / 1000 * 1000)%Z.
(** [nullString], and [coalesce(column, '')] *)
Definition nullString (s : string) : option string := if bool_decide (s = "") then None else Some s.
Definition coalesce_empty (c : option string) : string := default "" c.
(** [COALESCE(EXCLUDED.c, table.c)] *)
Definition coalesce {A} (new old : option A) : option A := match new with Some _ => new | None => old end.
(** [NULLIF(s, '')] *)
Definition nullif_empty (c : option string) : option string :=
  match c with Some s => nullString s | None => None end.

(** ** Rows *)

Record SandboxRow := {
  sb_tenant_id : string; sb_api_key_id : option string; sb_template : string; sb_state : string;
  sb_cold_start : bool; sb_isolation_tier : option string; sb_node : option string;
  sb_created_at : Time; sb_ready_at : option Time; sb_deleted_at : option Time;
  sb_delete_reason : option string; sb_metadata : gmap string string }.
Record IdempotencyRow := { ir_request_sum : string; ir_sandbox_id : string; ir_created_at : Time }.
Record WarmupRow := {
  wu_tenant_id : string; wu_template : string; wu_replicas : Z; wu_reason : option string;
  wu_status : string; wu_requested_by : option string; wu_reviewed_by : option string;
  wu_review_note : option string; wu_created_at : Time; wu_reviewed_at : option Time }.
Record BudgetRow := {
  bu_total_idle_pods : Z; bu_total_cpu : string; bu_total_memory : string;
  bu_updated_by : option string; bu_updated_at : Time }.
(** The tables; the key of a row is not repeated in it. *)
Record DB := {
  db_tenants : gmap string Tenant;
  db_api_keys : gmap string APIKey;
  db_quotas : gmap string Quota;
  db_sandboxes : gmap string SandboxRow;
  db_idempotency : gmap (string * string) IdempotencyRow;
  db_warmups : gmap string WarmupRow;
  db_budget : option BudgetRow;
  db_audit : list AuditEvent }.

Definition set_db_sandboxes (v : gmap string SandboxRow) (d : DB) : DB :=
  {| db_tenants := db_tenants d; db_api_keys := db_api_keys d; db_quotas := db_quotas d;
     db_sandboxes := v; db_idempotency := db_idempotency d; db_warmups := db_warmups d;
     db_budget := db_budget d; db_audit := db_audit d |}.
Definition set_db_api_keys (v : gmap string APIKey) (d : DB) : DB :=
  {| db_tenants := db_tenants d; db_api_keys := v; db_quotas := db_quotas d;
     db_sandboxes := db_sandboxes d; db_idempotency := db_idempotency d; db_warmups := db_warmups d;
     db_budget := db_budget d; db_audit := db_audit d |}.
Definition set_db_idempotency (v : gmap (string * string) IdempotencyRow) (d : DB) : DB :=
  {| db_tenants := db_tenants d; db_api_keys := db_api_keys d; db_quotas := db_quotas d;
     db_sandboxes := db_sandboxes d; db_idempotency := v; db_warmups := db_warmups d;
     db_budget := db_budget d; db_audit := db_audit d |}.
Definition set_db_warmups (v : gmap string WarmupRow) (d : DB) : DB :=
  {| db_tenants := db_tenants d; db_api_keys := db_api_keys d; db_quotas := db_quotas d;
     db_sandboxes := db_sandboxes d; db_idempotency := db_idempotency d; db_warmups := v;
     db_budget := db_budget d; db_audit := db_audit d |}.
Definition set_db_budget (v : option BudgetRow) (d : DB) : DB :=
  {| db_tenants := db_tenants d; db_api_keys := db_api_keys d; db_quotas := db_quotas d;
     db_sandboxes := db_sandboxes d; db_idempotency := db_idempotency d; db_warmups := db_warmups d;
     db_budget := v; db_audit := db_audit d |}.
Definition set_db_audit (v : list AuditEvent) (d : DB) : DB :=
  {| db_tenants := db_tenants d; db_api_keys := db_api_keys d; db_quotas := db_quotas d;
     db_sandboxes := db_sandboxes d; db_idempotency := db_idempotency d; db_warmups := db_warmups d;
     db_budget := db_budget d; db_audit := v |}.

(** ** Rows and records *)

(** [scanSandbox] on the columns as they are selected. *)
Definition scanSandbox (id : string) (r : SandboxRow) : SandboxRecord :=
  {| sr_ID := id; sr_TenantID := sb_tenant_id r; sr_APIKeyID := coalesce_empty (sb_api_key_id r);
     sr_Template := sb_template r; sr_State := sb_state r; sr_ColdStart := sb_cold_start r;
     sr_IsolationTier := coalesce_empty (sb_isolation_tier r); sr_Node := coalesce_empty (sb_node r);
     sr_CreatedAt := sb_created_at r; sr_ReadyAt := sb_ready_at r; sr_DeletedAt := sb_deleted_at r;
     sr_DeleteReason := coalesce_empty (sb_delete_reason r); sr_Metadata := sb_metadata r |}.
(** The values [RecordSandbox] inserts. *)
Definition sandbox_values (r : SandboxRecord) : SandboxRow :=
  {| sb_tenant_id := sr_TenantID r; sb_api_key_id := nullString (sr_APIKeyID r);
     sb_template := sr_Template r; sb_state := sr_State r; sb_cold_start := sr_ColdStart r;
     sb_isolation_tier := nullString (sr_IsolationTier r); sb_node := nullString (sr_Node r);
     sb_created_at := micros (sr_CreatedAt r); sb_ready_at := micros <$> sr_ReadyAt r;
     sb_deleted_at := micros <$> sr_DeletedAt r; sb_delete_reason := Some (sr_DeleteReason r);
     sb_metadata := sr_Metadata r |}.
(** [ON CONFLICT (id) DO UPDATE] *)
Definition sandbox_conflict (old new : SandboxRow) : SandboxRow :=
  {| sb_tenant_id := sb_tenant_id old; sb_api_key_id := sb_api_key_id old;
     sb_template := sb_template old; sb_state := sb_state new; sb_cold_start := sb_cold_start new;
     sb_isolation_tier := coalesce (sb_isolation_tier new) (sb_isolation_tier old);
     sb_node := coalesce (sb_node new) (sb_node old); sb_created_at := sb_created_at old;
     sb_ready_at := coalesce (sb_ready_at new) (sb_ready_at old);
     sb_deleted_at := coalesce (sb_deleted_at new) (sb_deleted_at old);
     sb_delete_reason := coalesce (nullif_empty (sb_delete_reason new)) (sb_delete_reason old);
     sb_metadata := sb_metadata old |}.
Definition scanWarmup (id : string) (r : WarmupRow) : WarmupRequest :=
  {| wr_ID := id; wr_TenantID := wu_tenant_id r; wr_Template := wu_template r;
     wr_Replicas := wu_replicas r; wr_Reason := coalesce_empty (wu_reason r); wr_Status := wu_status r;
     wr_RequestedBy := coalesce_empty (wu_requested_by r);
     wr_ReviewedBy := coalesce_empty (wu_reviewed_by r);
     wr_ReviewNote := coalesce_empty (wu_review_note r); wr_CreatedAt := wu_created_at r;
     wr_ReviewedAt := wu_reviewed_at r |}.
Definition warmup_values (r : WarmupRequest) : WarmupRow :=
  {| wu_tenant_id := wr_TenantID r; wu_template := wr_Template r; wu_replicas := wr_Replicas r;
     wu_reason := nullString (wr_Reason r); wu_status := wr_Status r;
     wu_requested_by := nullString (wr_RequestedBy r); wu_reviewed_by := nullString (wr_ReviewedBy r);
     wu_review_note := nullString (wr_ReviewNote r); wu_created_at := micros (wr_CreatedAt r);
     wu_reviewed_at := micros <$> wr_ReviewedAt r |}.
Definition warmup_conflict (old new : WarmupRow) : WarmupRow :=
  {| wu_tenant_id := wu_tenant_id old; wu_template := wu_template old; wu_replicas := wu_replicas old;
     wu_reason := wu_reason old; wu_status := wu_status new; wu_requested_by := wu_requested_by old;
     wu_reviewed_by := wu_reviewed_by new; wu_review_note := wu_review_note new;
     wu_created_at := wu_created_at old; wu_reviewed_at := wu_reviewed_at new |}.

(** [INSERT ... ON CONFLICT (key) DO UPDATE] *)
Definition upsert {Key A} `{Countable Key} (merge : A -> A -> A) (k : Key) (new : A) (m : gmap Key A) : gmap Key A :=
  <[k := match m !! k with Some old => merge old new | None => new end]> m.

(** ** Statements *)

Section Statements.
(** Text Postgres can hold (valid UTF-8 without a zero byte), and what it reads
    as an INET address. *)
Context (text_ok inet_ok : string -> bool).

Definition pg_error : StoreErr := StoreFailed "database error".
(** A statement with text parameters [ts], refused unless [ok]. *)
Definition statement {A} (ts : list string) (ok : bool) (a : A) : result StoreErr A :=
  if forallb text_ok ts && ok then Ok a else Err pg_error.
(** A query for one row by its key: [mapErr] makes no row [ErrNotFound]. *)
Definition query_row {A} (ts : list string) (row : option A) : result StoreErr A :=
  let? row := statement ts true row in
  match row with Some a => Ok a | None => Err ErrNotFound end.
Definition exec (ts : list string) (ok : bool) (d' d : DB) : result StoreErr unit * DB :=
  match statement ts ok tt with Ok _ => (Ok tt, d') | Err e => (Err e, d) end.

Definition PG_Tenant (id : string) (d : DB) : result StoreErr Tenant := query_row [id] (db_tenants d !! id).
Definition PG_APIKey (id : string) (d : DB) : result StoreErr APIKey := query_row [id] (db_api_keys d !! id).
Definition PG_Quota (t : string) (d : DB) : result StoreErr Quota := query_row [t] (db_quotas d !! t).
Definition PG_TouchAPIKey (id : string) (at_ : Time) (d : DB) : result StoreErr unit * DB :=
  exec [id] true
    (match db_api_keys d !! id with
     | Some k => set_db_api_keys (<[id := touch (micros at_) k]> (db_api_keys d)) d
     | None => d
     end) d.
Definition PG_CountRunning (tenant : string) (d : DB) : result StoreErr Z :=
  statement [tenant] true
    (count_if (fun r => bool_decide (sb_tenant_id r = tenant) &&
                        match sb_deleted_at r with None => true | _ => false end)
       (records (db_sandboxes d))).
Definition PG_CountCreatedSince (tenant : string) (since : Time) (d : DB) : result StoreErr Z :=
  statement [tenant] true
    (count_if (fun r => bool_decide (sb_tenant_id r = tenant) && after (sb_created_at r) (micros since))
       (records (db_sandboxes d))).

Definition metadata_texts (m : gmap string string) : list string :=
  concat (map (fun kv => [fst kv; snd kv]) (map_to_list m)).
Definition sandbox_texts (r : SandboxRecord) : list string :=
  [sr_ID r; sr_TenantID r; sr_APIKeyID r; sr_Template r; sr_State r; sr_IsolationTier r; sr_Node r;
   sr_DeleteReason r] ++ metadata_texts (sr_Metadata r).
Definition PG_RecordSandbox (r : SandboxRecord) (d : DB) : result StoreErr unit * DB :=
  exec (sandbox_texts r) true
    (set_db_sandboxes (upsert sandbox_conflict (sr_ID r) (sandbox_values r) (db_sandboxes d)) d) d.
Definition PG_UpdateSandbox (r : SandboxRecord) (d : DB) : result StoreErr unit * DB := PG_RecordSandbox r d.
Definition PG_Sandbox (id : string) (d : DB) : result StoreErr SandboxRecord :=
  query_row [id] (scanSandbox id <$> db_sandboxes d !! id).

(** [ORDER BY created_at DESC, id ASC], the ids compared byte by byte. *)
Definition PG_selected (tenant : string) (d : DB) : list SandboxRecord :=
  sort_by newer (List.filter (fun b => bool_decide (sr_TenantID b = tenant))
    (map (fun kv => scanSandbox (fst kv) (snd kv)) (map_to_list (db_sandboxes d)))).
Definition PG_ListSandboxes (tenant : string) (limit : Z) (cursor : string) (d : DB)
    : result StoreErr (list SandboxRecord * string) :=
  let limit := page_limit limit in
  let offset := page_start cursor in
  let? out := statement [tenant] true
    (take (Z.to_nat (limit + 1)) (drop (Z.to_nat offset) (PG_selected tenant d))) in
  Ok (if (limit <? Z.of_nat (length out))%Z then (take (Z.to_nat limit) out, itoa (offset + limit))
      else (out, "")).

Definition PG_Idempotency (tenant key : string) (d : DB) : result StoreErr IdempotencyRecord :=
  query_row [tenant; key]
    ((fun r => {| id_Key := key; id_TenantID := tenant; id_RequestSum := ir_request_sum r;
                  id_SandboxID := ir_sandbox_id r; id_CreatedAt := ir_created_at r |}) <$>
     db_idempotency d !! (tenant, key)).
(** [ON CONFLICT DO NOTHING] *)
Definition PG_SaveIdempotency (r : IdempotencyRecord) (d : DB) : result StoreErr unit * DB :=
  exec [id_TenantID r; id_Key r; id_RequestSum r; id_SandboxID r] true
    (set_db_idempotency
       (upsert (fun old _ => old) (id_TenantID r, id_Key r)
          {| ir_request_sum := id_RequestSum r; ir_sandbox_id := id_SandboxID r;
             ir_created_at := micros (id_CreatedAt r) |} (db_idempotency d)) d) d.
Definition PG_PurgeIdempotency (now : Time) (age : Z) (d : DB) : DB :=
  set_db_idempotency
    (filter (fun kr => (micros (now - age) <= ir_created_at (snd kr))%Z) (db_idempotency d)) d.

Definition audit_texts (e : AuditEvent) : list string :=
  [au_TenantID e; au_Actor e; au_Action e; au_Target e; au_IP e; au_UserAgent e] ++
  metadata_texts (au_Detail e).
Definition micros_audit (e : AuditEvent) : AuditEvent :=
  {| au_TenantID := au_TenantID e; au_Actor := au_Actor e; au_Action := au_Action e;
     au_Target := au_Target e; au_IP := au_IP e; au_UserAgent := au_UserAgent e;
     au_At := micros (au_At e); au_Detail := au_Detail e |}.
Definition PG_Audit (e : AuditEvent) (d : DB) : result StoreErr unit * DB :=
  exec (audit_texts e) (bool_decide (au_IP e = "") || inet_ok (au_IP e))
    (set_db_audit (db_audit d ++ [micros_audit e]) d) d.

Definition warmup_list (d : DB) : list WarmupRequest :=
  map (fun kv => scanWarmup (fst kv) (snd kv)) (map_to_list (db_warmups d)).
Definition PG_WarmupRequests (status : string) (d : DB) : result StoreErr (list WarmupRequest) :=
  statement [status] true
    (sort_by (fun a b => before (wr_CreatedAt a) (wr_CreatedAt b))
       (List.filter (fun r => bool_decide (status = "") || bool_decide (wr_Status r = status))
          (warmup_list d))).
Definition PG_WarmupRequest (id : string) (d : DB) : result StoreErr WarmupRequest :=
  query_row [id] (scanWarmup id <$> db_warmups d !! id).
Definition warmup_texts (r : WarmupRequest) : list string :=
  [wr_ID r; wr_TenantID r; wr_Template r; wr_Reason r; wr_Status r; wr_RequestedBy r;
   wr_ReviewedBy r; wr_ReviewNote r].
Definition int4 (z : Z) : bool := bool_decide (in_int32 z).
(** [tenant_id REFERENCES tenants], [replicas INT] *)
Definition PG_SaveWarmupRequest (r : WarmupRequest) (d : DB) : result StoreErr unit * DB :=
  exec (warmup_texts r)
    (int4 (wr_Replicas r) &&
     (bool_decide (is_Some (db_warmups d !! wr_ID r)) || bool_decide (is_Some (db_tenants d !! wr_TenantID r))))
    (set_db_warmups (upsert warmup_conflict (wr_ID r) (warmup_values r) (db_warmups d)) d) d.

Definition approved_sum (d : DB) : Z :=
  foldr (fun r acc => if is_approved r then acc + wr_Replicas r else acc)%Z 0%Z (warmup_list d).
Definition PG_PoolBudget (d : DB) : result StoreErr PoolBudget :=
  match db_budget d with
  | None => Err ErrNotFound
  | Some b =>
      let? allocated := statement [] (bool_decide (in_int64 (approved_sum d))) (approved_sum d) in
      Ok {| pb_TotalIdlePods := bu_total_idle_pods b; pb_TotalCPU := bu_total_cpu b;
            pb_TotalMemory := bu_total_memory b; pb_Allocated := allocated;
            pb_UpdatedBy := coalesce_empty (bu_updated_by b); pb_UpdatedAt := bu_updated_at b |}
  end.
(** [total_cpu] and [total_memory] are NOT NULL, and empty ones are sent as NULL. *)
Definition PG_SetPoolBudget (now : Time) (b : PoolBudget) (d : DB) : result StoreErr unit * DB :=
  match nullString (pb_TotalCPU b), nullString (pb_TotalMemory b) with
  | Some cpu, Some memory =>
      exec [cpu; memory; pb_UpdatedBy b] (int4 (pb_TotalIdlePods b))
        (set_db_budget (Some {| bu_total_idle_pods := pb_TotalIdlePods b; bu_total_cpu := cpu;
                                bu_total_memory := memory; bu_updated_by := nullString (pb_UpdatedBy b);
                                bu_updated_at := micros now |}) d) d
  | _, _ => (Err pg_error, d)
  end.

Definition reads {R} (r : R) (d : DB) : option (R * DB) := Some (r, d).
(** The store calls of the API server. *)
Definition pg_step {R} (e : ApiE R) (d : DB) : option (R * DB) :=
  match e in ApiE R return option (R * DB) with
  | STenant id => reads (PG_Tenant id d) d
  | SAPIKey id => reads (PG_APIKey id d) d
  | STouchAPIKey id at_ => Some (PG_TouchAPIKey id at_ d)
  | SQuota t => reads (PG_Quota t d) d
  | SCountRunning t => reads (PG_CountRunning t d) d
  | SCountCreatedSince t since => reads (PG_CountCreatedSince t since d) d
  | SRecordSandbox r => Some (PG_RecordSandbox r d)
  | SIdempotency t k => reads (PG_Idempotency t k d) d
  | SSaveIdempotency r => Some (PG_SaveIdempotency r d)
  | SWarmupRequests st => reads (PG_WarmupRequests st d) d
  | SWarmupRequest id => reads (PG_WarmupRequest id d) d
  | SSaveWarmupRequest r => Some (PG_SaveWarmupRequest r d)
  | SPoolBudget => reads (PG_PoolBudget d) d
  | SAudit ev => Some (PG_Audit ev d)
  | _ => None
  end.
End Statements.

(** What the schema leaves in a fresh database. *)
Definition fresh_db (now : Time) : DB :=
  {| db_tenants := ∅; db_api_keys := ∅; db_quotas := ∅; db_sandboxes := ∅; db_idempotency := ∅;
     db_warmups := ∅;
     db_budget := Some {| bu_total_idle_pods := 64; bu_total_cpu := "16"; bu_total_memory := "32Gi";
                          bu_updated_by := None; bu_updated_at := micros now |};
     db_audit := [] |}.

(** ** Postgres as a MemStore that keeps microseconds *)

Definition micros_sandbox (r : SandboxRecord) : SandboxRecord :=
  {| sr_ID := sr_ID r; sr_TenantID := sr_TenantID r; sr_APIKeyID := sr_APIKeyID r;
     sr_Template := sr_Template r; sr_State := sr_State r; sr_ColdStart := sr_ColdStart r;
     sr_IsolationTier := sr_IsolationTier r; sr_Node := sr_Node r; sr_CreatedAt := micros (sr_CreatedAt r);
     sr_ReadyAt := micros <$> sr_ReadyAt r; sr_DeletedAt := micros <$> sr_DeletedAt r;
     sr_DeleteReason := sr_DeleteReason r; sr_Metadata := sr_Metadata r |}.
Definition micros_idempotency (r : IdempotencyRecord) : IdempotencyRecord :=
  {| id_Key := id_Key r; id_TenantID := id_TenantID r; id_RequestSum := id_RequestSum r;
     id_SandboxID := id_SandboxID r; id_CreatedAt := micros (id_CreatedAt r) |}.
Definition micros_warmup (r : WarmupRequest) : WarmupRequest :=
  {| wr_ID := wr_ID r; wr_TenantID := wr_TenantID r; wr_Template := wr_Template r;
     wr_Replicas := wr_Replicas r; wr_Reason := wr_Reason r; wr_Status := wr_Status r;
     wr_RequestedBy := wr_RequestedBy r; wr_ReviewedBy := wr_ReviewedBy r;
     wr_ReviewNote := wr_ReviewNote r; wr_CreatedAt := micros (wr_CreatedAt r);
     wr_ReviewedAt := micros <$> wr_ReviewedAt r |}.
(** The call with the times it carries cut to microseconds. *)
Definition micros_call {R} (e : ApiE R) : ApiE R :=
  match e in ApiE R return ApiE R with
  | STouchAPIKey id at_ => STouchAPIKey id (micros at_)
  | SCountCreatedSince t since => SCountCreatedSince t (micros since)
  | SRecordSandbox r => SRecordSandbox (micros_sandbox r)
  | SSaveIdempotency r => SSaveIdempotency (micros_idempotency r)
  | SSaveWarmupRequest r => SSaveWarmupRequest (micros_warmup r)
  | SAudit ev => SAudit (micros_audit ev)
  | e => e
  end.

(** The MemStore that holds what the database holds. *)
Record mirrors (d : DB) (m : MemStore) : Prop := {
  mi_tenants : ms_tenants m = db_tenants d;
  mi_keys : ms_keys m = db_api_keys d;
  mi_quotas : ms_quotas m = db_quotas d;
  mi_boxes : ms_boxes m = map_imap (fun id r => Some (scanSandbox id r)) (db_sandboxes d);
  mi_idem t k : no_byte slash t ->
    Idempotency t k m =
      match db_idempotency d !! (t, k) with
      | Some r => Ok {| id_Key := k; id_TenantID := t; id_RequestSum := ir_request_sum r;
                        id_SandboxID := ir_sandbox_id r; id_CreatedAt := ir_created_at r |}
      | None => Err ErrNotFound
      end;
  mi_warmups : ms_warmups m = map_imap (fun id r => Some (scanWarmup id r)) (db_warmups d);
  mi_budget : exists b, db_budget d = Some b /\
    bu_total_idle_pods b = pb_TotalIdlePods (ms_budget m) /\ bu_total_cpu b = pb_TotalCPU (ms_budget m) /\
    bu_total_memory b = pb_TotalMemory (ms_budget m) /\
    coalesce_empty (bu_updated_by b) = pb_UpdatedBy (ms_budget m) /\
    bu_updated_at b = pb_UpdatedAt (ms_budget m);
  mi_audit : ms_audit m = db_audit d }.

(** A record that only adds to the row that is there. *)
Definition extends (old : SandboxRecord) (r : SandboxRecord) : Prop :=
  sr_TenantID r = sr_TenantID old /\ sr_APIKeyID r = sr_APIKeyID old /\ sr_Template r = sr_Template old /\
  micros (sr_CreatedAt r) = sr_CreatedAt old /\ sr_Metadata r = sr_Metadata old /\
  (sr_IsolationTier r = "" -> sr_IsolationTier old = "") /\ (sr_Node r = "" -> sr_Node old = "") /\
  (sr_ReadyAt r = None -> sr_ReadyAt old = None) /\ (sr_DeletedAt r = None -> sr_DeletedAt old = None) /\
  (sr_DeleteReason r = "" -> sr_DeleteReason old = "").
(** A review of the request that is there. *)
Definition reviews (old r : WarmupRequest) : Prop :=
  wr_TenantID r = wr_TenantID old /\ wr_Template r = wr_Template old /\ wr_Replicas r = wr_Replicas old /\
  wr_Reason r = wr_Reason old /\ wr_RequestedBy r = wr_RequestedBy old /\
  micros (wr_CreatedAt r) = wr_CreatedAt old.
(** ** What the database makes of a call *)

(** A row that is there keeps its tenant, key, template, metadata and time of
    creation; a value that is not given leaves the one that is there. *)
Definition merged_sandbox (old new : SandboxRecord) : SandboxRecord :=
  {| sr_ID := sr_ID new; sr_TenantID := sr_TenantID old; sr_APIKeyID := sr_APIKeyID old;
     sr_Template := sr_Template old; sr_State := sr_State new; sr_ColdStart := sr_ColdStart new;
     sr_IsolationTier := if bool_decide (sr_IsolationTier new = "") then sr_IsolationTier old
                         else sr_IsolationTier new;
     sr_Node := if bool_decide (sr_Node new = "") then sr_Node old else sr_Node new;
     sr_CreatedAt := sr_CreatedAt old; sr_ReadyAt := coalesce (sr_ReadyAt new) (sr_ReadyAt old);
     sr_DeletedAt := coalesce (sr_DeletedAt new) (sr_DeletedAt old);
     sr_DeleteReason := if bool_decide (sr_DeleteReason new = "") then sr_DeleteReason old
                        else sr_DeleteReason new;
     sr_Metadata := sr_Metadata old |}.
(** A request that is there is reviewed and not asked anew: its size stays too. *)
Definition merged_warmup (old new : WarmupRequest) : WarmupRequest :=
  {| wr_ID := wr_ID new; wr_TenantID := wr_TenantID old; wr_Template := wr_Template old;
     wr_Replicas := wr_Replicas old; wr_Reason := wr_Reason old; wr_Status := wr_Status new;
     wr_RequestedBy := wr_RequestedBy old; wr_ReviewedBy := wr_ReviewedBy new;
     wr_ReviewNote := wr_ReviewNote new; wr_CreatedAt := wr_CreatedAt old;
     wr_ReviewedAt := wr_ReviewedAt new |}.
(** The call a MemStore would have to be made for it to do what the database
    does: times cut, what is there merged with, and a key that is taken left to
    its first writer. *)
Definition pg_call {R} (m : MemStore) (e : ApiE R) : ApiE R :=
  match e in ApiE R return ApiE R with
  | SRecordSandbox r => SRecordSandbox
      match ms_boxes m !! sr_ID r with
      | Some old => merged_sandbox old (micros_sandbox r)
      | None => micros_sandbox r
      end
  | SSaveIdempotency r => SSaveIdempotency
      match Idempotency (id_TenantID r) (id_Key r) m with
      | Ok old => old
      | Err _ => micros_idempotency r
      end
  | SSaveWarmupRequest r => SSaveWarmupRequest
      match ms_warmups m !! wr_ID r with
      | Some old => merged_warmup old (micros_warmup r)
      | None => micros_warmup r
      end
  | e => micros_call e
  end.
(** The writes of which that makes nothing else: new records, or ones that only
    add; keys that are new; reviews that leave the size as it was asked for. *)
Definition adds_only {R} (e : ApiE R) (m : MemStore) : Prop :=
  match e with
  | SRecordSandbox r => match ms_boxes m !! sr_ID r with Some old => extends old r | None => True end
  | SSaveIdempotency r => Idempotency (id_TenantID r) (id_Key r) m = Err ErrNotFound
  | SSaveWarmupRequest r => match ms_warmups m !! wr_ID r with Some old => reviews old r | None => True end
  | _ => True
  end.
(** In memory a tenant and a key are joined by a slash, which tells them apart
    again when the tenant's id holds none. *)
Definition plain_tenant {R} (e : ApiE R) : Prop :=
  match e with
  | SIdempotency t _ => no_byte slash t
  | SSaveIdempotency r => no_byte slash (id_TenantID r)
  | _ => True
  end.
(** Answers agree when they are the same, but for the order of requests made
    within one microsecond. *)
Definition agree {R} (e : ApiE R) : R -> R -> Prop :=
  match e in ApiE R return R -> R -> Prop with
  | SWarmupRequests _ => fun a b =>
      match a, b with Ok l, Ok l' => l ≡ₚ l' | Err x, Err y => x = y | _, _ => False end
  | _ => eq
  end.

Lemma micros_idem t : micros (micros t) = micros t.
Proof. unfold micros. rewrite Z.div_mul by done. done. Qed.
Lemma coalesce_null s : coalesce_empty (nullString s) = s.
Proof. unfold nullString. by case_bool_decide; subst. Qed.
Lemma scan_values r : scanSandbox (sr_ID r) (sandbox_values r) = micros_sandbox r.
Proof. unfold scanSandbox, sandbox_values, micros_sandbox. cbn. by rewrite !coalesce_null. Qed.
Lemma scan_warmup_values r : scanWarmup (wr_ID r) (warmup_values r) = micros_warmup r.
Proof. unfold scanWarmup, warmup_values, micros_warmup. cbn. by rewrite !coalesce_null. Qed.
Lemma coalesce_text new old :
  coalesce_empty (coalesce (nullString new) old) = if bool_decide (new = "") then coalesce_empty old else new.
Proof. unfold nullString. by case_bool_decide. Qed.
Lemma scan_conflict old r :
  scanSandbox (sr_ID r) (sandbox_conflict old (sandbox_values r))
  = merged_sandbox (scanSandbox (sr_ID r) old) (micros_sandbox r).
Proof.
  unfold scanSandbox, sandbox_conflict, sandbox_values, merged_sandbox, micros_sandbox. cbn.
  by rewrite !coalesce_text.
Qed.
Lemma scan_warmup_conflict old r :
  scanWarmup (wr_ID r) (warmup_conflict old (warmup_values r))
  = merged_warmup (scanWarmup (wr_ID r) old) (micros_warmup r).
Proof.
  unfold scanWarmup, warmup_conflict, warmup_values, merged_warmup, micros_warmup. cbn.
  by rewrite !coalesce_null.
Qed.
Lemma merged_text (new old : string) : (new = "" -> old = "") -> (if bool_decide (new = "") then old else new) = new.
Proof. intros H. case_bool_decide as E; [|done]. rewrite E in *. auto. Qed.
Lemma merged_time (new old : option Time) : (new = None -> old = None) -> coalesce (micros <$> new) old = micros <$> new.
Proof. intros H. destruct new; [done|]. cbn. by apply H. Qed.
Lemma pg_call_adds R (e : ApiE R) m : adds_only e m -> pg_call m e = micros_call e.
Proof.
  destruct e; cbn; try done.
  - destruct (ms_boxes m !! sr_ID r) as [old|]; [|done]. intros (H1 & H2 & H3 & H4 & H5 & H6 & H7 & H8 & H9 & H10).
    f_equal. unfold merged_sandbox, micros_sandbox. cbn.
    by rewrite <-H1, <-H2, <-H3, <-H4, <-H5, !merged_text, !merged_time by done.
  - by intros ->.
  - destruct (ms_warmups m !! wr_ID r) as [old|]; [|done]. intros (H1 & H2 & H3 & H4 & H5 & H6).
    f_equal. unfold merged_warmup, micros_warmup. cbn. by rewrite <-H1, <-H2, <-H3, <-H4, <-H5, <-H6.
Qed.

(** *** Tables *)

Lemma records_imap {A B} (f : string -> A -> B) (m : gmap string A) :
  records (map_imap (fun k r => Some (f k r)) m) ≡ₚ map (fun kr => f (fst kr) (snd kr)) (map_to_list m).
Proof.
  induction m as [|k r m Hk IH] using map_ind.
  { by rewrite map_imap_empty, map_to_list_empty. }
  rewrite map_imap_insert. rewrite records_insert, map_to_list_insert by done. cbn.
  rewrite delete_id by by rewrite map_lookup_imap, Hk. by rewrite IH.
Qed.
Lemma count_if_map {A B} (f : B -> bool) (g : A -> B) l :
  count_if f (map g l) = count_if (fun a => f (g a)) l.
Proof. induction l as [|a l IH]; [done|]. cbn [map]. by rewrite !count_if_cons, IH. Qed.
Lemma upsert_imap {A B} (scan : string -> A -> B) merge k new (m : gmap string A) b :
  match m !! k with Some old => scan k (merge old new) = b | None => scan k new = b end ->
  map_imap (fun k r => Some (scan k r)) (upsert merge k new m) =
  <[k := b]> (map_imap (fun k r => Some (scan k r)) m).
Proof. intros H. unfold upsert. rewrite map_imap_insert. destruct (m !! k); by rewrite H. Qed.
Lemma upsert_idem (t k t' k' : string) (new : IdempotencyRow) (m : gmap (string * string) IdempotencyRow) :
  m !! (t, k) = None ->
  upsert (fun old _ => old) (t, k) new m !! (t', k') =
  if decide (t' = t /\ k' = k) then Some new else m !! (t', k').
Proof.
  intros H. unfold upsert. rewrite H. case_decide as E.
  - destruct E as [-> ->]. apply lookup_insert_eq.
  - apply lookup_insert_ne. intros [= <- <-]. by apply E.
Qed.
Lemma idem_key_inj t k t' k' :
  no_byte slash t -> no_byte slash t' -> idem_key t k = idem_key t' k' -> t = t' /\ k = k'.
Proof.
  intros H H' E. unfold idem_key in E. change ("/" +:+ ?x) with (String slash x) in E.
  apply (f_equal (fun s => cut s slash)) in E. rewrite !cut_app in E by done. by injection E.
Qed.

(** *** Sums *)

Lemma int64_add_l a b : int64 (int64 a + b) = int64 (a + b).
Proof.
  assert (exists k, int64 a = a + k * 2 ^ 64)%Z as [k ->].
  { unfold int64, wrap_signed. pose proof (Z.div_mod a (2 ^ 64) ltac:(done)) as E.
    destruct (_ <? _)%Z; [exists (- (a / 2 ^ 64))%Z|exists (- (a / 2 ^ 64) - 1)%Z]; lia. }
  unfold int64, wrap_signed. replace (a + k * 2 ^ 64 + b)%Z with (a + b + k * 2 ^ 64)%Z by lia.
  by rewrite Z.mod_add by done.
Qed.
Definition approved_total (l : list WarmupRequest) : Z :=
  foldr (fun r acc => if is_approved r then acc + wr_Replicas r else acc)%Z 0%Z l.
Lemma approved_total_perm l l' : l ≡ₚ l' -> approved_total l = approved_total l'.
Proof.
  induction 1 as [|r l l' _ IH|r q l|l l' l'' _ IH1 _ IH2]; cbn; [done| | |congruence].
  - unfold approved_total in *. by rewrite IH.
  - destruct (is_approved r), (is_approved q); lia.
Qed.
Lemma allocated_wraps m : allocated m = int64 (approved_total (records (ms_warmups m))).
Proof.
  unfold allocated. induction (records (ms_warmups m)) as [|r l IH]; [done|]. cbn.
  unfold approved_total in *. rewrite IH. destruct (is_approved r); [apply int64_add_l|done].
Qed.

Section Refines.
Context (text_ok inet_ok : string -> bool).

(** What the database takes: text it can hold, and what the schema demands. *)
Definition call_texts {R} (e : ApiE R) : list string :=
  match e with
  | STenant id | SAPIKey id | STouchAPIKey id _ | SWarmupRequest id => [id]
  | SQuota t | SCountRunning t | SCountCreatedSince t _ => [t]
  | SRecordSandbox r => sandbox_texts r
  | SIdempotency t k => [t; k]
  | SSaveIdempotency r => [id_TenantID r; id_Key r; id_RequestSum r; id_SandboxID r]
  | SWarmupRequests st => [st]
  | SSaveWarmupRequest r => warmup_texts r
  | SAudit ev => audit_texts ev
  | _ => []
  end.
Definition schema_ok {R} (e : ApiE R) (d : DB) : bool :=
  match e with
  | SSaveWarmupRequest r =>
      int4 (wr_Replicas r) &&
      (bool_decide (is_Some (db_warmups d !! wr_ID r)) || bool_decide (is_Some (db_tenants d !! wr_TenantID r)))
  | SAudit ev => bool_decide (au_IP ev = "") || inet_ok (au_IP ev)
  | SPoolBudget => bool_decide (in_int64 (approved_sum d))
  | _ => true
  end.
Definition takes {R} (e : ApiE R) (d : DB) : bool := forallb text_ok (call_texts e) && schema_ok e d.
Definition refusal {R} (e : ApiE R) : R -> Prop :=
  match e in ApiE R return R -> Prop with
  | STenant _ | SAPIKey _ | STouchAPIKey _ _ | SQuota _ | SCountRunning _ | SCountCreatedSince _ _
  | SRecordSandbox _ | SIdempotency _ _ | SSaveIdempotency _ | SWarmupRequests _ | SWarmupRequest _
  | SSaveWarmupRequest _ | SPoolBudget | SAudit _ => fun r => r = Err pg_error
  | _ => fun _ => True
  end.
Abbreviation step := (pg_step text_ok inet_ok).

Lemma exec_taken ts ok d' d :
  forallb text_ok ts && ok = true -> exec text_ok ts ok d' d = (Ok tt, d').
Proof. intros H. unfold exec, statement. by rewrite H. Qed.
Lemma query_taken {A} ts (row : option A) :
  forallb text_ok ts = true -> query_row text_ok ts row = match row with Some a => Ok a | None => Err ErrNotFound end.
Proof. intros H. unfold query_row, statement. by rewrite H. Qed.

(** *** Reads *)

Lemma count_rows (P : SandboxRecord -> bool) (Q : SandboxRow -> bool) d m :
  mirrors d m -> (forall id r, P (scanSandbox id r) = Q r) ->
  count_if Q (records (db_sandboxes d)) = count_if P (records (ms_boxes m)).
Proof.
  intros Hm HPQ. rewrite (mi_boxes _ _ Hm), (count_if_perm _ _ _ (records_imap _ _)), count_if_map.
  unfold records. rewrite count_if_map. unfold count_if. f_equal. f_equal.
  induction (map_to_list (db_sandboxes d)) as [|[id r] l IH]; [done|]. cbn. by rewrite HPQ, IH.
Qed.
Lemma warmup_list_mirrors d m : mirrors d m -> records (ms_warmups m) ≡ₚ warmup_list d.
Proof. intros Hm. rewrite (mi_warmups _ _ Hm). apply records_imap. Qed.
Lemma warmups_agree d m status :
  mirrors d m ->
  sort_by (fun a b => before (wr_CreatedAt a) (wr_CreatedAt b))
    (List.filter (fun r => bool_decide (status = "") || bool_decide (wr_Status r = status)) (warmup_list d))
  ≡ₚ WarmupRequests status m.
Proof.
  intros Hm. unfold WarmupRequests. rewrite !sort_by_perm.
  rewrite (filter_perm _ _ _ (warmup_list_mirrors d m Hm)).
  assert (forall r, (bool_decide (status = "") || bool_decide (wr_Status r = status)) =
    negb (negb (bool_decide (status = "")) && negb (bool_decide (wr_Status r = status)))) as E.
  { intros r. by destruct (bool_decide (status = "")), (bool_decide (wr_Status r = status)). }
  induction (warmup_list d) as [|r l IH]; [done|]. cbn. rewrite <-E. case_match; by rewrite IH.
Qed.
Lemma budget_agrees d m :
  mirrors d m -> in_int64 (approved_sum d) -> forallb text_ok [] = true ->
  PG_PoolBudget text_ok d = Ok (PoolBudget_of m).
Proof.
  intros Hm Hsum _. destruct (mi_budget _ _ Hm) as (b & Hb & H1 & H2 & H3 & H4 & H5).
  unfold PG_PoolBudget, statement, PoolBudget_of. rewrite Hb, bool_decide_true by done. cbn.
  rewrite allocated_wraps, (approved_total_perm _ _ (warmup_list_mirrors d m Hm)).
  change (approved_total (warmup_list d)) with (approved_sum d). by rewrite int64_id, H1, H2, H3, H4, H5.
Qed.

Definition is_read {R} (e : ApiE R) : bool :=
  match e with
  | STenant _ | SAPIKey _ | SQuota _ | SCountRunning _ | SCountCreatedSince _ _ | SIdempotency _ _
  | SWarmupRequests _ | SWarmupRequest _ | SPoolBudget => true
  | _ => false
  end.
Lemma reads_agree R (e : ApiE R) d m r d' :
  mirrors d m -> plain_tenant e -> is_read e = true -> takes e d = true -> step e d = Some (r, d') ->
  d' = d /\ exists r', mem_step (pg_call m e) m = Some (r', m) /\ agree e r r'.
Proof.
  intros Hm Huse Hread [Ht Hs]%andb_prop.
  destruct e; try done; cbn [call_texts schema_ok] in Ht, Hs;
    intros [= <- <-]; (split; [done|]); eexists; (split; [reflexivity|]); cbn [agree].
  - unfold PG_Tenant. rewrite query_taken by done. unfold MemStore_Tenant, find_record. by rewrite (mi_tenants _ _ Hm).
  - unfold PG_APIKey. rewrite query_taken by done. unfold MemStore_APIKey, find_record. by rewrite (mi_keys _ _ Hm).
  - unfold PG_Quota. rewrite query_taken by done. unfold MemStore_Quota, find_record. by rewrite (mi_quotas _ _ Hm).
  - unfold PG_CountRunning, statement. rewrite Ht. cbn [andb]. f_equal. by apply count_rows.
  - unfold PG_CountCreatedSince, statement. rewrite Ht. cbn [andb]. f_equal. by apply count_rows.
  - unfold PG_Idempotency. rewrite query_taken by done. cbn in Huse. rewrite (mi_idem _ _ Hm) by done.
    by destruct (db_idempotency d !! _).
  - unfold PG_WarmupRequests, statement. rewrite Ht. cbn [andb]. by apply warmups_agree.
  - unfold PG_WarmupRequest. rewrite query_taken by done. unfold MemStore_WarmupRequest, find_record.
    rewrite (mi_warmups _ _ Hm), map_lookup_imap. by destruct (db_warmups d !! id).
  - apply budget_agrees; [done| |done]. by apply bool_decide_eq_true in Hs.
Qed.

(** *** Writes *)

Lemma writes_agree R (e : ApiE R) d m r d' :
  mirrors d m -> plain_tenant e -> is_read e = false -> takes e d = true -> step e d = Some (r, d') ->
  exists m', mem_step (pg_call m e) m = Some (r, m') /\ mirrors d' m'.
Proof.
  intros Hm Huse Hread Htakes. pose proof Htakes as Hexec. unfold takes in Hexec.
  pose proof Hm as [H1 H2 H3 H4 H5 H6 H7 H8].
  destruct e; try done; cbn [pg_step call_texts schema_ok plain_tenant] in *.
  - unfold PG_TouchAPIKey. rewrite exec_taken by done. intros [= <- <-].
    eexists. split; [reflexivity|]. unfold MemStore_TouchAPIKey. rewrite H2.
    destruct (db_api_keys d !! id); [|done]. constructor; cbn; try done.
  - unfold PG_RecordSandbox. rewrite exec_taken by done. intros [= <- <-].
    eexists. split; [reflexivity|]. constructor; cbn; try done. rewrite H4. symmetry.
    rewrite map_lookup_imap. destruct (db_sandboxes d !! sr_ID r0) as [old|] eqn:Eo; cbn;
      apply upsert_imap; rewrite Eo; [apply scan_conflict|apply scan_values].
  - unfold PG_SaveIdempotency. rewrite exec_taken by done. intros [= <- <-].
    eexists. split; [reflexivity|]. rewrite H5 by done.
    constructor; cbn; try done. intros t k Ht. unfold Idempotency, SaveIdempotency, find_record. cbn.
    destruct (db_idempotency d !! _) as [old|] eqn:Eo; cbn.
    + unfold upsert. rewrite Eo, (insert_id (db_idempotency d)) by done. destruct (decide (idem_key t k = idem_key (id_TenantID r0) (id_Key r0))) as [Ek|Ek].
      * apply idem_key_inj in Ek as [-> ->]; [|done..]. by rewrite lookup_insert_eq, Eo.
      * rewrite lookup_insert_ne by done. by apply H5.
    + rewrite upsert_idem by done. case_decide as E; [destruct E as [-> ->]; by rewrite lookup_insert_eq|].
      rewrite lookup_insert_ne; [by apply H5|].
      intros Ek. apply E. by apply idem_key_inj in Ek as [-> ->].
  - unfold PG_SaveWarmupRequest. rewrite exec_taken by done. intros [= <- <-].
    eexists. split; [reflexivity|]. constructor; cbn; try done. rewrite H6. symmetry.
    rewrite map_lookup_imap. destruct (db_warmups d !! wr_ID r0) as [old|] eqn:Eo; cbn;
      apply upsert_imap; rewrite Eo; [apply scan_warmup_conflict|apply scan_warmup_values].
  - unfold PG_Audit. rewrite exec_taken by done. intros [= <- <-].
    eexists. split; [reflexivity|]. constructor; cbn; try done. by rewrite H8.
Qed.

(** C27: Postgres refines a MemStore, call by call.  While the database holds
    what a MemStore holds, every store call that it takes is answered as the
    MemStore answers [pg_call], and the two hold the same again; a call it does
    not take (text it cannot hold, a reference or a range the schema refuses) is
    an error and changes nothing.  [pg_call] is the call itself with its times
    cut to microseconds wherever the call only adds; it says where the two
    stores differ: a row that is there keeps what its statement does not update,
    so that a review which overrides the size of a request is stored without the
    override, and a key that is taken stays its first writer's.  (A tenant's id
    with a slash in it is left out: in memory its keys can be another's.) *)
Theorem pg_refines_mem R (e : ApiE R) d m r d' :
  mirrors d m -> plain_tenant e -> step e d = Some (r, d') ->
  (if takes e d
   then exists r' m', mem_step (pg_call m e) m = Some (r', m') /\ agree e r r' /\ mirrors d' m'
   else refusal e r /\ d' = d) /\
  (adds_only e m -> pg_call m e = micros_call e).
Proof.
  intros Hm Huse Hstep. split; [|apply pg_call_adds]. destruct (takes e d) eqn:Ht.
  - destruct (is_read e) eqn:Hr.
    + destruct (reads_agree R e d m r d' Hm Huse Hr Ht Hstep) as (-> & r' & H1 & H2). by exists r', m.
    + destruct (writes_agree R e d m r d' Hm Huse Hr Ht Hstep) as (m' & H1 & H2).
      exists r, m'. split; [done|]. split; [|done]. by destruct e.
  - destruct (mi_budget _ _ Hm) as (b & Hb & _). unfold takes in Ht.
    destruct e; try done; cbn [call_texts schema_ok] in Ht; injection Hstep as H1; cbn [refusal];
      unfold PG_Tenant, PG_APIKey, PG_Quota, PG_TouchAPIKey, PG_RecordSandbox, PG_SaveIdempotency,
        PG_SaveWarmupRequest, PG_Audit, exec,
        PG_CountRunning, PG_CountCreatedSince, PG_Idempotency, PG_WarmupRequests, PG_WarmupRequest,
        PG_PoolBudget, query_row, statement in *;
      rewrite ?Hb, ?Ht in *; cbn in *; try (by subst); try (by injection H1 as <- <-).
Qed.

(** *** Paging *)

Lemma newer_trans x y z :
  ordered newer x y -> ordered newer y z -> ordered newer x z.
Proof.
  unfold ordered, newer, after. intros H1 H2.
  destruct (Z.eqb_spec (sr_CreatedAt y) (sr_CreatedAt x)), (Z.eqb_spec (sr_CreatedAt z) (sr_CreatedAt y)),
    (Z.eqb_spec (sr_CreatedAt z) (sr_CreatedAt x)); try lia.
  destruct (str_ltb (sr_ID z) (sr_ID x)) eqn:E; [|done].
  destruct (str_ltb (sr_ID x) (sr_ID y)) eqn:E2.
  - by rewrite (str_ltb_trans _ _ _ E E2) in H2.
  - by rewrite (str_ltb_total _ _ E2 H1), H2 in E.
Qed.
Lemma newer_asym x y : newer x y = true -> newer y x = false.
Proof.
  unfold newer, after. rewrite (Z.eqb_sym (sr_CreatedAt y)). destruct (Z.eqb_spec (sr_CreatedAt x) (sr_CreatedAt y)); [|lia].
  intros E. destruct (str_ltb (sr_ID y) (sr_ID x)) eqn:E2; [|done].
  pose proof (str_ltb_trans _ _ _ E E2) as H. by rewrite str_ltb_irrefl in H.
Qed.
Lemma selected_agrees d m tenant : mirrors d m -> PG_selected tenant d = listing tenant m.
Proof.
  intros Hm. unfold PG_selected, listing. symmetry.
  apply sort_by_unique; [apply newer_trans|apply newer_asym| |].
  - apply filter_perm. rewrite (mi_boxes _ _ Hm). apply records_imap.
  - intros x y Hx Hy Hxy Hyx. apply list_elem_of_In, filter_In in Hx as [Hx _], Hy as [Hy _].
    apply list_elem_of_In, records_elem in Hx as [i Hi], Hy as [j Hj].
    rewrite (mi_boxes _ _ Hm), map_lookup_imap in Hi, Hj.
    destruct (db_sandboxes d !! i) as [ri|] eqn:Ei; [|done]. destruct (db_sandboxes d !! j) as [rj|] eqn:Ej; [|done].
    injection Hi as <-. injection Hj as <-. unfold ordered, newer, after in Hxy, Hyx. cbn in Hxy, Hyx.
    destruct (Z.eqb_spec (sb_created_at rj) (sb_created_at ri)), (Z.eqb_spec (sb_created_at ri) (sb_created_at rj));
      try lia.
    assert (i = j) as -> by by apply (str_ltb_total i j). congruence.
Qed.
(** A listing is paged alike: the same page and the same cursor. *)
Lemma pages_agree d m tenant limit cursor :
  mirrors d m -> text_ok tenant = true ->
  PG_ListSandboxes text_ok tenant limit cursor d = Ok (ListSandboxes tenant limit cursor m).
Proof.
  intros Hm Ht. unfold PG_ListSandboxes, ListSandboxes, statement. cbn. rewrite Ht. cbn.
  rewrite (selected_agrees d m tenant Hm). set (l := listing tenant m).
  assert (Hl : (0 < page_limit limit)%Z).
  { unfold page_limit. destruct (Z.leb_spec limit 0), (Z.ltb_spec 200 limit); cbn; lia. }
  assert (Hs : (0 <= page_start cursor)%Z).
  { unfold page_start. case_bool_decide; [done|]. destruct (atoi cursor) as [k|]; [|done].
    destruct (Z.ltb_spec 0 k); lia. }
  revert Hl Hs. generalize (page_limit limit) (page_start cursor). intros n s Hn Hs. f_equal.
  rewrite length_take, length_drop.
  destruct (Z.ltb_spec n (Z.of_nat ((Z.to_nat (n + 1)) `min` (length l - Z.to_nat s)))) as [Hmore|Hmore].
  - rewrite (Z.min_l s) by lia. destruct (Z.ltb_spec (s + n) (Z.of_nat (length l))); [|lia].
    rewrite take_take. do 2 f_equal; lia.
  - destruct (Z.ltb_spec (Z.min s (Z.of_nat (length l)) + n) (Z.of_nat (length l))); [lia|].
    rewrite take_ge by (rewrite length_drop; lia). f_equal.
    destruct (Z.le_gt_cases s (Z.of_nat (length l))).
    + by rewrite Z.min_l.
    + rewrite Z.min_r by lia. rewrite !drop_ge by lia. done.
Qed.
End Refines.

(** ** Where the two part *)

(** A fresh database is a fresh MemStore, but for the time the budget was set. *)
Lemma fresh_mirrors now :
  mirrors (fresh_db now)
    (set_budget {| pb_TotalIdlePods := 64; pb_TotalCPU := "16"; pb_TotalMemory := "32Gi";
                   pb_Allocated := 0; pb_UpdatedBy := ""; pb_UpdatedAt := micros now |} NewMemStore).
Proof. constructor; try done. by eexists. Qed.
(** The first writer of an idempotency key decides in Postgres, the last in memory. *)
Lemma first_writer_decides text_ok r1 r2 d :
  db_idempotency d !! (id_TenantID r1, id_Key r1) = None ->
  id_TenantID r2 = id_TenantID r1 -> id_Key r2 = id_Key r1 ->
  let d1 := snd (PG_SaveIdempotency text_ok r1 d) in
  fst (PG_SaveIdempotency text_ok r1 d) = Ok tt ->
  snd (PG_SaveIdempotency text_ok r2 d1) = d1.
Proof.
  intros Hno Ht Hk. cbv zeta. unfold PG_SaveIdempotency, exec. destruct (statement text_ok _ _ _) as [[]|] eqn:E; [|done].
  intros _. cbn. destruct (statement text_ok [id_TenantID r2; _; _; _] _ _) as [[]|]; [|done]. cbn.
  unfold set_db_idempotency at 1. cbn. rewrite Ht, Hk. unfold upsert at 1 2. rewrite Hno, lookup_insert_eq, insert_insert_eq.
  unfold set_db_idempotency. cbn. f_equal. unfold upsert. by rewrite Hno.
Qed.
Lemma last_writer_decides r1 r2 m :
  id_TenantID r2 = id_TenantID r1 -> id_Key r2 = id_Key r1 ->
  Idempotency (id_TenantID r1) (id_Key r1) (SaveIdempotency r2 (SaveIdempotency r1 m)) = Ok r2.
Proof. intros Ht Hk. unfold Idempotency, SaveIdempotency, find_record. cbn. by rewrite Ht, Hk, lookup_insert_eq. Qed.
(** A review that changes the size is stored without it. *)
Lemma review_keeps_replicas old new : wu_replicas (warmup_conflict old new) = wu_replicas old.
Proof. done. Qed.
(** A budget without a CPU or memory bound is accepted in memory and refused by
    the schema. *)
Lemma budget_needs_bounds text_ok now b d :
  pb_TotalCPU b = "" \/ pb_TotalMemory b = "" -> PG_SetPoolBudget text_ok now b d = (Err pg_error, d).
Proof.
  unfold PG_SetPoolBudget. intros [-> | ->]; [done|]. cbn. by destruct (nullString _).
Qed.
(** Two tenants whose ids and keys run together share a key in memory only. *)
Lemma keys_run_together : idem_key "a/b" "c" = idem_key "a" "b/c".
Proof. done. Qed.

(** ** On a concrete database *)

Definition wit_row : SandboxRow :=
  {| sb_tenant_id := "t1"; sb_api_key_id := None; sb_template := "py"; sb_state := "Pending";
     sb_cold_start := false; sb_isolation_tier := None; sb_node := None; sb_created_at := 5000%Z;
     sb_ready_at := None; sb_deleted_at := None; sb_delete_reason := Some ""; sb_metadata := ∅ |}.
Definition wit_db : DB :=
  set_db_sandboxes {[ "sbx-1" := wit_row ]} (fresh_db 7001%Z).
Definition wit_record : SandboxRecord :=
  {| sr_ID := "sbx-1"; sr_TenantID := "t1"; sr_APIKeyID := ""; sr_Template := "py"; sr_State := "Running";
     sr_ColdStart := true; sr_IsolationTier := "userns"; sr_Node := "n1"; sr_CreatedAt := 5123%Z;
     sr_ReadyAt := Some 9876%Z; sr_DeletedAt := None; sr_DeleteReason := ""; sr_Metadata := ∅ |}.
Definition wit_mem : MemStore :=
  set_boxes {[ "sbx-1" := scanSandbox "sbx-1" wit_row ]}
    (set_budget {| pb_TotalIdlePods := 64; pb_TotalCPU := "16"; pb_TotalMemory := "32Gi";
                   pb_Allocated := 0; pb_UpdatedBy := ""; pb_UpdatedAt := 7000%Z |} NewMemStore).
Lemma wit_mirrors : mirrors wit_db wit_mem.
Proof. constructor; try done. by eexists. Qed.
Lemma pg_refines_mem_wit : exists d' m',
  pg_step (fun _ => true) (fun _ => true) (SRecordSandbox wit_record) wit_db = Some (Ok tt, d') /\
  ms_boxes m' !! "sbx-1" = Some (micros_sandbox wit_record) /\ mirrors d' m'.
Proof.
  destruct (pg_refines_mem (fun _ => true) (fun _ => true) _ (SRecordSandbox wit_record) wit_db wit_mem (Ok tt)
    (snd (PG_RecordSandbox (fun _ => true) wit_record wit_db)) wit_mirrors I eq_refl)
    as [(r' & m' & H1 & _ & H3) Hadds].
  rewrite Hadds in H1.
  - eexists _, m'. split; [reflexivity|]. split; [|exact H3].
    injection H1 as _ <-. apply lookup_insert_eq.
  - cbn. rewrite lookup_singleton_eq. repeat split; vm_compute; congruence.
Defined.
