(* ===== verification/Auth.v ===== *)
(** * Authentication (apiserver/auth.go)

    [Verify] and the middleware around it, as programs over the store, the
    clock and the authenticator's cache.  The cache is shared by every request
    in flight: the theorems hold of a request interleaved with any others. *)
From S2P Require Import Prelude Calls GoStrings Api Crd Kube Url Route Gateway Net ApiKey Store ApiCalls.
Open Scope string_scope.

(** [Principal]; the KeyID is the one presented. *)
Record Principal := {
  pr_TenantID : string;
  pr_Namespace : string;
  pr_KeyID : string;
  pr_Key : APIKey }.

Definition cacheTTL : Z := (60 * second)%Z.

Inductive AuthErr := ErrUnauthenticated | ErrIPNotAllowed | KeyErr (e : KeyError).
Definition key_error_msg (e : KeyError) : string :=
  match e with
  | ErrMalformedKey => "malformed API key"
  | ErrKeyNotFound => "API key not found"
  | ErrKeyRevoked => "API key revoked"
  | ErrKeyExpired => "API key expired"
  end.
Definition auth_msg (e : AuthErr) : string :=
  match e with
  | ErrUnauthenticated => "invalid or missing API key"
  | ErrIPNotAllowed => "this API key may only be used from its allowlisted addresses"
  | KeyErr e => key_error_msg e
  end.

Definition auth_now : Api Time := call CNow.
Definition Invalidate (keyID : string) : Api unit := call (CacheDelete keyID).

(** [t.Sub(u)] saturates. *)
Definition time_sub (t u : Time) : Z := Z.max (- 2 ^ 63) (Z.min (2 ^ 63 - 1) (t - u)).

(** The part of [lookup] behind a cache that has no fresh entry. *)
Definition lookup_store (keyID : string) : Api (result StoreErr (APIKey * Tenant)) :=
  key ← call (SAPIKey keyID);
  match key with
  | Err err => mret (Err err)
  | Ok key =>
      tenant ← call (STenant (ak_TenantID key));
      match tenant with
      | Err err => mret (Err err)
      | Ok tenant =>
          t ← auth_now;
          _ ← call (CachePut keyID {| ce_key := key; ce_tenant := tenant; ce_cachedAt := t |});
          mret (Ok (key, tenant))
      end
  end.
Definition lookup (keyID : string) : Api (result StoreErr (APIKey * Tenant)) :=
  e ← call (CacheGet keyID);
  match e with
  | None => lookup_store keyID
  | Some e =>
      t ← auth_now;
      if (time_sub t (ce_cachedAt e) <? cacheTTL)%Z then mret (Ok (ce_key e, ce_tenant e))
      else lookup_store keyID
  end.

Definition ip_matches (ip : string) (entry : string) : bool :=
  if contains_string entry "/" then
    match ParseCIDR entry, ParseIP ip with
    | Some cidr, Some addr => Contains cidr addr
    | _, _ => false
    end
  else bool_decide (entry = ip).
Definition ipAllowed (allowlist : list string) (ip : string) : bool :=
  match allowlist with
  | [] => true
  | _ => existsb (ip_matches ip) allowlist
  end.

Section Argon.
Context (IDKey : string -> string -> Z -> Z -> Z -> nat -> string).

Definition Verify (presented clientIP : string) : Api (result AuthErr Principal) :=
  if bool_decide (presented = "") then mret (Err ErrUnauthenticated) else
  match ParseKey presented with
  | Err _ => mret (Err ErrUnauthenticated)
  | Ok (keyID, secret) =>
      found ← lookup keyID;
      match found with
      | Err _ => mret (Err ErrUnauthenticated)
      | Ok (key, tenant) =>
          if negb (VerifySecret IDKey secret (ak_SecretHash key))
          then mret (Err ErrUnauthenticated) else
          t ← auth_now;
          match Valid key t with
          | Some err => mret (Err (KeyErr err))
          | None =>
              if negb (ipAllowed (ak_IPAllowlist key) clientIP)
              then mret (Err ErrIPNotAllowed) else
              t ← auth_now;
              _ ← call (STouchAPIKey keyID t);
              mret (Ok {| pr_TenantID := tn_ID tenant; pr_Namespace := tn_Namespace tenant;
                          pr_KeyID := keyID; pr_Key := key |})
          end
      end
  end.

(** ** The middleware *)

(** [writeErr]: the status and the body. *)
Definition writeErr (code : Z) (errCode msg : string) : Z * Error :=
  (code, {| err_Code := errCode; err_Message := msg |}).
Definition unauthorized : Z * Error := writeErr 401 "unauthorized" "invalid or missing API key".

Definition WriteAuthError (e : AuthErr) : Z * Error :=
  match e with
  | ErrIPNotAllowed => writeErr 403 "ip_not_allowed" (auth_msg e)
  | KeyErr ErrKeyRevoked | KeyErr ErrKeyExpired =>
      writeErr 401 ("key_" +:+ trim_prefix (auth_msg e) "API key ") (auth_msg e)
  | _ => unauthorized
  end.

Definition bearerToken (r : Request) : string :=
  let h := header_get (rq_Header r) "Authorization" in
  if has_prefix h "Bearer " then trim_space (trim_prefix h "Bearer ")
  else header_get (rq_Header r) "X-Jdix-Api-Key".

(** X-Forwarded-For is not consulted. *)
Definition api_clientIP (r : Request) : string :=
  match SplitHostPort (rq_RemoteAddr r) with
  | None => rq_RemoteAddr r
  | Some (host, _) => host
  end.

(** [Authenticate] hands the principal on in the request's context. *)
Definition Authenticate {A} (r : Request) (next : Principal -> Api A) : Api (Z * Error + A) :=
  p ← Verify (bearerToken r) (api_clientIP r);
  match p with
  | Err err => mret (inl (WriteAuthError err))
  | Ok p => a ← next p; mret (inr a)
  end.

Definition RequireScope {A} (s : Scope) (p : option Principal) (next : Api A)
    : Api (Z * Error + A) :=
  if match p with Some p => Allows (pr_Key p) s | None => false end
  then a ← next; mret (inr a)
  else mret (inl (writeErr 403 "insufficient_scope"
    ("this API key does not carry the " +:+ s +:+ " scope"))).
End Argon.

(** ** What a credential was checked against

    Time passes and other requests run between any two calls.  [hist t keyID]
    is the key record the store holds at time [t], [step] bounds how long one
    step of this request takes. *)
Record AuthState := { as_clock : Time; as_cache : gmap string cacheEntry }.

Section Interleaved.
Context (hist : Time -> string -> option APIKey) (step : Z).

(** An entry holds what the store held at most two steps before the time
    written on it, with that key's tenant. *)
Definition entry_ok (now : Time) (keyID : string) (e : cacheEntry) : Prop :=
  (ce_cachedAt e <= now)%Z /\ tn_ID (ce_tenant e) = ak_TenantID (ce_key e) /\
  exists read, (ce_cachedAt e - 2 * step <= read <= ce_cachedAt e)%Z /\
    hist read keyID = Some (ce_key e).
Definition cache_ok (s : AuthState) : Prop :=
  map_Forall (entry_ok (as_clock s)) (as_cache s).

(** Others may do to the cache what keeps it so. *)
Definition auth_rely (s s' : AuthState) : Prop :=
  (as_clock s <= as_clock s' <= as_clock s + step)%Z /\ (cache_ok s -> cache_ok s').
Definition put_ok (s : AuthState) (k : string) (e : cacheEntry) : Prop := entry_ok (as_clock s) k e.
Definition auth_promise (R : Type) (e : ApiE R) (s : AuthState) : Prop :=
  match e with CachePut k entry => put_ok s k entry | _ => True end.
Definition auth_sem (R : Type) (e : ApiE R) (s : AuthState) : R -> AuthState -> Prop :=
  match e in ApiE R return R -> AuthState -> Prop with
  | CNow => fun r s' => r = as_clock s /\ s' = s
  | SAPIKey k => fun r s' =>
      match r with Ok key => hist (as_clock s) k = Some key | Err _ => True end /\ s' = s
  | STenant id => fun r s' => match r with Ok t => tn_ID t = id | Err _ => True end /\ s' = s
  | CacheGet k => fun r s' => r = as_cache s !! k /\ s' = s
  | CachePut k entry => fun _ s' =>
      s' = {| as_clock := as_clock s; as_cache := <[k := entry]> (as_cache s) |}
  | CacheDelete k => fun _ s' =>
      s' = {| as_clock := as_clock s; as_cache := base.delete k (as_cache s) |}
  | _ => fun _ s' => s' = s
  end.

Abbreviation arg := (rg auth_rely auth_promise auth_sem).

(** What [lookup] may answer, asked for at [start]. *)
Definition looked_up (start : Time) (keyID : string) (key : APIKey) (tenant : Tenant) : Prop :=
  tn_ID tenant = ak_TenantID key /\
  exists read, (start - cacheTTL - 2 * step < read)%Z /\ hist read keyID = Some key.

Lemma cache_ok_put s k e :
  cache_ok s -> put_ok s k e ->
  cache_ok {| as_clock := as_clock s; as_cache := <[k := e]> (as_cache s) |}.
Proof. intros Hs He. by apply map_Forall_insert_2. Qed.

Lemma lookup_store_ok s start keyID (Q : result StoreErr (APIKey * Tenant) -> AuthState -> Prop) :
  cache_ok s -> (start <= as_clock s)%Z ->
  (forall s' r, cache_ok s' -> (start <= as_clock s')%Z ->
     match r with Ok (key, tenant) => looked_up start keyID key tenant | Err _ => True end ->
     Q r s') ->
  arg (lookup_store keyID) s Q.
Proof.
  intros Hc Hs HQ. apply rg_call. intros s1 [[? ?] Hc1]. split; [done|].
  intros r s' [Hr ->]. destruct r as [key|e]; [|apply rg_ret, HQ; [auto|lia|done]].
  apply rg_call. intros s2 [[? ?] Hc2]. split; [done|]. intros t s' [Ht ->].
  destruct t as [tenant|e]; [|apply rg_ret, HQ; [auto|lia|done]].
  apply rg_call. intros s3 [[? ?] Hc3]. split; [done|]. intros now s' [-> ->].
  apply rg_call. intros s4 [[? ?] Hc4].
  assert (Hput : put_ok s4 keyID
    {| ce_key := key; ce_tenant := tenant; ce_cachedAt := as_clock s3 |}).
  { split; [cbn; lia|]. split; [done|]. exists (as_clock s1). cbn. split; [lia|done]. }
  split; [exact Hput|]. intros u s' ->. apply rg_ret, HQ.
  - apply cache_ok_put; auto.
  - cbn. lia.
  - split; [done|]. exists (as_clock s1). split; [unfold cacheTTL, second; lia|done].
Qed.

Lemma lookup_ok s start keyID (Q : result StoreErr (APIKey * Tenant) -> AuthState -> Prop) :
  cache_ok s -> (start <= as_clock s)%Z ->
  (forall s' r, cache_ok s' -> (start <= as_clock s')%Z ->
     match r with Ok (key, tenant) => looked_up start keyID key tenant | Err _ => True end ->
     Q r s') ->
  arg (lookup keyID) s Q.
Proof.
  intros Hc Hs HQ. apply rg_call. intros s1 [[? ?] Hc1]. split; [done|].
  intros r s' [-> ->]. destruct (as_cache s1 !! keyID) as [e|] eqn:E.
  - apply rg_call. intros s2 [[? ?] Hc2]. split; [done|]. intros now s' [-> ->].
    destruct (Z.ltb_spec (time_sub (as_clock s2) (ce_cachedAt e)) cacheTTL) as [Hlt|_].
    + apply rg_ret, HQ; [auto|lia|].
      destruct (Hc1 Hc keyID e E) as (He & Ht & read & Hr & Hh). split; [done|].
      exists read. split; [|done]. unfold time_sub, cacheTTL, second in *. lia.
    + apply (lookup_store_ok _ start); [auto|lia|]. intros. apply HQ; auto; lia.
  - apply (lookup_store_ok _ start); [auto|lia|]. intros. apply HQ; auto; lia.
Qed.

Context (IDKey : string -> string -> Z -> Z -> Z -> nat -> string).

(** The store held, at a time later than [since], a key under the presented
    id whose hash the presented secret verifies. *)
Definition backed (since : Z) (presented keyID : string) (key : APIKey) : Prop :=
  exists secret read,
    ParseKey presented = Ok (keyID, secret) /\ (since < read)%Z /\
    hist read keyID = Some key /\ VerifySecret IDKey secret (ak_SecretHash key) = true.

(** What an answer of [Verify] says of a call made at [start]. *)
Definition answer_ok (start finish : Time) (presented ip : string)
    (r : result AuthErr Principal) : Prop :=
  let since := (start - cacheTTL - 2 * step)%Z in
  match r with
  | Ok p =>
      backed since presented (pr_KeyID p) (pr_Key p) /\
      pr_TenantID p = ak_TenantID (pr_Key p) /\ ak_RevokedAt (pr_Key p) = None /\
      (exists t, (start <= t <= finish)%Z /\ Valid (pr_Key p) t = None) /\
      ipAllowed (ak_IPAllowlist (pr_Key p)) ip = true
  | Err ErrUnauthenticated => True
  | Err ErrIPNotAllowed => exists keyID key, backed since presented keyID key /\
      ipAllowed (ak_IPAllowlist key) ip = false
  | Err (KeyErr e) => exists keyID key t, backed since presented keyID key /\
      (start <= t <= finish)%Z /\ Valid key t = Some e
  end.

Lemma Verify_spec (s : AuthState) (presented ip : string) :
  cache_ok s ->
  arg (Verify IDKey presented ip) s (fun r s' =>
    cache_ok s' /\ answer_ok (as_clock s) (as_clock s') presented ip r).
Proof.
  intros Hc. unfold Verify. destruct (bool_decide (presented = "")); [by apply rg_ret|].
  destruct (ParseKey presented) as [[keyID secret]|e] eqn:Ep; [|by apply rg_ret].
  apply rg_bind, (lookup_ok s (as_clock s)); [done|lia|].
  intros s1 r Hc1 Ht1 Hr. destruct r as [[key tenant]|e]; [|by apply rg_ret].
  destruct Hr as (Htn & read & Hread & Hh).
  destruct (VerifySecret IDKey secret (ak_SecretHash key)) eqn:Ev; cbn [negb]; [|by apply rg_ret].
  assert (Hb : backed (as_clock s - cacheTTL - 2 * step) presented keyID key).
  { exists secret, read. auto. }
  apply rg_call. intros s2 [[? ?] Hc2]. split; [done|]. intros now s' [-> ->].
  destruct (Valid key (as_clock s2)) as [err|] eqn:Eval.
  { apply rg_ret. split; [auto|]. exists keyID, key, (as_clock s2). split; [done|]. split; [lia|done]. }
  destruct (ipAllowed (ak_IPAllowlist key) ip) eqn:Eip; cbn [negb].
  2: { apply rg_ret. split; [auto|]. by exists keyID, key. }
  apply rg_call. intros s3 [[? ?] Hc3]. split; [done|]. intros now s' [-> ->].
  apply rg_call. intros s4 [[? ?] Hc4]. split; [done|]. intros u s' ->.
  apply rg_ret. split; [auto|]. unfold answer_ok. cbv zeta. cbn [pr_Key pr_KeyID pr_TenantID].
  split; [done|]. split; [done|]. split; [|split; [|done]].
  - unfold Valid in Eval. by destruct (ak_RevokedAt key).
  - exists (as_clock s2). split; [lia|done].
Qed.

Lemma backed_id since presented keyID secret k key :
  ParseKey presented = Ok (keyID, secret) -> backed since presented k key ->
  exists read, (since < read)%Z /\ hist read keyID = Some key.
Proof.
  intros Hp (sec & read & Hp' & Hr & Hh & _). rewrite Hp in Hp'. injection Hp' as <- <-. eauto.
Qed.

(** C17: [Verify] under every interleaving with other requests over the shared
    cache.  It keeps the cache sound for the others.  A principal is only handed
    out for a key record the store held at most [cacheTTL] and two steps before
    the call under the presented id, whose hash the presented secret verifies,
    that was not revoked, not expired at a moment of the call and allowed from
    the caller's address; it carries that record and its tenant.  An answer that
    tells "revoked", "expired" or "wrong address" apart is only given to a
    caller who presented such a verified secret: everyone else gets the one
    [ErrUnauthenticated]. *)
Theorem Verify_sound (s : AuthState) (presented ip : string) :
  cache_ok s ->
  arg (Verify IDKey presented ip) s (fun r s' =>
    cache_ok s' /\ answer_ok (as_clock s) (as_clock s') presented ip r).
Proof. apply Verify_spec. Qed.

(** C18: revocation takes effect.  Once every record the store holds under a
    key id is revoked, from [since] on, a call with that id that starts
    [cacheTTL] and two steps later hands out no principal, whatever the cache
    holds and whatever other requests do in between. *)
Theorem revocation_takes_effect (s : AuthState) (since : Time) presented keyID secret ip :
  cache_ok s -> ParseKey presented = Ok (keyID, secret) ->
  (forall t key, (since <= t)%Z -> hist t keyID = Some key -> ak_RevokedAt key <> None) ->
  (since + cacheTTL + 2 * step <= as_clock s)%Z ->
  arg (Verify IDKey presented ip) s (fun r _ => is_ok r = false).
Proof.
  intros Hc Hp Hrev Hlate. eapply rg_mono; [|by apply Verify_spec].
  intros r s' [_ Hr]. destruct r as [p|e]; [|done]. exfalso.
  destruct Hr as (Hb & _ & Hnr & _).
  apply (backed_id _ _ _ _ _ _ Hp) in Hb as (read & Hread & Hh).
  exact (Hrev read (pr_Key p) ltac:(lia) Hh Hnr).
Qed.
End Interleaved.

(** ** Witnesses *)

Definition wit_hash : string :=
  match HashSecret (E := string) wit_IDKey (Ok "0123456789abcdef") "c2VjcmV0" with
  | Ok h => h | Err _ => "" end.
Definition wit_key (revoked : option Time) : APIKey :=
  {| ak_KeyID := "0123456789ab"; ak_TenantID := "t1"; ak_Name := "ci"; ak_SecretHash := wit_hash;
     ak_Scopes := [ScopeSandboxCreate; ScopeSandboxRead]; ak_AllowedTemplates := [];
     ak_IPAllowlist := ["10.0.0.0/8"]; ak_ExpiresAt := None; ak_RevokedAt := revoked;
     ak_LastUsedAt := None; ak_CreatedAt := 1%Z |}.
(** A key in the store, revoked at [1000 s]. *)
Definition wit_hist (t : Time) (keyID : string) : option APIKey :=
  if decide (keyID = "0123456789ab")
  then Some (wit_key (if (t <? 1000 * second)%Z then None else Some (1000 * second)%Z)) else None.
Definition wit_presented : string := "jdix_sk_0123456789ab_c2VjcmV0".
Definition wit_entry : cacheEntry :=
  {| ce_key := wit_key None;
     ce_tenant := {| tn_ID := "t1"; tn_Name := "T"; tn_Namespace := "ns1"; tn_Status := "active";
                     tn_CreatedAt := 0%Z |};
     ce_cachedAt := (500 * second)%Z |}.
Definition wit_auth (now : Time) : AuthState :=
  {| as_clock := now; as_cache := {["0123456789ab" := wit_entry]} |}.
Lemma wit_cache_ok now :
  (500 * second <= now)%Z -> cache_ok wit_hist second (wit_auth now).
Proof.
  intros Hn k e Hk. unfold wit_auth in Hk. cbn [as_cache] in Hk.
  apply lookup_singleton_Some in Hk as [<- <-]. split; [exact Hn|]. split; [done|].
  exists (500 * second)%Z. split; [unfold wit_entry, second; cbn [ce_cachedAt]; lia|]. by vm_compute.
Qed.

Lemma Verify_sound_witness :
  cache_ok wit_hist second (wit_auth (510 * second)) /\
  rg (auth_rely wit_hist second) (auth_promise wit_hist second) (auth_sem wit_hist)
    (Verify wit_IDKey wit_presented "10.1.2.3") (wit_auth (510 * second))
    (fun r s' => cache_ok wit_hist second s' /\
       answer_ok wit_hist second wit_IDKey (510 * second) (as_clock s') wit_presented "10.1.2.3" r).
Proof.
  assert (Hc : cache_ok wit_hist second (wit_auth (510 * second)))
    by (apply wit_cache_ok; unfold second; lia).
  split; [exact Hc|].
  apply (Verify_sound wit_hist second wit_IDKey
    (wit_auth (510 * second)) wit_presented "10.1.2.3" Hc).
Defined.

Lemma revocation_takes_effect_witness :
  rg (auth_rely wit_hist second) (auth_promise wit_hist second) (auth_sem wit_hist)
    (Verify wit_IDKey wit_presented "10.1.2.3") (wit_auth (1062 * second))
    (fun r _ => is_ok r = false).
Proof.
  apply (revocation_takes_effect wit_hist second wit_IDKey
    (wit_auth (1062 * second)) (1000 * second) wit_presented "0123456789ab" "c2VjcmV0").
  - apply wit_cache_ok. unfold second. lia.
  - vm_compute. reflexivity.
  - intros t key Ht. unfold wit_hist. destruct (decide _); [|done].
    destruct (Z.ltb_spec t (1000 * second)); [lia|]. by intros [= <-].
  - cbn. unfold cacheTTL, second. lia.
Defined.

(** The key of the witnesses is accepted while its entry is fresh, in the
    calm where nothing else answers. *)
Definition wit_calm (R : Type) (e : ApiE R) (s : AuthState) : R * AuthState :=
  (match e in ApiE R return R with
   | CacheGet k => as_cache s !! k
   | CNow => as_clock s
   | e => unavailable e
   end, s).
Example wit_accepted :
  option_map pr_TenantID (match fst (interp wit_calm (Verify wit_IDKey wit_presented "10.1.2.3")
    (wit_auth (510 * second))) with Ok p => Some p | Err _ => None end) = Some "t1".
Proof. vm_compute. reflexivity. Qed.
