(* ===== verification/ApiServer.v ===== *)
(** * The tenant-facing REST API (apiserver/server.go, quota.go, id.go)

    One definition per handler, as a program over [ApiE] from the authenticated
    caller and the request to an answer.  The JSON decoders of the bodies, the
    digest of a create request (SHA-256 of its JSON) and what net/http's mux
    answers on its own are parameters.  [waitReady] polls: its fuel bounds the
    rounds, and [Waiting] says that they ran out. *)
From S2P Require Import Prelude Calls GoStrings Api Crd Kube Url Route Gateway ApiKey Store ApiCalls Auth.
Open Scope string_scope.

(** ** Identifiers (id.go) *)

Definition base32_alphabet : string := "ABCDEFGHIJKLMNOPQRSTUVWXYZ234567".
(** [base32.StdEncoding] without padding on whole five-byte groups: the
    program encodes ten bytes. *)
Definition quintet (v : N) (i : N) : ascii :=
  default zero (String.get (N.to_nat ((v / 2 ^ (5 * i)) mod 32)) base32_alphabet).
Fixpoint base32_encode (s : string) : string :=
  match s with
  | String a (String b (String c (String d (String e s')))) =>
      let v := (((((N_of_ascii a * 256 + N_of_ascii b) * 256 + N_of_ascii c) * 256
                + N_of_ascii d) * 256) + N_of_ascii e)%N in
      String (quintet v 7) (String (quintet v 6) (String (quintet v 5) (String (quintet v 4)
        (String (quintet v 3) (String (quintet v 2) (String (quintet v 1) (String (quintet v 0)
          (base32_encode s'))))))))
  | _ => ""
  end.
Definition randomSuffix : Api string :=
  b ← call (CRand 10); mret (to_lower (base32_encode b)).

(** ** Configuration, requests and answers *)

(** The fields of [Server] a handler reads; the time-outs may be unset (0). *)
Record Config := {
  cfg_ReadyTimeout : Z;
  cfg_ReadyPoll : Z;
  cfg_APIReader : bool;
  cfg_NewID : bool }.

Definition now_ : Api Time := call CNow.
Definition newID (cfg : Config) : Api string :=
  if cfg_NewID cfg then call CNewID
  else s ← randomSuffix; mret ("sbx-" +:+ to_lower s).

Record CreateSandboxRequest := {
  cs_Template : string;
  cs_TTLSeconds : Z;
  cs_Filesystem : option Api.FilesystemSpec;
  cs_Env : gmap string string;
  cs_Metadata : gmap string string }.
Record SandboxResponse := {
  re_ID : string;
  re_State : string;
  re_Template : string;
  re_IsolationTier : string;
  re_Endpoint : string;
  re_ExpiresAt : option Time;
  re_ColdStart : bool;
  re_Reason : string }.
Record tplResp := {
  tr_Name : string;
  tr_Admission : string;
  tr_Reason : string;
  tr_MinTier : string;
  tr_DefaultTTL : Z;
  tr_MaxTTL : Z;
  tr_HasVolumes : bool }.
Record warmupView := {
  wv_ID : string;
  wv_TenantID : string;
  wv_Template : string;
  wv_Replicas : Z;
  wv_Reason : string;
  wv_Status : string;
  wv_ReviewedBy : string;
  wv_ReviewNote : string;
  wv_CreatedAt : Time;
  wv_ReviewedAt : option Time }.

Inductive Body :=
| BError (e : Error)
| BHealth
| BSandbox (r : SandboxResponse)
| BSandboxes (l : list SandboxResponse)
| BDeleted (id : string)
| BTemplates (l : list tplResp)
| BUnlimited
| BQuota (maxConcurrent running maxCreatePerMinute : Z)
| BWarmup (v : warmupView)
| BWarmups (l : list warmupView)
| BBudget (totalIdlePods allocated remaining : Z) (totalCPU totalMemory : string)
| BMux.
Record Response := { rp_Code : Z; rp_RetryAfter : option string; rp_Body : Body }.
(** [Waiting]: the fuel of the readiness poll ran out. *)
Inductive Answer := Answered (r : Response) | Waiting.

Definition respond (code : Z) (b : Body) : Api Answer :=
  mret (Answered {| rp_Code := code; rp_RetryAfter := None; rp_Body := b |}).
Definition error_response (e : Z * Error) : Response :=
  {| rp_Code := e.1; rp_RetryAfter := None; rp_Body := BError e.2 |}.
Definition api_fail (code : Z) (errCode msg : string) : Api Answer :=
  mret (Answered (error_response (writeErr code errCode msg))).

(** ** Rendering *)

Definition toResponse (s : Sandbox) : SandboxResponse :=
  let state := to_lower (ss_Phase (sbx_Status s)) in
  {| re_ID := om_Name (sbx_Meta s);
     re_State := if bool_decide (state = "") then "pending" else state;
     re_Template := sp_TemplateRef (sbx_Spec s);
     re_IsolationTier := ss_IsolationTier (sbx_Status s);
     re_Endpoint := ss_Endpoint (sbx_Status s);
     re_ExpiresAt := ss_ExpiresAt (sbx_Status s);
     re_ColdStart := ss_ColdStart (sbx_Status s);
     re_Reason := ss_Reason (sbx_Status s) |}.

Definition toCRDFilesystem (fs : Api.FilesystemSpec) : sbxv1.FilesystemSpec :=
  {| sbxv1.fs_Workspace := {| sbxv1.ws_Path := ws_Path (fs_Workspace fs);
                              sbxv1.ws_SizeLimit := ws_SizeLimit (fs_Workspace fs) |};
     sbxv1.fs_Mounts := map (fun m =>
       {| sbxv1.m_Path := m_Path m;
          sbxv1.m_Source := {| sbxv1.src_Volume := src_Volume (m_Source m);
                               sbxv1.src_SubPath := src_SubPath (m_Source m) |};
          sbxv1.m_ReadOnly := m_ReadOnly m |}) (fs_Mounts fs);
     sbxv1.fs_AllowSystemPaths := fs_AllowSystemPaths fs;
     sbxv1.fs_Hide := fs_Hide fs |}.

Definition zero_filesystem : sbxv1.FilesystemSpec :=
  {| sbxv1.fs_Workspace := {| sbxv1.ws_Path := ""; sbxv1.ws_SizeLimit := "" |};
     sbxv1.fs_Mounts := []; sbxv1.fs_AllowSystemPaths := []; sbxv1.fs_Hide := [] |}.
Definition zero_status : SandboxStatus :=
  {| ss_Phase := ""; ss_PodName := ""; ss_PodIP := ""; ss_NodeName := ""; ss_IsolationTier := "";
     ss_ColdStart := false; ss_Endpoint := ""; ss_Token := ""; ss_BoundAt := None;
     ss_ExpiresAt := None; ss_Reason := ""; ss_Conditions := [] |}.
Definition zero_sandbox : Sandbox :=
  {| sbx_Meta := empty_meta;
     sbx_Spec := {| sp_TemplateRef := ""; sp_TTLSeconds := 0; sp_Filesystem := zero_filesystem;
                    sp_Env := []; sp_SecretRefs := []; sp_Metadata := ∅ |};
     sbx_Status := zero_status |}.

(** The object a create makes. *)
Definition new_meta (name ns : string) (labels : gmap string string) : ObjectMeta :=
  {| om_Name := name; om_GenerateName := ""; om_Namespace := ns; om_Labels := labels;
     om_Annotations := ∅; om_ResourceVersion := 0; om_UID := ""; om_CreationTimestamp := 0%Z;
     om_DeletionTimestamp := None; om_Finalizers := []; om_OwnerReferences := [] |}.
Definition new_sandbox (p : Principal) (id : string) (req : CreateSandboxRequest)
    (env : list (string * string)) : Sandbox :=
  {| sbx_Meta := new_meta id (pr_Namespace p)
       (<[LabelTenant := pr_TenantID p]> {[LabelTemplate := cs_Template req]});
     sbx_Spec :=
       {| sp_TemplateRef := cs_Template req;
          sp_TTLSeconds := int32 (cs_TTLSeconds req);
          sp_Filesystem := match cs_Filesystem req with
                           | Some fs => toCRDFilesystem fs
                           | None => zero_filesystem
                           end;
          sp_Env := map (fun kv => {| env_Name := kv.1; env_Value := kv.2 |}) env;
          sp_SecretRefs := [];
          sp_Metadata := cs_Metadata req |};
     sbx_Status := zero_status |}.

(** ** Quota (quota.go) *)

Record quotaError := { qe_Code : string; qe_Message : string; qe_RetryAfterSeconds : Z }.
Definition quotaError_string (e : quotaError) : string := qe_Code e +:+ ": " +:+ qe_Message e.
Inductive QuotaFailure := OverQuota (e : quotaError) | QuotaStore (e : StoreErr).

Definition check_concurrent (q : Quota) (p : Principal) : Api (option QuotaFailure) :=
  if (0 <? qt_MaxConcurrent q)%Z then
    running ← call (SCountRunning (pr_TenantID p));
    match running with
    | Err e => mret (Some (QuotaStore e))
    | Ok running =>
        if (qt_MaxConcurrent q <=? running)%Z
        then mret (Some (OverQuota
          {| qe_Code := "quota_concurrent";
             qe_Message := "this tenant already has " +:+ itoa running +:+ " of " +:+
               itoa (qt_MaxConcurrent q) +:+
               " sandboxes running; delete one or wait for a TTL to elapse";
             qe_RetryAfterSeconds := 30 |}))
        else mret None
    end
  else mret None.
Definition check_rate (q : Quota) (p : Principal) : Api (option QuotaFailure) :=
  if (0 <? qt_MaxCreatePerMinute q)%Z then
    t ← now_;
    created ← call (SCountCreatedSince (pr_TenantID p) (t - minute)%Z);
    match created with
    | Err e => mret (Some (QuotaStore e))
    | Ok created =>
        if (qt_MaxCreatePerMinute q <=? created)%Z
        then mret (Some (OverQuota
          {| qe_Code := "quota_create_rate";
             qe_Message := "this tenant has created " +:+ itoa created +:+
               " sandboxes in the last minute, at a limit of " +:+ itoa (qt_MaxCreatePerMinute q);
             qe_RetryAfterSeconds := 10 |}))
        else mret None
    end
  else mret None.
(** [None] is a nil error. *)
Definition checkQuota (p : Principal) : Api (option QuotaFailure) :=
  q ← call (SQuota (pr_TenantID p));
  match q with
  | Err ErrNotFound => mret None
  | Err e => mret (Some (QuotaStore e))
  | Ok q =>
      r ← check_concurrent q p;
      match r with
      | Some e => mret (Some e)
      | None => check_rate q p
      end
  end.

(** ** Reading and waiting *)

Section Server.
Context (cfg : Config).

Definition fetchSandbox (ns name : string) : Api (result KErr Sandbox) :=
  r ← call (CGetSandbox (ns, name));
  match r with
  | Err e =>
      if negb (IsNotFound e) || negb (cfg_APIReader cfg) then mret (Err e)
      else call (RGetSandbox (ns, name))
  | Ok s => mret (Ok s)
  end.

Definition ready_timeout : Z :=
  if (cfg_ReadyTimeout cfg <=? 0)%Z then (8 * second)%Z else cfg_ReadyTimeout cfg.
Definition ready_poll : Z :=
  if (cfg_ReadyPoll cfg <=? 0)%Z then (50 * millisecond)%Z else cfg_ReadyPoll cfg.
Definition ready_settled (s : Sandbox) : bool :=
  let phase := ss_Phase (sbx_Status s) in
  bool_decide (phase = PhaseRunning) || bool_decide (phase = PhaseFailed) ||
  bool_decide (phase = PhaseExpired).

(** The loop; [sbx] is the variable the reads fill, which a failed read leaves
    as it was.  [None]: out of fuel. *)
Fixpoint poll_loop (fuel : nat) (ns name : string) (deadline : Time) (sbx : Sandbox)
    : Api (option (result KErr Sandbox)) :=
  match fuel with
  | O => mret None
  | S fuel' =>
      let go_on (sbx : Sandbox) :=
        if ready_settled sbx then mret (Some (Ok sbx)) else
        t ← now_;
        if after t deadline then mret (Some (Ok sbx)) else
        done ← call (CSleep ready_poll);
        if (done : bool) then mret (Some (Ok sbx)) else poll_loop fuel' ns name deadline sbx in
      r ← fetchSandbox ns name;
      match r with
      | Err e =>
          if negb (IsNotFound e) then mret (Some (Err e)) else
          t ← now_;
          if after t deadline then mret (Some (Err e)) else go_on sbx
      | Ok s => go_on s
      end
  end.
Definition waitReady (fuel : nat) (ns name : string) : Api (option (result KErr Sandbox)) :=
  t ← now_;
  poll_loop fuel ns name (t + ready_timeout)%Z zero_sandbox.

Definition respondWithSandbox (fuel : nat) (p : Principal) (id : string) : Api Answer :=
  r ← waitReady fuel (pr_Namespace p) id;
  match r with
  | None => mret Waiting
  | Some (Err e) =>
      if IsNotFound e then api_fail 404 "not_found" "this sandbox no longer exists"
      else api_fail 500 "read_failed" (ke_Msg e)
  | Some (Ok s) =>
      respond (if bool_decide (ss_Phase (sbx_Status s) = PhaseFailed) then 200 else 201)
        (BSandbox (toResponse s))
  end.

(** ** Handlers *)

(** JSON decoding of the bodies, and the digest of a create request. *)
Context (decode_create : string -> result string CreateSandboxRequest).
Context (requestSum : CreateSandboxRequest -> string).

Definition idempotency_key (r : Request) : string := header_get (rq_Header r) "Idempotency-Key".
Definition user_agent (r : Request) : string := header_get (rq_Header r) "User-Agent".
Definition audit_event (tenant : string) (p : Principal) (r : Request) (action target : string)
    (detail : gmap string string) (at_ : Time) : AuditEvent :=
  {| au_TenantID := tenant; au_Actor := pr_KeyID p; au_Action := action; au_Target := target;
     au_IP := api_clientIP r; au_UserAgent := user_agent r; au_At := at_; au_Detail := detail |}.
Definition new_record (p : Principal) (id : string) (req : CreateSandboxRequest) (at_ : Time)
    : SandboxRecord :=
  {| sr_ID := id; sr_TenantID := pr_TenantID p; sr_APIKeyID := pr_KeyID p;
     sr_Template := cs_Template req; sr_State := PhasePending; sr_ColdStart := false;
     sr_IsolationTier := ""; sr_Node := ""; sr_CreatedAt := at_; sr_ReadyAt := None;
     sr_DeletedAt := None; sr_DeleteReason := ""; sr_Metadata := cs_Metadata req |}.

(** What a create answers before it looks at the quota: the sandbox of an
    earlier attempt, a refusal, or nothing. *)
Inductive Earlier := SameRequest (sandbox : string) | Refused (r : Response) | NoneEarlier.
Definition earlier_attempt (p : Principal) (idemKey sum : string) : Api Earlier :=
  if bool_decide (idemKey = "") then mret NoneEarlier else
  prev ← call (SIdempotency (pr_TenantID p) idemKey);
  match prev with
  | Ok prev =>
      if negb (bool_decide (id_RequestSum prev = sum))
      then mret (Refused (error_response (writeErr 409 "idempotency_mismatch"
        "this Idempotency-Key was used with a different request body")))
      else mret (SameRequest (id_SandboxID prev))
  | Err ErrNotFound => mret NoneEarlier
  | Err e => mret (Refused (error_response (writeErr 500 "store_error" (store_msg e))))
  end.

(** The records of a create that succeeded. *)
Definition record_create (p : Principal) (r : Request) (req : CreateSandboxRequest)
    (idemKey sum id : string) : Api unit :=
  t ← now_;
  _ ← call (SRecordSandbox (new_record p id req t));
  t ← now_;
  _ ← call (SAudit (audit_event (pr_TenantID p) p r "sandbox.create" id ∅ t));
  if bool_decide (idemKey = "") then mret tt else
  t ← now_;
  _ ← call (SSaveIdempotency {| id_Key := idemKey; id_TenantID := pr_TenantID p;
    id_RequestSum := sum; id_SandboxID := id; id_CreatedAt := t |});
  mret tt.

(** From a free quota slot on. *)
Definition create_new (fuel : nat) (p : Principal) (r : Request) (req : CreateSandboxRequest)
    (idemKey sum : string) : Api Answer :=
  id ← newID cfg;
  env ← call (CRange (cs_Env req));
  created ← call (CCreateSandbox (new_sandbox p id req env));
  match created with
  | Err e =>
      if IsNotFound e then api_fail 400 "template_not_found" (ke_Msg e)
      else api_fail 500 "create_failed" (ke_Msg e)
  | Ok _ =>
      _ ← record_create p r req idemKey sum id;
      respondWithSandbox fuel p id
  end.

Definition createSandbox (fuel : nat) (p : Principal) (r : Request) : Api Answer :=
  match decode_create (rq_Body r) with
  | Err msg => api_fail 400 "invalid_body" msg
  | Ok req =>
      if bool_decide (cs_Template req = "")
      then api_fail 400 "invalid_request" "template is required" else
      if negb (AllowsTemplate (pr_Key p) (cs_Template req))
      then api_fail 403 "template_not_allowed"
             "this API key is restricted to a different set of templates" else
      let idemKey := idempotency_key r in
      let sum := requestSum req in
      earlier ← earlier_attempt p idemKey sum;
      match earlier with
      | SameRequest id => respondWithSandbox fuel p id
      | Refused resp => mret (Answered resp)
      | NoneEarlier =>
          over ← checkQuota p;
          match over with
          | Some (OverQuota e) =>
              mret (Answered {| rp_Code := 429; rp_RetryAfter := Some (itoa (qe_RetryAfterSeconds e));
                rp_Body := BError {| err_Code := qe_Code e; err_Message := qe_Message e |} |})
          | Some (QuotaStore e) => api_fail 500 "quota_check_failed" (store_msg e)
          | None => create_new fuel p r req idemKey sum
          end
      end
  end.

Definition owned (p : Principal) (s : Sandbox) : bool :=
  bool_decide (label (sbx_Meta s) LabelTenant = pr_TenantID p).

Definition getSandbox (id : string) (p : Principal) (r : Request) : Api Answer :=
  s ← fetchSandbox (pr_Namespace p) id;
  match s with
  | Err e =>
      if IsNotFound e then api_fail 404 "not_found" "no such sandbox"
      else api_fail 500 "read_failed" (ke_Msg e)
  | Ok s =>
      if negb (owned p s) then api_fail 404 "not_found" "no such sandbox"
      else respond 200 (BSandbox (toResponse s))
  end.

Definition wanted (wantState : string) (resp : SandboxResponse) : bool :=
  negb (negb (bool_decide (wantState = "")) && negb (equal_fold (re_State resp) wantState)).
Definition query_param (r : Request) (k : string) : string :=
  query_get (parse_query (u_RawQuery (rq_URL r))) k.
Definition listSandboxes (p : Principal) (r : Request) : Api Answer :=
  l ← call (CListSandboxes (pr_Namespace p) {[LabelTenant := pr_TenantID p]});
  match l with
  | Err e => api_fail 500 "list_failed" (ke_Msg e)
  | Ok items =>
      respond 200 (BSandboxes (List.filter (wanted (query_param r "state")) (map toResponse items)))
  end.

Definition deleteSandbox (id : string) (p : Principal) (r : Request) : Api Answer :=
  s ← fetchSandbox (pr_Namespace p) id;
  match s with
  | Err e =>
      if IsNotFound e then api_fail 404 "not_found" "no such sandbox"
      else api_fail 500 "read_failed" (ke_Msg e)
  | Ok s =>
      if negb (owned p s) then api_fail 404 "not_found" "no such sandbox" else
      d ← call (CDeleteSandbox s);
      match match d with Err e => if IsNotFound e then None else Some e | Ok _ => None end with
      | Some e => api_fail 500 "delete_failed" (ke_Msg e)
      | None =>
          t ← now_;
          _ ← call (SAudit (audit_event (pr_TenantID p) p r "sandbox.delete" id ∅ t));
          respond 200 (BDeleted id)
      end
  end.

Definition template_resp (t : SandboxTemplate) : tplResp :=
  {| tr_Name := om_Name (tpl_Meta t);
     tr_Admission := tst_Admission (tpl_Status t);
     tr_Reason := tst_AdmissionReason (tpl_Status t);
     tr_MinTier := RequiredIsolation (tpl_Spec t);
     tr_DefaultTTL := ts_DefaultTTLSeconds (tpl_Spec t);
     tr_MaxTTL := ts_MaxTTLSeconds (tpl_Spec t);
     tr_HasVolumes := tst_HasVolumes (tpl_Status t) |}.
Definition listTemplates (p : Principal) (r : Request) : Api Answer :=
  l ← call (CListTemplates (pr_Namespace p));
  match l with
  | Err e => api_fail 500 "list_failed" (ke_Msg e)
  | Ok items =>
      respond 200 (BTemplates (map template_resp
        (List.filter (fun t => AllowsTemplate (pr_Key p) (om_Name (tpl_Meta t))) items)))
  end.

Definition getQuota (p : Principal) (r : Request) : Api Answer :=
  q ← call (SQuota (pr_TenantID p));
  match q with
  | Err ErrNotFound => respond 200 BUnlimited
  | Err e => api_fail 500 "quota_read_failed" (store_msg e)
  | Ok q =>
      running ← call (SCountRunning (pr_TenantID p));
      let running := match running with Ok n => n | Err _ => 0%Z end in
      respond 200 (BQuota (qt_MaxConcurrent q) running (qt_MaxCreatePerMinute q))
  end.
End Server.
