(* ===== verification/ApiWait.v ===== *)
(** * The readiness poll ends

    [waitReady] loops until the sandbox has settled, the deadline has passed or
    the request's context is done.  Against a clock that never goes back and
    sleeps that take their time it ends within a number of rounds fixed by the
    configuration, whatever the reads answer; a clock that stands still would
    keep it polling. *)
From S2P Require Import Prelude Calls GoStrings Crd Kube ApiKey Store ApiCalls Auth ApiServer.
Open Scope string_scope.

(** The state is the time: calls take time, a sleep at least what was asked. *)
Definition clock_sem (R : Type) (e : ApiE R) (t : Time) : R -> Time -> Prop :=
  match e in ApiE R return R -> Time -> Prop with
  | CNow => fun r t' => r = t' /\ (t <= t')%Z
  | CSleep d => fun _ t' => (t + d <= t')%Z
  | _ => fun _ t' => (t <= t')%Z
  end.
Abbreviation cwp := (wp clock_sem).

Section Wait.
Context (cfg : Config).

Lemma ready_poll_pos : (0 < ready_poll cfg)%Z.
Proof. unfold ready_poll, millisecond. destruct (Z.leb_spec (cfg_ReadyPoll cfg) 0); lia. Qed.
Lemma ready_timeout_pos : (0 < ready_timeout cfg)%Z.
Proof. unfold ready_timeout, second. destruct (Z.leb_spec (cfg_ReadyTimeout cfg) 0); lia. Qed.

Lemma cwp_now {A} (f : Time -> Api A) t Q :
  (forall t', (t <= t')%Z -> cwp (f t') t' Q) -> cwp (now_ ≫= f) t Q.
Proof. intros Hf. apply wp_call. intros r t' [-> Ht]. by apply Hf. Qed.
Lemma cwp_fetch {A} ns name (f : result KErr Sandbox -> Api A) t Q :
  (forall r t', (t <= t')%Z -> cwp (f r) t' Q) -> cwp (fetchSandbox cfg ns name ≫= f) t Q.
Proof.
  intros Hf. apply wp_bind. unfold fetchSandbox. apply wp_call. intros r t1 Ht1. cbn in Ht1.
  destruct r as [s|e]; [by apply wp_ret, Hf|].
  destruct (negb (IsNotFound e) || negb (cfg_APIReader cfg))%bool; [by apply wp_ret, Hf|].
  intros r t2 Ht2. cbn in Ht2. apply Hf. lia.
Qed.

Definition ended (r : option (result KErr Sandbox)) : Prop := r <> None.

Lemma poll_loop_ends fuel ns name deadline sbx t :
  (deadline < t + (Z.of_nat fuel - 1) * ready_poll cfg)%Z ->
  (0 < fuel)%nat ->
  cwp (poll_loop cfg fuel ns name deadline sbx) t (fun r _ => ended r).
Proof.
  pose proof ready_poll_pos as Hp. revert sbx t.
  induction fuel as [|fuel IH]; intros sbx t Hd Hf; [lia|]. cbn [poll_loop]. apply cwp_fetch.
  intros r t1 Ht1.
  assert (Hgo : forall v t2, (t <= t2)%Z -> cwp
    (if ready_settled v then mret (Some (Ok v)) else
     t ← now_;
     if after t deadline then mret (Some (Ok v)) else
     done ← call (CSleep (ready_poll cfg));
     if (done : bool) then mret (Some (Ok v)) else poll_loop cfg fuel ns name deadline v) t2
    (fun r _ => ended r)).
  { intros v t2 Ht2. destruct (ready_settled v); [done|]. apply cwp_now. intros t3 Ht3.
    unfold after. destruct (Z.ltb_spec deadline t3) as [|Hlate]; [done|].
    apply wp_call. intros b t4 Ht4. cbn in Ht4. destruct b; [done|].
    destruct fuel as [|fuel']; [lia|]. apply IH; [|lia]. lia. }
  destruct r as [v|e]; [by apply Hgo|]. destruct (negb _); [done|]. apply cwp_now.
  intros t2 Ht2. destruct (after t2 deadline); [done|apply Hgo; lia].
Qed.

(** The rounds the configuration allows for. *)
Definition wait_rounds : nat := Z.to_nat (ready_timeout cfg / ready_poll cfg + 2).

(** The readiness poll ends.  With [wait_rounds] rounds of fuel (162 with
    the default time-outs) [waitReady] returns a sandbox or an error, whatever
    the reads answer and however long they take, as long as the clock does not
    go back and a sleep lasts at least as long as asked: a create never hangs on
    a sandbox that does not become ready. *)
Theorem waitReady_ends ns name t :
  cwp (waitReady cfg wait_rounds ns name) t (fun r _ => ended r).
Proof.
  pose proof ready_poll_pos as Hp. pose proof ready_timeout_pos as Ht.
  unfold waitReady. apply cwp_now. intros t1 Ht1.
  assert (0 <= ready_timeout cfg / ready_poll cfg)%Z by (apply Z.div_pos; lia).
  apply poll_loop_ends; unfold wait_rounds; [|lia]. rewrite Z2Nat.id by lia.
  pose proof (Z.mod_pos_bound (ready_timeout cfg) (ready_poll cfg) Hp).
  pose proof (Z.div_mod (ready_timeout cfg) (ready_poll cfg) ltac:(lia)). nia.
Qed.
End Wait.

Example default_rounds :
  wait_rounds {| cfg_ReadyTimeout := 0; cfg_ReadyPoll := 0; cfg_APIReader := true;
                 cfg_NewID := false |} = 162%nat.
Proof. vm_compute. reflexivity. Qed.
