(* ===== verification/Warmup.v ===== *)
(** * Warm capacity (apiserver/warmup.go) and the route table

    The queue of warm-up requests, an administrator's review with the budget
    check, the pool an approval writes, and the table of routes with the
    middleware in front of every handler. *)
From S2P Require Import Prelude Calls GoStrings Api Crd Kube Url Route Mux Gateway ApiKey Store ApiCalls Auth ApiServer.
Open Scope string_scope.

Record WarmupRequestBody := { wb_Replicas : Z; wb_Reason : string }.
Record ReviewBody := { rb_Approve : bool; rb_Replicas : Z; rb_Note : string }.

Definition viewOf (r : WarmupRequest) : warmupView :=
  {| wv_ID := wr_ID r; wv_TenantID := wr_TenantID r; wv_Template := wr_Template r;
     wv_Replicas := wr_Replicas r; wv_Reason := wr_Reason r; wv_Status := wr_Status r;
     wv_ReviewedBy := wr_ReviewedBy r; wv_ReviewNote := wr_ReviewNote r;
     wv_CreatedAt := wr_CreatedAt r; wv_ReviewedAt := wr_ReviewedAt r |}.

Section Warmup.
Context (decode_warmup : string -> result string WarmupRequestBody).
Context (decode_review : string -> result string ReviewBody).

Definition new_request (id template : string) (p : Principal) (body : WarmupRequestBody)
    (at_ : Time) : WarmupRequest :=
  {| wr_ID := id; wr_TenantID := pr_TenantID p; wr_Template := template;
     wr_Replicas := wb_Replicas body; wr_Reason := wb_Reason body; wr_Status := pending;
     wr_RequestedBy := pr_KeyID p; wr_ReviewedBy := ""; wr_ReviewNote := "";
     wr_CreatedAt := at_; wr_ReviewedAt := None |}.
Definition replicas_detail (n : Z) : gmap string string := {["replicas" := itoa n]}.

Definition requestWarmup (template : string) (p : Principal) (r : Request) : Api Answer :=
  match decode_warmup (rq_Body r) with
  | Err msg => api_fail 400 "invalid_body" msg
  | Ok body =>
      if (wb_Replicas body <=? 0)%Z
      then api_fail 400 "invalid_request" "replicas must be greater than zero" else
      if negb (AllowsTemplate (pr_Key p) template)
      then api_fail 403 "template_not_allowed"
             "this API key is restricted to a different set of templates" else
      tpl ← call (CGetTemplate (pr_Namespace p, template));
      match tpl with
      | Err e =>
          if IsNotFound e then api_fail 404 "template_not_found" "no such template"
          else api_fail 500 "read_failed" (ke_Msg e)
      | Ok _ =>
          suffix ← randomSuffix;
          t ← now_;
          let req := new_request ("wr-" +:+ suffix) template p body t in
          saved ← call (SSaveWarmupRequest req);
          match saved with
          | Err e => api_fail 500 "store_error" (store_msg e)
          | Ok _ =>
              t ← now_;
              _ ← call (SAudit (audit_event (pr_TenantID p) p r "warmup.request" template
                (replicas_detail (wb_Replicas body)) t));
              respond 202 (BWarmup (viewOf req))
          end
      end
  end.

Definition listWarmupRequests (p : Principal) (r : Request) : Api Answer :=
  let status := query_param r "status" in
  reqs ← call (SWarmupRequests (if bool_decide (status = "") then pending else status));
  match reqs with
  | Err e => api_fail 500 "store_error" (store_msg e)
  | Ok reqs => respond 200 (BWarmups (map viewOf reqs))
  end.

(** [upsertPool] *)
Definition new_pool (ns : string) (req : WarmupRequest) (replicas : Z) : SandboxPool :=
  {| pool_Meta := new_meta (wr_Template req) ns ∅;
     pool_Spec :=
       {| pl_TemplateRef := wr_Template req;
          pl_Replicas := int32 replicas;
          pl_MinReplicas := 1;
          pl_MaxReplicas := int32 (int32 replicas * 3);
          pl_Autoscale := {| as_Enabled := false; as_TargetIdleSeconds := 0 |};
          pl_NotReadyTimeoutSeconds := 300;
          pl_IdleTTLSeconds := 3600;
          pl_MaxSurge := 3 |};
     pool_Status := {| pls_IdleByTier := ∅; pls_Idle := 0; pls_Bound := 0; pls_Stale := 0;
                       pls_NotReady := 0; pls_TemplateHash := "" |} |}.
Definition resized (pool : SandboxPool) (replicas : Z) : SandboxPool :=
  let spec := pool_Spec pool in
  {| pool_Meta := pool_Meta pool;
     pool_Spec :=
       {| pl_TemplateRef := pl_TemplateRef spec;
          pl_Replicas := int32 replicas;
          pl_MinReplicas := pl_MinReplicas spec;
          pl_MaxReplicas := if (pl_MaxReplicas spec <? int32 replicas)%Z
                            then int32 (int32 replicas * 3) else pl_MaxReplicas spec;
          pl_Autoscale := pl_Autoscale spec;
          pl_NotReadyTimeoutSeconds := pl_NotReadyTimeoutSeconds spec;
          pl_IdleTTLSeconds := pl_IdleTTLSeconds spec;
          pl_MaxSurge := pl_MaxSurge spec |};
     pool_Status := pool_Status pool |}.
Definition kube_done (r : result KErr unit) : option string :=
  match r with Ok _ => None | Err e => Some (ke_Msg e) end.
(** [None] is a nil error. *)
Definition upsertPool (req : WarmupRequest) (replicas : Z) : Api (option string) :=
  tenant ← call (STenant (wr_TenantID req));
  match tenant with
  | Err e => mret (Some (store_msg e))
  | Ok tenant =>
      got ← call (CGetPool (tn_Namespace tenant, wr_Template req));
      match got with
      | Err e =>
          if IsNotFound e then
            r ← call (CCreatePool (new_pool (tn_Namespace tenant) req replicas));
            mret (kube_done r)
          else mret (Some (ke_Msg e))
      | Ok pool => r ← call (CUpdatePool (resized pool replicas)); mret (kube_done r)
      end
  end.

Definition reviewed (req : WarmupRequest) (status : string) (replicas : Z) (p : Principal)
    (note : string) (at_ : Time) : WarmupRequest :=
  {| wr_ID := wr_ID req; wr_TenantID := wr_TenantID req; wr_Template := wr_Template req;
     wr_Replicas := replicas; wr_Reason := wr_Reason req; wr_Status := status;
     wr_RequestedBy := wr_RequestedBy req; wr_ReviewedBy := pr_KeyID p; wr_ReviewNote := note;
     wr_CreatedAt := wr_CreatedAt req; wr_ReviewedAt := Some at_ |}.

(** An approval, once the request is known to be pending. *)
Definition approve (req : WarmupRequest) (replicas : Z) (p : Principal) (r : Request)
    (note : string) (now : Time) : Api Answer :=
  budget ← call SPoolBudget;
  match budget with
  | Err e => api_fail 500 "store_error" (store_msg e)
  | Ok budget =>
      if (int64 (pb_TotalIdlePods budget - pb_Allocated budget) <? replicas)%Z
      then api_fail 409 "budget_exceeded"
        ("approving " +:+ itoa replicas +:+ " warm Pods would exceed the platform budget: " +:+
         itoa (pb_Allocated budget) +:+ " of " +:+ itoa (pb_TotalIdlePods budget) +:+
         " are already allocated")
      else
      err ← upsertPool req replicas;
      match err with
      | Some msg => api_fail 500 "pool_write_failed" msg
      | None =>
          let req := reviewed req approved replicas p note now in
          saved ← call (SSaveWarmupRequest req);
          match saved with
          | Err e => api_fail 500 "store_error" (store_msg e)
          | Ok _ =>
              _ ← call (SAudit (audit_event (wr_TenantID req) p r "warmup.approve"
                (wr_Template req) (replicas_detail replicas) now));
              respond 200 (BWarmup (viewOf req))
          end
      end
  end.

Definition reviewWarmup (id : string) (p : Principal) (r : Request) : Api Answer :=
  match decode_review (rq_Body r) with
  | Err msg => api_fail 400 "invalid_body" msg
  | Ok body =>
      found ← call (SWarmupRequest id);
      match found with
      | Err ErrNotFound => api_fail 404 "not_found" "no such warm-up request"
      | Err e => api_fail 500 "store_error" (store_msg e)
      | Ok req =>
          if negb (bool_decide (wr_Status req = pending))
          then api_fail 409 "already_reviewed" ("this request was already " +:+ wr_Status req) else
          let replicas := if (rb_Replicas body <=? 0)%Z then wr_Replicas req else rb_Replicas body in
          now ← now_;
          if negb (rb_Approve body) then
            let req := reviewed req rejected (wr_Replicas req) p (rb_Note body) now in
            saved ← call (SSaveWarmupRequest req);
            match saved with
            | Err e => api_fail 500 "store_error" (store_msg e)
            | Ok _ => respond 200 (BWarmup (viewOf req))
            end
          else approve req replicas p r (rb_Note body) now
      end
  end.

Definition getBudget (p : Principal) (r : Request) : Api Answer :=
  b ← call SPoolBudget;
  match b with
  | Err e => api_fail 500 "store_error" (store_msg e)
  | Ok b =>
      respond 200 (BBudget (pb_TotalIdlePods b) (pb_Allocated b)
        (int64 (pb_TotalIdlePods b - pb_Allocated b)) (pb_TotalCPU b) (pb_TotalMemory b))
  end.

(** ** Routes *)

Context (cfg : Config).
Context (decode_create : string -> result string CreateSandboxRequest).
Context (requestSum : CreateSandboxRequest -> string).
Context (IDKey : string -> string -> Z -> Z -> Z -> nat -> string).
(** What the mux answers itself: no match, another method, a redirect. *)
Context (mux_answer : Request -> Response).

(** A handler takes what the pattern's wildcard matched. *)
Record ApiRoute := {
  ar_Method : string;
  ar_Path : list string;
  ar_Scope : Scope;
  ar_Handler : string -> Principal -> Request -> Api Answer }.

Definition Routes (fuel : nat) : list ApiRoute :=
  [ {| ar_Method := "POST"; ar_Path := ["v1"; "sandboxes"]; ar_Scope := ScopeSandboxCreate;
       ar_Handler := fun _ => createSandbox cfg decode_create requestSum fuel |};
    {| ar_Method := "GET"; ar_Path := ["v1"; "sandboxes"]; ar_Scope := ScopeSandboxRead;
       ar_Handler := fun _ => listSandboxes |};
    {| ar_Method := "GET"; ar_Path := ["v1"; "sandboxes"; wildcard]; ar_Scope := ScopeSandboxRead;
       ar_Handler := getSandbox cfg |};
    {| ar_Method := "DELETE"; ar_Path := ["v1"; "sandboxes"; wildcard];
       ar_Scope := ScopeSandboxDelete; ar_Handler := deleteSandbox cfg |};
    {| ar_Method := "GET"; ar_Path := ["v1"; "templates"]; ar_Scope := ScopeTemplateRead;
       ar_Handler := fun _ => listTemplates |};
    {| ar_Method := "POST"; ar_Path := ["v1"; "templates"; wildcard; "warmup-request"];
       ar_Scope := ScopeTemplateRead; ar_Handler := requestWarmup |};
    {| ar_Method := "GET"; ar_Path := ["v1"; "quota"]; ar_Scope := ScopeSandboxRead;
       ar_Handler := fun _ => getQuota |};
    {| ar_Method := "GET"; ar_Path := ["v1"; "admin"; "warmup-requests"]; ar_Scope := ScopeAdmin;
       ar_Handler := fun _ => listWarmupRequests |};
    {| ar_Method := "POST"; ar_Path := ["v1"; "admin"; "warmup-requests"; wildcard; "review"];
       ar_Scope := ScopeAdmin; ar_Handler := reviewWarmup |};
    {| ar_Method := "GET"; ar_Path := ["v1"; "admin"; "budget"]; ar_Scope := ScopeAdmin;
       ar_Handler := fun _ => getBudget |} ].

Definition under_v1 (segs : list string) : bool :=
  match segs with s :: _ :: _ => bool_decide (s = "v1") | _ => false end.
Fixpoint mux (routes : list ApiRoute) (r : Request) : option (ApiRoute * string) :=
  match routes with
  | [] => None
  | rt :: routes' =>
      if match_method (ar_Method rt) (rq_Method r) then
        match match_path (ar_Path rt) (path_segments r) "" with
        | Some w => Some (rt, w)
        | None => mux routes' r
        end
      else mux routes' r
  end.

Definition serve_authenticated (fuel : nat) (r : Request) (p : Principal) : Api Answer :=
  match mux (Routes fuel) r with
  | None => mret (Answered (mux_answer r))
  | Some (rt, w) =>
      a ← RequireScope (ar_Scope rt) (Some p) (ar_Handler rt w p r);
      mret (match a with inl e => Answered (error_response e) | inr a => a end)
  end.
Definition Handler (fuel : nat) (r : Request) : Api Answer :=
  if negb (canonical_path r) then mret (Answered (mux_answer r)) else
  if under_v1 (path_segments r) then
    a ← Authenticate IDKey r (serve_authenticated fuel r);
    mret (match a with inl e => Answered (error_response e) | inr a => a end)
  else if bool_decide (path_segments r = ["healthz"]) && match_method "GET" (rq_Method r)
  then respond 200 BHealth
  else mret (Answered (mux_answer r)).
End Warmup.
