(* ===== verification/ApiSafety.v ===== *)
(** * What a caller can reach through the API

    Every call any handler makes, whatever the store, Kubernetes and the clock
    answer: it stays in the caller's tenant and namespace, needs the scope the
    route table asks for, and the platform's warm capacity is the
    administrators'. *)
From S2P Require Import Prelude Calls GoStrings Api Crd Kube Url Route Mux Gateway ApiKey Store ApiCalls Auth ApiServer Warmup.
Open Scope string_scope.

Definition admin (p : Principal) : Prop := Allows (pr_Key p) ScopeAdmin = true.
Definition scoped (p : Principal) (s : Scope) : Prop := Allows (pr_Key p) s = true.

Existing Class admin.
Existing Class scoped.

(** The two parts of the store handlers write to, besides the audit log: a
    proof may ask for handlers that leave one alone. *)
Inductive part := Sandboxes | Warmups.
Class Within (w : part -> Prop) (x : part) : Prop := within : w x.
Definition anywhere (x : part) : Prop := True.
#[export] Instance within_anywhere x : Within anywhere x.
Proof. exact I. Qed.

(** The scopes of which one lets a caller read a sandbox, and a tenant's use. *)
Definition sees_sandboxes (p : Principal) : Prop :=
  scoped p ScopeSandboxRead \/ scoped p ScopeSandboxCreate \/ scoped p ScopeSandboxDelete.
Definition sees_usage (p : Principal) : Prop :=
  scoped p ScopeSandboxRead \/ scoped p ScopeSandboxCreate.
(** A template the key is for. *)
Definition own_template (p : Principal) (name : string) : Prop :=
  AllowsTemplate (pr_Key p) name = true.

Existing Class sees_sandboxes.
Existing Class sees_usage.
#[export] Instance read_sees `{H : scoped p ScopeSandboxRead} : sees_sandboxes p.
Proof. by left. Qed.
#[export] Instance create_sees `{H : scoped p ScopeSandboxCreate} : sees_sandboxes p.
Proof. by right; left. Qed.
#[export] Instance delete_sees `{H : scoped p ScopeSandboxDelete} : sees_sandboxes p.
Proof. by right; right. Qed.
#[export] Instance read_usage `{H : scoped p ScopeSandboxRead} : sees_usage p.
Proof. by left. Qed.
#[export] Instance create_usage `{H : scoped p ScopeSandboxCreate} : sees_usage p.
Proof. by right. Qed.

(** What a call made for [p] may be, writing within [w]. *)
Definition permitted (w : part -> Prop) (p : Principal) (R : Type) (e : ApiE R) : Prop :=
  match e with
  | SQuota t | SCountRunning t => t = pr_TenantID p /\ sees_usage p
  | SCountCreatedSince t _ | SIdempotency t _ => t = pr_TenantID p /\ scoped p ScopeSandboxCreate
  | SRecordSandbox r => Within w Sandboxes /\ sr_TenantID r = pr_TenantID p /\ scoped p ScopeSandboxCreate
  | SSaveIdempotency r => Within w Sandboxes /\ id_TenantID r = pr_TenantID p /\ scoped p ScopeSandboxCreate
  | SSaveWarmupRequest r => Within w Warmups /\
      (wr_Status r = pending /\ wr_TenantID r = pr_TenantID p /\ (0 < wr_Replicas r)%Z /\
         own_template p (wr_Template r) /\ scoped p ScopeTemplateRead
       \/ wr_Status r <> pending /\ admin p)
  | SAudit e => au_Actor e = pr_KeyID p /\ (au_TenantID e = pr_TenantID p \/ admin p)
  | SWarmupRequests _ | SWarmupRequest _ | SPoolBudget | STenant _ | CGetPool _ | CCreatePool _
  | CUpdatePool _ => admin p
  | CCreateSandbox s => Within w Sandboxes /\
      om_Namespace (sbx_Meta s) = pr_Namespace p /\ owned p s = true /\
      own_template p (sp_TemplateRef (sbx_Spec s)) /\ scoped p ScopeSandboxCreate
  | CGetSandbox k | RGetSandbox k => k.1 = pr_Namespace p /\ sees_sandboxes p
  | CListSandboxes ns sel => ns = pr_Namespace p /\ sel !! LabelTenant = Some (pr_TenantID p) /\
      scoped p ScopeSandboxRead
  | CGetTemplate k => k.1 = pr_Namespace p /\ own_template p k.2 /\ scoped p ScopeTemplateRead
  | CListTemplates ns => ns = pr_Namespace p /\ scoped p ScopeTemplateRead
  | CDeleteSandbox s => owned p s = true /\ scoped p ScopeSandboxDelete
  | SAPIKey _ | STouchAPIKey _ _ | CacheGet _ | CachePut _ _ | CacheDelete _ => False
  | CNow | CSleep _ | CRand _ | CNewID | CRange _ => True
  end.

(** What an answer may show [p]. *)
Definition discloses (p : Principal) (a : Answer) : Prop :=
  match a with
  | Waiting => True
  | Answered r =>
      match rp_Body r with
      | BError _ | BHealth | BMux => True
      | BSandbox _ | BUnlimited | BQuota _ _ _ => sees_usage p
      | BSandboxes _ => scoped p ScopeSandboxRead
      | BDeleted _ => scoped p ScopeSandboxDelete
      | BTemplates l => scoped p ScopeTemplateRead /\ Forall (fun t => own_template p (tr_Name t)) l
      | BWarmup v => wv_Status v = pending /\ wv_TenantID v = pr_TenantID p /\ own_template p (wv_Template v)
                     \/ admin p
      | BWarmups _ | BBudget _ _ _ _ _ => admin p
      end
  end.

(** A program all of whose calls are permitted, with nothing said of its
    result: the instances below carry the parts of the handlers. *)
Class Permitted (w : part -> Prop) (p : Principal) {A} (prog : Api A) : Prop :=
  stays : forall Q : A -> Prop, (forall a, Q a) -> calls (permitted w p) prog Q.
(** A handler, whose answer too is as [discloses] says. *)
Class Serves (w : part -> Prop) (p : Principal) (h : Api Answer) : Prop :=
  serves : calls (permitted w p) h (discloses p).
#[export] Instance serves_permitted w p h `{H : Serves w p h} : Permitted w p h.
Proof. intros Q HQ. eapply calls_mono; [|exact H]. auto. Qed.

Section Handlers.
Context (cfg : Config).
Context (decode_create : string -> result string CreateSandboxRequest).
Context (requestSum : CreateSandboxRequest -> string).
Context (decode_warmup : string -> result string WarmupRequestBody).
Context (decode_review : string -> result string ReviewBody).
Context (w : part -> Prop) (p : Principal).

(** A call whose conditions are at hand. *)
Ltac allow := try solve [done | cbn; repeat split; first [done|apply _|auto]]; cbn.
(** Symbolic execution of a program that may end as [leaf] proves. *)
Ltac walk_to leaf :=
  repeat first
  [ solve [leaf]
  | apply stays; solve [leaf]
  | match goal with
    | |- calls _ (match ?x with _ => _ end) _ => destruct x eqn:?
    | |- calls _ (mbind _ (call _)) _ => apply calls_call; [allow|intros ?]
    | |- calls _ (mbind _ (mret _)) _ => apply calls_ret
    | |- calls _ (mbind _ _) _ => apply calls_bind; first [apply stays; intros ?|idtac]
    | |- calls _ (call _) _ => split; [allow|intros ?]
    end
  | apply stays; intros ?; cbv beta ].
Ltac walk := let Q := fresh "Q" in let HQ := fresh "HQ" in intros Q HQ; walk_to ltac:(apply HQ).
Ltac disclose :=
  solve [apply serves] ||
  cbn [calls respond api_fail mret K_ret discloses error_response rp_Body]; first [exact I|apply _].
Ltac walk_handler := unfold Serves; walk_to disclose.

#[export] Instance own_now : Permitted w p now_.
Proof. unfold now_. walk. Qed.
#[export] Instance own_suffix : Permitted w p randomSuffix.
Proof. unfold randomSuffix. walk. Qed.
#[export] Instance own_newID : Permitted w p (newID cfg).
Proof. unfold newID. walk. Qed.
#[export] Instance own_fetch name `{Hv : sees_sandboxes p} : Permitted w p (fetchSandbox cfg (pr_Namespace p) name).
Proof. unfold fetchSandbox. walk. Qed.
#[export] Instance own_poll fuel name deadline sbx `{Hv : sees_sandboxes p} :
  Permitted w p (poll_loop cfg fuel (pr_Namespace p) name deadline sbx).
Proof.
  revert sbx. induction fuel as [|fuel IH]; intros sbx; cbn [poll_loop]; [walk|].
  cbv zeta. walk.
Qed.
#[export] Instance own_respond fuel id `{Hs : scoped p ScopeSandboxCreate} :
  Serves w p (respondWithSandbox cfg fuel p id).
Proof. unfold respondWithSandbox, waitReady. walk_handler. Qed.
#[export] Instance own_rate q `{Hs : scoped p ScopeSandboxCreate} : Permitted w p (check_rate q p).
Proof. unfold check_rate. walk. Qed.
#[export] Instance own_concurrent q `{Hs : scoped p ScopeSandboxCreate} : Permitted w p (check_concurrent q p).
Proof. unfold check_concurrent. walk. Qed.
#[export] Instance own_quota `{Hs : scoped p ScopeSandboxCreate} : Permitted w p (checkQuota p).
Proof. unfold checkQuota. walk. Qed.
Lemma earlier_refuses k sum `{Hs : scoped p ScopeSandboxCreate} :
  calls (permitted w p) (earlier_attempt p k sum) (fun e =>
    match e with Refused r => discloses p (Answered r) | _ => True end).
Proof. unfold earlier_attempt. walk_to ltac:(exact I). Qed.
#[export] Instance own_record r req k sum id `{Hs : scoped p ScopeSandboxCreate} `{Hw : Within w Sandboxes} :
  Permitted w p (record_create p r req k sum id).
Proof. unfold record_create. walk. Qed.
Lemma owned_new id req env : owned p (new_sandbox p id req env) = true.
Proof.
  unfold owned, label. cbn [sbx_Meta new_sandbox new_meta om_Labels].
  rewrite lookup_insert_eq. by apply bool_decide_eq_true.
Qed.

#[export] Instance own_create fuel r `{Hs : scoped p ScopeSandboxCreate} `{Hw : Within w Sandboxes} :
  Serves w p (createSandbox cfg decode_create requestSum fuel p r).
Proof.
  unfold Serves, createSandbox. destruct (decode_create _) as [req|msg]; [|disclose].
  destruct (bool_decide _); [disclose|]. destruct (AllowsTemplate _ _) eqn:Ht; [|disclose].
  cbn [negb]. apply calls_bind. eapply calls_mono; [|apply earlier_refuses; exact Hs].
  intros [id|resp|] He; [exact (own_respond fuel id)|exact He|].
  unfold create_new. walk_to disclose. split; [done|]. split; [done|].
  split; [apply owned_new|]. by split.
Qed.
#[export] Instance own_get id r `{Hs : scoped p ScopeSandboxRead} : Serves w p (getSandbox cfg id p r).
Proof. unfold getSandbox. walk_handler. Qed.
#[export] Instance own_list r `{Hs : scoped p ScopeSandboxRead} : Serves w p (listSandboxes p r).
Proof. unfold listSandboxes. walk_handler. Qed.
#[export] Instance own_delete id r `{Hs : scoped p ScopeSandboxDelete} :
  Serves w p (deleteSandbox cfg id p r).
Proof. unfold deleteSandbox. walk_handler. split; [|done]. by apply negb_false_iff. Qed.
Lemma templates_own items :
  Forall (fun t => own_template p (tr_Name t)) (map template_resp
    (List.filter (fun t => AllowsTemplate (pr_Key p) (om_Name (tpl_Meta t))) items)).
Proof.
  apply Forall_forall. intros t [tpl [-> Hin]]%list_elem_of_fmap.
  by apply list_elem_of_In, filter_In in Hin as [_ Hin].
Qed.
#[export] Instance own_templates r `{Hs : scoped p ScopeTemplateRead} : Serves w p (listTemplates p r).
Proof.
  unfold listTemplates. walk_handler. split; [exact Hs|apply templates_own].
Qed.
#[export] Instance own_getQuota r `{Hs : scoped p ScopeSandboxRead} : Serves w p (getQuota p r).
Proof. unfold getQuota. walk_handler. Qed.
#[export] Instance own_warmup name r `{Hs : scoped p ScopeTemplateRead} `{Hw : Within w Warmups} :
  Serves w p (requestWarmup decode_warmup name p r).
Proof.
  unfold requestWarmup, Serves. destruct (decode_warmup _) as [body|]; [|disclose].
  destruct (Z.leb_spec (wb_Replicas body) 0); [disclose|].
  destruct (AllowsTemplate _ _) eqn:Ht; [|disclose]. cbn [negb].
  change (own_template p name) in Ht. walk_to disclose; [|by left].
  split; [done|]. left. by repeat split.
Qed.
#[export] Instance own_listWarmup r `{Ha : admin p} : Serves w p (listWarmupRequests p r).
Proof. unfold listWarmupRequests. walk_handler. Qed.
#[export] Instance own_budget r `{Ha : admin p} : Serves w p (getBudget p r).
Proof. unfold getBudget. walk_handler. Qed.
#[export] Instance own_upsert req n `{Ha : admin p} : Permitted w p (upsertPool req n).
Proof. unfold upsertPool. walk. Qed.
#[export] Instance own_review id r `{Ha : admin p} `{Hw : Within w Warmups} :
  Serves w p (reviewWarmup decode_review id p r).
Proof.
  unfold reviewWarmup, approve. walk_handler; first [by right|by split; [|right]].
Qed.

(** What [GET /v1/sandboxes/{id}] answers. *)
Definition shows (a : Answer) : Prop :=
  match a with
  | Answered r =>
      match rp_Body r with
      | BSandbox resp => exists s, owned p s = true /\ resp = toResponse s
      | BError _ => rp_Code r = 404%Z \/ rp_Code r = 500%Z
      | _ => False
      end
  | Waiting => False
  end.
Lemma get_shows id r : scoped p ScopeSandboxRead -> calls (permitted w p) (getSandbox cfg id p r) shows.
Proof.
  intros Hs. unfold getSandbox. apply calls_bind, stays. intros [s|e].
  - destruct (owned p s) eqn:Ho; cbn; [by exists s|by left].
  - destruct (IsNotFound e); cbn; [by left|by right].
Qed.

End Handlers.

Section Routes.
Context (cfg : Config).
Context (decode_create : string -> result string CreateSandboxRequest).
Context (requestSum : CreateSandboxRequest -> string).
Context (decode_warmup : string -> result string WarmupRequestBody).
Context (decode_review : string -> result string ReviewBody).
Context (mux_answer : Request -> Response).
Context (p : Principal).
Abbreviation routes := (Routes decode_warmup decode_review cfg decode_create requestSum).
Abbreviation serve :=
  (serve_authenticated decode_warmup decode_review cfg decode_create requestSum mux_answer).

Lemma mux_elem rts r rt seg : mux rts r = Some (rt, seg) -> rt ∈ rts.
Proof.
  induction rts as [|rt' rts IH]; cbn; [done|]. destruct (match_method _ _).
  - destruct (match_path _ _ _); [intros [= <- <-]; left|intros H; right; auto].
  - intros H; right; auto.
Qed.
#[local] Instance admin_scoped `{Ha : scoped p ScopeAdmin} : admin p.
Proof. exact Ha. Qed.

(** The handlers of the table, given their scope: three write to the store,
    the others write nowhere. *)
Inductive handler_of (fuel : nat) (r : Request) (seg : string) (h : Api Answer) : Prop :=
| is_create `{Hs : scoped p ScopeSandboxCreate} :
    h = createSandbox cfg decode_create requestSum fuel p r -> handler_of fuel r seg h
| is_warmup `{Hs : scoped p ScopeTemplateRead} : h = requestWarmup decode_warmup seg p r -> handler_of fuel r seg h
| is_review `{Ha : admin p} : h = reviewWarmup decode_review seg p r -> handler_of fuel r seg h
| is_reader : (forall w, Serves w p h) -> handler_of fuel r seg h.
Lemma routes_handlers fuel rt seg r :
  rt ∈ routes fuel -> scoped p (ar_Scope rt) -> handler_of fuel r seg (ar_Handler rt seg p r).
Proof.
  intros Hin Hs. unfold Routes in Hin. repeat (apply elem_of_cons in Hin as [->|Hin];
    [cbn [ar_Handler ar_Scope] in Hs |- *;
     first [ apply is_reader; intros w; apply _ | by apply is_create | by apply is_warmup
           | apply is_review; [exact Hs|done] ]|]).
  by apply elem_of_nil in Hin.
Qed.
Lemma handler_serves fuel r seg h : handler_of fuel r seg h -> Serves anywhere p h.
Proof. intros []; subst; apply _ || done. Qed.

End Routes.
