(* ===== verification/ApiStore.v ===== *)
(** * The API over the in-memory store

    The handlers with the store's calls answered by a [MemStore]; Kubernetes,
    the clock and the random source answer as they like.  Requests run one
    after the other: what a later one finds is what the earlier ones wrote. *)
From S2P Require Import Prelude Calls GoStrings Api Crd Kube Url Route Gateway ApiKey Store ApiCalls Auth ApiServer Warmup ApiSafety.
Open Scope string_scope.

(** The store, and of each sandbox whose creation succeeded the tenant it is
    labelled with and its name. *)
Record ApiState := { st_store : MemStore; st_created : list (string * string) }.

Definition made {R} (e : ApiE R) : R -> list (string * string) :=
  match e in ApiE R return R -> list (string * string) with
  | CCreateSandbox s => fun r =>
      if is_ok r then [(label (sbx_Meta s) LabelTenant, om_Name (sbx_Meta s))] else []
  | _ => fun _ => []
  end.

(** Whether the world is one in which a sandbox that is read is there and has
    settled; the theorems hold in both kinds. *)
Class Setting := settles : Prop.

Section Runs.
Context {W : Setting}.

(** All that is relied on of Kubernetes: a read answers with the object asked
    for; it succeeds, and the object has settled, where the world [settles]. *)
Definition kube_law {R} (e : ApiE R) : R -> Prop :=
  match e in ApiE R return R -> Prop with
  | CGetSandbox k | RGetSandbox k => fun r =>
      match r with
      | Ok s => meta_key (sbx_Meta s) = k /\ (settles -> ready_settled s = true)
      | Err _ => ~ settles
      end
  | _ => fun _ => True
  end.
Definition api_sem (R : Type) (e : ApiE R) (s : ApiState) (r : R) (s' : ApiState) : Prop :=
  match mem_step e (st_store s) with
  | Some (r0, m) => r = r0 /\ s' = {| st_store := m; st_created := st_created s |}
  | None => kube_law e r /\
      s' = {| st_store := st_store s; st_created := (st_created s ++ made e r)%list |}
  end.
Abbreviation awp := (wp api_sem).

(** A call that leaves the state alone. *)
Lemma awp_same {A R} (e : ApiE R) (f : R -> Api A) s Q :
  mem_step e (st_store s) = None -> (forall r, made e r = []) ->
  (forall r, kube_law e r -> awp (f r) s Q) -> awp (call e ≫= f) s Q.
Proof.
  intros Hm Hn Hf r s' Hs. unfold api_sem in Hs. rewrite Hm, Hn, app_nil_r in Hs.
  destruct Hs as [Hk ->]. destruct s. by apply Hf.
Qed.
(** A call of the store. *)
Lemma awp_store {A R} (e : ApiE R) (f : R -> Api A) s Q r m :
  mem_step e (st_store s) = Some (r, m) ->
  awp (f r) {| st_store := m; st_created := st_created s |} Q -> awp (call e ≫= f) s Q.
Proof. intros Hm Hf r' s' Hs. unfold api_sem in Hs. rewrite Hm in Hs. by destruct Hs as [-> ->]. Qed.

Section Create.
Context (cfg : Config).
Context (decode_create : string -> result string CreateSandboxRequest).
Context (requestSum : CreateSandboxRequest -> string).

Lemma awp_now {A} (f : Time -> Api A) s Q :
  (forall t, awp (f t) s Q) -> awp (now_ ≫= f) s Q.
Proof. intros Hf. apply awp_same; [done|done|]. intros t _. apply Hf. Qed.
Lemma awp_newID {A} (f : string -> Api A) s Q :
  (forall id, awp (f id) s Q) -> awp (newID cfg ≫= f) s Q.
Proof.
  intros Hf. apply wp_bind. unfold newID. destruct (cfg_NewID cfg).
  - intros id s' [_ ->]. cbn. rewrite app_nil_r. destruct s. apply Hf.
  - intros b s' [_ ->]. cbn. rewrite app_nil_r. destruct s. apply Hf.
Qed.

(** Waiting reads: the state stays, and a sandbox that is answered is the one
    asked for, or the empty one when nothing was ever read. *)
Definition answers_about (id : string) (a : Answer) : Prop :=
  match a with
  | Answered r =>
      match rp_Body r with BSandbox resp => re_ID resp = id \/ re_ID resp = "" | _ => True end
  | Waiting => True
  end.
Definition named (id : string) (s : Sandbox) : Prop :=
  om_Name (sbx_Meta s) = id \/ om_Name (sbx_Meta s) = "".
(** Where reads settle, it is answered. *)
Definition shown (id : string) (a : Answer) : Prop :=
  exists code resp, (code = 200 \/ code = 201)%Z /\ re_ID resp = id /\
    a = Answered {| rp_Code := code; rp_RetryAfter := None; rp_Body := BSandbox resp |}.
Definition tells (fuel : nat) (id : string) (a : Answer) : Prop :=
  answers_about id a /\ (settles -> fuel <> O -> shown id a).

Definition fetched (id : string) (r : result KErr Sandbox) : Prop :=
  match r with
  | Ok v => om_Name (sbx_Meta v) = id /\ (settles -> ready_settled v = true)
  | Err _ => ~ settles
  end.
Lemma awp_fetch {A} ns id (f : result KErr Sandbox -> Api A) s Q :
  (forall r, fetched id r -> awp (f r) s Q) -> awp (fetchSandbox cfg ns id ≫= f) s Q.
Proof.
  assert (Hlaw : forall r : result KErr Sandbox, kube_law (CGetSandbox (ns, id)) r -> fetched id r).
  { intros [v|e]; [|done]. intros [Hk Hs]. split; [by injection Hk|done]. }
  intros Hf. apply wp_bind. unfold fetchSandbox. apply awp_same; [done|done|].
  intros [sbx|e] Hk; [by apply Hf, Hlaw|].
  destruct (negb (IsNotFound e) || negb (cfg_APIReader cfg))%bool; [by apply Hf|].
  intros r s' Hs. unfold api_sem in Hs. cbn [mem_step made] in Hs. rewrite app_nil_r in Hs.
  destruct Hs as [Hr ->]. destruct s. by apply Hf, Hlaw.
Qed.
Definition polled (fuel : nat) (id : string) (r : option (result KErr Sandbox)) : Prop :=
  match r with Some (Ok v) => named id v | _ => True end /\
  (settles -> fuel <> O -> exists v, r = Some (Ok v) /\ om_Name (sbx_Meta v) = id).
Lemma awp_poll fuel ns id deadline sbx s :
  named id sbx ->
  awp (poll_loop cfg fuel ns id deadline sbx) s (fun r s' => s' = s /\ polled fuel id r).
Proof.
  revert sbx. induction fuel as [|fuel IH]; intros sbx Hn; cbn [poll_loop]; [done|].
  apply awp_fetch. intros r Hr.
  assert (Hgo : forall v, named id v ->
    (settles -> ready_settled v = true /\ om_Name (sbx_Meta v) = id) -> awp
    (if ready_settled v then mret (Some (Ok v)) else
     t ← now_;
     if after t deadline then mret (Some (Ok v)) else
     done ← call (CSleep (ready_poll cfg));
     if (done : bool) then mret (Some (Ok v)) else poll_loop cfg fuel ns id deadline v) s
    (fun r s' => s' = s /\ polled (S fuel) id r)).
  { intros v Hv Hset. assert (Hd : polled (S fuel) id (Some (Ok v))).
    { split; [done|]. intros [_ ?]%Hset _. by exists v. }
    destruct (ready_settled v) eqn:Er; [done|]. apply awp_now. intros t.
    destruct (after t deadline); [done|]. apply awp_same; [done|done|]. intros [] _; [done|].
    eapply wp_mono; [|by apply IH]. intros r' s' [-> [Hp _]]. split; [done|]. split; [done|].
    by intros [? _]%Hset. }
  destruct r as [v|e].
  - destruct Hr as [Hv Hs]. apply Hgo; [by left|auto].
  - assert (Hfail : polled (S fuel) id (Some (Err e))) by (split; [done|intros H; by destruct (Hr H)]).
    destruct (negb _); [done|]. apply awp_now. intros t.
    destruct (after t deadline); [done|]. apply Hgo; [done|]. intros H. by destruct (Hr H).
Qed.
Lemma awp_respond fuel p id s :
  awp (respondWithSandbox cfg fuel p id) s (fun a s' => s' = s /\ tells fuel id a).
Proof.
  unfold respondWithSandbox, waitReady. apply wp_bind. apply awp_now. intros t.
  eapply wp_mono; [|apply awp_poll; by right]. intros r s' [-> [Hv Hset]].
  assert (Hno : (~ exists v, r = Some (Ok v)) -> settles -> fuel <> O -> False).
  { intros Hn Hs Hf. destruct (Hset Hs Hf) as (v & -> & _). apply Hn. eauto. }
  destruct r as [[v|e]|].
  - split; [done|]. split; [exact Hv|]. intros Hs Hf. destruct (Hset Hs Hf) as (v' & [= <-] & Hid).
    destruct (bool_decide _); [exists 200%Z|exists 201%Z]; exists (toResponse v); (split; [auto|]); by split.
  - destruct (IsNotFound e); (split; [done|]); (split; [done|]);
      intros Hs Hf; exfalso; refine (Hno _ Hs Hf); by intros [? [=]].
  - split; [done|]. split; [done|]. intros Hs Hf. exfalso. refine (Hno _ Hs Hf). by intros [? [=]].
Qed.

(** The quota check reads; when it passes there was a slot left. *)
Definition slot_left (tenant : string) (m : MemStore) : Prop :=
  forall q, ms_quotas m !! tenant = Some q -> (0 < qt_MaxConcurrent q)%Z ->
  (CountRunning tenant m < qt_MaxConcurrent q)%Z.
Lemma awp_quota {A} p (f : option QuotaFailure -> Api A) s Q :
  (forall r, (r = None -> slot_left (pr_TenantID p) (st_store s)) -> awp (f r) s Q) ->
  awp (checkQuota p ≫= f) s Q.
Proof.
  intros Hf. destruct s as [m l]. cbn [st_store] in Hf. apply wp_bind. unfold checkQuota.
  eapply awp_store; [reflexivity|]. unfold MemStore_Quota, find_record. cbn [st_store st_created].
  destruct (ms_quotas m !! pr_TenantID p) as [q|] eqn:Eq.
  2: { apply Hf. intros _ q Hq. congruence. }
  assert (Hrate : slot_left (pr_TenantID p) m ->
    awp (check_rate q p) {| st_store := m; st_created := l |}
      (fun r s' => awp (f r) s' Q)).
  { intros Hs. unfold check_rate. destruct (0 <? _)%Z; [|by apply Hf]. apply awp_now. intros t.
    eapply awp_store; [reflexivity|]. cbn [st_store st_created].
    destruct (_ <=? _)%Z; by apply Hf. }
  apply wp_bind. unfold check_concurrent. destruct (Z.ltb_spec 0 (qt_MaxConcurrent q)) as [H0|H0].
  - eapply awp_store; [reflexivity|]. cbn [st_store st_created].
    destruct (Z.leb_spec (qt_MaxConcurrent q) (CountRunning (pr_TenantID p) m)) as [H1|H1].
    + apply Hf. done.
    + apply Hrate. intros q' Hq' _. congruence.
  - apply Hrate. intros q' Hq' H2. assert (q' = q) by congruence. subst. lia.
Qed.

(** ** What one create does *)

(** The part of the store the theorems are about: all but the audit log and
    the keys. *)
Definition core (m : MemStore) :=
  (ms_boxes m, ms_idem m, ms_quotas m, ms_warmups m, ms_budget m).
Definition unchanged (s s' : ApiState) : Prop :=
  core (st_store s') = core (st_store s) /\ st_created s' = st_created s.
Definition shows_no_sandbox (a : Answer) : Prop := forall id, answers_about id a.

(** One sandbox more: created for a tenant with a slot left, labelled with it,
    recorded as running and remembered under the idempotency key, if there is
    one, with the digest of the request. *)
Definition created_one (p : Principal) (k sum id : string) (s s' : ApiState) : Prop :=
  st_created s' = (st_created s ++ [(pr_TenantID p, id)])%list /\
  slot_left (pr_TenantID p) (st_store s) /\
  exists box idem,
    sr_TenantID box = pr_TenantID p /\ sr_DeletedAt box = None /\
    core (st_store s') = (<[id := box]> (ms_boxes (st_store s)), idem, ms_quotas (st_store s),
                          ms_warmups (st_store s), ms_budget (st_store s)) /\
    if bool_decide (k = "") then idem = ms_idem (st_store s)
    else ms_idem (st_store s) !! idem_key (pr_TenantID p) k = None /\
         exists r, id_SandboxID r = id /\ id_RequestSum r = sum /\
           idem = <[idem_key (pr_TenantID p) k := r]> (ms_idem (st_store s)).
(** A create that makes none: it repeats an earlier one under its key, or it
    is refused. *)
Definition created_none (p : Principal) (k : string) (s s' : ApiState) (a : Answer) : Prop :=
  unchanged s s' /\
  (shows_no_sandbox a \/ k <> "" /\ exists r,
     ms_idem (st_store s) !! idem_key (pr_TenantID p) k = Some r /\
     answers_about (id_SandboxID r) a).

Lemma awp_create_new fuel p r req k sum s :
  slot_left (pr_TenantID p) (st_store s) ->
  (k <> "" -> ms_idem (st_store s) !! idem_key (pr_TenantID p) k = None) ->
  awp (create_new cfg fuel p r req k sum) s (fun a s' =>
    created_none p k s s' a \/ exists id, created_one p k sum id s s' /\ tells fuel id a).
Proof.
  intros Hslot Hk. unfold create_new. apply awp_newID. intros id. apply awp_same; [done|done|].
  intros env _. apply wp_call. intros created s' Hs. unfold api_sem in Hs. cbn [mem_step] in Hs. destruct Hs as [_ ->].
  destruct created as [u|e].
  2: { assert (Hnone : forall code c msg, created_none p k s
         {| st_store := st_store s; st_created := st_created s ++ made (CCreateSandbox
              (new_sandbox p id req env)) (Err e) |}
         (Answered (error_response (writeErr code c msg)))).
       { intros code c msg. split; [split; [done|apply app_nil_r]|by left]. }
       destruct (IsNotFound e); hnf; left; apply Hnone. }
  assert (Hlab : made (CCreateSandbox (new_sandbox p id req env)) (Ok u) = [(pr_TenantID p, id)]).
  { cbn [made is_ok]. unfold label. cbn [sbx_Meta new_sandbox new_meta om_Labels om_Name].
    by rewrite lookup_insert_eq. }
  rewrite Hlab. apply wp_bind. unfold record_create. apply awp_now. intros t1.
  eapply awp_store; [reflexivity|]. apply awp_now. intros t2.
  eapply awp_store; [reflexivity|]. unfold created_one.
  destruct (bool_decide (k = "")) eqn:Ek.
  - apply wp_ret. eapply wp_mono; [|apply awp_respond]. intros a s' [-> Ha]. right. exists id.
    split; [|done]. split; [done|]. split; [done|]. do 2 eexists.
    split; [|split; [|split; reflexivity]]; done.
  - apply awp_now. intros t3. eapply awp_store; [reflexivity|].
    apply wp_ret. eapply wp_mono; [|apply awp_respond]. intros a s' [-> Ha]. right. exists id.
    split; [|done]. split; [done|]. split; [done|]. do 2 eexists.
    split; [|split; [|split; [reflexivity|]]]; [done..|].
    split; [apply Hk; by bool_to_prop|]. eexists. split; [|split; [|reflexivity]]; done.
Qed.

Lemma awp_create fuel p r s :
  awp (createSandbox cfg decode_create requestSum fuel p r) s (fun a s' =>
    created_none p (idempotency_key r) s s' a \/
    exists req id, decode_create (rq_Body r) = Ok req /\
      created_one p (idempotency_key r) (requestSum req) id s s' /\ tells fuel id a).
Proof.
  assert (Hno : forall code c msg s', s' = s -> created_none p (idempotency_key r) s s'
    (Answered (error_response (writeErr code c msg)))) by (intros ? ? ? ? ->; by repeat split; left).
  unfold createSandbox. destruct (decode_create _) as [req|msg] eqn:Ed; [|by hnf; left; apply Hno].
  destruct (bool_decide (cs_Template req = "")); [by hnf; left; apply Hno|].
  destruct (negb _); [by hnf; left; apply Hno|]. cbv zeta. set (k := idempotency_key r) in *.
  assert (Hnew : (k <> "" -> ms_idem (st_store s) !! idem_key (pr_TenantID p) k = None) ->
    awp (over ← checkQuota p;
         match over with
         | Some (OverQuota e) =>
             mret (Answered {| rp_Code := 429; rp_RetryAfter := Some (itoa (qe_RetryAfterSeconds e));
               rp_Body := BError {| err_Code := qe_Code e; err_Message := qe_Message e |} |})
         | Some (QuotaStore e) => api_fail 500 "quota_check_failed" (store_msg e)
         | None => create_new cfg fuel p r req k (requestSum req)
         end) s (fun a s' => created_none p k s s' a \/
           exists req0 id, Ok (E := string) req = Ok req0 /\
             created_one p k (requestSum req0) id s s' /\ tells fuel id a)).
  { intros Hk. apply awp_quota. intros [[e|e]|] Hs.
    - left. split; [done|by left].
    - left. by apply Hno.
    - eapply wp_mono; [|apply awp_create_new; auto]. intros a s' [?|(id & ? & ?)]; [by left|].
      right. by exists req, id. }
  apply wp_bind. unfold earlier_attempt. destruct (bool_decide (k = "")) eqn:Ek.
  { apply Hnew. bool_to_prop. done. }
  eapply awp_store; [reflexivity|]. unfold Idempotency, find_record. destruct s as [m l].
  cbn [st_store st_created] in *. destruct (ms_idem m !! _) as [prev|] eqn:Ei; [|by apply Hnew].
  destruct (negb _); [by hnf; left; apply Hno|].
  apply wp_ret. eapply wp_mono; [|apply awp_respond]. intros a s' [-> [Ha _]]. left. split; [done|]. right.
  bool_to_prop. split; [done|]. exists prev. done.
Qed.

(** A create under a key the store remembers changes nothing: the same request
    is told of the sandbox it made, another one that the key is taken. *)
Lemma awp_create_again fuel p r req prev s :
  decode_create (rq_Body r) = Ok req -> cs_Template req <> "" ->
  AllowsTemplate (pr_Key p) (cs_Template req) = true -> idempotency_key r <> "" ->
  ms_idem (st_store s) !! idem_key (pr_TenantID p) (idempotency_key r) = Some prev ->
  awp (createSandbox cfg decode_create requestSum fuel p r) s (fun a s' => s' = s /\
    if decide (requestSum req = id_RequestSum prev) then tells fuel (id_SandboxID prev) a
    else exists msg, a = Answered (error_response (writeErr 409 "idempotency_mismatch" msg))).
Proof.
  intros Hd Ht Ha Hk Hp. unfold createSandbox. rewrite Hd, bool_decide_false, Ha by done. cbn [negb].
  cbv zeta. apply wp_bind. unfold earlier_attempt. rewrite bool_decide_false by done.
  eapply awp_store; [reflexivity|]. unfold Idempotency, find_record. rewrite Hp. destruct s as [m l].
  case_bool_decide as Es; cbn [negb].
  - apply wp_ret. destruct (decide _); [|congruence]. apply awp_respond.
  - apply wp_ret. destruct (decide _); [congruence|]. apply wp_ret. split; [done|]. by eexists.
Qed.
End Create.

(** ** Retries *)

Section Retries.
Context (cfg : Config).
Context (decode_create : string -> result string CreateSandboxRequest).
Context (requestSum : CreateSandboxRequest -> string).

Fixpoint creates (fuel : nat) (reqs : list (Principal * Request)) : Api (list Answer) :=
  match reqs with
  | [] => mret []
  | (p, r) :: reqs' =>
      a ← createSandbox cfg decode_create requestSum fuel p r;
      l ← creates fuel reqs';
      mret (a :: l)
  end.

(** Nothing made under the key so far, or one sandbox, which the store
    remembers with the digest of one of the requests. *)
Definition summed (reqs : list (Principal * Request)) (sum : string) : Prop :=
  exists p r req, (p, r) ∈ reqs /\ decode_create (rq_Body r) = Ok req /\ sum = requestSum req.
Definition once (reqs : list (Principal * Request)) (T k : string) (s : ApiState) : Prop :=
  st_created s = [] /\ ms_idem (st_store s) !! idem_key T k = None \/
  exists r, st_created s = [(T, id_SandboxID r)] /\
    ms_idem (st_store s) !! idem_key T k = Some r /\ summed reqs (id_RequestSum r).
Definition about_created (T : string) (s : ApiState) (a : Answer) : Prop :=
  shows_no_sandbox a \/ exists id, st_created s = [(T, id)] /\ answers_about id a.

Lemma awp_create_once fuel all p r s k :
  (p, r) ∈ all -> idempotency_key r = k -> k <> "" -> once all (pr_TenantID p) k s ->
  awp (createSandbox cfg decode_create requestSum fuel p r) s (fun a s' =>
    once all (pr_TenantID p) k s' /\ about_created (pr_TenantID p) s' a /\
    (forall x, st_created s = [x] -> st_created s' = [x]) /\
    (forall id, st_created s = [] -> st_created s' = [(pr_TenantID p, id)] -> tells fuel id a)).
Proof.
  intros Hall Hk Hne Ho. eapply wp_mono; [|apply awp_create]. rewrite Hk.
  intros a s' [[[Hcore Hc] Ha]|(req & id & Hd & (Hc & _ & box & idem & _ & _ & Hcore & Hi) & Ha)].
  - assert (Hidem : ms_idem (st_store s') = ms_idem (st_store s)) by (unfold core in Hcore; congruence).
    split; [unfold once; by rewrite Hidem, Hc|]. split; [|split; [by rewrite Hc|rewrite Hc; congruence]].
    destruct Ha as [Ha|[_ (r0 & Hr & Ha)]]; [by left|]. right.
    destruct Ho as [[_ Hn]|(r1 & Hc1 & Hr1 & _)]; [congruence|].
    exists (id_SandboxID r1). rewrite Hc. split; [done|]. by replace r1 with r0 by congruence.
  - rewrite bool_decide_false in Hi by done. destruct Hi as (Hn & r0 & <- & Hsum & ->).
    destruct Ho as [[Hc0 _]|(r1 & _ & Hr1 & _)]; [|congruence]. rewrite Hc0 in Hc. cbn in Hc.
    assert (ms_idem (st_store s') = <[idem_key (pr_TenantID p) k := r0]> (ms_idem (st_store s)))
      as Hi' by (unfold core in Hcore; congruence).
    split; [|split; [right; eexists; split; [exact Hc|apply Ha]|split; [by rewrite Hc0|]]].
    + right. exists r0. rewrite Hi', lookup_insert_eq. split; [done|]. split; [done|].
      exists p, r, req. by rewrite Hsum.
    + intros id _. rewrite Hc. by intros [= <-].
Qed.

Lemma awp_creates_once fuel T k all reqs s :
  k <> "" -> (forall p r, (p, r) ∈ all -> pr_TenantID p = T /\ idempotency_key r = k) ->
  (forall x, x ∈ reqs -> x ∈ all) -> once all T k s ->
  awp (creates fuel reqs) s (fun answers s' =>
    once all T k s' /\ Forall (about_created T s') answers /\
    (forall x, st_created s = [x] -> st_created s' = [x]) /\
    (forall id, st_created s = [] -> st_created s' = [(T, id)] ->
      exists a, a ∈ answers /\ tells fuel id a)).
Proof.
  intros Hk Hall. revert s. induction reqs as [|[p r] reqs IH]; intros s Hreqs Ho.
  { hnf. split; [done|]. split; [done|]. split; [done|]. intros id -> [=]. }
  cbn [creates]. destruct (Hall p r) as [<- Hr]; [apply Hreqs; left|]. apply wp_bind.
  eapply wp_mono; [|apply (awp_create_once fuel all p r s k); [apply Hreqs; left|done..]].
  intros a s1 (Ho1 & Ha1 & Hk1 & Hs1). apply wp_bind.
  eapply wp_mono; [|apply IH; [intros x Hin; apply Hreqs; by right|exact Ho1]].
  intros l s2 (Ho2 & Hl2 & Hk2 & Hs2). apply wp_ret. split; [done|]. split; [|split; [auto|]].
  - constructor; [|done]. destruct Ha1 as [Ha1|(id & Hid & Ha1)]; [by left|]. right. eauto.
  - intros id Hc Hc2. destruct Ho1 as [[Hc1 _]|(r1 & Hc1 & _)].
    { destruct (Hs2 id Hc1 Hc2) as (a' & Hin & Ht). exists a'. split; [by right|done]. }
    exists a. split; [left|]. apply Hs1; [done|]. rewrite Hc1. pose proof (Hk2 _ Hc1). congruence.
Qed.

(** C20: retries under an idempotency key, one attempt after the other.  However
    often a tenant repeats a create under one key, with whatever bodies and
    whatever Kubernetes, the clock and the quota say in between, at most one
    sandbox is created, labelled with the tenant, and every answer that shows a
    sandbox shows that one (or, where no read of it ever succeeded, the empty
    object).  Once it is made, any further attempt leaves the state as it is:
    the request that made it is told of that sandbox, another request under the
    key gets 409.  Where sandboxes can be read and settle, the attempt that
    made it and every repetition answer 200 or 201 with its name.  (Attempts
    that overlap can make two: [concurrent_creates].) *)
Theorem create_once fuel T k reqs m :
  k <> "" -> (forall p r, (p, r) ∈ reqs -> pr_TenantID p = T /\ idempotency_key r = k) ->
  ms_idem m !! idem_key T k = None ->
  awp (creates fuel reqs) {| st_store := m; st_created := [] |} (fun answers s' =>
    (st_created s' = [] \/ exists id, st_created s' = [(T, id)]) /\
    Forall (fun a => shows_no_sandbox a \/
      exists id, st_created s' = [(T, id)] /\ answers_about id a) answers /\
    (forall id, st_created s' = [(T, id)] ->
       (settles -> fuel <> O -> exists a, a ∈ answers /\ shown id a) /\
       exists p0 r0 req0, (p0, r0) ∈ reqs /\ decode_create (rq_Body r0) = Ok req0 /\
       forall p r req, pr_TenantID p = T -> idempotency_key r = k ->
         decode_create (rq_Body r) = Ok req -> cs_Template req <> "" ->
         AllowsTemplate (pr_Key p) (cs_Template req) = true ->
         awp (createSandbox cfg decode_create requestSum fuel p r) s' (fun a s'' => s'' = s' /\
           if decide (requestSum req = requestSum req0)
           then answers_about id a /\ (settles -> fuel <> O -> shown id a)
           else exists msg,
             a = Answered (error_response (writeErr 409 "idempotency_mismatch" msg))))).
Proof.
  intros Hk Hreqs Hm.
  eapply wp_mono; [|apply (awp_creates_once fuel T k reqs); [done|done|done|by left]].
  intros answers s' (Ho & Ha & _ & Hs). split; [|split; [done|]].
  { destruct Ho as [[-> _]|(r & -> & _)]; eauto. }
  intros id Hid. split.
  { intros Hset Hf. destruct (Hs id eq_refl Hid) as (a & Hin & _ & Ht). exists a. auto. }
  destruct Ho as [[Hc _]|(r1 & Hc & Hi & p0 & r0 & req0 & Hin & Hd & Hsum)]; [congruence|].
  rewrite Hid in Hc. injection Hc as ->. exists p0, r0, req0. split; [done|]. split; [done|].
  intros p r req <- <- Hd' Ht Hal. rewrite <-Hsum. by apply awp_create_again.
Qed.
End Retries.

(** ** Sessions: any requests of any tenants, one after the other *)

Section Sessions.
Context (cfg : Config).
Context (decode_create : string -> result string CreateSandboxRequest).
Context (requestSum : CreateSandboxRequest -> string).
Context (decode_warmup : string -> result string WarmupRequestBody).
Context (decode_review : string -> result string ReviewBody).
Context (mux_answer : Request -> Response).
Abbreviation serve :=
  (serve_authenticated decode_warmup decode_review cfg decode_create requestSum mux_answer).

Fixpoint session (fuel : nat) (reqs : list (Principal * Request)) : Api (list Answer) :=
  match reqs with
  | [] => mret []
  | (p, r) :: reqs' => a ← serve fuel r p; l ← session fuel reqs'; mret (a :: l)
  end.

#[local] Instance within_eq x : Within (eq x) x.
Proof. done. Qed.

(** What the permitted calls keep, a permitted program keeps. *)
Lemma awp_within w p {A} (prog : Api A) (I : ApiState -> Prop) s :
  (forall R (e : ApiE R) s r s', permitted w p R e -> I s -> api_sem R e s r s' -> I s') ->
  Permitted w p prog -> I s -> awp prog s (fun _ s' => I s').
Proof.
  intros HI Hp Hs. eapply wp_mono; [|apply (wp_calls _ (permitted w p) I _ (fun _ => True))];
    [by intros ? ? [? _]|exact HI|by apply Hp|exact Hs].
Qed.

(** A property of the state every writing handler keeps, and every call of the
    others, is kept by every session. *)
Lemma session_keeps fuel (I : ApiState -> Prop) :
  (forall p r s, scoped p ScopeSandboxCreate -> I s ->
     awp (createSandbox cfg decode_create requestSum fuel p r) s (fun _ s' => I s')) ->
  (forall seg p r s, scoped p ScopeTemplateRead -> I s ->
     awp (requestWarmup decode_warmup seg p r) s (fun _ s' => I s')) ->
  (forall seg p r s, admin p -> I s ->
     awp (reviewWarmup decode_review seg p r) s (fun _ s' => I s')) ->
  (forall p R (e : ApiE R) s r s', permitted (fun _ => False) p R e -> I s ->
     api_sem R e s r s' -> I s') ->
  forall reqs s, I s -> awp (session fuel reqs) s (fun _ s' => I s').
Proof.
  intros Hcreate Hwarm Hreview Hcalls reqs. induction reqs as [|[p r] reqs IH]; intros s Hs; [done|].
  cbn [session]. apply wp_bind. eapply (wp_mono _ _ _ (fun _ s' => I s')).
  { intros a s' Hs'. apply wp_bind. eapply wp_mono; [|by apply IH]. done. }
  unfold serve_authenticated. destruct (mux _ r) as [[rt seg]|] eqn:Em; [|done].
  apply mux_elem in Em. apply wp_bind. unfold RequireScope.
  destruct (Allows (pr_Key p) (ar_Scope rt)) eqn:Es; [|done].
  apply wp_bind. eapply (wp_mono _ _ _ (fun _ s' => I s')); [done|].
  destruct (routes_handlers cfg decode_create requestSum decode_warmup decode_review p
    fuel rt seg r Em Es) as [Hsc Hh|Hsc Hh|Ha Hh|Hh]; try rewrite Hh; auto.
  eapply (awp_within (fun _ => False) p); [|by apply serves_permitted, Hh|exact Hs]. apply Hcalls.
Qed.

(** What the calls within [w] leave as it was. *)
Lemma permitted_frame w p R (e : ApiE R) s r s' :
  permitted w p R e -> api_sem R e s r s' ->
  (~ w Sandboxes -> ms_boxes (st_store s') = ms_boxes (st_store s) /\
     ms_quotas (st_store s') = ms_quotas (st_store s) /\ st_created s' = st_created s) /\
  (~ w Warmups -> ms_warmups (st_store s') = ms_warmups (st_store s) /\
     ms_budget (st_store s') = ms_budget (st_store s)).
Proof.
  intros Hp. unfold api_sem. destruct e; cbn in Hp |- *; intros [_ ->]; rewrite ?app_nil_r; try done;
    split; intros Hw; try done; by destruct (Hw (proj1 Hp)).
Qed.

(** *** Quotas *)

(** The sandboxes of a tenant that count as running: those recorded and not
    marked as deleted. *)
Definition live (T : string) (m : MemStore) : gmap string SandboxRecord :=
  filter (fun kb => sr_TenantID kb.2 = T /\ sr_DeletedAt kb.2 = None) (ms_boxes m).
Lemma CountRunning_live T m : CountRunning T m = Z.of_nat (size (live T m)).
Proof.
  unfold CountRunning, live. induction (ms_boxes m) as [|i b bs Hi IH] using map_ind; [done|].
  rewrite (count_if_perm _ _ _ (records_insert bs i b)), count_if_cons, delete_id, IH by done.
  unfold running. destruct (bool_decide (sr_TenantID b = T)) eqn:ET; bool_to_prop.
  - destruct (sr_DeletedAt b) eqn:ED; cbn [andb].
    + rewrite map_filter_insert_False by (cbn; intros [_ ?]; congruence). by rewrite delete_id.
    + rewrite map_filter_insert_True by done. rewrite map_size_insert_None; [lia|].
      apply map_lookup_filter_None. by left.
  - rewrite map_filter_insert_False by (cbn; tauto). by rewrite delete_id.
Qed.

Definition names (s : ApiState) : list string := map snd (st_created s).
(** How many sandboxes were created for a tenant. *)
Definition made_for (T : string) (s : ApiState) : nat :=
  length (List.filter (fun x => bool_decide (x.1 = T)) (st_created s)).
(** No two of them share a name, and none is that of an older one. *)
Definition distinct (m : MemStore) (s : ApiState) : Prop :=
  NoDup (names s) /\ forall id, id ∈ names s -> ms_boxes m !! id = None.

Record within_quota (m : MemStore) (T : string) (q : Quota) (s : ApiState) : Prop := {
  wq_quota : ms_quotas (st_store s) !! T = Some q;
  wq_live : (Z.of_nat (size (live T (st_store s))) <= qt_MaxConcurrent q)%Z;
  wq_boxes : forall id, is_Some (ms_boxes (st_store s) !! id) ->
    is_Some (ms_boxes m !! id) \/ id ∈ names s;
  wq_made : distinct m s -> (size (live T m) + made_for T s <= size (live T (st_store s)))%nat }.
Lemma within_quota_same m T q s s' :
  ms_boxes (st_store s') = ms_boxes (st_store s) -> st_created s' = st_created s ->
  ms_quotas (st_store s') = ms_quotas (st_store s) -> within_quota m T q s -> within_quota m T q s'.
Proof.
  intros Hb Hc Hq [H1 H2 H3 H4]. unfold live, distinct, made_for, names in *.
  split; unfold live, distinct, made_for, names; rewrite ?Hb, ?Hc, ?Hq; auto.
Qed.

(** One record more. *)
Lemma live_insert T m m' id box :
  ms_boxes m' = <[id := box]> (ms_boxes m) -> sr_DeletedAt box = None ->
  (Z.of_nat (size (live T m')) <= Z.of_nat (size (live T m)) +
     if bool_decide (sr_TenantID box = T) then 1 else 0)%Z /\
  (ms_boxes m !! id = None ->
     size (live T m') = size (live T m) + if bool_decide (sr_TenantID box = T) then 1 else 0)%nat.
Proof.
  intros Hb Hd. assert (Hr : running T box = bool_decide (sr_TenantID box = T)).
  { unfold running. rewrite Hd. by rewrite andb_true_r. }
  rewrite <-!CountRunning_live. unfold CountRunning. split.
  - rewrite Hb. pose proof (count_insert (running T) (ms_boxes m) id box) as H. rewrite Hr in H. lia.
  - intros Hn. apply Nat2Z.inj. rewrite Nat2Z.inj_add, <-!CountRunning_live. unfold CountRunning.
    rewrite Hb, (count_if_perm _ _ _ (records_insert _ id box)), count_if_cons, delete_id, Hr by done.
    destruct (bool_decide _); lia.
Qed.
Lemma distinct_snoc m s s' T id :
  st_created s' = (st_created s ++ [(T, id)])%list -> distinct m s' ->
  distinct m s /\ id ∉ names s /\ ms_boxes m !! id = None.
Proof.
  unfold distinct, names. intros ->. rewrite map_app. cbn.
  intros [(Hd & Hn & _)%NoDup_app Hf]. split; [split; [done|]|split].
  - intros x Hx. apply Hf, elem_of_app. by left.
  - intros Hin. apply (Hn id Hin). left.
  - apply Hf, elem_of_app. right. left.
Qed.
Lemma within_quota_create m fuel T q p r s :
  (0 < qt_MaxConcurrent q)%Z -> within_quota m T q s ->
  awp (createSandbox cfg decode_create requestSum fuel p r) s (fun _ s' => within_quota m T q s').
Proof.
  intros Hq Hs. eapply wp_mono; [|apply awp_create].
  intros a s' [[[Hc Hm] _]|(req & id & _ & (Hm & Hslot & box & idem & HT & HD & Hc & _) & _)].
  - unfold core in Hc. eapply within_quota_same; [..|exact Hs]; congruence.
  - destruct Hs as [Hqq Hrun Hbox Hmade]. unfold core in Hc. injection Hc as Hb _ Hq' _ _.
    destruct (live_insert T _ _ id box Hb HD) as [Hle Heq]. rewrite HT in Hle, Heq. split.
    + congruence.
    + case_bool_decide as ET; [|lia]. subst T. specialize (Hslot q Hqq Hq).
      rewrite CountRunning_live in Hslot. lia.
    + intros x. unfold names. rewrite Hb, Hm, map_app, elem_of_app, lookup_insert_is_Some. cbn.
      intros [<-|[_ Hx]]; [right; right; left|]. destruct (Hbox x Hx); auto.
    + intros Hd. destruct (distinct_snoc m s s' _ id Hm Hd) as (Hds & Hn & Hf).
      specialize (Hmade Hds). rewrite Heq.
      2: { destruct (ms_boxes (st_store s) !! id) eqn:E; [|done].
           destruct (Hbox id) as [[? ?]|]; [by eexists|congruence|done]. }
      unfold made_for in *. rewrite Hm, List.filter_app, length_app. cbn [List.filter fst].
      destruct (bool_decide _); cbn [length]; lia.
Qed.

Lemma within_quota_call m T q w p R (e : ApiE R) s r s' :
  ~ w Sandboxes -> permitted w p R e -> within_quota m T q s -> api_sem R e s r s' ->
  within_quota m T q s'.
Proof.
  intros Hw Hp Hs Hsem. destruct (permitted_frame _ _ _ _ _ _ _ Hp Hsem) as [Hf _].
  destruct (Hf Hw) as (? & ? & ?). by eapply within_quota_same.
Qed.

(** C21: the concurrency quota over any session.  Whatever requests whatever
    tenants and administrators make, one after the other, a tenant with a
    quota row never has more sandboxes recorded and not marked as deleted than
    the row allows; and as long as no name is drawn twice, those it had at the
    start and those created for it since are together no more than that. *)
Theorem quota_kept fuel T q reqs m :
  ms_quotas m !! T = Some q -> (0 < qt_MaxConcurrent q)%Z ->
  (Z.of_nat (size (live T m)) <= qt_MaxConcurrent q)%Z ->
  awp (session fuel reqs) {| st_store := m; st_created := [] |} (fun _ s' =>
    (Z.of_nat (size (live T (st_store s'))) <= qt_MaxConcurrent q)%Z /\
    (NoDup (names s') -> (forall id, id ∈ names s' -> ms_boxes m !! id = None) ->
     (Z.of_nat (size (live T m) + made_for T s') <= qt_MaxConcurrent q)%Z)).
Proof.
  intros Hq Hpos Hrun. eapply (wp_mono _ _ _ (fun _ s' => within_quota m T q s')).
  { intros _ s' [_ H1 _ H2]. split; [done|]. intros Hd Hf. specialize (H2 (conj Hd Hf)). lia. }
  apply session_keeps; [intros; by apply within_quota_create|..].
  - intros seg p r s0 Hsc. apply (awp_within (eq Warmups) p); [|apply _].
    intros R e s1 r1 s1'. by apply within_quota_call.
  - intros seg p r s0 Ha. apply (awp_within (eq Warmups) p); [|apply _].
    intros R e s1 r1 s1'. by apply within_quota_call.
  - intros p R e s0 r s0'. apply within_quota_call. tauto.
  - split; [done|done|by left|]. intros _. unfold made_for. cbn. lia.
Qed.

(** Nothing a caller can do frees a slot: deleting a sandbox writes the audit
    log only, and no handler marks a record as deleted. *)
Lemma deleteSandbox_keeps_slot T id p r s :
  scoped p ScopeSandboxDelete ->
  awp (deleteSandbox cfg id p r) s (fun _ s' =>
    CountRunning T (st_store s') = CountRunning T (st_store s)).
Proof.
  intros Hsc. apply (awp_within (fun _ => False) p); [|apply _|done].
  intros R e s1 r1 s1' Hp <- Hsem. destruct (permitted_frame _ _ _ _ _ _ _ Hp Hsem) as [Hf _].
  unfold CountRunning. destruct Hf as [-> _]; [tauto|done].
Qed.

(** *** The warm-capacity budget *)

Definition share (r : WarmupRequest) : Z := if is_approved r then wr_Replicas r else 0%Z.
Definition total (l : list WarmupRequest) : Z := foldr (fun r acc => (share r + acc)%Z) 0%Z l.
Lemma total_cons r l : total (r :: l) = (share r + total l)%Z.
Proof. done. Qed.
Lemma total_perm l l' : l ≡ₚ l' -> total l = total l'.
Proof. induction 1; rewrite ?total_cons; lia. Qed.
Lemma total_nonneg l : (forall r, r ∈ l -> (0 < wr_Replicas r)%Z) -> (0 <= total l)%Z.
Proof.
  intros Hl. induction l as [|r l IH]; [done|]. rewrite total_cons. unfold share.
  assert (0 < wr_Replicas r)%Z by (apply Hl; left).
  assert (0 <= total l)%Z by (apply IH; intros r' H'; apply Hl; by right).
  destruct (is_approved r); lia.
Qed.

(** Every request asks for something and is kept under its id, and what is
    approved fits the budget. *)
Definition budgeted (m : MemStore) : Prop :=
  (forall id r, ms_warmups m !! id = Some r -> wr_ID r = id /\ (0 < wr_Replicas r)%Z) /\
  (total (records (ms_warmups m)) <= pb_TotalIdlePods (ms_budget m) < 2 ^ 63)%Z.
Definition within_budget (s : ApiState) : Prop := budgeted (st_store s).

(** The 64-bit sum the store reports does not wrap. *)
Lemma allocated_total m : budgeted m -> allocated m = total (records (ms_warmups m)).
Proof.
  intros [Hpos Hle]. unfold allocated. set (l := records (ms_warmups m)) in *.
  assert (Hl : forall r, r ∈ l -> (0 < wr_Replicas r)%Z).
  { intros r [k Hk]%records_elem. by apply (Hpos k r). }
  clearbody l. assert (Hlt : (total l < 2 ^ 63)%Z) by lia. clear Hle.
  induction l as [|r l IH]; [done|]. rewrite total_cons in *. cbn [foldr].
  assert (Hr : (0 < wr_Replicas r)%Z) by (apply Hl; left).
  assert (Hl' : forall r', r' ∈ l -> (0 < wr_Replicas r')%Z) by (intros r' H'; apply Hl; by right).
  pose proof (total_nonneg l Hl') as Hn. unfold share in *. destruct (is_approved r).
  - rewrite IH by (done || lia). rewrite int64_id; [lia|]. unfold in_int64. lia.
  - rewrite IH by (done || lia). lia.
Qed.

(** Writing one request that asks for something. *)
Lemma budgeted_save m r :
  budgeted m -> (0 < wr_Replicas r)%Z ->
  (share r + total (records (base.delete (wr_ID r) (ms_warmups m))) <= pb_TotalIdlePods (ms_budget m))%Z ->
  budgeted (SaveWarmupRequest r m).
Proof.
  intros [Hpos Hle] Hr Hfit. split.
  - intros id r'. cbn [ms_warmups SaveWarmupRequest set_warmups].
    intros [[<- <-]|[_ H']]%lookup_insert_Some; [done|by apply Hpos].
  - cbn [ms_warmups ms_budget SaveWarmupRequest set_warmups].
    rewrite (total_perm _ _ (records_insert _ _ _)), total_cons. lia.
Qed.
Lemma total_delete m id :
  budgeted m ->
  (total (records (base.delete id (ms_warmups m))) +
   match ms_warmups m !! id with Some r => share r | None => 0 end
   = total (records (ms_warmups m)))%Z.
Proof.
  intros _. destruct (ms_warmups m !! id) as [r|] eqn:E.
  - rewrite (total_perm _ _ (records_delete _ _ _ E)), total_cons. lia.
  - rewrite delete_id by done. lia.
Qed.
Lemma budgeted_save_unapproved m r :
  budgeted m -> (0 < wr_Replicas r)%Z -> is_approved r = false -> budgeted (SaveWarmupRequest r m).
Proof.
  intros Hm Hr Ha. apply budgeted_save; [done|done|]. unfold share. rewrite Ha.
  pose proof (total_delete m (wr_ID r) Hm) as Hd. destruct Hm as [Hpos Hle].
  destruct (ms_warmups m !! wr_ID r) as [r0|] eqn:E; [|lia].
  destruct (Hpos _ _ E). unfold share in Hd. destruct (is_approved r0); lia.
Qed.
Lemma within_budget_call w p R (e : ApiE R) s r s' :
  ~ w Warmups -> permitted w p R e -> within_budget s -> api_sem R e s r s' -> within_budget s'.
Proof.
  intros Hw Hp Hs Hsem. destruct (permitted_frame _ _ _ _ _ _ _ Hp Hsem) as [_ Hf].
  destruct (Hf Hw) as [H1 H2]. unfold within_budget, budgeted. by rewrite H1, H2.
Qed.

(** The audit log is no part of it. *)
Lemma budgeted_core m m' : core m' = core m -> budgeted m -> budgeted m'.
Proof. unfold core, budgeted. intros [= _ _ _ -> ->]. done. Qed.

Lemma awp_suffix {A} (f : string -> Api A) s Q :
  (forall x, awp (f x) s Q) -> awp (randomSuffix ≫= f) s Q.
Proof.
  intros Hf. apply wp_bind. unfold randomSuffix. apply awp_same; [done|done|].
  intros b _. apply wp_ret, Hf.
Qed.

Lemma within_budget_request seg p r s :
  within_budget s ->
  awp (requestWarmup decode_warmup seg p r) s (fun _ s' => within_budget s').
Proof.
  intros Hs. unfold requestWarmup. destruct (decode_warmup _) as [body|]; [|done].
  destruct (Z.leb_spec (wb_Replicas body) 0) as [|Hpos]; [done|]. destruct (negb _); [done|].
  apply awp_same; [done|done|]. intros [tpl|e] _; [|by destruct (IsNotFound e)].
  apply awp_suffix. intros id. apply awp_now. intros t. cbv zeta.
  eapply awp_store; [reflexivity|]. apply awp_now. intros t'.
  eapply awp_store; [reflexivity|]. apply wp_ret.
  eapply (budgeted_core (SaveWarmupRequest _ _)); [reflexivity|].
  by apply budgeted_save_unapproved.
Qed.

Lemma awp_upsert {A} req n (f : option string -> Api A) s Q :
  (forall r, awp (f r) s Q) -> awp (upsertPool req n ≫= f) s Q.
Proof.
  intros Hf. apply wp_bind. destruct s as [m l]. unfold upsertPool.
  eapply awp_store; [reflexivity|]. unfold MemStore_Tenant, find_record. cbn [st_store st_created].
  destruct (ms_tenants m !! wr_TenantID req) as [tn|]; [|by apply wp_ret].
  apply awp_same; [done|done|]. intros [pool|e] _.
  - apply awp_same; [done|done|]. intros x _. by apply wp_ret.
  - destruct (IsNotFound e); [|by apply wp_ret].
    apply awp_same; [done|done|]. intros x _. by apply wp_ret.
Qed.

Lemma within_budget_approve req n p r note now s :
  within_budget s -> ms_warmups (st_store s) !! wr_ID req = Some req ->
  is_approved req = false -> (0 < n)%Z ->
  awp (approve req n p r note now) s (fun _ s' => within_budget s').
Proof.
  intros Hs Hreq Hna Hn. destruct s as [m l]. cbn [st_store] in *. unfold approve.
  eapply awp_store; [reflexivity|]. cbn [st_store st_created PoolBudget_of pb_TotalIdlePods pb_Allocated].
  rewrite (allocated_total m Hs).
  pose proof (total_delete m (wr_ID req) Hs) as Hd. rewrite Hreq in Hd.
  assert (Hbase : (0 <= total (records (ms_warmups m)))%Z).
  { apply total_nonneg. intros r0 [k Hk]%records_elem. by apply (proj1 Hs k r0). }
  pose proof (proj2 Hs) as Hle. cbn [st_store] in Hle.
  rewrite int64_id by (unfold in_int64; lia).
  match goal with |- awp (if (?a <? ?b)%Z then _ else _) _ _ => destruct (Z.ltb_spec a b) end;
    [done|].
  apply awp_upsert. intros [msg|]; [done|]. cbv zeta.
  eapply awp_store; [reflexivity|]. eapply awp_store; [reflexivity|]. apply wp_ret.
  eapply (budgeted_core (SaveWarmupRequest _ _)); [reflexivity|].
  apply budgeted_save; [done|done|].
  assert (share (reviewed req approved n p note now) = n) as -> by done.
  unfold share in Hd. rewrite Hna in Hd. cbn [wr_ID reviewed st_store]. lia.
Qed.

Lemma within_budget_review seg p r s :
  within_budget s ->
  awp (reviewWarmup decode_review seg p r) s (fun _ s' => within_budget s').
Proof.
  intros Hs. destruct s as [m l]. unfold reviewWarmup.
  destruct (decode_review _) as [body|]; [|done].
  eapply awp_store; [reflexivity|]. unfold MemStore_WarmupRequest, find_record.
  cbn [st_store st_created]. destruct (ms_warmups m !! seg) as [req|] eqn:Er; [|done].
  destruct (bool_decide (wr_Status req = pending)) eqn:Est; cbn [negb]; [|done].
  apply bool_decide_eq_true in Est. destruct (proj1 Hs seg req Er) as [Hid Hpos].
  assert (Hna : is_approved req = false) by (unfold is_approved; by rewrite Est).
  apply awp_now. intros now. destruct (negb (rb_Approve body)).
  - cbv zeta. eapply awp_store; [reflexivity|]. apply wp_ret. by apply budgeted_save_unapproved.
  - apply within_budget_approve; [done|by rewrite Hid|done|].
    destruct (Z.leb_spec (rb_Replicas body) 0); lia.
Qed.

(** C22: the warm-capacity budget over any session.  Whatever is asked for and
    whatever administrators approve, one request after the other, the replicas
    of the approved requests never add up to more than the budget, and the sum
    the store reports is that sum: its 64-bit addition does not wrap. *)
Theorem budget_kept fuel reqs s :
  budgeted (st_store s) ->
  awp (session fuel reqs) s (fun _ s' =>
    allocated (st_store s') = total (records (ms_warmups (st_store s'))) /\
    (0 <= allocated (st_store s') <= pb_TotalIdlePods (ms_budget (st_store s')))%Z).
Proof.
  intros Hs. eapply (wp_mono _ _ _ (fun _ s' => within_budget s')).
  { intros _ s' Hs'. rewrite (allocated_total _ Hs'). split; [done|]. split; [|apply Hs'].
    apply total_nonneg. intros r [k Hk]%records_elem. by apply (proj1 Hs' k r). }
  apply session_keeps; [..|done].
  - intros p r s0 Hsc. apply (awp_within (eq Sandboxes) p); [|apply _].
    intros R e s1 r1 s1'. by apply within_budget_call.
  - intros seg p r s0 _. apply within_budget_request.
  - intros seg p r s0 _. apply within_budget_review.
  - intros p R e s0 r s0'. apply within_budget_call. tauto.
Qed.
End Sessions.
End Runs.

(** ** Witnesses *)

#[local] Instance settling : Setting := True.

(** A world in which Kubernetes accepts every object and reports every sandbox
    it is asked for as running. *)
Definition wit_running (k : ObjectKey) : Sandbox :=
  {| sbx_Meta := new_meta k.2 k.1 {[LabelTenant := "t1"]};
     sbx_Spec := sbx_Spec zero_sandbox;
     sbx_Status := set_ss_Phase PhaseRunning zero_status |}.
Definition wit_step (R : Type) (e : ApiE R) (s : ApiState) : R * ApiState :=
  match mem_step e (st_store s) with
  | Some (r, m) => (r, {| st_store := m; st_created := st_created s |})
  | None =>
      let r := match e in ApiE R return R with
               | CCreateSandbox _ => Ok tt
               | CGetSandbox k => Ok (wit_running k)
               | CGetPool _ => Err {| ke_Kind := NotFound; ke_Msg := "no pool" |}
               | CCreatePool _ => Ok tt
               | CNow => (700 * second)%Z
               | CRand _ => "0123456789"
               | e => unavailable e
               end in
      (r, {| st_store := st_store s; st_created := (st_created s ++ made e r)%list |})
  end.

Definition wit_cfg : Config :=
  {| cfg_ReadyTimeout := 0; cfg_ReadyPoll := 0; cfg_APIReader := true; cfg_NewID := false |}.
Definition wit_principal (scopes : list Scope) : Principal :=
  {| pr_TenantID := "t1"; pr_Namespace := "ns1"; pr_KeyID := "0123456789ab";
     pr_Key := {| ak_KeyID := "0123456789ab"; ak_TenantID := "t1"; ak_Name := "ci";
       ak_SecretHash := ""; ak_Scopes := scopes; ak_AllowedTemplates := [];
       ak_IPAllowlist := []; ak_ExpiresAt := None; ak_RevokedAt := None;
       ak_LastUsedAt := None; ak_CreatedAt := 1%Z |} |}.
Definition wit_req (method path : string) : Request :=
  {| rq_Method := method; rq_Host := "api.example.com"; rq_URL := wit_url path;
     rq_Header := {["Idempotency-Key" := ["k1"]]}; rq_RemoteAddr := "10.0.0.1:4000"; rq_TLS := true;
     rq_Body := "python" |}.
Definition wit_decode (body : string) : result string CreateSandboxRequest :=
  Ok {| cs_Template := body; cs_TTLSeconds := 60; cs_Filesystem := None; cs_Env := ∅; cs_Metadata := ∅ |}.
Definition wit_decode_warmup (body : string) : result string WarmupRequestBody :=
  Ok {| wb_Replicas := 40; wb_Reason := body |}.
Definition wit_decode_review (body : string) : result string ReviewBody :=
  Ok {| rb_Approve := true; rb_Replicas := 0; rb_Note := "" |}.
Definition wit_creates : list (Principal * Request) :=
  let p := wit_principal [ScopeSandboxCreate] in
  let r := wit_req "POST" "/v1/sandboxes" in [(p, r); (p, r); (p, r)].

(** Three attempts, one sandbox, the same answer. *)
Example creates_run :
  let '(answers, s) := interp wit_step (creates wit_cfg wit_decode cs_Template 5 wit_creates)
    {| st_store := NewMemStore; st_created := [] |} in
  st_created s = [("t1", "sbx-gaytemzugu3doobz")] /\
  map (fun a => match a with
       | Answered {| rp_Code := c; rp_Body := BSandbox resp |} => (c, re_ID resp)
       | _ => (0%Z, "") end) answers = repeat (201%Z, "sbx-gaytemzugu3doobz") 3.
Proof. vm_compute. done. Qed.

Lemma create_once_witness :
  wp api_sem (creates wit_cfg wit_decode cs_Template 5 wit_creates)
    {| st_store := NewMemStore; st_created := [] |} (fun answers s' =>
    (st_created s' = [] \/ exists id, st_created s' = [("t1", id)]) /\
    (forall id, st_created s' = [("t1", id)] -> exists a, a ∈ answers /\ shown id a)).
Proof.
  eapply wp_mono;
    [|apply (create_once wit_cfg wit_decode cs_Template 5 "t1" "k1" wit_creates NewMemStore)].
  - intros answers s' (H1 & _ & H2). split; [exact H1|]. intros id Hid.
    apply (H2 id Hid); [exact I|discriminate].
  - discriminate.
  - intros p r Hin. unfold wit_creates in Hin.
    repeat (apply elem_of_cons in Hin as [[= -> ->]|Hin]; [split; reflexivity|]).
    by apply elem_of_nil in Hin.
  - reflexivity.
Defined.

(** Two attempts that overlap: the second runs between the first one's look
    for an earlier attempt and its create.  Both find nothing, and each makes
    a sandbox. *)
Definition numbered (R : Type) (e : ApiE R) (s : ApiState) : R * ApiState :=
  match e in ApiE R return R * ApiState -> R * ApiState with
  | CNewID => fun x => ("sbx-" +:+ itoa (Z.of_nat (length (st_created s))), snd x)
  | _ => fun x => x
  end (wit_step R e s).
Definition numbered_cfg : Config :=
  {| cfg_ReadyTimeout := 0; cfg_ReadyPoll := 0; cfg_APIReader := true; cfg_NewID := true |}.
Example concurrent_creates :
  let p := wit_principal [ScopeSandboxCreate] in
  let r := wit_req "POST" "/v1/sandboxes" in
  let start := {| st_store := NewMemStore; st_created := [] |} in
  let '(earlier, s1) := interp numbered (earlier_attempt p "k1" "python") start in
  let '(_, s2) := interp numbered (createSandbox numbered_cfg wit_decode cs_Template 5 p r) s1 in
  let '(_, s3) := interp numbered
    (match wit_decode (rq_Body r) with
     | Ok req => create_new numbered_cfg 5 p r req "k1" "python"
     | Err _ => mret Waiting
     end) s2 in
  earlier = NoneEarlier /\ st_created s3 = [("t1", "sbx-0"); ("t1", "sbx-1")].
Proof. vm_compute. done. Qed.

Definition wit_quota : Quota :=
  {| qt_TenantID := "t1"; qt_MaxConcurrent := 2; qt_MaxCreatePerMinute := 0;
     qt_MaxSandboxSecondsDay := 0; qt_MaxIdlePods := 0 |}.
Definition wit_mux (r : Request) : Response :=
  {| rp_Code := 404; rp_RetryAfter := None; rp_Body := BMux |}.
Definition wit_admin_session : list (Principal * Request) :=
  let p := wit_principal [ScopeAdmin] in
  [(p, wit_req "POST" "/v1/templates/python/warmup-request");
   (p, wit_req "POST" "/v1/admin/warmup-requests/wr-1/review");
   (p, wit_req "POST" "/v1/sandboxes")].
Definition wit_tenant_store : MemStore :=
  SetQuota wit_quota (AddTenant {| tn_ID := "t1"; tn_Name := "T"; tn_Namespace := "ns1";
    tn_Status := "active"; tn_CreatedAt := 0%Z |} NewMemStore).

Lemma quota_kept_witness :
  wp api_sem (session wit_cfg wit_decode cs_Template wit_decode_warmup wit_decode_review wit_mux 5
    wit_admin_session) {| st_store := wit_tenant_store; st_created := [] |}
    (fun _ s' => (Z.of_nat (size (live "t1" (st_store s'))) <= 2)%Z /\
       (NoDup (names s') -> (Z.of_nat (made_for "t1" s') <= 2)%Z)).
Proof.
  eapply wp_mono; [|apply (quota_kept wit_cfg wit_decode cs_Template wit_decode_warmup
    wit_decode_review wit_mux 5 "t1" wit_quota wit_admin_session wit_tenant_store)].
  - intros a s' [H1 H2]. split; [exact H1|]. intros Hd. apply H2; [exact Hd|reflexivity].
  - reflexivity.
  - reflexivity.
  - discriminate.
Defined.

(** One pending request for 40 of the 64 Pods. *)
Definition wit_pending : WarmupRequest :=
  new_request "wr-1" "python" (wit_principal []) {| wb_Replicas := 40; wb_Reason := "" |} 0%Z.
Lemma wit_budgeted : budgeted (SaveWarmupRequest wit_pending wit_tenant_store).
Proof. apply budgeted_save; [split; [done|vm_compute; done]|done|vm_compute; done]. Qed.
Lemma budget_kept_witness :
  wp api_sem (session wit_cfg wit_decode cs_Template wit_decode_warmup wit_decode_review wit_mux 5
    wit_admin_session)
    {| st_store := SaveWarmupRequest wit_pending wit_tenant_store; st_created := [] |}
    (fun _ s' => allocated (st_store s') = total (records (ms_warmups (st_store s'))) /\
       (0 <= allocated (st_store s') <= pb_TotalIdlePods (ms_budget (st_store s')))%Z).
Proof.
  apply (budget_kept wit_cfg wit_decode cs_Template wit_decode_warmup wit_decode_review wit_mux 5
    wit_admin_session
    {| st_store := SaveWarmupRequest wit_pending wit_tenant_store; st_created := [] |}).
  exact wit_budgeted.
Defined.
(** The approval goes through, and the 40 Pods count. *)
Example budget_run :
  allocated (st_store (snd (interp wit_step (session wit_cfg wit_decode cs_Template
    wit_decode_warmup wit_decode_review wit_mux 5 wit_admin_session)
    {| st_store := SaveWarmupRequest wit_pending wit_tenant_store; st_created := [] |}))) = 40%Z.
Proof. vm_compute. reflexivity. Qed.
