(* ===== verification/Posix.v ===== *)
(** * System calls on files

    The calls the file code makes ([syscall.Open], [syscall.Openat], [openat2],
    [os.Remove], ...), as data: what they answer is the kernel's.  [Kernel]
    states what the code relies on the kernel for, and nothing else: a
    descriptor refers to the node it was opened on until it is closed, a single
    component opened with O_NOFOLLOW is an entry of its directory, and openat2
    honours its RESOLVE_ flags.  Whatever else happens to the tree in between
    (renames, new symbolic links) is [k_others].  The flags are Linux's on
    amd64. *)
From S2P Require Import Prelude GoStrings Bwrap Calls.
Open Scope string_scope.
Open Scope Z_scope.

Definition O_RDONLY : Z := 0.
Definition O_WRONLY : Z := 1.
Definition O_RDWR : Z := 2.
Definition O_CREAT : Z := 0x40.
Definition O_TRUNC : Z := 0x200.
Definition O_DIRECTORY : Z := 0x10000.
Definition O_NOFOLLOW : Z := 0x20000.
Definition O_CLOEXEC : Z := 0x80000.
Definition O_PATH : Z := 0x200000.
Definition RESOLVE_NO_XDEV : Z := 0x01.
Definition RESOLVE_NO_MAGICLINKS : Z := 0x02.
Definition RESOLVE_NO_SYMLINKS : Z := 0x04.
Definition RESOLVE_BENEATH : Z := 0x08.

Definition has_flag (flags f : Z) : bool := Z.land flags f =? f.

Definition Errno := Z.
Definition EPERM : Errno := 1.
Definition ENOENT : Errno := 2.
Definition EACCES : Errno := 13.
Definition EEXIST : Errno := 17.
Definition EXDEV : Errno := 18.
Definition ENOSYS : Errno := 38.
Definition ENOTEMPTY : Errno := 39.
Definition ELOOP : Errno := 40.

(** [os.FileMode.Perm] *)
Definition perm_bits (perm : Z) : Z := Z.land perm 0x1ff.

(** How [io.Copy] from a request's body into a file ends. *)
Inductive CopyError := WriteFailed (err : Errno) | BodyFailed (msg : string).

Record Stat := { st_IsDir : bool; st_Symlink : bool; st_Size : Z; st_Perm : Z; st_ModTime : Time }.
Record DirEntry := { de_Name : string; de_IsDir : bool }.

Inductive FsE : Type -> Type :=
| Open (path : string) (flags mode : Z) : FsE (result Errno Z)
| Openat (dir : Z) (name : string) (flags mode : Z) : FsE (result Errno Z)
| Openat2 (dir : Z) (path : string) (flags mode resolve : Z) : FsE (result Errno Z)
| Close (fd : Z) : FsE unit
| Fstat (fd : Z) : FsE (result Errno Stat)
| ReadDir (fd : Z) : FsE (result Errno (list DirEntry))
| Lstat (path : string) : FsE (result Errno Stat)
| CopyBody (fd limit : Z) : FsE (result CopyError Z)  (* the request's body, at most [limit] bytes *)
| ServeContent (fd : Z) (name : string) (modified : Time) : FsE unit
| Mkdir (path : string) (mode : Z) : FsE (result Errno unit)
| Remove (path : string) : FsE (result Errno unit)
| RemoveAll (path : string) : FsE (result (string * string * Errno) unit)  (* the entry it failed on *)
| Missing_Load : FsE bool                           (* the latch [openat2Missing] *)
| Missing_Store (b : bool) : FsE unit.
Abbreviation Fs := (Prog FsE).

(** The calls that open or close a descriptor. *)
Definition on_descriptors {R} (e : FsE R) : bool :=
  match e with Open _ _ _ | Openat _ _ _ _ | Openat2 _ _ _ _ _ | Close _ => true | _ => false end.

(** ** What the kernel promises *)

Class Kernel := {
  k_state : Type;
  k_node : Type;
  k_sem : forall R, FsE R -> k_state -> R -> k_state -> Prop;
  k_others : k_state -> k_state -> Prop;              (* others change the tree *)
  k_fds : k_state -> gmap Z k_node;                   (* the descriptors this code holds *)
  k_named : k_state -> string -> k_node -> Prop;      (* so far, the path once led to the node *)
  k_entry : k_state -> k_node -> string -> k_node -> Prop;
      (* so far, the node was once the entry of that name, itself no symbolic link *)
  k_below : k_state -> k_node -> k_node -> Prop;      (* so far, resolved without leaving the first *)
}.

(** What was seen stays seen. *)
Definition remembers `{Kernel} (s s' : k_state) : Prop :=
  (forall p n, k_named s p n -> k_named s' p n) /\
  (forall d x n, k_entry s d x n -> k_entry s' d x n) /\
  (forall d n, k_below s d n -> k_below s' d n).

(** From a directory through single entries, none a symbolic link. *)
Inductive descends `{Kernel} (s : k_state) (d : k_node) : list string -> k_node -> Prop :=
| descends_here : descends s d [] d
| descends_entry segs n x m :
    descends s d segs n -> good_seg x -> k_entry s n x m -> descends s d (segs ++ [x])%list m.

(** The segments of a relative path as the opener splits it. *)
Definition rel_segs (rel : string) : list string :=
  if bool_decide (rel = "" \/ rel = ".") then [] else split slash rel.

(** What a call that opens a descriptor does to those held. *)
Definition opened `{Kernel} (s s' : k_state) (r : result Errno Z) (Q : k_node -> Prop) : Prop :=
  match r with
  | Ok fd => k_fds s !! fd = None /\ exists n, k_fds s' = <[fd := n]> (k_fds s) /\ Q n
  | Err _ => k_fds s' = k_fds s
  end.

Class KernelLaws `{Kernel} : Prop := {
  k_others_fds s s' : k_others s s' -> k_fds s' = k_fds s;
  k_others_seen s s' : k_others s s' -> remembers s s';
  k_sem_seen R (e : FsE R) s r s' : k_sem R e s r s' -> remembers s s';
  k_open p fl m s r s' :
    k_sem _ (Open p fl m) s r s' -> opened s s' r (k_named s' p);
  (** a component opened with O_NOFOLLOW, and not as a bare O_PATH handle *)
  k_openat dir x fl m s r s' :
    k_sem _ (Openat dir x fl m) s r s' ->
    good_seg x -> has_flag fl O_NOFOLLOW = true -> has_flag fl O_PATH = false ->
    opened s s' r (fun n => exists d, k_fds s !! dir = Some d /\ k_entry s' d x n);
  k_openat2 dir p fl m res s r s' :
    k_sem _ (Openat2 dir p fl m res) s r s' -> has_flag res RESOLVE_BENEATH = true ->
    opened s s' r (fun n => exists d, k_fds s !! dir = Some d /\ k_below s' d n /\
      (has_flag res RESOLVE_NO_SYMLINKS = true -> Forall good_seg (rel_segs p) ->
       descends s' d (rel_segs p) n));
  k_close fd s r s' : k_sem _ (Close fd) s r s' -> k_fds s' = delete fd (k_fds s);
  k_quiet R (e : FsE R) s r s' : on_descriptors e = false -> k_sem R e s r s' -> k_fds s' = k_fds s;
}.

Lemma remembers_refl `{Kernel} s : remembers s s.
Proof. split; [|split]; auto. Qed.
Lemma remembers_trans `{Kernel} a b c : remembers a b -> remembers b c -> remembers a c.
Proof. intros (H1 & H2 & H3) (H4 & H5 & H6). split; [|split]; eauto. Qed.
Lemma descends_seen `{Kernel} s s' d segs n : remembers s s' -> descends s d segs n -> descends s' d segs n.
Proof. intros (_ & Hm & _). induction 1; econstructor; eauto. Qed.
