(* ===== verification/PosixTree.v ===== *)
(** * A kernel the promises of Posix.v hold of

    A tree of directory entries with symbolic links, with or without openat2,
    which others may change in any way between two calls.  It shows that
    [KernelLaws] can hold, and runs the programs on concrete trees. *)
From S2P Require Import Prelude GoStrings Bwrap Calls Posix.
Open Scope string_scope.

Record Tree := {
  t_entries : gmap (N * string) N;      (* directory and name to node *)
  t_links : gset N;                     (* the nodes that are symbolic links *)
  t_old : bool;                         (* before Linux 5.6: no openat2 *)
  t_fds : gmap Z N;
  t_missing : bool;
  t_seen : gset (N * string * N);
  t_below : gset (N * N) }.

(** The root of the tree is what the path /srv leads to. *)
Definition tree_root (p : string) : option N := if bool_decide (p = "/srv") then Some 0%N else None.

Definition resolve_entry (t : Tree) (d : N) (x : string) : result Errno N :=
  match t_entries t !! (d, x) with
  | None => Err ENOENT
  | Some n => if bool_decide (n ∈ t_links t) then Err ELOOP else Ok n
  end.
Fixpoint resolve (t : Tree) (d : N) (segs : list string) : result Errno (list (N * string * N) * N) :=
  match segs with
  | [] => Ok ([], d)
  | x :: segs' =>
      let? n := resolve_entry t d x in
      let? r := resolve t n segs' in
      Ok ((d, x, n) :: r.1, r.2)
  end.

Definition with_fds (t : Tree) (fds : gmap Z N) (seen : list (N * string * N)) (below : list (N * N)) : Tree :=
  {| t_entries := t_entries t; t_links := t_links t; t_old := t_old t; t_fds := fds;
     t_missing := t_missing t; t_seen := list_to_set seen ∪ t_seen t;
     t_below := list_to_set below ∪ t_below t |}.
Definition open_node (t : Tree) (n : N) seen below : result Errno Z * Tree :=
  let fd := fresh (dom (t_fds t)) in (Ok fd, with_fds t (<[fd := n]> (t_fds t)) seen below).

Definition tree_step (R : Type) (e : FsE R) (t : Tree) : R * Tree :=
  match e in FsE R return R * Tree with
  | Open p _ _ =>
      match tree_root p with Some n => open_node t n [] [] | None => (Err ENOENT, t) end
  | Openat dir x _ _ =>
      match t_fds t !! dir with
      | None => (Err 9%Z, t)
      | Some d => match resolve_entry t d x with
                  | Ok n => open_node t n [(d, x, n)] []
                  | Err e => (Err e, t)
                  end
      end
  | Openat2 dir p _ _ _ =>
      if t_old t then (Err ENOSYS, t)
      else match t_fds t !! dir with
           | None => (Err 9%Z, t)
           | Some d => match resolve t d (rel_segs p) with
                       | Ok (seen, n) => open_node t n seen [(d, n)]
                       | Err e => (Err e, t)
                       end
           end
  | Close fd => (tt, with_fds t (delete fd (t_fds t)) [] [])
  | Fstat _ => (Err ENOENT, t)
  | ReadDir _ => (Ok [], t)
  | Lstat _ => (Err ENOENT, t)
  | CopyBody _ _ => (Ok 0%Z, t)
  | ServeContent _ _ _ => (tt, t)
  | Mkdir _ _ => (Err EEXIST, t)
  | Remove _ => (Ok tt, t)
  | RemoveAll _ => (Ok tt, t)
  | Missing_Load => (t_missing t, t)
  | Missing_Store b => (tt, {| t_entries := t_entries t; t_links := t_links t; t_old := t_old t;
                               t_fds := t_fds t; t_missing := b; t_seen := t_seen t; t_below := t_below t |})
  end.

#[export] Instance TreeKernel : Kernel := {
  k_state := Tree; k_node := N;
  k_sem := answers tree_step;
  k_others t t' := t_fds t' = t_fds t /\ t_seen t ⊆ t_seen t' /\ t_below t ⊆ t_below t';
  k_fds := t_fds;
  k_named _ p n := tree_root p = Some n;
  k_entry t d x n := (d, x, n) ∈ t_seen t;
  k_below t d n := (d, n) ∈ t_below t }.

Lemma remembers_tree (t t' : Tree) :
  t_seen t ⊆ t_seen t' -> t_below t ⊆ t_below t' -> remembers t t'.
Proof. intros H1 H2. split; [done|]. split; cbn; intros *; [apply H1|apply H2]. Qed.
Lemma remembers_with t fds seen below : remembers t (with_fds t fds seen below).
Proof. apply remembers_tree; cbn; set_solver. Qed.
Lemma tree_step_seen R (e : FsE R) t : remembers t (tree_step R e t).2.
Proof.
  destruct e; cbn; repeat case_match; simplify_eq/=;
    first [apply remembers_refl | apply remembers_with | by apply remembers_tree].
Qed.
Lemma resolve_descends t (s : Tree) d0 pre d segs seen n :
  resolve t d segs = Ok (seen, n) -> Forall good_seg segs ->
  (forall e, e ∈ seen -> e ∈ t_seen s) ->
  descends s d0 pre d -> descends s d0 (pre ++ segs) n.
Proof.
  intros Hr Hg. revert d pre seen Hr. induction Hg as [|x segs Hx Hg IH]; intros d pre seen Hr Hs Hd; cbn in Hr.
  { simplify_eq. by rewrite app_nil_r. }
  destruct (resolve_entry t d x) as [m|] eqn:Em; [|done]. cbn in Hr.
  destruct (resolve t m segs) as [[seen' n']|] eqn:Er; [|done]. cbn in Hr. simplify_eq.
  rewrite cons_middle, app_assoc. apply (IH m (pre ++ [x])%list seen'); [done| |].
  - intros e He. apply Hs, elem_of_cons. by right.
  - econstructor; [done|done|]. cbn. apply Hs, elem_of_cons. by left.
Qed.
Lemma open_node_opened t n seen below r t' (Q : N -> Prop) :
  open_node t n seen below = (r, t') -> (t' = with_fds t (t_fds t') seen below -> Q n) ->
  opened t t' r Q.
Proof.
  unfold open_node. intros [= <- <-] HQ. split; [apply not_elem_of_dom, is_fresh|].
  exists n. split; [done|]. by apply HQ.
Qed.

#[export] Instance TreeLaws : KernelLaws.
Proof.
  split.
  - by intros s s' (? & _).
  - intros s s' (_ & ? & ?). by apply remembers_tree.
  - intros R e s r s' He. pose proof (tree_step_seen R e s) as H. cbn in He. unfold answers in He.
    by rewrite He in H.
  - intros p fl m s r s' He. cbn in He. unfold answers in He. cbn in He.
    destruct (tree_root p) eqn:Ep; [by eapply open_node_opened|by simplify_eq].
  - intros dir x fl m s r s' He Hx _ _. cbn in He. unfold answers in He. cbn in He.
    destruct (t_fds s !! dir) as [d|] eqn:Ed; [|by simplify_eq].
    destruct (resolve_entry s d x); [|by simplify_eq].
    eapply open_node_opened; [exact He|]. intros ->. exists d. split; [done|]. cbn. set_solver.
  - intros dir p fl m res s r s' He _. cbn in He. unfold answers in He. cbn in He.
    destruct (t_old s); [by simplify_eq|].
    destruct (t_fds s !! dir) as [d|] eqn:Ed; [|by simplify_eq].
    destruct (resolve s d (rel_segs p)) as [[seen n]|] eqn:Er; [|by simplify_eq].
    eapply open_node_opened; [exact He|]. intros ->. exists d. split; [done|].
    split; [cbn; set_solver|].
    intros _ Hg. apply (resolve_descends s _ d [] d _ _ _ Er Hg); [cbn; set_solver|constructor].
  - intros fd s r s' He. cbn in He. unfold answers in He. cbn in He. by simplify_eq.
  - intros R e s r s' Hq He. cbn in He. unfold answers in He.
    destruct e; cbn in He, Hq; simplify_eq; done.
Qed.
