(* ===== verification/SafePath.v ===== *)
(** * Opening beneath a root (pkg/safepath)

    [checkRel], [OpenBeneath] with its two implementations (openat2, and the
    walk of one component at a time), [ResolveBeneath] and [OpenMount], as
    programs over the calls of Posix.v; then what they guarantee while others
    keep changing the tree. *)
From S2P Require Import Prelude GoStrings Api Bwrap Calls Posix PosixTree.
Open Scope string_scope.

(** ** Errors *)

Inductive SpError :=
| ErrEscape
| ErrBadPath
| PathError (op path : string) (err : Errno).
Definition IsEscape (e : SpError) : bool :=
  match e with ErrEscape | ErrBadPath => true | PathError _ _ _ => false end.
Definition IsPathErrno (errs : list Errno) (e : SpError) : bool :=
  match e with PathError _ _ n => bool_decide (n ∈ errs) | _ => false end.

(** [os.File]: the descriptor and the name it was opened under. *)
Record File := { f_Fd : Z; f_Name : string }.

(** ** safepath.go *)

Definition checkRel (rel : string) : result SpError string :=
  if bool_decide (rel = "" \/ rel = ".") then Ok "."
  else guard negb (has_prefix rel "/") else ErrBadPath ;;
       guard negb (contains_byte rel nul) else ErrBadPath ;;
       guard bool_decide (clean rel = rel) else ErrBadPath ;;
       guard negb (existsb (fun seg => bool_decide (seg = "..") || bool_decide (seg = ""))
                     (split slash rel)) else ErrBadPath ;;
       Ok rel.

(** ** open_linux.go *)

Definition root_flags : Z := Z.lor (Z.lor O_RDONLY O_DIRECTORY) O_CLOEXEC.

(** The third result is [supported]. *)
Definition openBeneathAt2 (root rel : string) (flags perm : Z) : Fs (option (result SpError File)) :=
  r ← call (Open root root_flags 0);
  match r with
  | Err e => mret (Some (Err (PathError "open" root e)))
  | Ok dirFd =>
      res ← (if contains_byte rel nul then mret (Some (Err ErrBadPath))
             else
               r ← call (Openat2 dirFd rel (Z.lor flags O_CLOEXEC) (perm_bits perm)
                           (Z.lor RESOLVE_BENEATH RESOLVE_NO_MAGICLINKS));
               mret (match r with
                     | Ok fd => Some (Ok {| f_Fd := fd; f_Name := root +:+ "/" +:+ rel |})
                     | Err e =>
                         if bool_decide (e = ENOSYS \/ e = EPERM) then None
                         else if bool_decide (e = EXDEV \/ e = ELOOP) then Some (Err ErrEscape)
                         else Some (Err (PathError "openat2" rel e))
                     end));
      call (Close dirFd);; mret res
  end.

Definition dir_flags : Z := Z.lor (Z.lor (Z.lor O_RDONLY O_DIRECTORY) O_NOFOLLOW) O_CLOEXEC.

(** The loop over the segments, [dirFd] being the directory reached so far. *)
Fixpoint walk_segs (dirFd : Z) (segs : list string) (flags perm : Z) : Fs (result SpError Z) :=
  match segs with
  | [] => mret (Ok dirFd)
  | seg :: segs' =>
      let last := bool_decide (segs' = []) in
      r ← call (Openat dirFd seg
                  (if last then Z.lor (Z.lor flags O_NOFOLLOW) O_CLOEXEC else dir_flags)
                  (if last then perm_bits perm else 0%Z));
      match r with
      | Err e =>
          call (Close dirFd);;
          mret (Err (if bool_decide (e = ELOOP) then ErrEscape else PathError "openat" seg e))
      | Ok fd => call (Close dirFd);; walk_segs fd segs' flags perm
      end
  end.

Definition openBeneathWalk (root rel : string) (flags perm : Z) : Fs (result SpError File) :=
  r ← call (Open root root_flags 0);
  match r with
  | Err e => mret (Err (PathError "open" root e))
  | Ok dirFd =>
      if bool_decide (rel = ".") then mret (Ok {| f_Fd := dirFd; f_Name := root |})
      else
        r ← walk_segs dirFd (split slash rel) flags perm;
        mret (match r with
              | Ok fd => Ok {| f_Fd := fd; f_Name := root +:+ "/" +:+ rel |}
              | Err e => Err e
              end)
  end.

Definition openBeneath (root rel : string) (flags perm : Z) : Fs (result SpError File) :=
  missing ← call Missing_Load;
  if missing : bool then openBeneathWalk root rel flags perm
  else
    r ← openBeneathAt2 root rel flags perm;
    match r with
    | Some res => mret res
    | None => call (Missing_Store true);; openBeneathWalk root rel flags perm
    end.

Definition OpenBeneath (root rel : string) (flags perm : Z) : Fs (result SpError File) :=
  match checkRel rel with
  | Err e => mret (Err e)
  | Ok cleanRel => openBeneath root cleanRel flags perm
  end.

Definition ResolveBeneath (root rel : string) : Fs (result SpError string) :=
  r ← OpenBeneath root rel O_RDONLY 0;
  match r with
  | Err e => mret (Err e)
  | Ok f =>
      call (Close (f_Fd f));;
      mret (Ok (if bool_decide (rel = "" \/ rel = ".") then root else path_join [root; rel]))
  end.

(** ** mount_linux.go *)

Definition mount_resolve : Z :=
  Z.lor (Z.lor (Z.lor RESOLVE_BENEATH RESOLVE_NO_SYMLINKS) RESOLVE_NO_MAGICLINKS) RESOLVE_NO_XDEV.

Definition OpenMount (root relative : string) : Fs (result SpError File) :=
  match checkRel relative with
  | Err e => mret (Err e)
  | Ok rel =>
      r ← call (Open root (Z.lor (Z.lor (Z.lor O_PATH O_DIRECTORY) O_CLOEXEC) O_NOFOLLOW) 0);
      match r with
      | Err e => mret (Err (PathError "open" root e))
      | Ok rfd =>
          r ← call (Openat2 rfd rel (Z.lor (Z.lor O_PATH O_DIRECTORY) O_CLOEXEC) 0 mount_resolve);
          call (Close rfd);;
          mret (match r with
                | Err e => Err (PathError "pin mount" (root +:+ "/" +:+ rel) e)
                | Ok fd => Ok {| f_Fd := fd; f_Name := root +:+ "/" +:+ rel |}
                end)
      end
  end.

(** ** What the lexical gate accepts *)

Lemma good_segs_nonempty segs : Forall good_seg segs -> "" ∉ segs.
Proof. rewrite Forall_forall. intros H Hin. by destruct (H _ Hin) as [(? & _) _]. Qed.

Lemma checkRel_accepts rel c :
  checkRel rel = Ok c <-> subpath_ok rel /\ c = (if bool_decide (rel = "") then "." else rel).
Proof.
  unfold checkRel. case_bool_decide as Hs.
  { destruct Hs as [-> | ->]; cbn; unfold subpath_ok; split.
    - intros [= <-]. auto.
    - by intros [_ ->].
    - intros [= <-]. auto.
    - by intros [_ ->]. }
  rewrite (bool_decide_eq_false_2 (rel = "")) by tauto.
  rewrite !guard_ok, !negb_true_iff. split.
  - intros (H1 & H2 & H3 & H4 & [= <-]). split; [|done].
    rewrite <-(validateSubPath_ok "" rel). unfold validateSubPath.
    rewrite bool_decide_eq_false_2 by tauto. rewrite !guard_ok, !negb_true_iff.
    split; [done|]. split; [done|]. split; [|done].
    apply existsb_dotdot. intros Hin. apply not_true_iff_false in H4. apply H4.
    apply existsb_elem. exists "..". by rewrite bool_decide_eq_true_2.
  - intros [Hok ->]. pose proof Hok as Hv. rewrite <-(validateSubPath_ok "" rel) in Hv.
    unfold validateSubPath in Hv. rewrite bool_decide_eq_false_2 in Hv by tauto.
    rewrite !guard_ok, !negb_true_iff in Hv. destruct Hv as (H1 & H2 & H3 & H4 & _).
    repeat (split; [done|]). split; [|done].
    destruct Hok as [->|[->|(segs & Hn & -> & Hg)]]; [tauto|tauto|].
    pose proof (good_segs_path _ Hg) as Hp.
    rewrite split_join in * by (done || by apply path_segs_no_slash).
    apply existsb_dotdot in H3. apply not_true_iff_false. intros (x & Hx & Hb)%existsb_elem.
    apply orb_true_iff in Hb as [->%bool_decide_eq_true| ->%bool_decide_eq_true]; [done|].
    by apply good_segs_nonempty in Hx.
Qed.

(** ** Flags *)

Lemma has_flag_bit flags i : (0 <= i)%Z -> has_flag flags (2 ^ i) = Z.testbit flags i.
Proof.
  intros Hi. unfold has_flag. apply eq_true_iff_eq. rewrite Z.eqb_eq. split.
  - intros E. apply (f_equal (fun z => Z.testbit z i)) in E.
    rewrite Z.land_spec, Z.pow2_bits_true, andb_true_r in E by done. done.
  - intros E. apply Z.bits_inj'. intros j Hj. rewrite Z.land_spec.
    destruct (decide (i = j)) as [->|Hij]; [by rewrite E|].
    by rewrite Z.pow2_bits_false, andb_false_r by done.
Qed.
Lemma last_flags flags :
  has_flag (Z.lor (Z.lor flags O_NOFOLLOW) O_CLOEXEC) O_NOFOLLOW = true /\
  has_flag (Z.lor (Z.lor flags O_NOFOLLOW) O_CLOEXEC) O_PATH = has_flag flags O_PATH.
Proof.
  change O_NOFOLLOW with (2 ^ 17)%Z. change O_PATH with (2 ^ 21)%Z. rewrite !has_flag_bit by done.
  rewrite !Z.lor_spec. change (Z.testbit O_CLOEXEC 21) with false.
  change (Z.testbit (2 ^ 17) 21) with false. change (Z.testbit (2 ^ 17) 17) with true.
  by rewrite orb_true_r, !orb_false_r.
Qed.

(** The calls an opening makes, given its root and flags. *)
Definition opens_with (root : string) (flags : Z) (R : Type) (e : FsE R) : Prop :=
  match e with
  | Open p fl _ => p = root /\ fl = root_flags
  | Openat _ _ fl _ => fl = dir_flags \/ fl = Z.lor (Z.lor flags O_NOFOLLOW) O_CLOEXEC
  | Openat2 _ _ fl _ _ => fl = Z.lor flags O_CLOEXEC
  | Close _ | Missing_Load | Missing_Store _ => True
  | _ => False
  end.

(** ** Containment, whatever others do to the tree *)

Section Contained.
Context `{OS : Kernel} `{OSL : !KernelLaws}.

(** A program run while others change the tree before every call; each of its
    calls keeps the promise [G] in the state it is made in. *)
Context (G : forall R, FsE R -> k_state -> Prop).
Definition amid {A} (p : Fs A) (s : k_state) (Q : A -> k_state -> Prop) : Prop :=
  rg k_others G k_sem p s Q.

Lemma amid_call {A R} (e : FsE R) (f : R -> Fs A) s Q :
  (forall s1, remembers s s1 -> k_fds s1 = k_fds s -> G R e s1) ->
  (forall r s', remembers s s' ->
     (exists s1, k_fds s1 = k_fds s /\ k_sem _ e s1 r s') -> amid (f r) s' Q) ->
  amid (call e ≫= f) s Q.
Proof.
  intros HG H. apply rg_call. intros s1 Ho.
  pose proof (k_others_seen _ _ Ho) as Hm. pose proof (k_others_fds _ _ Ho) as Hf.
  split; [by apply HG|]. intros r s2 Hs. apply H; [|by exists s1].
  eapply remembers_trans; [done|by eapply k_sem_seen].
Qed.
Lemma amid_quiet {A R} (e : FsE R) (f : R -> Fs A) s Q :
  on_descriptors e = false ->
  (forall s1, remembers s s1 -> k_fds s1 = k_fds s -> G R e s1) ->
  (forall r s', remembers s s' -> k_fds s' = k_fds s -> amid (f r) s' Q) ->
  amid (call e ≫= f) s Q.
Proof.
  intros He HG H. apply amid_call; [done|]. intros r s' Hm (s1 & Hf & Hs). apply H; [done|].
  rewrite <-Hf. by eapply k_quiet.
Qed.
Lemma amid_close {A} fd (f : unit -> Fs A) s Q :
  (forall s, G _ (Close fd) s) ->
  (forall s', remembers s s' -> k_fds s' = delete fd (k_fds s) -> amid (f tt) s' Q) ->
  amid (call (Close fd) ≫= f) s Q.
Proof.
  intros HG H. apply amid_call; [auto|]. intros [] s' Hm (s1 & Hf & Hs). apply H; [done|].
  rewrite <-Hf. by eapply k_close.
Qed.
Lemma amid_bind {A B} (p : Fs A) (f : A -> Fs B) s Q :
  amid p s (fun a s' => amid (f a) s' Q) -> amid (p ≫= f) s Q.
Proof. apply rg_bind. Qed.
Lemma amid_mono {A} (p : Fs A) s (Q Q' : A -> k_state -> Prop) :
  (forall a s', Q a s' -> Q' a s') -> amid p s Q -> amid p s Q'.
Proof. apply rg_mono. Qed.

Lemma amid_seen {A} (p : Fs A) s Q :
  amid p s Q -> amid p s (fun a s' => remembers s s' /\ Q a s').
Proof.
  revert s. induction p as [a|R e k IH]; intros s; cbn.
  { intros HQ. split; [apply remembers_refl|done]. }
  intros H s1 Ho. destruct (H s1 Ho) as [HG Hk]. split; [done|]. intros r s2 Hs.
  pose proof (IH _ _ (Hk _ _ Hs)) as Hr. eapply rg_mono; [|exact Hr]. intros a s3 [Hm HQ]. split; [|done].
  eapply remembers_trans; [by apply k_others_seen|].
  eapply remembers_trans; [by eapply k_sem_seen|done].
Qed.
Lemma remembers_named s s' p n : remembers s s' -> k_named s p n -> k_named s' p n.
Proof. intros [Hm _]. apply Hm. Qed.
Lemma remembers_below s s' d n : remembers s s' -> k_below s d n -> k_below s' d n.
Proof. intros (_ & _ & Hm). apply Hm. Qed.

(** [fd] is one descriptor more than [fds], and refers to a node with [Q]. *)
Definition holds_one (fds : gmap Z k_node) (fd : Z) (Q : k_node -> Prop) (s : k_state) : Prop :=
  fds !! fd = None /\ exists n, k_fds s = <[fd := n]> fds /\ Q n.

Lemma amid_open {A} p fl m (f : result Errno Z -> Fs A) s Q :
  (forall s, G _ (Open p fl m) s) ->
  (forall r s', remembers s s' ->
     match r with
     | Ok fd => holds_one (k_fds s) fd (k_named s' p) s'
     | Err _ => k_fds s' = k_fds s
     end -> amid (f r) s' Q) ->
  amid (call (Open p fl m) ≫= f) s Q.
Proof.
  intros HG H. apply amid_call; [auto|]. intros r s' Hm (s1 & Hf & Hs). apply H; [done|].
  rewrite <-Hf. exact (k_open _ _ _ _ _ _ Hs).
Qed.

Lemma delete_held {A} (fds : gmap Z A) a b n m :
  fds !! a = None -> <[a := n]> fds !! b = None ->
  delete a (<[b := m]> (<[a := n]> fds)) = <[b := m]> fds.
Proof.
  intros Ha [Hb Hab]%lookup_insert_None.
  by rewrite insert_insert_ne, delete_insert_id by (done || by rewrite lookup_insert_ne).
Qed.

Definition contained (s : k_state) (root rel : string) (n : k_node) : Prop :=
  exists d, k_named s root d /\ (k_below s d n \/ descends s d (rel_segs rel) n).
(** What an opener leaves: one descriptor more, on a contained node, or none. *)
Definition opens_file (fds : gmap Z k_node) (Q : k_node -> Prop) (r : result SpError File)
    (s' : k_state) : Prop :=
  match r with
  | Ok f => holds_one fds (f_Fd f) Q s'
  | Err _ => k_fds s' = fds
  end.
Definition opens_contained (fds : gmap Z k_node) root rel (r : result SpError File) (s' : k_state) : Prop :=
  opens_file fds (contained s' root rel) r s'.

Lemma rel_segs_good rel : subpath_ok rel -> Forall good_seg (rel_segs rel).
Proof.
  unfold rel_segs. case_bool_decide; [done|]. intros [->|[->|(segs & _ & -> & Hg)]]; [tauto|tauto|].
  rewrite split_join; [done| |by apply path_segs_no_slash, good_segs_path].
  intros ->. apply H. by left.
Qed.

(** ** One opening *)

Section Opening.
Context (root : string) (flags : Z) (G_opens : forall R (e : FsE R) s, opens_with root flags R e -> G R e s).
Context (not_path : has_flag flags O_PATH = false).

(** The walk holds one descriptor at a time and follows single entries. *)
Lemma walk_segs_descends fds dirFd d pre segs perm s :
  Forall good_seg segs ->
  holds_one fds dirFd (descends s d pre) s ->
  amid (walk_segs dirFd segs flags perm) s (fun r s' =>
    match r with
    | Ok fd => holds_one fds fd (descends s' d (pre ++ segs)) s'
    | Err _ => k_fds s' = fds
    end).
Proof.
  intros Hg. revert dirFd pre s. induction Hg as [|x segs Hx Hg IH]; intros dirFd pre s (Hn & n & Hf & Hd).
  { cbn. rewrite app_nil_r. split; [done|]. eauto. }
  cbn [walk_segs]. apply amid_call; [intros; apply G_opens; cbn; case_bool_decide; auto|]. intros r s1 Hm (s0 & Hf0 & Hs).
  pose proof (k_openat _ _ _ _ _ _ _ Hs Hx) as Ho.
  lapply Ho; [clear Ho; intros Ho|case_bool_decide; [apply (last_flags flags)|done]].
  lapply Ho; [clear Ho; intros Ho|case_bool_decide; [by rewrite (proj2 (last_flags flags))|done]].
  destruct r as [fd|e].
  - destruct Ho as (Hfd & m & Hf1 & d' & Hd' & He). rewrite Hf0, Hf in *.
    rewrite lookup_insert in Hd'. rewrite decide_True in Hd' by done. injection Hd' as <-.
    apply amid_close; [by intros; apply G_opens|]. intros s2 Hm2 Hf2. rewrite Hf1, delete_held in Hf2 by done.
    rewrite cons_middle, app_assoc. apply IH.
    apply lookup_insert_None in Hfd as [Hfd _]. split; [done|]. exists m. split; [done|].
    eapply descends_seen; [done|]. econstructor; [by eapply descends_seen|done|done].
  - apply amid_close; [by intros; apply G_opens|]. intros s2 _ Hf2. cbn. by rewrite Hf2, Ho, Hf0, Hf, delete_insert_id.
Qed.

Lemma openBeneathWalk_contained rel perm s :
  subpath_ok rel -> rel <> "" ->
  amid (openBeneathWalk root rel flags perm) s (opens_contained (k_fds s) root rel).
Proof.
  intros Hrel Hne. unfold openBeneathWalk. apply amid_open; [by intros; apply G_opens|]. intros [dirFd|e] s1 _ Hh; [|done].
  destruct Hh as (Hn & d & Hf & Hd). case_bool_decide as Hdot.
  { cbn. split; [done|]. exists d. split; [done|]. exists d. split; [done|]. right.
    unfold rel_segs. rewrite bool_decide_eq_true_2 by auto. constructor. }
  assert (rel_segs rel = split slash rel) as Hs
    by (unfold rel_segs; rewrite bool_decide_eq_false_2 by tauto; done).
  apply amid_bind.
  eapply amid_mono; [|apply amid_seen, (walk_segs_descends (k_fds s) dirFd d [])].
  - intros [fd|e] s2 [Hm Hr]; cbn in *; [|done]. destruct Hr as (Hfd & n & Hf2 & Hdesc).
    split; [done|]. exists n. split; [done|]. exists d. split; [by eapply remembers_named|].
    right. by rewrite Hs.
  - rewrite <-Hs. by apply rel_segs_good.
  - split; [done|]. exists d. split; [done|]. constructor.
Qed.

(** [None] is an openat2 the kernel does not offer. *)
Lemma openBeneathAt2_contained rel perm s :
  amid (openBeneathAt2 root rel flags perm) s (fun r s' =>
    match r with Some r => opens_contained (k_fds s) root rel r s' | None => k_fds s' = k_fds s end).
Proof.
  unfold openBeneathAt2. apply amid_open; [by intros; apply G_opens|]. intros [dirFd|e] s1 _ Hh; [|done].
  destruct Hh as (Hn & d & Hf & Hd). apply amid_bind.
  destruct (contains_byte rel nul).
  { apply rg_ret, amid_close; [by intros; apply G_opens|]. intros s2 _ Hf2. cbn. by rewrite Hf2, Hf, delete_insert_id. }
  apply amid_call; [by intros; apply G_opens|]. intros r s2 Hm (s0 & Hf0 & Hs).
  apply k_openat2 in Hs; [|done]. destruct r as [fd|e]; (apply rg_ret, amid_close; [by intros; apply G_opens|]); intros s3 Hm3 Hf3; cbn.
  - destruct Hs as (Hfd & m & Hf2 & d' & Hd' & Hb & _). rewrite Hf0, Hf in *.
    rewrite lookup_insert, decide_True in Hd' by done. injection Hd' as <-.
    rewrite Hf2, delete_held in Hf3 by done. apply lookup_insert_None in Hfd as [Hfd _].
    split; [done|]. exists m. split; [done|]. exists d. split.
    + eapply remembers_named; [|exact Hd]. by eapply remembers_trans.
    + left. by eapply remembers_below.
  - cbn in Hs. rewrite Hs, Hf0, Hf, delete_insert_id in Hf3 by done.
    repeat case_bool_decide; done.
Qed.

Lemma OpenBeneath_opens rel perm s :
  amid (OpenBeneath root rel flags perm) s (opens_contained (k_fds s) root rel).
Proof.
  unfold OpenBeneath. destruct (checkRel rel) as [c|e] eqn:Hc; [|done].
  apply checkRel_accepts in Hc as [Hok ->].
  set (c := if bool_decide (rel = "") then "." else rel).
  assert (subpath_ok c /\ c <> "" /\ rel_segs c = rel_segs rel) as (Hc1 & Hc2 & Hc3).
  { unfold c. case_bool_decide as E; [subst rel|done]. split; [by right; left|done]. }
  assert (forall r s', opens_contained (k_fds s) root c r s' -> opens_contained (k_fds s) root rel r s') as Hw.
  { intros r s'. unfold opens_contained, contained. by rewrite Hc3. }
  unfold openBeneath. apply amid_quiet; [done|by intros; apply G_opens|]. intros [] s1 _ Hf1; rewrite <-Hf1 in Hw |- *.
  { eapply amid_mono; [exact Hw|]. by apply openBeneathWalk_contained. }
  apply amid_bind. eapply amid_mono; [|apply openBeneathAt2_contained].
  intros [r|] s2 Hr; [by apply Hw|]. apply amid_quiet; [done|by intros; apply G_opens|]. intros [] s3 _ Hf3.
  rewrite <-Hr, <-Hf3 in *. eapply amid_mono; [exact Hw|]. by apply openBeneathWalk_contained.
Qed.
End Opening.
End Contained.

Section Openers.
Context `{OS : Kernel} `{OSL : !KernelLaws}.

(** A directory reached by single entries none of which is a symbolic link. *)
Definition pinned_at (s : k_state) (root rel : string) (n : k_node) : Prop :=
  exists d, k_named s root d /\ k_below s d n /\ descends s d (rel_segs rel) n.

(** A mount source is pinned by one openat2 that follows no symbolic link. *)
Lemma OpenMount_pins root rel s :
  amid (fun _ _ _ => True) (OpenMount root rel) s (fun r s' => opens_file (k_fds s) (pinned_at s' root rel) r s').
Proof.
  unfold OpenMount. destruct (checkRel rel) as [c|e] eqn:Hc; [|done].
  apply checkRel_accepts in Hc as [Hok ->].
  apply amid_open; [done|]. intros [rfd|e] s1 _ Hh; [|done]. destruct Hh as (Hn & d & Hf & Hd).
  apply amid_call; [done|]. intros r s2 Hm (s0 & Hf0 & Hs). apply k_openat2 in Hs; [|done].
  destruct r as [fd|e]; (apply amid_close; [done|]); intros s3 Hm3 Hf3; cbn.
  - destruct Hs as (Hfd & m & Hf2 & d' & Hd' & Hb & Hdesc). rewrite Hf0, Hf in *.
    rewrite lookup_insert, decide_True in Hd' by done. injection Hd' as <-.
    rewrite Hf2, delete_held in Hf3 by done. apply lookup_insert_None in Hfd as [Hfd _].
    split; [done|]. exists m. split; [done|]. exists d. split; [|split].
    + eapply remembers_named; [|exact Hd]. by eapply remembers_trans.
    + by eapply remembers_below.
    + eapply descends_seen; [done|].
      assert (rel_segs (if bool_decide (rel = "") then "." else rel) = rel_segs rel) as E
        by (case_bool_decide; [by subst|done]).
      rewrite E in Hdesc. apply Hdesc; [done|]. by apply rel_segs_good.
  - cbn in Hs. by rewrite Hf3, Hs, Hf0, Hf, delete_insert_id.
Qed.

(** C23: whatever others do to the tree while a path is opened beneath a root,
    by openat2 or by the walk: a file that is returned lies beneath a directory
    the root led to (reached by single entries that are no symbolic links,
    unless the kernel itself vouched for it), it is the only descriptor left
    open, and a failure leaves none. A mount source, moreover, is reached
    without following any symbolic link. *)
Theorem OpenBeneath_contained root rel flags perm s :
  has_flag flags O_PATH = false ->
  amid (fun _ _ _ => True) (OpenBeneath root rel flags perm) s
    (fun r s' => opens_file (k_fds s) (contained s' root rel) r s') /\
  amid (fun _ _ _ => True) (OpenMount root rel) s
    (fun r s' => opens_file (k_fds s) (pinned_at s' root rel) r s').
Proof. intros Hfl. split; [by apply OpenBeneath_opens|apply OpenMount_pins]. Qed.
End Openers.

(** The admission check of a mount's sub-path and the gate in front of the
    kernel are one language: a spec that was accepted is never refused as
    malformed when its mounts are opened, and nothing the opener would take is
    rejected by validation. *)
Theorem checkRel_validateSubPath field rel :
  is_ok (checkRel rel) = is_ok (validateSubPath field rel).
Proof.
  apply eq_true_iff_eq. rewrite !is_ok_true. split.
  - intros [c [Hc _]%checkRel_accepts]. exists tt. by apply validateSubPath_ok.
  - intros [[] Hv%validateSubPath_ok]. eexists. by apply checkRel_accepts.
Qed.

(** ** On concrete trees *)

(** /srv holds the directory a with a file b, and a symbolic link l. *)
Definition wit_tree (old : bool) : Tree :=
  {| t_entries := {[ (0%N, "a") := 1%N; (1%N, "b") := 2%N; (0%N, "l") := 3%N ]};
     t_links := {[ 3%N ]}; t_old := old; t_fds := ∅; t_missing := false;
     t_seen := ∅; t_below := ∅ |}.
Definition wit_open (old : bool) (rel : string) : option (result SpError N) * nat :=
  let '(r, t) := interp tree_step (OpenBeneath "/srv" rel O_RDONLY 0) (wit_tree old) in
  (match r with
   | Ok f => Ok <$> t_fds t !! f_Fd f
   | Err e => Some (Err e)
   end, size (t_fds t)).

Example both_openers :
  map (fun old => map (wit_open old) ["a/b"; ""; "l"; "a/../b"; "c"]) [false; true] =
  [[(Some (Ok 2%N), 1%nat); (Some (Ok 0%N), 1%nat); (Some (Err ErrEscape), 0%nat);
    (Some (Err ErrBadPath), 0%nat); (Some (Err (PathError "openat2" "c" ENOENT)), 0%nat)];
   [(Some (Ok 2%N), 1%nat); (Some (Ok 0%N), 1%nat); (Some (Err ErrEscape), 0%nat);
    (Some (Err ErrBadPath), 0%nat); (Some (Err (PathError "openat" "c" ENOENT)), 0%nat)]].
Proof. vm_compute. reflexivity. Qed.

Lemma OpenBeneath_contained_wit :
  has_flag O_RDONLY O_PATH = false /\
  amid (fun _ _ _ => True) (OpenBeneath "/srv" "a/b" O_RDONLY 0) (wit_tree true)
    (fun r s' => opens_file (t_fds (wit_tree true)) (contained s' "/srv" "a/b") r s').
Proof. split; [reflexivity|]. apply (proj1 (OpenBeneath_contained (OS := TreeKernel) "/srv" "a/b" O_RDONLY 0 (wit_tree true) eq_refl)). Defined.
