(* ===== verification/SafePortable.v ===== *)
(** * Opening beneath a root on other platforms (pkg/safepath/open_portable.go)

    The implementation for a developer's machine walks by path: it looks at
    every component with lstat, refuses a symbolic link, and then opens the path.
    On a tree that stays as it is it opens what the Linux walk opens and refuses
    what that refuses; where others change the tree between the look and the
    opening it does not, which is why the product runs on the other. *)
From S2P Require Import Prelude GoStrings Api Bwrap Calls Posix PosixTree SafePath.
Open Scope string_scope.
Open Scope list_scope.

(** ** open_portable.go, nofollow_other.go, mount_other.go *)

Inductive PathE : Type -> Type :=
| EvalSymlinks (path : string) : PathE (result SpError string)
| IsSymlink (path : string) : PathE (result Errno bool)           (* os.Lstat, as far as it is looked at *)
| OpenFile (path : string) (flags perm : Z) : PathE (result Errno Z).
Definition syscallNoFollow : Z := O_NOFOLLOW.
(** The loop over the segments: the path of all of them, once every one but the
    last was looked at. *)
Fixpoint look (cur : string) (segs : list string) : Prog PathE (result SpError string) :=
  match segs with
  | [] => mret (Ok cur)
  | seg :: segs' =>
      let cur := path_join [cur; seg] in
      if bool_decide (segs' = []) then mret (Ok cur)
      else
        r ← call (IsSymlink cur);
        match r with
        | Err e => mret (Err (PathError "lstat" cur e))
        | Ok true => mret (Err ErrEscape)
        | Ok false => look cur segs'
        end
  end.
Definition os_open (path : string) (flags perm : Z) : Prog PathE (result SpError File) :=
  r ← call (OpenFile path flags perm);
  mret (match r with
        | Ok fd => Ok {| f_Fd := fd; f_Name := path |}
        | Err e => Err (PathError "open" path e)
        end).
Definition openBeneath_portable (root rel : string) (flags perm : Z) : Prog PathE (result SpError File) :=
  r ← call (EvalSymlinks root);
  match r with
  | Err e => mret (Err e)
  | Ok realRoot =>
      if bool_decide (rel = ".") then os_open realRoot O_RDONLY 0
      else
        r ← look realRoot (split slash rel);
        match r with
        | Err e => mret (Err e)
        | Ok cur =>
            if negb (has_prefix cur (realRoot +:+ "/")) then mret (Err ErrEscape)
            else
              f ← os_open cur (Z.lor flags syscallNoFollow) perm;
              mret (match f with
                    | Ok f => Ok f
                    | Err e => Err (if IsPathErrno [ELOOP] e then ErrEscape else e)
                    end)
        end
  end.
Definition OpenMount_portable (root relative : string) : result string File :=
  Err "pinned mounts require Linux openat2".

(** ** A tree whose links are followed *)

Record FS := { fs_entries : gmap (N * string) N; fs_links : gmap N (list string) }.
Definition is_link (t : FS) (n : N) : bool := match fs_links t !! n with Some _ => true | None => false end.
Section Resolve.
Context (t : FS) (follow : list string -> result Errno N).
(** A link on the way is followed, to an absolute path; the last is not. *)
Fixpoint resolve_from (d : N) (segs : list string) : result Errno N :=
  match segs with
  | [] => Ok d
  | x :: segs' =>
      match fs_entries t !! (d, x) with
      | None => Err ENOENT
      | Some n =>
          match fs_links t !! n with
          | Some target => if bool_decide (segs' = []) then Ok n else follow (target ++ segs')
          | None => resolve_from n segs'
          end
      end
  end.
(** The same, no link allowed anywhere. *)
Fixpoint resolve_plain (d : N) (segs : list string) : result Errno N :=
  match segs with
  | [] => Ok d
  | x :: segs' =>
      match fs_entries t !! (d, x) with
      | None => Err ENOENT
      | Some n => if is_link t n then Err ELOOP else resolve_plain n segs'
      end
  end.
End Resolve.
(** At most so many links. *)
Fixpoint resolve_path (t : FS) (links : nat) (segs : list string) : result Errno N :=
  match links with
  | O => Err ELOOP
  | S links => resolve_from t (resolve_path t links) 0 segs
  end.
Definition max_links : nat := 40.
Definition lookup_path (t : FS) (p : string) : result Errno N :=
  resolve_path t max_links (List.filter (fun s => negb (bool_decide (s = ""))) (split slash p)).
(** A descriptor is the node it was opened at. *)
Definition fs_step (real : string -> result SpError string) (R : Type) (e : PathE R) (t : FS) : R * FS :=
  match e in PathE R return R * FS with
  | EvalSymlinks p => (real p, t)
  | IsSymlink p => (let? n := lookup_path t p in Ok (is_link t n), t)
  | OpenFile p flags _ =>
      (let? n := lookup_path t p in
       if is_link t n && has_flag flags O_NOFOLLOW then Err ELOOP else Ok (Z.of_N n), t)
  end.

(** ** What it opens where nothing changes *)

Lemma resolve_plain_app t d segs1 segs2 :
  resolve_plain t d (segs1 ++ segs2) = let? n := resolve_plain t d segs1 in resolve_plain t n segs2.
Proof.
  revert d. induction segs1 as [|x segs1 IH]; intros d; cbn; [done|].
  destruct (fs_entries t !! (d, x)) as [n|]; [|done]. destruct (is_link t n); [done|]. apply IH.
Qed.
Lemma resolve_from_plain t follow d segs n :
  resolve_plain t d segs = Ok n -> resolve_from t follow d segs = Ok n.
Proof.
  revert d. induction segs as [|x segs IH]; intros d; cbn; [done|].
  destruct (fs_entries t !! (d, x)) as [n'|]; [|done]. unfold is_link. destruct (fs_links t !! n'); [done|]. apply IH.
Qed.
(** Looking at the last component of a path that is plain up to there. *)
Lemma resolve_from_last t follow d segs x n :
  resolve_plain t d segs = Ok n ->
  resolve_from t follow d (segs ++ [x]) = match fs_entries t !! (n, x) with Some m => Ok m | None => Err ENOENT end.
Proof.
  revert d. induction segs as [|y segs IH]; intros d; cbn.
  - intros [= <-]. destruct (fs_entries t !! (d, x)) as [m|]; [|done]. by destruct (fs_links t !! m).
  - destruct (fs_entries t !! (d, y)) as [m|]; [|done]. unfold is_link. destruct (fs_links t !! m) eqn:E; [done|]. apply IH.
Qed.
Lemma lookup_render t segs : path_segs segs -> lookup_path t (render segs) = resolve_path t max_links segs.
Proof.
  intros H. unfold lookup_path. f_equal. unfold render. rewrite slash_app. cbn [String.append].
  rewrite split_slash_cons. cbn [List.filter]. rewrite bool_decide_eq_true_2 by done. cbn [negb].
  destruct segs as [|x segs]; [done|]. rewrite split_join by (done || by apply path_segs_no_slash).
  generalize (path_segs_plain _ H). generalize (x :: segs). clear. induction 1 as [|y l Hy _ IH]; [done|].
  cbn. rewrite bool_decide_eq_false_2 by (by destruct Hy). cbn. by rewrite IH.
Qed.
Lemma plain_errors t d segs e : resolve_plain t d segs = Err e -> e = ENOENT \/ e = ELOOP.
Proof.
  revert d. induction segs as [|x segs IH]; intros d; cbn; [done|].
  destruct (fs_entries t !! (d, x)) as [n|]; [|intros [= <-]; by left].
  destruct (is_link t n); [intros [= <-]; by right|apply IH].
Qed.
(** A link is an escape, anything else the system's own error. *)
Definition reported (e : Errno) (err : SpError) : Prop :=
  if bool_decide (e = ELOOP) then err = ErrEscape else exists op p, err = PathError op p e.

Lemma join_seg done_ x : path_segs done_ -> plain_seg x -> no_byte slash x -> path_join [render done_; x] = render (done_ ++ [x]).
Proof.
  intros Hd Hx Hs. rewrite path_join_beneath; [|done|].
  - rewrite split_no_byte by done. by rewrite filter_cons_True by done.
  - rewrite split_no_byte by done. intros E%list_elem_of_singleton. destruct Hx as (_ & _ & Hx). by rewrite E in Hx.
Qed.
Section Quiet.
Context (t : FS) (real : string -> result SpError string).
Abbreviation run p := (interp (fs_step real) p t).
Lemma look_spec segs : path_segs segs -> segs <> [] -> forall before n,
  path_segs before -> resolve_plain t 0 before = Ok n ->
  match resolve_plain t n (removelast segs), run (look (render before) segs) with
  | Ok _, (Ok cur, t') => cur = render (before ++ segs) /\ t' = t
  | Err e, (Err err, t') => reported e err /\ t' = t
  | _, _ => False
  end.
Proof.
  induction 1 as [|x segs [Hx Hs] Hsegs IH]; [done|]. intros _ before n Hb Hn.
  cbn [look]. cbv zeta. rewrite join_seg by done. destruct segs as [|y segs].
  { rewrite bool_decide_eq_true_2 by done. done. }
  rewrite bool_decide_eq_false_2 by done. rewrite interp_bind. change (removelast (x :: y :: segs)) with (x :: removelast (y :: segs)).
  cbn [resolve_plain interp call]. cbn [fs_step].
  assert (Hb' : path_segs (before ++ [x])) by (apply Forall_app; split; [done|by constructor]).
  rewrite lookup_render by done. cbn [resolve_path max_links]. rewrite (resolve_from_last _ _ _ _ _ _ Hn).
  destruct (fs_entries t !! (n, x)) as [m|] eqn:Em; [|by split; [|done]; exists "lstat", (render (before ++ [x]))].
  destruct (is_link t m) eqn:El; [done|].
  specialize (IH ltac:(done) (before ++ [x]) m Hb'). rewrite <-app_assoc in IH. apply IH.
  rewrite resolve_plain_app, Hn. cbn. by rewrite Em, El.
Qed.
(** It opens what the path leads to without any link, refuses a link as an
    escape, and reports the rest, on a tree that nothing changes. *)
Lemma portable_plain root rel flags perm rs d :
  real root = Ok (render rs) -> path_segs rs -> rs <> [] -> resolve_plain t 0 rs = Ok d ->
  Forall good_seg (rel_segs rel) -> rel <> "" ->
  match resolve_plain t d (rel_segs rel), run (openBeneath_portable root rel flags perm) with
  | Ok n, (Ok f, t') => f_Fd f = Z.of_N n /\ t' = t
  | Err e, (Err err, t') => reported e err /\ t' = t
  | _, _ => False
  end.
Proof.
  intros Hreal Hrs Hne Hd Hg Hrel. unfold openBeneath_portable. rewrite interp_bind. cbn [interp call fs_step].
  rewrite Hreal. unfold rel_segs in *. rewrite (bool_decide_ext (rel = "" \/ rel = ".") (rel = ".")) in * by tauto.
  case_bool_decide as Hdot.
  { cbn [resolve_plain]. unfold os_open. rewrite interp_bind. cbn [interp call fs_step].
    rewrite lookup_render by done. cbn [resolve_path max_links]. rewrite (resolve_from_plain _ _ _ _ _ Hd).
    change (has_flag O_RDONLY O_NOFOLLOW) with false. rewrite andb_false_r. done. }
  pose proof (good_segs_path _ Hg) as Hsegs. set (segs := split slash rel) in *.
  assert (Hn0 : segs <> []) by apply split_not_nil.
  destruct (exists_last Hn0) as (before & x & Ex). rewrite interp_bind.
  pose proof (look_spec segs Hsegs Hn0 rs d Hrs Hd) as Hlook. rewrite Ex, removelast_last in Hlook. rewrite Ex.
  rewrite resolve_plain_app. destruct (resolve_plain t d before) as [n|e] eqn:Eb;
    destruct (run (look _ _)) as [[cur|err] t']; try done. destruct Hlook as [-> ->].
  assert (Hb : path_segs (rs ++ before) /\ path_segs (rs ++ before ++ [x])).
  { rewrite Ex in Hsegs. unfold path_segs in *. rewrite !Forall_app in *. tauto. }
  assert (has_prefix (render (rs ++ before ++ [x])) (render rs +:+ "/") = true) as ->.
  { unfold render. rewrite join_app by (done || by destruct before). 
    replace ("/" +:+ join "/" rs +:+ "/" +:+ join "/" (before ++ [x]))
      with ((("/" +:+ join "/" rs) +:+ "/") +:+ join "/" (before ++ [x])) by by rewrite !app_assoc_str.
    apply has_prefix_app. }
  cbn [negb]. unfold os_open. rewrite !interp_bind. cbn [interp call fs_step mret K_ret].
  rewrite lookup_render by apply Hb. cbn [resolve_path max_links]. rewrite app_assoc.
  assert (En : resolve_plain t 0 (rs ++ before) = Ok n) by by rewrite resolve_plain_app, Hd.
  rewrite (resolve_from_last _ _ _ _ _ _ En). cbn [resolve_plain].
  assert (has_flag (Z.lor flags syscallNoFollow) O_NOFOLLOW = true) as ->.
  { change O_NOFOLLOW with (2 ^ 17)%Z. rewrite has_flag_bit by done. unfold syscallNoFollow. rewrite Z.lor_spec.
    change (Z.testbit O_NOFOLLOW 17) with true. apply orb_true_r. }
  destruct (fs_entries t !! (n, x)) as [m|]; [|by split; [eexists _, _|]].
  rewrite andb_true_r. by destruct (is_link t m).
Qed.
(** Beneath the root directory nothing can be opened: every path is taken for an
    escape, "//" being no prefix of a clean path. *)
Lemma portable_root_refused root rel flags perm f :
  real root = Ok "/" -> rel <> "." -> rel <> "" -> Forall good_seg (rel_segs rel) ->
  (run (openBeneath_portable root rel flags perm)).1 <> Ok f.
Proof.
  intros Hreal Hdot Hrel Hg. unfold openBeneath_portable. rewrite interp_bind. cbn [interp call fs_step]. rewrite Hreal.
  rewrite (bool_decide_eq_false_2 (rel = ".")) by done. rewrite interp_bind.
  unfold rel_segs in Hg. rewrite bool_decide_eq_false_2 in Hg by tauto.
  pose proof (good_segs_path _ Hg) as Hsegs. pose proof (split_not_nil slash rel) as Hn0. set (segs := split slash rel) in *.
  pose proof (look_spec segs Hsegs Hn0 [] 0%N ltac:(constructor) eq_refl) as Hlook.
  change (render []) with "/" in Hlook. destruct (run (look "/" segs)) as [[cur|err] t']; [|done].
  destruct (resolve_plain t 0 (removelast segs)); [|done]. destruct Hlook as [-> _].
  cbn [app]. change ("/" +:+ "/") with "//".
  assert (has_prefix (render segs) "//" = false) as ->; [|done].
  destruct segs as [|x segs]; [done|]. inversion_clear Hsegs as [|? ? [Hx Hs] _].
  destruct x as [|b x]; [by destruct Hx|]. destruct Hs as [Hb _].
  unfold render. destruct segs; cbn; by destruct (ascii_dec _ b).
Qed.
End Quiet.

(** ** The same as the Linux walk *)

(** The tree PosixTree's kernel holds and this one are the same. *)
Definition same_tree (t : FS) (T : Tree) : Prop :=
  t_entries T = fs_entries t /\ t_links T = dom (fs_links t).
Lemma resolve_entry_plain t T d x : same_tree t T -> resolve_entry T d x = resolve_plain t d [x].
Proof.
  intros [He Hl]. unfold resolve_entry. cbn [resolve_plain]. rewrite He. destruct (fs_entries t !! (d, x)) as [n|]; [|done].
  unfold is_link. rewrite Hl. destruct (fs_links t !! n) eqn:E.
  - rewrite bool_decide_eq_true_2; [done|]. apply elem_of_dom. by eexists.
  - rewrite bool_decide_eq_false_2; [done|]. by apply not_elem_of_dom.
Qed.
Lemma walk_plain t flags perm segs : forall d fd T,
  same_tree t T -> t_fds T !! fd = Some d ->
  match resolve_plain t d segs, interp tree_step (walk_segs fd segs flags perm) T with
  | Ok n, (Ok fd', T') => t_fds T' !! fd' = Some n
  | Err e, (Err err, _) => reported e err
  | _, _ => False
  end.
Proof.
  induction segs as [|x segs IH]; intros d fd T Ht Hfd; [done|].
  cbn [walk_segs]. cbv zeta. rewrite interp_bind. cbn [interp call tree_step]. rewrite Hfd.
  change (x :: segs) with ([x] ++ segs). rewrite resolve_plain_app, <-(resolve_entry_plain t T d x Ht).
  destruct (resolve_entry T d x) as [n|e] eqn:Er.
  - unfold open_node. rewrite interp_bind. cbn [interp call tree_step]. apply IH; [by destruct Ht|].
    cbn. rewrite lookup_delete_ne, lookup_insert_eq; [done|].
    intros E. assert (Hf := is_fresh (dom (t_fds T))). rewrite <-E in Hf. by apply Hf, elem_of_dom_2 with d.
  - rewrite interp_bind. cbn. unfold reported. destruct (bool_decide (e = ELOOP)) eqn:Eb; [done|]. by eexists _, _.
Qed.

(** On a tree that stays as it is the two implementations answer alike: a file,
    the same one, an escape, or the same error. *)
Lemma portable_as_walk t T real root rel flags perm flags' perm' rs d fd :
  real root = Ok (render rs) -> path_segs rs -> rs <> [] -> resolve_plain t 0 rs = Ok d ->
  Forall good_seg (rel_segs rel) -> rel <> "" -> same_tree t T -> t_fds T !! fd = Some d ->
  match (interp (fs_step real) (openBeneath_portable root rel flags perm) t).1,
        interp tree_step (walk_segs fd (rel_segs rel) flags' perm') T with
  | Ok f, (Ok fd', T') => Z.of_N <$> t_fds T' !! fd' = Some (f_Fd f)
  | Err err, (Err err', _) => (err = ErrEscape <-> err' = ErrEscape) /\ IsPathErrno [ENOENT] err = IsPathErrno [ENOENT] err'
  | _, _ => False
  end.
Proof.
  intros Hreal Hrs Hne Hd Hg Hrel Ht Hfd.
  pose proof (portable_plain t real root rel flags perm rs d Hreal Hrs Hne Hd Hg Hrel) as Hp.
  pose proof (walk_plain t flags' perm' (rel_segs rel) d fd T Ht Hfd) as Hw.
  destruct (resolve_plain t d (rel_segs rel)) as [n|e];
    destruct (interp (fs_step real) _ t) as [[f|err] t']; destruct (interp tree_step _ T) as [[fd'|err'] T']; try done; cbn [fst].
  - destruct Hp as [-> _]. by rewrite Hw.
  - destruct Hp as [Hp _]. unfold reported in Hp, Hw. case_bool_decide as He.
    + by subst.
    + destruct Hp as (op & p & ->), Hw as (op' & p' & ->). done.
Qed.

(** ** What another process can do in between *)

(** Each call is answered by the tree of its moment. *)
Definition changing_step (R : Type) (e : PathE R) (ts : list FS) : R * list FS :=
  match ts with
  | t :: ts => ((fs_step (fun p => Ok p) R e t).1, ts)
  | [] => ((fs_step (fun p => Ok p) R e {| fs_entries := ∅; fs_links := ∅ |}).1, [])
  end.
Definition tree_before : FS :=
  {| fs_entries := ({[ (0, "srv") := 1; (1, "a") := 2; (2, "b") := 3; (0, "etc") := 4; (4, "b") := 5 ]})%N; fs_links := ∅ |}.
(** [a] is a link to /etc now. *)
Definition tree_after : FS :=
  {| fs_entries := (<[(1, "a") := 6]> (fs_entries tree_before))%N; fs_links := {[ 6%N := ["etc"] ]} |}.
Definition beneath_srv (ts : list FS) : result SpError Z :=
  match (interp changing_step (openBeneath_portable "/srv" "a/b" O_RDONLY 0) ts).1 with
  | Ok f => Ok (f_Fd f) | Err e => Err e
  end.
Example portable_race :
  map beneath_srv [[tree_before; tree_before; tree_before]; [tree_after; tree_after; tree_after];
                   [tree_before; tree_before; tree_after]] =
  [Ok 3%Z; Err ErrEscape; Ok 5%Z].
Proof. vm_compute. reflexivity. Qed.
