(* ===== verification/ProbeView.v ===== *)
(** * Proving the filesystem view (isolation/probe_filesystem.go, caps_linux.go)

    [CheckFilesystemView] runs inside the finished view and reads /proc; it is a
    function of what /proc answers, held still for the duration of the check.
    [DetectFilesystem] pins every volume, runs the probe with the descriptors it
    opened and closes them; it is a program over the calls of Posix.v and the
    few of its own.  [hasChroot] reads the capability mask. *)
From S2P Require Import Prelude GoStrings Bwrap Calls Posix PosixTree SafePath Isolation.
Open Scope string_scope.

(** ** strings.Fields and strconv.ParseUint(_, 16, 64) *)

Fixpoint fields_from (cur : string) (s : string) : list string :=
  match s with
  | EmptyString => if bool_decide (cur = "") then [] else [cur]
  | String a s' =>
      if is_space a then
        (if bool_decide (cur = "") then fields_from "" s' else cur :: fields_from "" s')
      else fields_from (cur +:+ String a "") s'
  end.
Definition fields (s : string) : list string := fields_from "" s.

Definition hex_value (a : ascii) : option Z :=
  let n := Z.of_nat (nat_of_ascii a) in
  if (48 <=? n)%Z && (n <=? 57)%Z then Some (n - 48)%Z
  else if (97 <=? n)%Z && (n <=? 102)%Z then Some (n - 87)%Z
  else if (65 <=? n)%Z && (n <=? 70)%Z then Some (n - 55)%Z
  else None.
Fixpoint parse_hex_from (acc : Z) (s : string) : option Z :=
  match s with
  | EmptyString => Some acc
  | String a s' =>
      match hex_value a with
      | Some d => if (acc * 16 + d <? 2 ^ 64)%Z then parse_hex_from (acc * 16 + d)%Z s' else None
      | None => None
      end
  end.
Definition parse_hex (s : string) : option Z :=
  if bool_decide (s = "") then None else parse_hex_from 0 s.

(** ** caps_linux.go *)

Definition capSysChroot : Z := 18.
Definition newline : ascii := "010"%char.
(** [bufio.Scanner] drops the last, empty line and a carriage return. *)
Definition scan_line (line : string) : string :=
  trim_suffix line (String "013" "").
(** The scan of [/proc/self/status]: the first [CapEff:] line decides. *)
Fixpoint cap_lines (lines : list string) : bool :=
  match lines with
  | [] => false
  | line :: lines' =>
      if negb (has_prefix line "CapEff:") then cap_lines lines'
      else
        match parse_hex (trim_space (trim_prefix line "CapEff:")) with
        | None => false
        | Some v => negb (Z.land v (Z.shiftl 1 capSysChroot) =? 0)%Z
        end
  end.
Definition hasChroot (status : result string string) : bool :=
  match status with
  | Err _ => false
  | Ok text => cap_lines (map scan_line (split newline text))
  end.

(** ** CheckFilesystemView *)

(** What /proc answers: [pv_ReadDir] gives the entries it got and whether it
    failed, [pv_StatIsDir] says of a path that exists whether it is a
    directory. *)
Record ProcView := {
  pv_Readlink : string -> result string string;
  pv_ReadDir : string -> list string * option string;
  pv_Open : string -> result string unit;
  pv_ReadFile : string -> result string string;
  pv_StatIsDir : string -> option bool }.

Section View.
Context (v : ProcView).

Definition view_link (p link : string) : result string unit :=
  if is_ok (pv_Readlink v (p +:+ "/" +:+ link))
  then Err ("outer process filesystem is reachable through " +:+ p +:+ "/" +:+ link) else Ok tt.
Definition view_fd (p fd : string) : result string unit :=
  if is_ok (pv_Readlink v (p +:+ "/fd/" +:+ fd))
  then Err ("outer process descriptor is accessible: " +:+ p +:+ "/fd/" +:+ fd) else Ok tt.

(** The body of the loop over a process and its tasks. *)
Definition view_foreign (p : string) : result string unit :=
  let? _ := iter_err (fun _ => view_link p) 0 ["root"; "cwd"] in
  let? _ := (if is_ok (pv_Open v (p +:+ "/environ"))
             then Err ("outer process environment is readable: " +:+ p) else Ok tt) in
  match pv_ReadDir v (p +:+ "/fd") with
  | (_, Some _) => Ok tt
  | (fds, None) => iter_err (fun _ => view_fd p) 0 fds
  end.
Definition view_task (own p : string) : result string unit :=
  match pv_Readlink v (p +:+ "/ns/mnt") with
  | Ok ns => if bool_decide (ns = own) then Ok tt else view_foreign p
  | Err _ => view_foreign p
  end.
Definition proc_base (name : string) : string := "/proc/" +:+ name.
Definition task_paths (name : string) : list string :=
  let base := proc_base name in
  base :: map (fun t => base +:+ "/task/" +:+ t) (fst (pv_ReadDir v (base +:+ "/task"))).
Definition view_process (own name : string) : result string unit :=
  match atoi name with
  | None => Ok tt
  | Some _ => iter_err (fun _ => view_task own) 0 (task_paths name)
  end.

(** One line of the status file. *)
Definition view_status (line : string) : result string unit :=
  match fields line with
  | [key; value] =>
      if bool_decide (key = "CapEff:" \/ key = "CapPrm:" \/ key = "CapAmb:") then
        guard bool_decide (value = "0000000000000000")
          else ("workload retains " +:+ key +:+ " " +:+ value) ;; Ok tt
      else if bool_decide (key = "NoNewPrivs:") then
        guard bool_decide (value = "1") else "no_new_privs is not set" ;; Ok tt
      else if bool_decide (key = "Seccomp:") then
        guard bool_decide (value = "2") else "seccomp is not active" ;; Ok tt
      else Ok tt
  | _ => Ok tt
  end.

(** A descriptor of the check itself; a name that is no number counts as 0. *)
Definition view_own_fd (name : string) : result string unit :=
  if (default 0 (atoi name) <? 3)%Z then Ok tt
  else
    let p := path_join ["/proc/self/fd"; name] in
    match pv_StatIsDir v p with
    | Some true => Err ("directory FD leaked into workload: " +:+ p)
    | _ => Ok tt
    end.

Definition CheckFilesystemView : result string unit :=
  let? own := pv_Readlink v "/proc/self/ns/mnt" in
  match pv_ReadDir v "/proc" with
  | (_, Some err) => Err err
  | (entries, None) =>
      let? _ := iter_err (fun _ => view_process own) 0 entries in
      let? status := pv_ReadFile v "/proc/self/status" in
      let? _ := iter_err (fun _ => view_status) 0 (split newline status) in
      match pv_ReadDir v "/proc/self/fd" with
      | (_, Some err) => Err err
      | (fds, None) => iter_err (fun _ => view_own_fd) 0 fds
      end
  end.
End View.

(** ** DetectFilesystem *)

(** The calls on files, and the few others. *)
Inductive DetE : Type -> Type :=
| OnFs {R} (e : FsE R) : DetE R
| Executable : DetE (result string string)
| FilterFile : DetE (result string Z)               (* [WorkloadFilter]'s sealed memfd *)
| Run (bin : string) (args env : list string) (extra : list Z) : DetE (string * option string).
Abbreviation Det := (Prog DetE).
Fixpoint on_fs {A} (p : Fs A) : Det A :=
  match p with Ret a => Ret a | Vis e k => Vis (OnFs e) (fun r => on_fs (k r)) end.

Definition probe_args (exe : string) : list string :=
  ["--unshare-user"; "--uid"; "1000"; "--gid"; "1000";
   "--cap-drop"; "ALL"; "--ro-bind"; "/proc"; "/proc"; "--dev"; "/dev"; "--tmpfs"; "/tmp";
   "--ro-bind"; exe; "/jdix-probe"; "--clearenv"; "--die-with-parent"; "--new-session"].
Definition volume_args (i : nat) (fd : nat) : list string :=
  ["--ro-bind-fd"; itoa (Z.of_nat (3 + fd)); "/volume-" +:+ itoa (Z.of_nat i)].

Section Detect.
(** How an error of the opener reads. *)
Context (SpError_string : SpError -> string).

Definition fs_fail (err : string) : Isolation.Result :=
  probed "" err {[ "filesystem" := err ]}.
(** The loop over the volumes: the files opened so far are [files]. *)
Fixpoint pin_volumes (vols : gmap string string) (i : nat) (names : list string)
    (args : list string) (files : list Z) : Det (result string (list string) * list Z) :=
  match names with
  | [] => mret (Ok args, files)
  | name :: names' =>
      r ← on_fs (OpenMount (default "" (vols !! name)) "");
      match r with
      | Err e => mret (Err ("volume " +:+ name +:+ ": " +:+ SpError_string e), files)
      | Ok f => pin_volumes vols (S i) names' (args ++ volume_args i (length files))%list
                  (files ++ [f_Fd f])%list
      end
  end.
Fixpoint close_all (files : list Z) : Det unit :=
  match files with [] => mret tt | fd :: files' => call (OnFs (Close fd));; close_all files' end.
Definition sorted_names (vols : gmap string string) : list string :=
  sort_by str_ltb (map fst (map_to_list vols)).

(** From the filter on; the result and the files to close. *)
Definition run_probe (binary : string) (args : list string) (files : list Z)
    : Det (Isolation.Result * list Z) :=
  r ← call FilterFile;
  match r with
  | Err e => mret (fs_fail e, files)
  | Ok filter =>
      let args := (args ++ ["--seccomp"; itoa (Z.of_nat (3 + length files))])%list in
      let files := (files ++ [filter])%list in
      let args := (args ++ ["--"; "/jdix-probe"; "--filesystem-probe-child"])%list in
      ran ← call (Run binary args ["PATH=/usr/bin:/bin"] files);
      let '(out, err) := ran in
      mret (match err with
            | Some err => fs_fail ("filesystem probe: " +:+ trim out err)
            | None =>
                if negb (bool_decide (trim_space out = "filesystem-ok"))
                then fs_fail ("unexpected filesystem probe output: " +:+ out)
                else probed TierFilesystem "pinned volume mounts and protected proc view available"
                       {[ "filesystem" := "ok" ]}
            end, files)
  end.
Definition DetectFilesystem (binary : string) (vols : gmap string string) : Det Isolation.Result :=
  exe ← call Executable;
  match exe with
  | Err e => mret (fs_fail e)
  | Ok exe =>
      pinned ← pin_volumes vols 0 (sorted_names vols) (probe_args exe) [];
      let '(args, files) := pinned in
      done ← (match args with
              | Err e => mret (fs_fail e, files)
              | Ok args => run_probe binary args files
              end);
      let '(res, files) := done in
      close_all files;; mret res
  end.
End Detect.

(** ** What the check establishes *)

(** Of a process in another mount namespace nothing can be reached. *)
Definition hidden (v : ProcView) (p : string) : Prop :=
  (forall link, link ∈ ["root"; "cwd"] -> is_ok (pv_Readlink v (p +:+ "/" +:+ link)) = false) /\
  is_ok (pv_Open v (p +:+ "/environ")) = false /\
  (forall fds, pv_ReadDir v (p +:+ "/fd") = (fds, None) ->
     forall fd, fd ∈ fds -> is_ok (pv_Readlink v (p +:+ "/fd/" +:+ fd)) = false).
(** What a line of the status file may say. *)
Definition confined_line (line : string) : Prop :=
  forall key value, fields line = [key; value] ->
    (key ∈ ["CapEff:"; "CapPrm:"; "CapAmb:"] -> value = "0000000000000000") /\
    (key = "NoNewPrivs:" -> value = "1") /\ (key = "Seccomp:" -> value = "2").

Lemma refuse_ok {E} (b : bool) (e : E) : (if b then Err e else Ok tt) = Ok tt <-> b = false.
Proof. by destruct b. Qed.
Lemma view_foreign_ok v p : view_foreign v p = Ok tt <-> hidden v p.
Proof.
  unfold view_foreign, hidden. rewrite seq_ok, iter_err_each, Forall_forall, seq_ok.
  unfold view_link. setoid_rewrite refuse_ok.
  assert (Hfd : match pv_ReadDir v (p +:+ "/fd") with
      | (fds, None) => iter_err (fun _ => view_fd v p) 0 fds | (_, Some _) => Ok tt end = Ok tt <->
    forall fds, pv_ReadDir v (p +:+ "/fd") = (fds, None) ->
      forall fd, fd ∈ fds -> is_ok (pv_Readlink v (p +:+ "/fd/" +:+ fd)) = false).
  { destruct (pv_ReadDir v (p +:+ "/fd")) as [fds [e|]]; [split; [by intros _ ? [=]|done]|].
    rewrite iter_err_each, Forall_forall. unfold view_fd. setoid_rewrite refuse_ok.
    split; [by intros H ? [= <-]|eauto]. }
  rewrite <-Hfd. destruct (pv_ReadDir v (p +:+ "/fd")) as [fds [e|]]; tauto.
Qed.
Lemma view_task_ok v own p :
  view_task v own p = Ok tt <-> (pv_Readlink v (p +:+ "/ns/mnt") <> Ok own -> hidden v p).
Proof.
  unfold view_task. destruct (pv_Readlink v _) as [ns|e].
  - case_bool_decide as E; [subst; by split|]. rewrite view_foreign_ok. split; [done|].
    intros H. apply H. congruence.
  - rewrite view_foreign_ok. split; [done|]. intros H. by apply H.
Qed.
Lemma view_process_ok v own name :
  view_process v own name = Ok tt <->
  (atoi name <> None -> forall p, p ∈ task_paths v name ->
     pv_Readlink v (p +:+ "/ns/mnt") <> Ok own -> hidden v p).
Proof.
  unfold view_process. destruct (atoi name); [|split; [by intros _ []|done]].
  rewrite iter_err_each, Forall_forall. setoid_rewrite view_task_ok. split; [auto|].
  intros H. by apply H.
Qed.
Lemma view_status_ok line : view_status line = Ok tt <-> confined_line line.
Proof.
  assert (Hskip : (forall key value, fields line <> [key; value]) -> confined_line line).
  { intros H key value E. by destruct (H key value). }
  unfold view_status. destruct (fields line) as [|key [|value [|? ?]]] eqn:E;
    [split; [intros _; by apply Hskip|done]..| |split; [intros _; by apply Hskip|done]].
  transitivity ((key ∈ ["CapEff:"; "CapPrm:"; "CapAmb:"] -> value = "0000000000000000") /\
    (key = "NoNewPrivs:" -> value = "1") /\ (key = "Seccomp:" -> value = "2")).
  2:{ unfold confined_line. rewrite E. split; [by intros H ? ? [= <- <-]|eauto]. }
  rewrite !elem_of_cons, elem_of_nil.
  repeat case_bool_decide; subst; try destruct_or?; subst; cbn; intuition congruence.
Qed.
Lemma view_own_fd_ok v fd :
  view_own_fd v fd = Ok tt <->
  ((3 <= default 0 (atoi fd))%Z -> pv_StatIsDir v (path_join ["/proc/self/fd"; fd]) <> Some true).
Proof.
  unfold view_own_fd. destruct (Z.ltb_spec (default 0 (atoi fd)) 3)%Z.
  - split; [intros _ ?; lia|done].
  - destruct (pv_StatIsDir v _) as [[]|]; split; try done. intros H1. by destruct H1.
Qed.

(** The check passes exactly when the view is closed: of every process and
    task that lives in another mount namespace, or whose namespace cannot be
    read, neither root nor working directory, environment or a descriptor can
    be reached; no line of the status file admits a capability, missing
    no_new_privs or a seccomp filter; and no descriptor beyond the standard
    three is a directory. *)
Theorem CheckFilesystemView_exact v :
  CheckFilesystemView v = Ok tt <->
  exists own entries status fds,
    pv_Readlink v "/proc/self/ns/mnt" = Ok own /\ pv_ReadDir v "/proc" = (entries, None) /\
    pv_ReadFile v "/proc/self/status" = Ok status /\ pv_ReadDir v "/proc/self/fd" = (fds, None) /\
    (forall name, name ∈ entries -> atoi name <> None -> forall p, p ∈ task_paths v name ->
       pv_Readlink v (p +:+ "/ns/mnt") <> Ok own -> hidden v p) /\
    (forall line, line ∈ split newline status -> confined_line line) /\
    (forall fd, fd ∈ fds -> (3 <= default 0 (atoi fd))%Z ->
       pv_StatIsDir v (path_join ["/proc/self/fd"; fd]) <> Some true).
Proof.
  unfold CheckFilesystemView. rewrite bind_ok. split.
  - intros (own & Hown & H). destruct (pv_ReadDir v "/proc") as [entries [e|]]; [done|].
    apply seq_ok in H as [He H]. apply bind_ok in H as (status & Hs & H).
    apply seq_ok in H as [Hl H]. destruct (pv_ReadDir v "/proc/self/fd") as [fds [e|]]; [done|].
    rewrite iter_err_each, Forall_forall in He, Hl, H.
    setoid_rewrite view_process_ok in He. setoid_rewrite view_status_ok in Hl.
    setoid_rewrite view_own_fd_ok in H. exists own, entries, status, fds. by do 6 (split; [done|]).
  - intros (own & entries & status & fds & Hown & -> & Hs & -> & He & Hl & Hf).
    exists own. split; [done|]. rewrite seq_ok, bind_ok, iter_err_each, Forall_forall.
    setoid_rewrite view_process_ok. split; [done|]. exists status. split; [done|].
    rewrite seq_ok, !iter_err_each, !Forall_forall.
    setoid_rewrite view_status_ok. by setoid_rewrite view_own_fd_ok.
Qed.

(** ** What the probe runs with *)

Section Probe.
Context `{OS : Kernel} `{OSL : !KernelLaws} (SpError_string : SpError -> string).
Context (binary : string) (vols : gmap string string).

(** The kernel, and what the last run answered. *)
Definition DetState : Type := k_state * option (string * option string).
Definition det_rely (s s' : DetState) : Prop := k_others (fst s) (fst s') /\ snd s' = snd s.
Definition det_sem (R : Type) (e : DetE R) (s : DetState) (r : R) (s' : DetState) : Prop :=
  match e in DetE R return R -> Prop with
  | OnFs e => fun r => k_sem _ e (fst s) r (fst s') /\ snd s' = snd s
  | Executable => fun _ => s' = s
  | FilterFile => fun r =>
      remembers (fst s) (fst s') /\ snd s' = snd s /\
      match r with
      | Ok fd => exists n, k_fds (fst s) !! fd = None /\ k_fds (fst s') = <[fd := n]> (k_fds (fst s))
      | Err _ => k_fds (fst s') = k_fds (fst s)
      end
  | Run _ _ _ _ => fun r =>
      remembers (fst s) (fst s') /\ k_fds (fst s') = k_fds (fst s) /\ snd s' = Some r
  end r.

(** The probe is run with every volume, in the order of the names: the [i]-th is
    bound to /volume-i from the child's descriptor 3 + i, which is a descriptor
    on the very directory the volume's path names, reached through no symbolic
    link at its end; the descriptor after them is the seccomp filter's. *)
Definition pinned_volume (s : k_state) (name : string) (n : k_node) : Prop :=
  pinned_at s (default "" (vols !! name)) "" n.
Definition run_args (exe : string) (n : nat) : list string :=
  (probe_args exe ++ concat (map (fun i => volume_args i i) (seq 0 n)) ++
   ["--seccomp"; itoa (Z.of_nat (3 + n))] ++ ["--"; "/jdix-probe"; "--filesystem-probe-child"])%list.
Definition runs_pinned (bin : string) (args : list string) (extra : list Z) (s : k_state) : Prop :=
  bin = binary /\
  exists exe nodes filter,
    args = run_args exe (length (sorted_names vols)) /\
    Forall2 (pinned_volume s) (sorted_names vols) nodes /\
    Forall2 (fun fd n => k_fds s !! fd = Some n) extra (nodes ++ [filter])%list.
Definition det_promise (R : Type) (e : DetE R) (s : DetState) : Prop :=
  match e with Run bin args _ extra => runs_pinned bin args extra (fst s) | _ => True end.
Abbreviation det := (rg det_rely det_promise det_sem).

Lemma det_on_fs {A} (p : Fs A) s ran Q :
  amid (fun _ _ _ => True) p s Q -> det (on_fs p) (s, ran) (fun a s' => Q a (fst s') /\ snd s' = ran).
Proof.
  revert s. induction p as [a|R e k IH]; intros s; cbn; [done|].
  intros H [s1 ran1] [Ho Hran]. cbn in *. subst ran1. split; [done|].
  intros r [s2 ran2] [Hs Hran]. cbn in *. subst ran2. apply IH. by apply (H s1 Ho).
Qed.
Lemma det_call {A R} (e : DetE R) (f : R -> Det A) s ran Q :
  (forall s1, remembers s s1 -> k_fds s1 = k_fds s ->
     det_promise R e (s1, ran) /\
     forall r s2, det_sem R e (s1, ran) r s2 -> det (f r) s2 Q) ->
  det (call e ≫= f) (s, ran) Q.
Proof.
  intros H. apply rg_call. intros [s1 ran1] [Ho Hran]. cbn in *. subst ran1.
  apply H; [by apply k_others_seen|by apply k_others_fds].
Qed.
Lemma pinned_seen s s' name n : remembers s s' -> pinned_volume s name n -> pinned_volume s' name n.
Proof.
  intros Hm (d & Hd & Hb & Hdesc). exists d. split; [by eapply remembers_named|].
  split; [by eapply remembers_below|by eapply descends_seen].
Qed.

(** The descriptors [files] were opened one after the other beyond [fds], on
    [nodes], and are all held in [m]. *)
Fixpoint held (fds : gmap Z k_node) (files : list Z) (nodes : list k_node) (m : gmap Z k_node) : Prop :=
  match files, nodes with
  | [], [] => m = fds
  | fd :: files', n :: nodes' => fds !! fd = None /\ held (<[fd := n]> fds) files' nodes' m
  | _, _ => False
  end.
Lemma held_snoc fds files nodes m fd n :
  held fds files nodes m -> m !! fd = None -> held fds (files ++ [fd]) (nodes ++ [n]) (<[fd := n]> m).
Proof.
  revert fds nodes. induction files as [|f files IH]; intros fds [|x nodes]; cbn; try done.
  - by intros -> ?.
  - intros [Hf H] Hm. split; [done|by apply IH].
Qed.
Lemma held_keeps fds files nodes m fd n :
  held fds files nodes m -> fds !! fd = Some n -> m !! fd = Some n.
Proof.
  revert fds nodes. induction files as [|f files IH]; intros fds [|x nodes]; cbn; try done.
  - by intros ->.
  - intros [Hf H] Hm. eapply IH; [exact H|]. rewrite lookup_insert_ne; [done|]. congruence.
Qed.
Lemma held_lookup fds files nodes m :
  held fds files nodes m -> Forall2 (fun fd n => m !! fd = Some n) files nodes.
Proof.
  revert fds nodes. induction files as [|f files IH]; intros fds [|x nodes]; cbn; try done.
  intros [Hf H]. constructor; [|by eapply IH]. eapply held_keeps; [exact H|]. by rewrite lookup_insert_eq.
Qed.
Lemma held_delete fds files nodes m fd n :
  fds !! fd = None -> held (<[fd := n]> fds) files nodes m -> held fds files nodes (delete fd m).
Proof.
  revert fds nodes. induction files as [|f files IH]; intros fds [|x nodes]; cbn; try done.
  - intros Hf ->. by rewrite delete_insert_id.
  - intros Hf [[Hn Hne]%lookup_insert_None H]. split; [done|]. apply IH.
    + by rewrite lookup_insert_ne.
    + by rewrite insert_insert_ne.
Qed.

Lemma close_all_held files nodes fds s ran :
  held fds files nodes (k_fds s) ->
  det (close_all files) (s, ran) (fun _ s' => k_fds (fst s') = fds /\ snd s' = ran).
Proof.
  revert nodes fds s. induction files as [|fd files IH]; intros [|n nodes] fds s; cbn [held]; try done.
  intros [Hf Hh]. cbn [close_all]. apply det_call. intros s1 _ H1. split; [done|].
  intros [] [s2 ran2] [H2 Hran]. cbn in Hran. subst ran2. apply (IH nodes). cbn in H2.
  rewrite (k_close _ _ _ _ H2), H1. by eapply held_delete.
Qed.
Lemma pin_volumes_held fds pre names nodes args files s ran :
  held fds files nodes (k_fds s) -> Forall2 (pinned_volume s) pre nodes -> length files = length pre ->
  det (pin_volumes SpError_string vols (length pre) names args files) (s, ran)
    (fun r s' => snd s' = ran /\ exists nodes', held fds (snd r) nodes' (k_fds (fst s')) /\
       match fst r with
       | Ok args' => Forall2 (pinned_volume (fst s')) (pre ++ names) nodes' /\
           length (snd r) = length (pre ++ names) /\
           args' = (args ++ concat (map (fun i => volume_args i i) (seq (length pre) (length names))))%list
       | Err _ => True
       end).
Proof.
  revert pre nodes args files s. induction names as [|name names IH]; intros pre nodes args files s Hh Hp Hl.
  { cbn. rewrite !app_nil_r. split; [done|]. by exists nodes. }
  cbn [pin_volumes]. apply rg_bind. eapply rg_mono; [|apply det_on_fs, amid_seen, OpenMount_pins].
  intros r [s1 ran1] [[Hm Ho] Hran]. cbn in Hran. subst ran1. cbn [fst] in *.
  assert (Hp1 : Forall2 (pinned_volume s1) pre nodes).
  { eapply Forall2_impl; [done|]. intros ? ?. by apply pinned_seen. }
  destruct r as [f|e]; cbn in Ho.
  2:{ cbn. split; [done|]. exists nodes. by rewrite Ho. }
  destruct Ho as (Hn & n & Hf & Hpin).
  assert (Hlen : S (length pre) = length (pre ++ [name])) by (rewrite length_app; cbn; lia).
  rewrite Hlen. eapply rg_mono; [|apply (IH (pre ++ [name])%list (nodes ++ [n])%list)].
  - intros [r files'] s2 (Hran & nodes' & Hh' & H). cbn [fst snd] in *. split; [done|].
    exists nodes'. split; [done|]. destruct r as [args'|]; [|done].
    rewrite <-app_assoc in H. cbn [app] in H. destruct H as (H1 & H2 & ->).
    split; [done|]. split; [done|]. rewrite <-Hlen, Hl. cbn [length seq map concat].
    by rewrite <-app_assoc.
  - rewrite Hf. by apply held_snoc.
  - apply Forall2_app; [done|]. by constructor.
  - rewrite !length_app. cbn. lia.
Qed.

(** The tier is claimed for a probe that ran and said so, and no tier otherwise. *)
Definition earned (res : Isolation.Result) (ran : option (string * option string)) : Prop :=
  res_Tier res = "" \/
  res_Tier res = TierFilesystem /\ exists out, ran = Some (out, None) /\ trim_space out = "filesystem-ok".

Lemma run_probe_held fds exe files nodes s ran :
  let n := length (sorted_names vols) in
  held fds files nodes (k_fds s) -> Forall2 (pinned_volume s) (sorted_names vols) nodes ->
  length files = n ->
  det (run_probe binary (probe_args exe ++ concat (map (fun i => volume_args i i) (seq 0 n))) files)
    (s, ran) (fun r s' => earned (fst r) (snd s') /\
                exists nodes', held fds (snd r) nodes' (k_fds (fst s'))).
Proof.
  intros n Hh Hp Hl. unfold run_probe. apply det_call. intros s1 Hm1 H1. split; [done|].
  intros r [s2 ran2] (Hm2 & Hran & Hr). cbn in Hran, Hr. subst ran2. cbn [fst snd] in *.
  destruct r as [filter|e].
  2:{ cbn. split; [by left|]. exists nodes. by rewrite Hr, H1. }
  destruct Hr as (x & Hx & H2). rewrite H1 in Hx, H2.
  assert (Hh2 : held fds (files ++ [filter]) (nodes ++ [x]) (k_fds s2)).
  { rewrite H2. by apply held_snoc. }
  apply det_call. intros s3 Hm3 H3. split.
  - split; [done|]. exists exe, nodes, x. split; [|split].
    + unfold run_args. by rewrite <-!app_assoc, Hl.
    + eapply Forall2_impl; [exact Hp|]. intros name y Hy. eapply pinned_seen; [exact Hm3|].
      eapply pinned_seen; [exact Hm2|]. by eapply pinned_seen.
    + cbn [fst]. rewrite H3. by eapply held_lookup.
  - intros [out err] [s4 ran4] (_ & H4 & Hran4). cbn in H4, Hran4. subst ran4. cbn.
    split.
    + destruct err as [err|]; [by left|]. case_bool_decide; cbn [negb]; [|by left].
      right. split; [done|]. by exists out.
    + exists (nodes ++ [x])%list. by rewrite H4, H3.
Qed.

(** The filesystem tier is never claimed on trust: whatever others do to
    the tree meanwhile, [DetectFilesystem] runs the probe only with every
    volume bound from the descriptor that pins its directory, in the order of
    the names, and the seccomp filter at the descriptor it names; it answers
    the tier only when that run succeeded and said so; and it leaves no
    descriptor open on any path. *)
Theorem DetectFilesystem_earned s :
  det (DetectFilesystem SpError_string binary vols) (s, None)
    (fun res s' => earned res (snd s') /\ k_fds (fst s') = k_fds s).
Proof.
  unfold DetectFilesystem. apply det_call. intros s1 _ H1. split; [done|].
  intros exe s2 [= ->]. destruct exe as [exe|e]; [|cbn; split; [by left|done]].
  apply rg_bind. eapply rg_mono; [|apply (pin_volumes_held (k_fds s) [] _ []); [done|constructor|done]].
  intros [args files] [s3 ran3] (Hran & nodes & Hh & H). cbn [fst snd] in *. subst ran3.
  apply rg_bind.
  eapply (rg_mono _ _ _ _ _ (fun r s' => earned (fst r) (snd s') /\
            exists nodes', held (k_fds s) (snd r) nodes' (k_fds (fst s')))).
  - intros [res files'] [s4 ran4] (He & nodes' & Hh'). cbn [fst snd] in *. apply rg_bind.
    eapply rg_mono; [|by eapply close_all_held]. intros [] s5 [H5 Hr5]. cbn. by rewrite H5, Hr5.
  - destruct args as [args|e].
    + destruct H as (Hp & Hl & ->). by apply run_probe_held with (nodes := nodes).
    + apply rg_ret. cbn. split; [by left|]. by exists nodes.
Qed.
End Probe.

(** ** On concrete views *)

(** A namespace with the check itself (pid 7) and an outer process (pid 1),
    whose root can be read or not. *)
Definition wit_view (leaks : bool) : ProcView :=
  {| pv_Readlink := fun p =>
       if bool_decide (p = "/proc/self/ns/mnt") then Ok "mnt:[2]"
       else if bool_decide (p = "/proc/7/ns/mnt") then Ok "mnt:[2]"
       else if bool_decide (p = "/proc/7/root") then Ok "/"
       else if leaks && bool_decide (p = "/proc/1/root") then Ok "/"
       else Err "permission denied";
     pv_ReadDir := fun p =>
       if bool_decide (p = "/proc") then (["1"; "7"; "self"; "status"], None)
       else if bool_decide (p = "/proc/self/fd") then (["0"; "1"; "2"; "3"], None)
       else ([], Some "permission denied");
     pv_Open := fun p => Err "permission denied";
     pv_ReadFile := fun p =>
       Ok ("Name:" +:+ String "009" "x" +:+ String newline ("CapEff:" +:+ String "009" "0000000000000000")
           +:+ String newline "NoNewPrivs: 1" +:+ String newline "Seccomp: 2");
     pv_StatIsDir := fun p => None |}.
Example view_decides :
  CheckFilesystemView (wit_view false) = Ok tt /\
  CheckFilesystemView (wit_view true) =
    Err "outer process filesystem is reachable through /proc/1/root".
Proof. vm_compute. auto. Qed.
Example chroot_bit :
  map (fun text => hasChroot (Ok text))
    [("Name: x" +:+ String newline "CapEff: 0000000000040000"); "CapEff: 00000000A80025FB";
     "CapEff: 0000000000000000"; "CapEff: zz"; "CapPrm: 0000000000040000"] =
  [true; false; false; false; false].
Proof. vm_compute. reflexivity. Qed.

(** The tree, answered for, with a filter descriptor and a probe that agrees. *)
Definition det_step (R : Type) (e : DetE R) (t : Tree) : R * Tree :=
  match e in DetE R return R * Tree with
  | OnFs e => tree_step _ e t
  | Executable => (Ok "/opt/jdix/bin/jdix-execd", t)
  | FilterFile => (Err "memfd_create: function not implemented", t)
  | Run _ _ _ _ => (("", Some "unexpected"), t)
  end.
Definition wit_volumes : gmap string string := {[ "data" := "/srv"; "code" := "/srv" ]}.
Example detect_closes :
  let '(r, t) := interp det_step (DetectFilesystem (fun _ => "open failed") "bwrap" wit_volumes)
                   (wit_tree false) in
  res_Reason r = "memfd_create: function not implemented" /\ t_fds t = ∅.
Proof. vm_compute. auto. Qed.
Lemma DetectFilesystem_earned_wit :
  sorted_names wit_volumes = ["code"; "data"] /\
  rg (det_rely (OS := TreeKernel)) (det_promise (OS := TreeKernel) "bwrap" wit_volumes)
    (det_sem (OS := TreeKernel))
    (DetectFilesystem (fun _ => "open failed") "bwrap" wit_volumes) (wit_tree false, None)
    (fun res s' => earned res (snd s') /\ t_fds (fst s') = ∅).
Proof.
  split; [vm_compute; reflexivity|].
  apply (DetectFilesystem_earned (OS := TreeKernel) (fun _ => "open failed") "bwrap" wit_volumes
           (wit_tree false)).
Defined.
