(* ===== verification/Deploy.v ===== *)
(** * How the binaries are wired (cmd/jdix-controller, cmd/jdix-server, cmd/jdix-execd)

    The configuration each [main] derives from its flags and the decisions it
    takes before it serves: the controller's endpoint router and registry
    allowlist, the server's role, transport, routing scheme, store and
    listeners, execd's volumes, token and start-up guards; and how the
    controller's and the server's [main] end.  What the operating system, the
    cluster and the database answer is a record of answers.

    Two components meet here: the URLs the controller publishes are the ones the
    gateway routes, and the volume flag the controller renders is the one execd
    reads back.

    Logging, signal handling, the draining of a listener and the flag package
    are not modelled. *)
From S2P Require Import Prelude Calls GoStrings Api Bwrap Crd PodSpec Url Route Gateway.
From S2P Require SandboxCtl PoolCtl TemplateCtl Isolation Execd ProbeView.
From S2P Require Import ApiKey Store ApiCalls Auth Fixtures.
Open Scope string_scope.

(** ** jdix-controller *)

Definition newEndpointRouter (mode suffix base prefix : string) : result string Router :=
  if bool_decide (mode = "path") then
    if bool_decide (base = "") then
      Err ("--endpoint-base is required with --endpoint-mode=path: " +:+
           "a sandbox URL has to be absolute, and nothing here can guess the public origin")
    else Ok (path_router {| pa_Prefix := prefix; pa_Base := trim_suffix base "/" |})
  else if bool_decide (mode = "host") then
    Ok (host_router {| hr_Suffix := suffix; hr_Scheme := "https"; hr_Resolver := None |})
  else Err ("unknown --endpoint-mode " +:+ quote mode +:+ ": want path or host").

Definition comma : ascii := ","%char.
Definition splitList (s : string) : list string :=
  List.filter (fun p => negb (bool_decide (p = ""))) (map trim_space (split comma s)).

Record ControllerFlags := {
  cf_platform_image : string; cf_endpoint_mode : string; cf_endpoint_suffix : string;
  cf_endpoint_base : string; cf_endpoint_path_prefix : string; cf_allowed_registries : string;
  cf_resolve_images : bool; cf_max_image_bytes : Z; cf_execd_transport : string }.
(** The reconcilers [main] wires up, and whether it reaches execd through the
    API server's proxy. *)
Record Controllers := {
  ct_Template : TemplateCtl.TemplateReconciler;
  ct_Pool : PoolCtl.PoolReconciler;
  ct_Sandbox : SandboxCtl.SandboxReconciler;
  ct_Proxied : bool }.
(** [manager], [proxy] and [registry] are what starting the manager and building
    the proxy client and the registry's resolver answer. *)
Definition controller_setup (manager proxy registry : result string unit) (f : ControllerFlags)
    : result string Controllers :=
  guard negb (bool_decide (cf_platform_image f = ""))
    else "--platform-image is required: without it a sandbox Pod has no execd to run" ;;
  let? endpoints := newEndpointRouter (cf_endpoint_mode f) (cf_endpoint_suffix f) (cf_endpoint_base f)
                      (cf_endpoint_path_prefix f) in
  let? _ := manager in
  let? proxied := (if bool_decide (cf_execd_transport f = "direct") then Ok false
                   else if bool_decide (cf_execd_transport f = "apiserver-proxy")
                   then let? _ := proxy in Ok true
                   else Err "unknown --execd-transport") in
  let platform := {| pi_Ref := cf_platform_image f; pi_PullPolicy := "" |} in
  let layout := DefaultLayout in
  let? resolver := (if cf_resolve_images f then let? _ := registry in Ok true else Ok false) in
  Ok {| ct_Template := {| TemplateCtl.tr_AllowedRegistries := splitList (cf_allowed_registries f);
                          TemplateCtl.tr_Platform := platform; TemplateCtl.tr_Layout := layout;
                          TemplateCtl.tr_MaxImageBytes := cf_max_image_bytes f;
                          TemplateCtl.tr_HasResolver := resolver |};
        ct_Pool := {| PoolCtl.pr_Layout := layout; PoolCtl.pr_Platform := platform;
                      PoolCtl.pr_HasProber := true |};
        ct_Sandbox := {| SandboxCtl.sr_Layout := layout; SandboxCtl.sr_Platform := platform;
                         SandboxCtl.sr_HasBinder := true;
                         SandboxCtl.sr_EndpointFor := Some (EndpointURL endpoints) |};
        ct_Proxied := proxied |}.

(** What the manager answers while it is wired: the schemes, the reconcilers in
    turn, the two checks, and its run. *)
Record ManagerAnswers := {
  ma_schemes : list (result string unit);
  ma_reconcilers : list (result string unit);
  ma_checks : list (result string unit);
  ma_Start : result string unit }.
Inductive MainEnd := Panics | Exits (code : Z) | Returns.
Definition all_ok (answers : list (result string unit)) : bool :=
  forallb (fun a => match a with Ok _ => true | Err _ => false end) answers.
(** [init] and [main]: [must] panics, an error that is logged exits. *)
Definition controller_main (manager proxy registry : result string unit) (a : ManagerAnswers) (f : ControllerFlags)
    : MainEnd :=
  if negb (all_ok (ma_schemes a)) then Panics else
  match controller_setup manager proxy registry f with
  | Err _ => Exits 1
  | Ok _ =>
      if negb (all_ok (ma_reconcilers a)) then Exits 1
      else if negb (all_ok (ma_checks a)) then Panics
      else match ma_Start a with Err _ => Exits 1 | Ok _ => Returns end
  end.

(** ** jdix-server *)

Record role := { control : bool; data : bool }.
Definition parseRole (s : string) : result string role :=
  if bool_decide (s = "all") then Ok {| control := true; data := true |}
  else if bool_decide (s = "server") then Ok {| control := true; data := false |}
  else if bool_decide (s = "gateway") then Ok {| control := false; data := true |}
  else Err ("unknown --role " +:+ quote s +:+ ": want all, server or gateway").

Definition transportDirect : string := "direct".
Definition transportAPIProxy : string := "apiserver-proxy".
Definition parseTransport (s : string) : result string string :=
  if bool_decide (s = transportDirect) || bool_decide (s = transportAPIProxy) then Ok s
  else Err ("unknown --sandbox-transport " +:+ quote s +:+ ": want direct or apiserver-proxy").
(** [proxy] is [NewAPIProxyTransport] on the cluster's configuration. *)
Definition newTransport (proxy : result string Transport) (kind : string)
    : result string Transport :=
  if bool_decide (kind = transportDirect) then Ok DirectTransport else proxy.

(** [res] is what the resolver knows while a request is served. *)
Definition newRouter (mode suffix prefix base : string) (res : string -> bool)
    : result string Router :=
  let host := host_router {| hr_Suffix := suffix; hr_Scheme := ""; hr_Resolver := Some res |} in
  let path := path_router {| pa_Prefix := prefix; pa_Base := base |} in
  if bool_decide (mode = "path") then Ok path
  else if bool_decide (mode = "host") then Ok host
  else if bool_decide (mode = "both") then Ok (chain_router [path; host])
  else Err ("unknown --route-mode " +:+ quote mode +:+ ": want path, host or both").

(** [dataPlaneAuth.Verify]: the control plane's authenticator, asked for less. *)
Definition dataPlaneAuth_Verify (IDKey : string -> string -> Z -> Z -> Z -> nat -> string)
    (presented clientIP : string) : Api (result AuthErr Caller) :=
  found ← Verify IDKey presented clientIP;
  mret (match found with
        | Err e => Err e
        | Ok p => Ok {| cl_TenantID := pr_TenantID p;
                        cl_MayUse := Allows (pr_Key p) ScopeSandboxRead |}
        end).

(** What a listener serves. *)
Inductive StoreKind := Mem (m : MemStore) | Postgres (dsn : string).
Inductive Served :=
| ControlPlane (store : StoreKind) (readyTimeout : Z)
| DataPlane (store : StoreKind) (cacheTTL : Z) (router : Router) (transport : Transport).
Record listener := {
  li_name : string;
  li_grace : Z;
  li_Addr : string;
  li_Handler : Served;
  li_ReadHeaderTimeout : Z;
  li_WriteTimeout : option Z }.

(** What [main] asks of its surroundings. *)
Inductive BootE : Type -> Type :=
| AddToScheme (group : string) : BootE (option string)
| NewCluster : BootE (option string)
| IndexField (field : string) : BootE (option string)
| StartCache : BootE unit
| WaitForCacheSync : BootE bool
| ConnectPG (dsn : string) : BootE (option string)
| MigratePG : BootE (option string)
| ClosePG : BootE unit
| NewAPIProxy : BootE (result string Transport)
| BootNow : BootE Time
| MintKey : BootE (result string GeneratedKey)
| ListenAndServe (l : listener) : BootE unit
| FirstOf : BootE (option (string * option string))
| Shutdown (l : listener) : BootE unit.
Abbreviation Boot := (Prog BootE).

Definition startCluster (withNameIndex : bool) : Boot (option string) :=
  r ← call (AddToScheme "client-go");
  match r with Some e => mret (Some e) | None =>
  r ← call (AddToScheme "sandbox.jdix.io");
  match r with Some e => mret (Some e) | None =>
  r ← call NewCluster;
  match r with Some e => mret (Some e) | None =>
  r ← (if withNameIndex then call (IndexField "metadata.name") else mret None);
  match r with Some e => mret (Some e) | None =>
  call StartCache;;
  ok ← call WaitForCacheSync;
  mret (if negb ok then Some "informer cache did not sync" else None)
  end end end end.

Definition dev_key (gen : GeneratedKey) (now : Time) : APIKey :=
  {| ak_KeyID := gk_KeyID gen; ak_TenantID := "t_dev"; ak_Name := "dev";
     ak_SecretHash := gk_Hash gen; ak_Scopes := [ScopeAdmin]; ak_AllowedTemplates := [];
     ak_IPAllowlist := []; ak_ExpiresAt := None; ak_RevokedAt := None; ak_LastUsedAt := None;
     ak_CreatedAt := now |}.
Definition seed (mem : MemStore) : Boot MemStore :=
  now ← call BootNow;
  let mem := AddTenant {| tn_ID := "t_dev"; tn_Name := "dev"; tn_Namespace := "tenant-dev";
                          tn_Status := "active"; tn_CreatedAt := now |} mem in
  gen ← call MintKey;
  match gen with
  | Err _ => mret mem
  | Ok gen => now ← call BootNow; mret (AddKey (dev_key gen now) mem)
  end.

Definition openStore (dsn : string) (migrate devSeed : bool) : Boot (result string StoreKind) :=
  if bool_decide (dsn = "") then
    mem ← (if devSeed then seed NewMemStore else mret NewMemStore);
    mret (Ok (Mem mem))
  else
    r ← call (ConnectPG dsn);
    match r with
    | Some e => mret (Err e)
    | None =>
        r ← (if migrate then call MigratePG else mret None);
        match r with
        | Some e => call ClosePG;; mret (Err ("applying the schema: " +:+ e))
        | None => mret (Ok (Postgres dsn))
        end
    end.

Fixpoint for_each {A} (f : A -> Boot unit) (l : list A) : Boot unit :=
  match l with [] => mret tt | x :: l => f x;; for_each f l end.
(** [FirstOf] is the select: [None] when the context is done, a listener's name
    and how it ended otherwise. *)
Definition serve (ls : list listener) : Boot (option string) :=
  if bool_decide (length ls = 0%nat) then mret (Some "no listeners for this role")
  else
    for_each (fun l => call (ListenAndServe l)) ls;;
    first ← call FirstOf;
    for_each (fun l => call (Shutdown l)) ls;;
    mret (match first with
          | Some (name, Some err) => Some (name +:+ ": " +:+ err)
          | _ => None
          end).

Record ServerFlags := {
  fl_role : string; fl_addr : string; fl_database_url : string; fl_migrate : bool;
  fl_dev_seed : bool; fl_ready_timeout : Z; fl_data_addr : string; fl_route_mode : string;
  fl_suffix : string; fl_path_prefix : string; fl_public_base : string;
  fl_resolve_cache_ttl : Z; fl_sandbox_transport : string }.

Definition control_listener (f : ServerFlags) (store : StoreKind) : listener :=
  {| li_name := "control-plane"; li_grace := 15 * second; li_Addr := fl_addr f;
     li_Handler := ControlPlane store (fl_ready_timeout f);
     li_ReadHeaderTimeout := 15 * second; li_WriteTimeout := Some (60 * second)%Z |}.
Definition data_listener (f : ServerFlags) (store : StoreKind) (router : Router) (tr : Transport)
    : listener :=
  {| li_name := "data-plane"; li_grace := 60 * second; li_Addr := fl_data_addr f;
     li_Handler := DataPlane store (fl_resolve_cache_ttl f) router tr;
     li_ReadHeaderTimeout := 15 * second; li_WriteTimeout := None |}.

(** [main] from the flags on: the exit code. *)
Definition server_main (res : string -> bool) (f : ServerFlags) : Boot Z :=
  match parseRole (fl_role f) with Err _ => mret 1%Z | Ok r =>
  match newRouter (fl_route_mode f) (fl_suffix f) (fl_path_prefix f) (fl_public_base f) res with
  | Err _ => mret 1%Z | Ok router =>
  match parseTransport (fl_sandbox_transport f) with Err _ => mret 1%Z | Ok kind =>
  up ← startCluster (data r);
  match up with Some _ => mret 1%Z | None =>
  store ← openStore (fl_database_url f) (fl_migrate f) (fl_dev_seed f);
  match store with Err _ => mret 1%Z | Ok store =>
  tr ← (if data r then
          if bool_decide (kind = transportDirect) then mret (newTransport (Ok DirectTransport) kind)
          else proxy ← call NewAPIProxy; mret (newTransport proxy kind)
        else mret (Ok DirectTransport));
  match tr with Err _ => mret 1%Z | Ok tr =>
  failure ← serve ((if control r then [control_listener f store] else []) ++
                   (if data r then [data_listener f store router tr] else []))%list;
  match failure with Some _ => mret 1%Z | None =>
  (if bool_decide (fl_database_url f = "") then mret tt else call ClosePG);;
  mret 0%Z end
  end end end end end end.

(** ** jdix-execd *)

Definition volume_pair (pair : string) (out : gmap string string) : gmap string string :=
  let pair := trim_space pair in
  if bool_decide (pair = "") then out
  else
    let '(name, path, ok) := cut pair equals_sign in
    if negb ok then out else <[trim_space name := trim_space path]> out.
Definition parseVolumes (s : string) : gmap string string :=
  foldl (fun out pair => volume_pair pair out) ∅ (split comma s).

(** [getenv] and [read] are the environment and the files. *)
Definition readToken (getenv : string -> string) (read : string -> result string string)
    (envName path : string) : result string string :=
  let v := trim_space (getenv envName) in
  if negb (bool_decide (envName = "")) && negb (bool_decide (v = "")) then Ok v
  else if bool_decide (path = "") then Ok ""
  else let? b := read path in Ok (trim_space b).

(** What [prepare] asks for; [Stat] says whether the file could be looked at. *)
Inductive PrepE : Type -> Type :=
| MkdirAll (path : string) (mode : Z) : PrepE (result string unit)
| Chmod (path : string) (mode : Z) : PrepE (result string unit)
| Chown (path : string) (uid gid : Z) : PrepE (result string unit)
| Stat (path : string) : PrepE bool
| ReadFile (path : string) : PrepE (result string string)
| WriteFile (path content : string) (mode : Z) : PrepE (result string unit).
Abbreviation Prep := (Prog PrepE).
Fixpoint mkdirs (ds : list string) : Prep (result string unit) :=
  match ds with
  | [] => mret (Ok tt)
  | d :: ds' =>
      r ← call (MkdirAll d 0x1ed);
      match r with Err e => mret (Err e) | Ok _ => mkdirs ds' end
  end.
Definition nl : string := String "010" "".
Definition passwd_skel : string :=
  "root:x:0:0:root:/root:/bin/sh" +:+ nl +:+ "sandbox:x:1000:1000:sandbox:/home:/bin/sh" +:+ nl.
Definition group_skel : string := "root:x:0:" +:+ nl +:+ "sandbox:x:1000:" +:+ nl.
(** The skeleton's files, in the order the map is ranged over. *)
Fixpoint write_skel (dir : string) (skel : list (string * string)) : Prep (result string unit) :=
  match skel with
  | [] => mret (Ok tt)
  | (name, content) :: skel' =>
      let p := path_join [dir; name] in
      there ← call (Stat p);
      if there : bool then write_skel dir skel'
      else
        r ← call (WriteFile p content 0x1a4);
        match r with Err e => mret (Err e) | Ok _ => write_skel dir skel' end
  end.
Definition prepare (skel : list (string * string)) (l : Layout) : Prep (result string unit) :=
  r ← mkdirs [WorkspaceDir l; VolumeRoot l; IPCDir l; SkelDir l];
  match r with Err e => mret (Err e) | Ok _ =>
  r ← call (Chmod (IPCDir l) 0x1c0);
  match r with Err e => mret (Err e) | Ok _ =>
  _ ← call (Chown (WorkspaceDir l) 1000 1000);
  r ← write_skel (SkelDir l) skel;
  match r with Err e => mret (Err e) | Ok _ =>
  let dst := path_join [SkelDir l; "resolv.conf"] in
  there ← call (Stat dst);
  if there : bool then mret (Ok tt)
  else
    b ← call (ReadFile "/etc/resolv.conf");
    call (WriteFile dst (match b with Ok b => b | Err _ => "nameserver 127.0.0.53" +:+ nl end) 0x1a4)
  end end end.

Record ExecdFlags := {
  ef_filesystem_isolation : string; ef_probe_child : bool; ef_bwrap : string; ef_volumes : string;
  ef_tier : string; ef_token_env : string; ef_token_file : string; ef_allow_open : bool }.
Record ExecdEnv := {
  ee_proc : ProbeView.ProcView;
  ee_ProtectSupervisor : result string unit;
  ee_prepare : result string unit;
  ee_DetectFilesystem : string -> gmap string string -> Isolation.Result;
  ee_Detect : string -> Isolation.Result;
  ee_getenv : string -> string;
  ee_ReadFile : string -> result string string;
  ee_StatIsDir : string -> bool }.

(** How [main] ends, or what it goes on to serve. *)
Inductive ExecdStart :=
| ProbeOk
| Exit1 (why : string)
| Serving (cfg : Execd.Config) (probe : Isolation.Result).

Definition execd_config (f : ExecdFlags) (e : ExecdEnv) (tier : Tier) (token : string) : Execd.Config :=
  {| Execd.cfg_Layout := DefaultLayout; Execd.cfg_Tier := tier;
     Execd.cfg_Volumes := parseVolumes (ef_volumes f); Execd.cfg_UID := 1000; Execd.cfg_GID := 1000;
     Execd.cfg_InternalToken := token; Execd.cfg_StatIsDir := ee_StatIsDir e |}.
Definition measure_tier (f : ExecdFlags) (e : ExecdEnv) : result string Isolation.Result :=
  if bool_decide (ef_filesystem_isolation f = "bwrap") then
    let probe := ee_DetectFilesystem e (ef_bwrap f) (parseVolumes (ef_volumes f)) in
    if negb (bool_decide (Isolation.res_Tier probe = TierFilesystem))
    then Err "filesystem isolation unavailable" else Ok probe
  else Ok (ee_Detect e (ef_bwrap f)).
Definition override (f : ExecdFlags) (probe : Isolation.Result) : Isolation.Result :=
  if bool_decide (ef_tier f = "") then probe
  else {| Isolation.res_Tier := ef_tier f; Isolation.res_Reason := "overridden on the command line";
          Isolation.res_Probes := Isolation.res_Probes probe |}.
Definition execd_checks (f : ExecdFlags) (e : ExecdEnv) : result string (Execd.Config * Isolation.Result) :=
  let mode := ef_filesystem_isolation f in
  guard bool_decide (mode = "") || bool_decide (mode = "bwrap") else "unknown filesystem isolation mode" ;;
  let? _ := (if bool_decide (mode = "") then Ok tt
             else guard bool_decide (ef_tier f = "")
                    else "filesystem mode cannot override capability detection" ;;
                  ee_ProtectSupervisor e) in
  let? _ := ee_prepare e in
  let? probe := measure_tier f e in
  let probe := override f probe in
  let? token := readToken (ee_getenv e) (ee_ReadFile e) (ef_token_env f) (ef_token_file f) in
  guard negb (bool_decide (token = "")) || ef_allow_open f else "no control-plane token" ;;
  Ok (execd_config f e (Isolation.res_Tier probe) token, probe).
Definition execd_main (f : ExecdFlags) (e : ExecdEnv) : ExecdStart :=
  if ef_probe_child f then
    match ProbeView.CheckFilesystemView (ee_proc e) with Ok _ => ProbeOk | Err err => Exit1 err end
  else match execd_checks f e with Ok (cfg, probe) => Serving cfg probe | Err why => Exit1 why end.

(** ** Lemmas *)

(** Two ways of cutting the same text at the first [c]. *)
Lemma cut_unique c s1 s2 t1 t2 :
  no_byte c s1 -> no_byte c s2 ->
  t1 = "" \/ (exists u, t1 = String c u) -> t2 = "" \/ (exists u, t2 = String c u) ->
  s1 +:+ t1 = s2 +:+ t2 -> s1 = s2 /\ t1 = t2.
Proof.
  revert s2. induction s1 as [|a s1 IH]; intros [|b s2] H1 H2 Ht1 Ht2 E; cbn in *.
  - done.
  - destruct H2 as [Hb _], Ht1 as [->|[u ->]]; congruence.
  - destruct H1 as [Ha _], Ht2 as [->|[u ->]]; congruence.
  - injection E as -> E. destruct H1, H2. destruct (IH s2) as [-> ->]; done.
Qed.

(** ** The URLs the controller publishes *)

(** [r] is what a client sends for the absolute [url]. *)
Definition path_like (s : string) : Prop := s = "" \/ exists t, s = "/" +:+ t.
Definition sent_to (url : string) (r : Request) : Prop :=
  exists scheme, no_byte colon scheme /\ no_byte slash (rq_Host r) /\
    path_like (EscapedPath (rq_URL r)) /\
    url = scheme +:+ "://" +:+ rq_Host r +:+ EscapedPath (rq_URL r).
Definition origin_of (base : string) : Prop :=
  exists scheme host, no_byte colon scheme /\ no_byte slash host /\
    base = scheme +:+ "://" +:+ host.
(** The flags that say under what name the sandboxes are published. *)
Definition publishable (mode suffix base : string) : Prop :=
  if bool_decide (mode = "path") then origin_of (trim_suffix (trim_suffix base "/") "/")
  else exists s c, trim_prefix suffix "." = s +:+ String c "" /\ c <> dot /\
         no_byte colon (s +:+ String c "") /\ no_byte slash (s +:+ String c "").

Lemma origin_unique scheme host path base_scheme base_host rest :
  no_byte colon scheme -> no_byte slash host -> path_like path ->
  no_byte colon base_scheme -> no_byte slash base_host -> path_like rest ->
  base_scheme +:+ "://" +:+ base_host +:+ rest = scheme +:+ "://" +:+ host +:+ path ->
  base_host = host /\ rest = path.
Proof.
  intros H1 H2 H3 H4 H5 H6 E.
  destruct (cut_unique colon base_scheme scheme ("://" +:+ base_host +:+ rest)
    ("://" +:+ host +:+ path)) as [_ E']; try done; [right; by eexists..|].
  change ("://" +:+ ?x) with ("://" +:+ x) in E'. apply app_inj_l in E'.
  by apply (cut_unique slash).
Qed.
Lemma generated_plain id c :
  generated_id id -> c = slash \/ c = dot \/ c = colon -> no_byte c id.
Proof.
  intros (s & -> & Hs & _) Hc.
  assert (Hn : no_byte c s).
  { apply (all_in_no_byte base32); [|done]. by destruct Hc as [->|[->| ->]]. }
  destruct Hc as [->|[->| ->]]; repeat split; done.
Qed.
Definition stays_lower (a : ascii) : bool :=
  negb (one_of a base32) || bool_decide (lower_ascii a = a).
Lemma base32_stays a : stays_lower a = true.
Proof. apply all_bytes_spec. vm_compute. reflexivity. Qed.
Lemma base32_lower s : all_in base32 s = true -> to_lower s = s.
Proof.
  induction s as [|a s IH]; cbn [all_in to_lower]; [done|]. intros [Ha Hs]%andb_prop. rewrite IH by done.
  f_equal. pose proof (base32_stays a) as H. unfold stays_lower in H. rewrite Ha in H.
  exact (bool_decide_eq_true_1 _ H).
Qed.
Lemma generated_lower id : generated_id id -> to_lower id = id.
Proof. intros (s & -> & Hs & _). cbn. by rewrite base32_lower. Qed.
Lemma generated_nonempty id : generated_id id -> id <> "".
Proof. by intros (s & -> & _). Qed.

Lemma route_of_chain_second r1 r2 r :
  route_of r1 r = None -> route_of (chain_router [r1; r2]) r = route_of r2 r.
Proof. cbn. intros ->. by destruct (route_of r2 r). Qed.
Lemma route_of_chain_first r1 r2 r rt :
  route_of r1 r = Some rt -> route_of (chain_router [r1; r2]) r = Some rt.
Proof. cbn. by intros ->. Qed.

(** The route to the data plane of [id]. *)
Definition data_plane_route (id rest dec : string) (rt : Route) : Prop :=
  rt_SandboxID rt = id /\ rt_Port rt = DataPlanePort /\ rt_UserPort rt = false /\
  rt_RawRest rt = rest /\ rt_Rest rt = dec.

(** The route to a port of its own that [id] has open. *)
Definition user_port_route (id : string) (port : Z) (rest dec : string) (rt : Route) : Prop :=
  rt_SandboxID rt = id /\ rt_Port rt = port /\ rt_UserPort rt = true /\
  rt_RawRest rt = rest /\ rt_Rest rt = dec.

Section Published.
Context (suffix prefix base' : string) (res : string -> bool) (id rest dec : string) (r : Request).
Context (Hid : generated_id id) (Hrest : path_like rest).

Lemma path_asked base :
  origin_of (trim_suffix (trim_suffix base "/") "/") ->
  sent_to (PathRouter_EndpointURL {| pa_Prefix := prefix; pa_Base := trim_suffix base "/" |} id +:+ rest) r ->
  EscapedPath (rq_URL r)
  = PathRouter_prefix {| pa_Prefix := prefix; pa_Base := base' |} +:+ "/" +:+ id +:+ rest.
Proof.
  intros (sc & host & Hsc & Hhost & Hb) (sc' & Hsc' & Hh & Hpath & E).
  unfold PathRouter_EndpointURL in E. cbn [pa_Base] in E. rewrite Hb in E.
  change (PathRouter_prefix {| pa_Prefix := prefix; pa_Base := base' |}) with
    (PathRouter_prefix {| pa_Prefix := prefix; pa_Base := trim_suffix base "/" |}).
  set (pre := PathRouter_prefix _) in *.
  assert (Hpre : path_like pre).
  { unfold pre, PathRouter_prefix. cbn. case_bool_decide; right; by eexists. }
  rewrite !app_assoc_str in E. apply origin_unique in E as [_ E]; try done.
  destruct Hpre as [-> |[t ->]]; right; by eexists.
Qed.
Lemma path_published base :
  origin_of (trim_suffix (trim_suffix base "/") "/") ->
  sent_to (PathRouter_EndpointURL {| pa_Prefix := prefix; pa_Base := trim_suffix base "/" |} id +:+ rest) r ->
  (fst (cutSegment rest) <> "p" -> PathUnescape rest = Some dec ->
   exists rt, PathRouter_Route {| pa_Prefix := prefix; pa_Base := base' |} r = Some rt /\
     data_plane_route id rest dec rt) /\
  (forall after seg tail port, cutSegment rest = ("p", after) -> cutSegment after = (seg, tail) ->
   atoi seg = Some port -> (0 < port <= 65535)%Z -> PathUnescape tail = Some dec ->
   exists rt, PathRouter_Route {| pa_Prefix := prefix; pa_Base := base' |} r = Some rt /\
     user_port_route id port tail dec rt).
Proof.
  intros Hb Hs. pose proof (path_asked base Hb Hs) as E.
  pose proof (generated_nonempty id Hid) as Hne. pose proof (generated_plain id slash Hid (or_introl eq_refl)) as Hno.
  split.
  - intros Hp Hd. eexists. split; [by apply (PathRouter_data _ r id rest dec)|]. done.
  - intros after seg tail port H1 H2 Hport Hr Hd. eexists.
    split; [by apply (PathRouter_user _ r id rest after seg tail port dec)|]. done.
Qed.
Lemma host_published :
  publishable "host" suffix "" -> res id = true ->
  sent_to (HostRouter_EndpointURL {| hr_Suffix := suffix; hr_Scheme := "https"; hr_Resolver := None |} id +:+ rest) r ->
  exists rt, HostRouter_Route {| hr_Suffix := suffix; hr_Scheme := ""; hr_Resolver := Some res |} r = Some rt /\
    EscapedPath (rq_URL r) = rest /\
    data_plane_route id (if bool_decide (u_Path (rq_URL r) = "") then "/" else rest)
      (if bool_decide (u_Path (rq_URL r) = "") then "/" else u_Path (rq_URL r)) rt.
Proof.
  intros (s & c & Hs & Hc & Hcol & Hsl) Hres (sc & Hsc & Hh & Hpath & E).
  unfold HostRouter_EndpointURL, HostRouter_origin in E. cbn [hr_Scheme] in E.
  rewrite bool_decide_false in E by done. rewrite !app_assoc_str in E.
  apply origin_unique in E as [Eh Ep]; try done.
  2:{ unfold data_host. cbn [hr_Suffix]. rewrite Hs, !no_byte_app in *. split; [|split; [done|exact Hsl]].
      apply generated_plain; [done|by left]. }
  assert (HP : ParseHost (rq_Host r) suffix (Some res) = Some (data_route id)).
  { apply (HostRouter_data {| hr_Suffix := suffix; hr_Scheme := ""; hr_Resolver := Some res |} r id s c);
      cbn [hr_Suffix hr_Resolver]; try done.
    - by apply generated_lower.
    - by apply generated_nonempty.
    - apply generated_plain; [done|auto].
    - apply generated_plain; [done|auto].
    - by right. }
  unfold HostRouter_Route. cbn [hr_Suffix hr_Resolver]. rewrite HP. cbv zeta. rewrite <-Ep.
  case_bool_decide as Hu; eexists; (split; [reflexivity|]); done.
Qed.
End Published.


(** The reconcilers are wired alike: the Pods of a pool and of a sandbox are
    rendered from the same platform image and layout, which the template's
    admission hashed, and the endpoints come from the router of the flags. *)
Lemma controllers_agree manager proxy registry f ct :
  controller_setup manager proxy registry f = Ok ct ->
  let platform := {| pi_Ref := cf_platform_image f; pi_PullPolicy := "" |} in
  cf_platform_image f <> "" /\
  TemplateCtl.tr_Platform (ct_Template ct) = platform /\ PoolCtl.pr_Platform (ct_Pool ct) = platform /\
  SandboxCtl.sr_Platform (ct_Sandbox ct) = platform /\
  TemplateCtl.tr_Layout (ct_Template ct) = PoolCtl.pr_Layout (ct_Pool ct) /\
  SandboxCtl.sr_Layout (ct_Sandbox ct) = PoolCtl.pr_Layout (ct_Pool ct) /\
  exists e, newEndpointRouter (cf_endpoint_mode f) (cf_endpoint_suffix f) (cf_endpoint_base f)
              (cf_endpoint_path_prefix f) = Ok e /\
    SandboxCtl.sr_EndpointFor (ct_Sandbox ct) = Some (EndpointURL e).
Proof.
  unfold controller_setup. rewrite guard_ok. intros [Hp%negb_true_iff%bool_decide_eq_false H].
  apply bind_ok in H as (e & He & H). apply seq_ok in H as [_ H].
  apply bind_ok in H as (proxied & _ & H). cbv zeta in H. apply bind_ok in H as (resolver & _ & [= <-]).
  do 6 (split; [done|]). by exists e.
Qed.

(** ** The volumes the controller declares to execd *)

(** Text that a trim leaves alone. *)
Definition trimmed (s : string) : Prop := trim_left s = s /\ trim_right s = s.
Lemma length_trim_left s : (String.length (trim_left s) <= String.length s)%nat.
Proof. induction s as [|a s IH]; cbn; [lia|]. destruct (is_space a); cbn; lia. Qed.
Lemma trim_left_head a s : trim_left (String a s) = String a s -> is_space a = false.
Proof.
  cbn. destruct (is_space a); [|done]. intros E. pose proof (length_trim_left s) as H.
  rewrite E in H. cbn in H. lia.
Qed.
Lemma trim_left_keeps x y : trim_left x = x -> trim_left y = y -> trim_left (x +:+ y) = x +:+ y.
Proof.
  destruct x as [|a x]; [done|]. intros Hx%trim_left_head _. cbn. by rewrite Hx.
Qed.
Lemma trim_right_keeps x y : y <> "" -> trim_right y = y -> trim_right (x +:+ y) = x +:+ y.
Proof. intros Hn Hy. rewrite trim_right_app; by rewrite Hy. Qed.
Lemma trimmed_space s : trimmed s -> trim_space s = s.
Proof. intros [Hl Hr]. unfold trim_space. by rewrite Hl. Qed.
Lemma trimmed_pair name path :
  trimmed name -> trimmed path -> trimmed (name +:+ "=" +:+ path).
Proof.
  intros [Hnl _] [_ Hpr]. split; [by apply trim_left_keeps|].
  apply trim_right_keeps; [done|]. destruct path as [|a path]; [done|].
  by apply (trim_right_keeps "=" (String a path)).
Qed.

(** What survives the flag: no separator in a name or a path, no outer space. *)
Definition flag_safe (l : Layout) (v : TemplateVolume) : Prop :=
  no_byte comma (tv_Name v) /\ no_byte equals_sign (tv_Name v) /\ trimmed (tv_Name v) /\
  no_byte comma (volumeMountPath l v) /\ trimmed (volumeMountPath l v).
Definition volume_arg (l : Layout) (v : TemplateVolume) : string :=
  tv_Name v +:+ "=" +:+ volumeMountPath l v.

Lemma volumeArgs_join l i out vs :
  (0 < i)%nat ->
  volumeArgs_from l i out vs =
    if bool_decide (vs = []) then out else out +:+ "," +:+ join "," (map (volume_arg l) vs).
Proof.
  revert i out. induction vs as [|v vs IH]; intros i out Hi; [done|].
  rewrite bool_decide_false by done. cbn [volumeArgs_from]. rewrite (proj2 (Nat.ltb_lt _ _) Hi).
  replace ((out +:+ ",") +:+ tv_Name v +:+ "=" +:+ volumeMountPath l v)
    with (out +:+ "," +:+ volume_arg l v) by (unfold volume_arg; by rewrite !app_assoc_str).
  rewrite IH by lia. cbn [map]. destruct vs as [|v' vs]; [done|].
  rewrite bool_decide_false by done. cbn [map]. rewrite join_cons. by rewrite !app_assoc_str.
Qed.
Lemma VolumeArgs_join l t :
  VolumeArgs l t = join "," (map (volume_arg l) (ts_Volumes (tpl_Spec t))).
Proof.
  unfold VolumeArgs. destruct (ts_Volumes (tpl_Spec t)) as [|v vs]; [done|].
  cbn [volumeArgs_from Nat.ltb Nat.leb]. change ("" +:+ tv_Name v +:+ "=" +:+ volumeMountPath l v)
    with (volume_arg l v). rewrite volumeArgs_join by lia.
  destruct vs as [|v' vs]; [done|]. by rewrite bool_decide_false by done.
Qed.
Lemma volume_pair_arg l v out :
  flag_safe l v -> volume_pair (volume_arg l v) out = <[tv_Name v := volumeMountPath l v]> out.
Proof.
  intros (Hc & He & Hn & _ & Hp). unfold volume_pair, volume_arg.
  rewrite trimmed_space by by apply trimmed_pair.
  rewrite bool_decide_false by by destruct (tv_Name v).
  change ("=" +:+ ?x) with (String equals_sign x). rewrite cut_app by done. cbn [negb].
  by rewrite !trimmed_space.
Qed.

Definition volume_map (l : Layout) (vs : list TemplateVolume) : list (string * string) :=
  map (fun v => (tv_Name v, volumeMountPath l v)) vs.
Lemma foldl_volumes l vs out :
  Forall (flag_safe l) vs ->
  foldl (fun out pair => volume_pair pair out) out (map (volume_arg l) vs) =
  foldl (fun out v => <[tv_Name v := volumeMountPath l v]> out) out vs.
Proof.
  intros Hs. revert out. induction Hs as [|v vs Hv Hs IH]; intros out; [done|].
  cbn. by rewrite volume_pair_arg, IH.
Qed.
Lemma foldl_insert_map l vs (out : gmap string string) :
  NoDup (map tv_Name vs) ->
  foldl (fun out v => <[tv_Name v := volumeMountPath l v]> out) out vs =
  list_to_map (volume_map l vs) ∪ out.
Proof.
  revert out. induction vs as [|v vs IH]; intros out Hnd; cbn; [by rewrite map_empty_union|].
  apply NoDup_cons in Hnd as [Hn Hnd]. rewrite IH by done.
  rewrite <-insert_union_r, insert_union_l; [done|].
  apply not_elem_of_list_to_map_1. unfold volume_map. by rewrite map_map.
Qed.

(** The volumes flag round-trips: execd reads back, from the flag the
    controller renders for a template, exactly the template's volumes under the
    paths at which the Pod mounts them, provided that no name or path holds a
    separator or outer space. *)
Theorem volumes_roundtrip l t :
  NoDup (map tv_Name (ts_Volumes (tpl_Spec t))) ->
  Forall (flag_safe l) (ts_Volumes (tpl_Spec t)) ->
  parseVolumes (VolumeArgs l t) =
    list_to_map (map (fun v => (tv_Name v, volumeMountPath l v)) (ts_Volumes (tpl_Spec t))) /\
  map vm_MountPath (templateVolumeMounts l t) = map (volumeMountPath l) (ts_Volumes (tpl_Spec t)).
Proof.
  intros Hnd Hsafe. split; [|unfold templateVolumeMounts; by rewrite map_map].
  rewrite VolumeArgs_join. set (vs := ts_Volumes (tpl_Spec t)) in *.
  destruct (decide (vs = [])) as [->|Hne]; [done|]. unfold parseVolumes.
  rewrite (split_join_sep comma); [| |].
  2:{ by destruct vs. }
  2:{ rewrite Forall_map. eapply Forall_impl; [exact Hsafe|]. intros v (Hc & _ & _ & Hp & _).
      unfold volume_arg, compose. rewrite !no_byte_app. by repeat split. }
  rewrite foldl_volumes by done.
  change (map (fun v => (tv_Name v, volumeMountPath l v)) vs) with (volume_map l vs).
  rewrite <-(map_union_empty (list_to_map (volume_map l vs))). by apply foldl_insert_map.
Qed.

(** ** What execd serves *)

(** Execd comes up only behind its guards: in one of the two modes it knows;
    in filesystem mode with its own memory protected, the tier measured and
    never asserted; and its control plane answers nobody without the token it
    read, which is not empty unless an open control plane was asked for. *)
Theorem execd_guarded f e cfg probe :
  execd_main f e = Serving cfg probe ->
  (ef_filesystem_isolation f = "" \/
   ef_filesystem_isolation f = "bwrap" /\ ef_tier f = "" /\ ee_ProtectSupervisor e = Ok tt /\
   probe = ee_DetectFilesystem e (ef_bwrap f) (parseVolumes (ef_volumes f)) /\
   Execd.cfg_Tier cfg = TierFilesystem) /\
  Execd.cfg_Tier cfg = Isolation.res_Tier probe /\
  (ef_tier f <> "" -> Execd.cfg_Tier cfg = ef_tier f) /\
  (ef_allow_open f = false -> forall r, Execd.requireInternal cfg r = None ->
     Execd.execd_bearer r <> "" /\ Execd.execd_bearer r = Execd.cfg_InternalToken cfg).
Proof.
  unfold execd_main. destruct (ef_probe_child f).
  { by destruct (ProbeView.CheckFilesystemView _). }
  destruct (execd_checks f e) as [[cfg' probe']|] eqn:H; [|done]. intros [= -> ->].
  unfold execd_checks in H. apply guard_ok in H as [Hmode H].
  apply seq_ok in H as [Hfs H]. apply seq_ok in H as [_ H].
  apply bind_ok in H as (measured & Hm & H). apply bind_ok in H as (token & _ & H).
  apply guard_ok in H as [Htok [= <- Hp]]. unfold measure_tier in Hm. unfold override in *.
  split; [|split; [by rewrite <-Hp|split; [|]]].
  - apply orb_prop in Hmode as [Hmode|Hmode]; apply bool_decide_eq_true in Hmode; rewrite Hmode in *;
      [by left|right].
    rewrite bool_decide_false in Hfs by done. apply guard_ok in Hfs as [Htier%bool_decide_eq_true Hprot].
    cbn [execd_config Execd.cfg_Tier]. rewrite (bool_decide_true _ Htier) in *.
    rewrite bool_decide_true in Hm by done. cbv zeta in Hm, Hp.
    destruct (negb _) eqn:E in Hm; [done|]. apply negb_false_iff, bool_decide_eq_true in E.
    injection Hm as <-. by subst probe.
  - intros Ht. by rewrite bool_decide_false.
  - intros Hopen r. rewrite Hopen, orb_false_r in Htok. apply negb_true_iff, bool_decide_eq_false in Htok.
    unfold Execd.requireInternal. cbn [execd_config Execd.cfg_InternalToken].
    rewrite bool_decide_false by done. cbn [negb andb].
    destruct (Execd.tokenMatches _ _) eqn:E; [|done]. by apply Execd.tokenMatches_spec in E as [-> _].
Qed.

(** ** What jdix-server brings up *)

(** What the calls have established: the name index, the store, the listeners
    that were started and those that were shut down. *)
Record Booted := {
  bo_synced : option bool;                          (* with the name index or without *)
  bo_pg : option bool;                              (* connected, and migrated or not *)
  bo_up : list listener;
  bo_down : list listener;
  bo_index : bool }.
Definition boot0 : Booted :=
  {| bo_synced := None; bo_pg := None; bo_up := []; bo_down := []; bo_index := false |}.
Definition boot_sem (R : Type) (e : BootE R) (s : Booted) (r : R) (s' : Booted) : Prop :=
  match e in BootE R return R -> Prop with
  | IndexField _ => fun r =>
      s' = match r with
           | None => {| bo_synced := bo_synced s; bo_pg := bo_pg s; bo_up := bo_up s;
                        bo_down := bo_down s; bo_index := true |}
           | Some _ => s end
  | WaitForCacheSync => fun r =>
      s' = if r then {| bo_synced := Some (bo_index s); bo_pg := bo_pg s; bo_up := bo_up s;
                        bo_down := bo_down s; bo_index := bo_index s |} else s
  | ConnectPG _ => fun r =>
      s' = match r with
           | None => {| bo_synced := bo_synced s; bo_pg := Some false; bo_up := bo_up s;
                        bo_down := bo_down s; bo_index := bo_index s |}
           | Some _ => s end
  | MigratePG => fun r =>
      s' = match r with
           | None => {| bo_synced := bo_synced s; bo_pg := Some true; bo_up := bo_up s;
                        bo_down := bo_down s; bo_index := bo_index s |}
           | Some _ => s end
  | ListenAndServe l => fun _ =>
      s' = {| bo_synced := bo_synced s; bo_pg := bo_pg s; bo_up := (bo_up s ++ [l])%list;
              bo_down := bo_down s; bo_index := bo_index s |}
  | Shutdown l => fun _ =>
      s' = {| bo_synced := bo_synced s; bo_pg := bo_pg s; bo_up := bo_up s;
              bo_down := (bo_down s ++ [l])%list; bo_index := bo_index s |}
  | _ => fun _ => s' = s
  end r.
Abbreviation boots := (wp boot_sem).

(** A listener serves the role it belongs to, with the deadlines its traffic
    needs: a write timeout for the control plane, none for the data plane. *)
Definition role_listeners (f : ServerFlags) (r : role) (router : Router) (ls : list listener) : Prop :=
  exists store tr,
    ls = ((if control r then [control_listener f store] else []) ++
          (if data r then [data_listener f store router tr] else []))%list /\
    (fl_database_url f <> "" -> store = Postgres (fl_database_url f)) /\
    (data r = true -> fl_sandbox_transport f = transportDirect -> tr = DirectTransport).

Lemma parseRole_some s r : parseRole s = Ok r -> control r || data r = true.
Proof. unfold parseRole. by repeat case_bool_decide; try intros [= <-]. Qed.
Lemma for_each_up ls s :
  boots (for_each (fun l => call (ListenAndServe l)) ls) s
    (fun _ s' => s' = {| bo_synced := bo_synced s; bo_pg := bo_pg s; bo_up := (bo_up s ++ ls)%list;
                         bo_down := bo_down s; bo_index := bo_index s |}).
Proof.
  revert s. induction ls as [|l ls IH]; intros s; cbn [for_each].
  { apply wp_ret. rewrite app_nil_r. by destruct s. }
  apply wp_call. intros [] s' ->. eapply wp_mono; [|apply IH]. intros [] s2 ->. cbn.
  by rewrite <-app_assoc.
Qed.
Lemma for_each_down ls s :
  boots (for_each (fun l => call (Shutdown l)) ls) s
    (fun _ s' => s' = {| bo_synced := bo_synced s; bo_pg := bo_pg s; bo_up := bo_up s;
                         bo_down := (bo_down s ++ ls)%list; bo_index := bo_index s |}).
Proof.
  revert s. induction ls as [|l ls IH]; intros s; cbn [for_each].
  { apply wp_ret. rewrite app_nil_r. by destruct s. }
  apply wp_call. intros [] s' ->. eapply wp_mono; [|apply IH]. intros [] s2 ->. cbn.
  by rewrite <-app_assoc.
Qed.
(** Every listener that is started is shut down, whichever of them ends first. *)
Lemma serve_drains ls s :
  ls <> [] -> bo_up s = [] -> bo_down s = [] ->
  boots (serve ls) s (fun _ s' => s' = {| bo_synced := bo_synced s; bo_pg := bo_pg s; bo_up := ls;
                                          bo_down := ls; bo_index := bo_index s |}).
Proof.
  intros Hls Hu Hd. unfold serve. rewrite bool_decide_false by by destruct ls.
  apply wp_bind. eapply wp_mono; [|apply for_each_up]. intros [] s1 ->.
  apply wp_call. intros first s2 ->. apply wp_bind. eapply wp_mono; [|apply for_each_down].
  intros [] s3 ->. apply wp_ret. cbn. by rewrite Hu, Hd.
Qed.

Lemma startCluster_syncs b s :
  boots (startCluster b) s (fun r s' =>
    bo_pg s' = bo_pg s /\ bo_up s' = bo_up s /\ bo_down s' = bo_down s /\
    (r = None -> exists i, bo_synced s' = Some i /\ (b = true -> i = true) /\ (b = false -> i = bo_index s))).
Proof.
  unfold startCluster. apply wp_call. intros [e|] s1 ->; [by apply wp_ret|].
  apply wp_call. intros [e|] s2 ->; [by apply wp_ret|].
  apply wp_call. intros [e|] s3 ->; [by apply wp_ret|].
  destruct b.
  - apply wp_bind. change (call (IndexField "metadata.name")) with (call (IndexField "metadata.name") ≫= mret).
    apply wp_call. intros [e|] s4 ->; [by apply wp_ret, wp_ret|].
    apply wp_ret, wp_call. intros [] s5 ->. apply wp_call. intros [] s6 ->; apply wp_ret; cbn; [|done].
    do 3 (split; [done|]). intros _. by exists true.
  - apply wp_bind, wp_ret, wp_call. intros [] s5 ->. apply wp_call. intros [] s6 ->; apply wp_ret; cbn; [|done].
    do 3 (split; [done|]). intros _. by exists (bo_index s).
Qed.
Lemma seed_quiet m s : boots (seed m) s (fun _ s' => s' = s).
Proof.
  unfold seed. apply wp_call. intros now s1 ->. apply wp_call. intros [gen|e] s2 ->; [|by apply wp_ret].
  apply wp_call. intros now' s3 ->. by apply wp_ret.
Qed.
(** The store is the one the flags name, and a database's schema is applied
    before it is used where that was asked for. *)
Definition store_ready (dsn : string) (migrate : bool) (r : result string StoreKind) (s : Booted) : Prop :=
  match r with
  | Err _ => True
  | Ok store =>
      if bool_decide (dsn = "") then exists m, store = Mem m
      else store = Postgres dsn /\ bo_pg s = Some migrate
  end.
Lemma openStore_ready dsn migrate devSeed s :
  boots (openStore dsn migrate devSeed) s (fun r s' =>
    bo_synced s' = bo_synced s /\ bo_up s' = bo_up s /\ bo_down s' = bo_down s /\
    store_ready dsn migrate r s').
Proof.
  unfold openStore, store_ready. case_bool_decide as Hdsn.
  - apply wp_bind. destruct devSeed.
    + eapply wp_mono; [|apply seed_quiet]. intros m s1 ->. apply wp_ret. do 3 (split; [done|]). by eexists.
    + apply wp_ret, wp_ret. do 3 (split; [done|]). by eexists.
  - apply wp_call. intros [e|] s1 ->; [by apply wp_ret|]. apply wp_bind. destruct migrate.
    + change (call MigratePG) with (call MigratePG ≫= mret). apply wp_call.
      intros [e|] s2 ->; apply wp_ret; [|by apply wp_ret].
      apply wp_call. intros [] s3 ->. by apply wp_ret.
    + apply wp_ret. by apply wp_ret.
Qed.

(** jdix-server brings up what its flags say or nothing: either it exits
    with 1 and no listener was started, or every flag it parses was accepted,
    the cache synced (with the name index where the data plane needs it), the
    store is the one named with its schema applied if asked for, and exactly
    the listeners of its role were started, at least one, and all of them shut
    down again before it exits, whichever ended first. *)
Theorem server_boots res f :
  boots (server_main res f) boot0 (fun code s =>
    bo_up s = [] /\ code = 1%Z \/
    exists r router i,
      parseRole (fl_role f) = Ok r /\ is_ok (parseTransport (fl_sandbox_transport f)) = true /\
      newRouter (fl_route_mode f) (fl_suffix f) (fl_path_prefix f) (fl_public_base f) res = Ok router /\
      bo_synced s = Some i /\ (data r = true -> i = true) /\
      (fl_database_url f <> "" -> bo_pg s = Some (fl_migrate f)) /\
      role_listeners f r router (bo_up s) /\ bo_up s <> [] /\ bo_down s = bo_up s).
Proof.
  unfold server_main. destruct (parseRole (fl_role f)) as [r|] eqn:Hr; [|by apply wp_ret; left].
  destruct (newRouter _ _ _ _ res) as [router|] eqn:Hrt; [|by apply wp_ret; left].
  destruct (parseTransport _) as [kind|] eqn:Hk; [|by apply wp_ret; left].
  assert (kind = fl_sandbox_transport f) as ->.
  { unfold parseTransport in Hk. destruct (_ || _); congruence. }
  apply wp_bind. eapply wp_mono; [|apply startCluster_syncs].
  intros [e|] s1 (_ & Hu1 & Hd1 & Hs1); [by apply wp_ret; left|].
  destruct (Hs1 eq_refl) as (i & Hi & Hib & _). clear Hs1.
  apply wp_bind. eapply wp_mono; [|apply openStore_ready].
  intros [store|e] s2 (Hs2 & Hu2 & Hd2 & Hst); [|apply wp_ret; left; by rewrite Hu2].
  apply wp_bind.
  eapply (wp_mono _ _ _ (fun tr s' => s' = s2 /\
    (data r = true -> fl_sandbox_transport f = transportDirect -> tr = Ok DirectTransport))).
  2:{ destruct (data r); [|by apply wp_ret]. case_bool_decide as E.
      - apply wp_ret. unfold newTransport. by rewrite bool_decide_true.
      - apply wp_call. intros p s3 ->. by apply wp_ret. }
  intros tr s3 [-> Htr]. destruct tr as [tr|e]; [|apply wp_ret; left; by rewrite Hu2].
  set (ls := (_ ++ _)%list).
  assert (Hne : ls <> []).
  { apply parseRole_some in Hr. unfold ls. destruct (control r); [done|]. cbn in Hr. by rewrite Hr. }
  apply wp_bind. eapply wp_mono; [|apply serve_drains]; [|done|by rewrite Hu2|by rewrite Hd2].
  intros failure s4 ->.
  eapply (wp_mono _ _ _ (fun _ s' => exists pg, s' = {| bo_synced := bo_synced s2; bo_pg := pg;
     bo_up := ls; bo_down := ls; bo_index := bo_index s2 |} /\ pg = bo_pg s2)).
  2:{ destruct failure; [by apply wp_ret; eexists|]. apply wp_bind. case_bool_decide.
      - apply wp_ret, wp_ret. by eexists.
      - change (call ClosePG) with (call ClosePG ≫= mret). apply wp_call. intros [] s5 ->.
        apply wp_ret, wp_ret. by eexists. }
  intros code s5 (pg & -> & ->). right. exists r, router, i. cbn. unfold store_ready in Hst.
  split; [done|]. split; [done|]. split; [done|]. split; [by rewrite Hs2|].
  split; [done|]. split; [|split; [|by split]].
  - intros Hd. rewrite bool_decide_false in Hst by done. by destruct Hst.
  - exists store, tr. split; [done|]. split; [|by intros Ha Hb; injection (Htr Ha Hb)].
    intros Hd. rewrite bool_decide_false in Hst by done. by destruct Hst.
Qed.

(** ** On concrete configurations *)

(** A gateway that accepts both schemes reads a path under the path router's
    prefix as the path router does, also below a sandbox's own hostname. *)
Example both_hijacks : exists g e,
  newEndpointRouter "host" "sbx.example.com" "" "/s" = Ok e /\
  newRouter "both" "sbx.example.com" "/s" "" (fun _ => true) = Ok g /\
  EndpointURL e wit_id = "https://sbx-abcdefgh23456723.sbx.example.com" /\
  rt_SandboxID <$> route_of g (wit_request "sbx-abcdefgh23456723.sbx.example.com" "/s/other/run") = Some "other" /\
  rt_SandboxID <$> route_of g (wit_request "sbx-abcdefgh23456723.sbx.example.com" "/static/x") = Some wit_id.
Proof. eexists _, _. split; [reflexivity|]. split; [reflexivity|]. vm_compute. auto. Qed.


Lemma volumes_roundtrip_wit :
  VolumeArgs DefaultLayout fx_template = "data=/var/lib/jdix/vol/data" /\
  parseVolumes (VolumeArgs DefaultLayout fx_template) = {[ "data" := "/var/lib/jdix/vol/data" ]}.
Proof.
  split; [vm_compute; reflexivity|].
  refine (eq_trans (proj1 (volumes_roundtrip DefaultLayout fx_template _ _)) _).
  - apply NoDup_singleton.
  - constructor; [|constructor]. unfold flag_safe, trimmed.
    repeat split; vm_compute; try reflexivity; repeat split; discriminate.
  - vm_compute. reflexivity.
Defined.
(** A mount path with a comma in it, which nothing refuses, is cut short. *)
Example comma_cuts :
  parseVolumes "data=/mnt/a,b" = {[ "data" := "/mnt/a" ]}.
Proof. vm_compute. reflexivity. Qed.

Definition wit_execd_flags (mode : string) : ExecdFlags :=
  {| ef_filesystem_isolation := mode; ef_probe_child := false; ef_bwrap := "/opt/jdix/bin/bwrap";
     ef_volumes := "data=/srv"; ef_tier := ""; ef_token_env := "JDIX_CONTROL_TOKEN";
     ef_token_file := ""; ef_allow_open := false |}.
Definition wit_execd_env (token : string) : ExecdEnv :=
  {| ee_proc := ProbeView.wit_view false; ee_ProtectSupervisor := Ok tt; ee_prepare := Ok tt;
     ee_DetectFilesystem := fun _ _ => {| Isolation.res_Tier := TierFilesystem;
       Isolation.res_Reason := "pinned volume mounts and protected proc view available";
       Isolation.res_Probes := ∅ |};
     ee_Detect := fun _ => {| Isolation.res_Tier := TierUserns; Isolation.res_Reason := "";
                              Isolation.res_Probes := ∅ |};
     ee_getenv := fun n => if bool_decide (n = "JDIX_CONTROL_TOKEN") then token else "";
     ee_ReadFile := fun _ => Err "no such file"; ee_StatIsDir := fun _ => true |}.
Example execd_refuses :
  execd_main (wit_execd_flags "bwrap") (wit_execd_env " ") = Exit1 "no control-plane token".
Proof. vm_compute. reflexivity. Qed.
Lemma execd_guarded_wit : exists cfg probe,
  execd_main (wit_execd_flags "bwrap") (wit_execd_env " t0ken ") = Serving cfg probe /\
  Execd.cfg_InternalToken cfg = "t0ken" /\ Execd.cfg_Tier cfg = TierFilesystem /\
  Execd.cfg_Tier cfg = Isolation.res_Tier probe.
Proof.
  eexists _, _.
  assert (E : execd_main (wit_execd_flags "bwrap") (wit_execd_env " t0ken ") = Serving _ _)
    by (vm_compute; reflexivity).
  split; [exact E|]. split; [reflexivity|]. split; [reflexivity|].
  exact (proj1 (proj2 (execd_guarded _ _ _ _ E))).
Defined.

(** Everything granted, the control plane failing first. *)
Definition wit_boot (R : Type) (e : BootE R) (log : list string) : R * list string :=
  match e in BootE R return R * list string with
  | AddToScheme _ | NewCluster | IndexField _ | ConnectPG _ | MigratePG => (None, log)
  | StartCache => (tt, log)
  | WaitForCacheSync => (true, log)
  | ClosePG => (tt, log ++ ["close"])%list
  | NewAPIProxy => (Err "no", log)
  | BootNow => (0%Z, log)
  | MintKey => (Err "no", log)
  | ListenAndServe l => (tt, log ++ ["up " +:+ li_name l])%list
  | FirstOf => (Some ("control-plane", Some "address in use"), log)
  | Shutdown l => (tt, log ++ ["down " +:+ li_name l])%list
  end.
Definition wit_server_flags : ServerFlags :=
  {| fl_role := "all"; fl_addr := ":8000"; fl_database_url := "postgres://db"; fl_migrate := true;
     fl_dev_seed := false; fl_ready_timeout := 8 * second; fl_data_addr := ":8090";
     fl_route_mode := "both"; fl_suffix := "sbx.example.com"; fl_path_prefix := "/s";
     fl_public_base := ""; fl_resolve_cache_ttl := 2 * second; fl_sandbox_transport := "direct" |}.
Example one_failing_stops_both :
  interp wit_boot (server_main (fun _ => true) wit_server_flags) [] =
  (1%Z, ["up control-plane"; "up data-plane"; "down control-plane"; "down data-plane"]).
Proof. vm_compute. reflexivity. Qed.
