(* ===== verification/GoTime.v ===== *)
(** * Formatting times (package time)

    [Time.UTC().Format(time.RFC3339)]: the civil date of an instant, proleptic
    Gregorian, and its rendering. *)
From S2P Require Import Prelude GoStrings.
Open Scope string_scope.
Open Scope Z_scope.

Definition leap (y : Z) : bool := (y mod 4 =? 0) && (negb (y mod 100 =? 0) || (y mod 400 =? 0)).
Definition month_lengths (y : Z) : list Z :=
  [31; if leap y then 29 else 28; 31; 30; 31; 30; 31; 31; 30; 31; 30; 31].
(** The days before the first of January of year [y], from year 1 on. *)
Definition days_before_year (y : Z) : Z :=
  let n := y - 1 in 365 * n + n / 4 - n / 100 + n / 400.
(** The month and the day of the [d]-th day of a year. *)
Fixpoint month_of (m d : Z) (lengths : list Z) : Z * Z :=
  match lengths with
  | l :: ls => if d <? l then (m, d + 1) else month_of (m + 1) (d - l) ls
  | [] => (m, d + 1)
  end.
(** The year of a day: an estimate that is at most one too small. *)
Definition year_of (days : Z) : Z :=
  let y := 1 + (days * 400) / 146097 in
  let y := if days <? days_before_year y then y - 1 else y in
  if days_before_year (y + 1) <=? days then y + 1 else y.
Definition civil (days : Z) : Z * Z * Z :=
  let y := year_of days in
  let '(m, d) := month_of 1 (days - days_before_year y) (month_lengths y) in
  (y, m, d).

(** [n] in at least [w] digits. *)
Definition padded (w : nat) (n : Z) : string :=
  let s := itoa n in
  String.concat "" (repeat "0" (w - String.length s)) +:+ s.

Definition RFC3339 (t : Time) : string :=
  let secs := t / second in
  let '(y, m, d) := civil (secs / 86400) in
  let r := secs mod 86400 in
  padded 4 y +:+ "-" +:+ padded 2 m +:+ "-" +:+ padded 2 d +:+ "T" +:+
  padded 2 (r / 3600) +:+ ":" +:+ padded 2 (r / 60 mod 60) +:+ ":" +:+ padded 2 (r mod 60) +:+ "Z".
(** Seconds from Go's zero instant to 1970. *)
Definition unix_to_internal : Z := 62135596800.

Example RFC3339_examples :
  map (fun s => RFC3339 ((s + unix_to_internal) * second)) [0; 951782400; 1785585845; -1]
  = ["1970-01-01T00:00:00Z"; "2000-02-29T00:00:00Z"; "2026-08-01T12:04:05Z"; "1969-12-31T23:59:59Z"].
Proof. vm_compute. reflexivity. Qed.
Example RFC3339_zero : RFC3339 0 = "0001-01-01T00:00:00Z".
Proof. vm_compute. reflexivity. Qed.
