(* ===== verification/Watched.v ===== *)
(** * What the kernel has answered

    A kernel together with what a program has been told by it: the path its
    last opening was for, how that ended, whether the kernel ever reported that
    a path leaves its root, and the names directories were read to hold.  Any
    kernel can be watched, and its laws stay; the file API's promises (see
    InitFiles.v) say what must have been answered before a call. *)
From S2P Require Import Prelude GoStrings Api Bwrap Calls Posix SafePath.
Open Scope string_scope.

Record Seen := {
  w_root : string;                  (* the last [Open]'s path, and then *)
  w_segs : list string;             (* the segments asked for beneath it *)
  w_last : result Errno unit;       (* the answer of the last call that opens *)
  w_escaped : bool;                 (* a path was answered to leave its root *)
  w_listed : list string }.         (* the names of the entries read *)
Definition unseen : Seen :=
  {| w_root := ""; w_segs := []; w_last := Ok tt; w_escaped := false; w_listed := [] |}.

Definition ended {A} (r : result Errno A) : result Errno unit :=
  match r with Ok _ => Ok tt | Err e => Err e end.
(** ELOOP and, of openat2 alone, EXDEV say that a path leaves its root. *)
Definition answers_escape (beneath : bool) (r : result Errno Z) : bool :=
  match r with
  | Ok _ => false
  | Err e => bool_decide (e = ELOOP) || (beneath && bool_decide (e = EXDEV))
  end.
Definition observe {R} (e : FsE R) : R -> Seen -> Seen :=
  match e in FsE R return R -> Seen -> Seen with
  | Open p _ _ => fun r g =>
      {| w_root := p; w_segs := []; w_last := ended r; w_escaped := w_escaped g;
         w_listed := w_listed g |}
  | Openat _ x _ _ => fun r g =>
      {| w_root := w_root g; w_segs := (w_segs g ++ [x])%list; w_last := ended r;
         w_escaped := w_escaped g || answers_escape false r; w_listed := w_listed g |}
  | Openat2 _ p _ _ _ => fun r g =>
      {| w_root := w_root g; w_segs := rel_segs p; w_last := ended r;
         w_escaped := w_escaped g || answers_escape true r; w_listed := w_listed g |}
  | ReadDir _ => fun r g =>
      {| w_root := w_root g; w_segs := w_segs g; w_last := w_last g; w_escaped := w_escaped g;
         w_listed := match r with Ok ents => (map de_Name ents ++ w_listed g)%list
                     | Err _ => w_listed g end |}
  | _ => fun _ g => g
  end.

Definition Watched (OS : Kernel) : Kernel := {|
  k_state := @k_state OS * Seen;
  k_node := @k_node OS;
  k_sem R e s r s' := @k_sem OS R e s.1 r s'.1 /\ s'.2 = observe e r s.2;
  k_others s s' := @k_others OS s.1 s'.1 /\ s'.2 = s.2;
  k_fds s := @k_fds OS s.1;
  k_named s := @k_named OS s.1;
  k_entry s := @k_entry OS s.1;
  k_below s := @k_below OS s.1 |}.

Section Watching.
Context {OS : Kernel} {OSL : @KernelLaws OS}.
#[local] Hint Extern 0 Kernel => exact (Watched OS) : typeclass_instances.

Lemma watched_descends (s : @k_state (Watched OS)) d segs n :
  @descends OS s.1 d segs n <-> @descends (Watched OS) s d segs n.
Proof. split; (induction 1; [constructor|econstructor; eauto]). Qed.

#[export] Instance WatchedLaws : @KernelLaws (Watched OS).
Proof.
  split.
  - intros s s' [H _]. exact (@k_others_fds OS _ _ _ H).
  - intros s s' [H _]. exact (@k_others_seen OS _ _ _ H).
  - intros R e s r s' [H _]. exact (@k_sem_seen OS _ _ _ _ _ _ H).
  - intros p fl m s r s' [H _]. exact (@k_open OS _ _ _ _ _ _ _ H).
  - intros dir x fl m s r s' [H _]. exact (@k_openat OS _ _ _ _ _ _ _ _ H).
  - intros dir p fl m res s r s' [H _] Hb. pose proof (@k_openat2 OS _ _ _ _ _ _ _ _ _ H Hb) as Ho.
    destruct r as [fd|e]; [|exact Ho]. destruct Ho as (Hn & n & Hf & d & Hd & Hbl & Hds).
    split; [exact Hn|]. exists n. split; [exact Hf|]. exists d. split; [exact Hd|]. split; [exact Hbl|].
    intros Hr Hg. apply watched_descends. auto.
  - intros fd s r s' [H _]. exact (@k_close OS _ _ _ _ _ H).
  - intros R e s r s' He [H _]. exact (@k_quiet OS _ _ _ _ _ _ He H).
Qed.

Context (G : forall R, FsE R -> @k_state (Watched OS) -> Prop).

(** A call, and what it was answered. *)
Lemma amid_watched {A R} (e : FsE R) (f : R -> Fs A) (s : @k_state (Watched OS)) Q :
  (forall s1, remembers s s1 -> k_fds s1 = k_fds s -> s1.2 = s.2 -> G R e s1) ->
  (forall r s', remembers s s' -> s'.2 = observe e r s.2 ->
     (on_descriptors e = false -> k_fds s' = k_fds s) -> amid G (f r) s' Q) ->
  amid G (call e ≫= f) s Q.
Proof.
  intros HG H. apply rg_call. intros s1 Ho.
  pose proof (k_others_seen _ _ Ho) as Hm. pose proof (k_others_fds _ _ Ho) as Hf. destruct Ho as [_ H1].
  split; [by apply HG|]. intros r s2 Hs. apply H.
  - eapply remembers_trans; [done|by eapply k_sem_seen].
  - destruct Hs as [_ ->]. by rewrite H1.
  - intros He. rewrite <-Hf. by eapply k_quiet.
Qed.
(** Two judgements of one program. *)
Lemma amid_both {A} (p : Fs A) (s : @k_state (Watched OS)) (Q Q' : A -> @k_state (Watched OS) -> Prop) :
  amid G p s Q -> amid (fun _ _ _ => True) p s Q' -> amid G p s (fun a s' => Q a s' /\ Q' a s').
Proof.
  revert s. induction p as [a|R e k IH]; intros s; [by split|]. intros H H' s1 Ho.
  destruct (H s1 Ho) as [HG Hk]. destruct (H' s1 Ho) as [_ Hk']. split; [done|].
  intros r s2 Hs. apply IH; [by apply Hk|by apply Hk'].
Qed.
End Watching.

(** ** What an opening has looked at *)

Section Looks.
Context {OS : Kernel} {OSL : @KernelLaws OS}.
#[local] Hint Extern 0 Kernel => exact (Watched OS) : typeclass_instances.
Abbreviation watch := (amid (fun _ _ _ => True)).

Lemma watch_call {A R} (e : FsE R) (f : R -> Fs A) (s : @k_state (Watched OS)) Q :
  (forall r s', s'.2 = observe e r s.2 -> watch (f r) s' Q) -> watch (call e ≫= f) s Q.
Proof. intros H. apply amid_watched; [done|]. intros r s' _ Ho _. by apply H. Qed.

(** The path [rel] beneath [root] was looked for, the whole of it when it was
    found, and nothing was answered to leave the root. *)
Definition looked (root rel : string) (found : bool) (g : Seen) : Prop :=
  w_root g = root /\ w_escaped g = false /\
  if found then w_segs g = rel_segs rel /\ w_last g = Ok tt
  else (exists rest, rel_segs rel = (w_segs g ++ rest)%list) /\ exists n, w_last g = Err n.
(** The name of the file an opener returns. *)
Definition file_name (root rel name : string) : Prop :=
  name = root \/ name = root +:+ "/" +:+ (if bool_decide (rel = "") then "." else rel).
Definition looks (root rel : string) (r : result SpError File) (s' : @k_state (Watched OS)) : Prop :=
  match r with
  | Ok f => looked root rel true s'.2 /\ file_name root rel (f_Name f)
  | Err e => IsEscape e = false -> looked root rel false s'.2
  end.

Lemma walk_segs_looks root rel dirFd pre segs flags perm (s : @k_state (Watched OS)) :
  w_root s.2 = root -> w_escaped s.2 = false -> w_segs s.2 = pre -> w_last s.2 = Ok tt ->
  rel_segs rel = (pre ++ segs)%list ->
  watch (walk_segs dirFd segs flags perm) s (fun r s' =>
    match r with
    | Ok _ => looked root rel true s'.2
    | Err e => IsEscape e = false -> looked root rel false s'.2
    end).
Proof.
  revert dirFd pre s. induction segs as [|x segs IH]; intros dirFd pre s Hr He Hs Hl Hrel.
  { cbn. rewrite app_nil_r in Hrel. unfold looked. rewrite Hrel. auto. }
  cbn [walk_segs]. apply watch_call. intros [fd|e] s1 H1; apply watch_call; intros [] s2 H2; cbn in H2.
  - apply (IH fd (pre ++ [x])%list).
    + by rewrite H2, H1.
    + rewrite H2, H1. cbn. by rewrite He.
    + rewrite H2, H1. cbn. by rewrite Hs.
    + by rewrite H2, H1.
    + by rewrite Hrel, <-app_assoc.
  - cbn. rewrite H2, H1. intros Hne. unfold looked. cbn. rewrite He, Hs. split; [done|].
    split; [by case_bool_decide|]. split; [|by eexists].
    exists segs. by rewrite Hrel, <-app_assoc.
Qed.

Lemma openBeneathWalk_looks root rel flags perm (s : @k_state (Watched OS)) :
  rel <> "" -> w_escaped s.2 = false -> watch (openBeneathWalk root rel flags perm) s (looks root rel).
Proof.
  intros Hne He. unfold openBeneathWalk. apply watch_call. intros [dirFd|e] s1 H1; cbn in H1.
  2: { cbn. rewrite H1. intros _. unfold looked. cbn. split; [done|]. split; [done|].
       split; [by eexists|by eexists]. }
  case_bool_decide as Hdot.
  { apply rg_ret. hnf. rewrite H1. split; [|by left]. subst rel. unfold looked. by repeat split. }
  apply amid_bind. assert (rel_segs rel = split slash rel) as Hs.
  { unfold rel_segs. rewrite bool_decide_eq_false_2; [done|tauto]. }
  eapply amid_mono; [|apply (walk_segs_looks root rel dirFd [])]; try by rewrite H1.
  - intros [fd|e] s2 H; cbn in H |- *; [|exact H]. split; [exact H|]. right.
    by rewrite bool_decide_eq_false_2 by done.
  - by rewrite Hs.
Qed.
Lemma openBeneathAt2_looks root rel flags perm (s : @k_state (Watched OS)) :
  rel <> "" -> w_escaped s.2 = false ->
  watch (openBeneathAt2 root rel flags perm) s (fun r s' =>
    match r with Some r => looks root rel r s' | None => w_escaped s'.2 = false end).
Proof.
  intros Hne He. unfold openBeneathAt2. apply watch_call. intros [dirFd|e] s1 H1; cbn in H1.
  2: { cbn. rewrite H1. intros _. unfold looked. cbn. split; [done|]. split; [done|].
       split; [by eexists|by eexists]. }
  apply amid_bind. destruct (contains_byte rel nul).
  { apply rg_ret, watch_call. intros [] s2 _. by cbn. }
  apply watch_call. intros r s2 H2. apply rg_ret, watch_call. intros [] s3 H3. cbn in H3.
  apply rg_ret. rewrite H2, H1 in H3. cbn in H3. rewrite He in H3. destruct r as [fd|e].
  { hnf. rewrite H3. split; [by repeat split|]. right. by rewrite bool_decide_eq_false_2 by done. }
  case_bool_decide as Hold.
  { rewrite H3. cbn. by destruct Hold as [-> | ->]. }
  case_bool_decide as Hesc; [done|]. hnf. rewrite H3. intros _. unfold looked. cbn. split; [done|].
  split; [|split; [exists []; by rewrite app_nil_r|by eexists]].
  rewrite !bool_decide_eq_false_2 by tauto. done.
Qed.

Lemma OpenBeneath_looks root rel flags perm (s : @k_state (Watched OS)) :
  w_escaped s.2 = false -> watch (OpenBeneath root rel flags perm) s (looks root rel).
Proof.
  intros He. unfold OpenBeneath. destruct (checkRel rel) as [c|e] eqn:Hc.
  2: { hnf. assert (IsEscape e = true) as ->; [|done]. unfold checkRel in Hc.
       repeat (case_match; simplify_eq/=); done. }
  apply checkRel_accepts in Hc as [Hok ->]. set (c := if bool_decide (rel = "") then "." else rel).
  assert (c <> "" /\ rel_segs c = rel_segs rel /\ (if bool_decide (c = "") then "." else c) = c)
    as (Hc1 & Hc2 & Hc3).
  { unfold c. case_bool_decide as E; [subst rel; done|]. by rewrite bool_decide_eq_false_2. }
  assert (forall r (s' : @k_state (Watched OS)), looks root c r s' -> looks root rel r s') as Hw.
  { intros r s'. unfold looks, looked, file_name. rewrite Hc2, Hc3. done. }
  unfold openBeneath. apply watch_call. intros [] s1 H1; cbn in H1; rewrite <-H1 in He.
  { eapply amid_mono; [exact Hw|]. by apply openBeneathWalk_looks. }
  apply amid_bind. eapply amid_mono; [|by apply openBeneathAt2_looks].
  intros [r|] s2 Hr; [by apply Hw|]. apply watch_call. intros [] s3 H3. cbn in H3. rewrite <-H3 in Hr.
  eapply amid_mono; [exact Hw|]. by apply openBeneathWalk_looks.
Qed.
End Looks.
