(* ===== verification/InitFiles.v ===== *)
(** * The file API of jdix-init (pkg/initd/files.go)

    Which configured root a path belongs to, the four handlers as programs over
    system calls, and what they may touch.  The roots and the workspace are
    what [snapshot] copied; JSON encoding is the standard library's. *)
From S2P Require Import Prelude GoStrings GoTime Url Api Bwrap Calls Posix PosixTree SafePath Watched.
Open Scope string_scope.

Definition maxUploadBytes : Z := Z.shiftl 512 20.

(** ** Paths *)

(** [path.Dir] *)
Definition path_Dir (p : string) : string :=
  match last_index_byte p slash with
  | Some i => clean (take_string (S i) p)
  | None => "."
  end.
(** [filepath.Base] *)
Definition path_Base (p : string) : string :=
  if bool_decide (p = "") then "."
  else
    let p := trim_right_byte slash p in
    let p := match last_index_byte p slash with Some i => drop_string (S i) p | None => p end in
    if bool_decide (p = "") then "/" else p.

(** ** Errors *)

Inductive FileError :=
| errNoRoot
| FSafe (e : SpError)                      (* safepath's, or an os call's own *)
| FCopy (e : CopyError).
Section Files.
(** [syscall.Errno.Error] *)
Context (Errno_string : Errno -> string).

Definition FileError_string (e : FileError) : string :=
  match e with
  | errNoRoot => "path is outside every directory this sandbox may touch"
  | FSafe ErrEscape => "safepath: path escapes root"
  | FSafe ErrBadPath => "safepath: malformed relative path"
  | FSafe (PathError op p e) => op +:+ " " +:+ p +:+ ": " +:+ Errno_string e
  | FCopy (WriteFailed e) => Errno_string e
  | FCopy (BodyFailed msg) => msg
  end.
(** [errors.Is(err, os.ErrNotExist)] and the like. *)
Definition FileErrorIs (errs : list Errno) (e : FileError) : bool :=
  match e with
  | FSafe e => IsPathErrno errs e
  | FCopy (WriteFailed n) => bool_decide (n ∈ errs)
  | _ => false
  end.

(** ** Answers *)

Inductive FileResponse :=
| FError (code : Z) (e : Error)
| FServed (disposition : string)           (* what http.ServeContent wrote *)
| FWritten (path : string) (bytes : Z)
| FDeleted (path : string)
| FListing (path : string) (entries : list FileInfo).
Definition file_fail (code : Z) (errCode msg : string) : FileResponse :=
  FError code {| err_Code := errCode; err_Message := msg |}.

Definition fileError (e : FileError) : FileResponse :=
  match e with
  | errNoRoot => file_fail 403 "path_forbidden" (FileError_string e)
  | FSafe ErrEscape | FSafe ErrBadPath =>
      file_fail 403 "path_escape" "path is malformed or traverses a symlink out of its directory"
  | _ =>
      if FileErrorIs [ENOENT] e then file_fail 404 "not_found" "no such file or directory"
      else if FileErrorIs [EACCES; EPERM] e
      then file_fail 403 "permission_denied" (FileError_string e)
      else file_fail 500 "io_error" (FileError_string e)
  end.

(** ** resolveRoot *)

(** How a cleaned path lies in a root, if it does. *)
Definition rel_in (cleaned : string) (r : Root) : option string :=
  let rc := clean (root_Path r) in
  if bool_decide (cleaned = rc) then Some "."
  else if has_prefix cleaned (rc +:+ "/") then Some (trim_prefix cleaned (rc +:+ "/"))
  else None.
Fixpoint best_root (cleaned : string) (roots : list Root) (best : option (Root * string))
    : option (Root * string) :=
  match roots with
  | [] => best
  | r :: roots' =>
      best_root cleaned roots'
        match rel_in cleaned r with
        | None => best
        | Some rel =>
            match best with
            | None => Some (r, rel)
            | Some (b, _) =>
                if (String.length (clean (root_Path b)) <? String.length (clean (root_Path r)))%nat
                then Some (r, rel) else best
            end
        end
  end.
Definition resolveRoot (roots : list Root) (p : string) : result FileError (Root * string) :=
  if bool_decide (p = "") || negb (has_prefix p "/") then Err errNoRoot
  else match best_root (clean p) roots None with
       | Some br => Ok br
       | None => Err errNoRoot
       end.

(** ** The handlers *)

Definition openForRead (roots : list Root) (p : string) : Fs (result FileError File) :=
  match resolveRoot roots p with
  | Err e => mret (Err e)
  | Ok (root, rel) =>
      r ← OpenBeneath (root_Path root) rel O_RDONLY 0;
      mret (match r with Ok f => Ok f | Err e => Err (FSafe e) end)
  end.

Definition handleFileGet (roots : list Root) (q : Values) : Fs FileResponse :=
  let p := query_get q "path" in
  r ← openForRead roots p;
  match r with
  | Err e => mret (fileError e)
  | Ok f =>
      fi ← call (Fstat (f_Fd f));
      resp ← match fi with
             | Err e => mret (fileError (FSafe (PathError "stat" (f_Name f) e)))
             | Ok fi =>
                 if st_IsDir fi
                 then mret (file_fail 400 "is_directory" "use /v1/files/list for directories")
                 else
                   call (ServeContent (f_Fd f) (path_Base (f_Name f)) (st_ModTime fi));;
                   mret (FServed ("attachment; filename=" +:+ String dquote (path_Base p +:+ String dquote "")))
             end;
      call (Close (f_Fd f));; mret resp
  end.

(** The loop of [mkdirAllBeneath], [cur] being the path made so far. *)
Fixpoint mkdir_segs (root cur : string) (segs : list string) : Fs (result FileError unit) :=
  match segs with
  | [] => mret (Ok tt)
  | seg :: segs' =>
      if bool_decide (seg = "") then mkdir_segs root cur segs'
      else
        let cur := if bool_decide (cur = "") then seg else cur +:+ "/" +:+ seg in
        r ← OpenBeneath root cur O_RDONLY 0;
        match r with
        | Ok f => call (Close (f_Fd f));; mkdir_segs root cur segs'
        | Err e =>
            if IsEscape e then mret (Err (FSafe e))
            else
              m ← call (Mkdir (path_join [root; cur]) 0x1ed);
              match m with
              | Err n =>
                  if bool_decide (n = EEXIST \/ n = ENOTEMPTY) then mkdir_segs root cur segs'
                  else mret (Err (FSafe (PathError "mkdir" (path_join [root; cur]) n)))
              | Ok _ => mkdir_segs root cur segs'
              end
        end
  end.
Definition mkdirAllBeneath (root rel : string) : Fs (result FileError unit) :=
  mkdir_segs root "" (split slash rel).

Definition put_flags : Z := Z.lor (Z.lor O_WRONLY O_CREAT) O_TRUNC.

Definition handleFilePut (roots : list Root) (q : Values) : Fs FileResponse :=
  let p := query_get q "path" in
  match resolveRoot roots p with
  | Err e => mret (fileError e)
  | Ok (root, rel) =>
      if root_ReadOnly root then mret (file_fail 403 "read_only" "this path is mounted read-only")
      else if bool_decide (rel = ".")
      then mret (file_fail 400 "is_directory" "cannot write to a directory")
      else
        d ← (if bool_decide (path_Dir rel = ".") then mret (Ok tt)
             else mkdirAllBeneath (root_Path root) (path_Dir rel));
        match d with
        | Err e => mret (fileError e)
        | Ok _ =>
            r ← OpenBeneath (root_Path root) rel put_flags 0x1a4;
            match r with
            | Err e => mret (fileError (FSafe e))
            | Ok f =>
                n ← call (CopyBody (f_Fd f) maxUploadBytes);
                call (Close (f_Fd f));;
                mret (match n with
                      | Err e => fileError (FCopy e)
                      | Ok n => FWritten (clean p) n
                      end)
            end
        end
  end.

Definition handleFileDelete (roots : list Root) (q : Values) : Fs FileResponse :=
  let p := query_get q "path" in
  match resolveRoot roots p with
  | Err e => mret (fileError e)
  | Ok (root, rel) =>
      if root_ReadOnly root then mret (file_fail 403 "read_only" "this path is mounted read-only")
      else if bool_decide (rel = ".")
      then mret (file_fail 403 "root_delete" "refusing to delete a mount root")
      else
        r ← OpenBeneath (root_Path root) rel O_RDONLY 0;
        match r with
        | Err e => mret (fileError (FSafe e))
        | Ok f =>
            call (Close (f_Fd f));;
            let target := path_join [root_Path root; rel] in
            if bool_decide (query_get q "recursive" = "true") then
              r ← call (RemoveAll target);
              mret (match r with
                    | Err (op, at_, e) => fileError (FSafe (PathError op at_ e))
                    | Ok _ => FDeleted (clean p)
                    end)
            else
              r ← call (Remove target);
              mret (match r with
                    | Err e => fileError (FSafe (PathError "remove" target e))
                    | Ok _ => FDeleted (clean p)
                    end)
        end
  end.

(** [FileMode.String] of permission bits *)
Definition perm_string (m : Z) : string :=
  "-" +:+ String.concat "" (map (fun '(i, c) => if Z.testbit m i then c else "-")
    [(8, "r"); (7, "w"); (6, "x"); (5, "r"); (4, "w"); (3, "x"); (2, "r"); (1, "w"); (0, "x")]%Z).

Definition file_info (p : string) (e : DirEntry) (info : Stat) : FileInfo :=
  {| fi_Name := de_Name e; fi_Path := path_join [clean p; de_Name e]; fi_Size := st_Size info;
     fi_Mode := perm_string (st_Perm info); fi_IsDir := de_IsDir e;
     fi_Modified := RFC3339 (st_ModTime info); fi_Symlink := st_Symlink info |}.
Fixpoint list_entries (f : File) (p : string) (ents : list DirEntry) : Fs (list FileInfo) :=
  match ents with
  | [] => mret []
  | e :: ents' =>
      info ← call (Lstat (f_Name f +:+ "/" +:+ de_Name e));
      rest ← list_entries f p ents';
      mret (match info with Ok info => file_info p e info :: rest | Err _ => rest end)
  end.
Definition info_less (a b : FileInfo) : bool :=
  if negb (Bool.eqb (fi_IsDir a) (fi_IsDir b)) then fi_IsDir a
  else str_ltb (fi_Name a) (fi_Name b).

Definition handleFileList (roots : list Root) (ws : string) (q : Values) : Fs FileResponse :=
  let p := query_get q "path" in
  let p := if bool_decide (p = "") then ws else p in
  r ← openForRead roots p;
  match r with
  | Err e => mret (fileError e)
  | Ok f =>
      fi ← call (Fstat (f_Fd f));
      resp ← match fi with
             | Err e => mret (fileError (FSafe (PathError "stat" (f_Name f) e)))
             | Ok fi =>
                 if negb (st_IsDir fi)
                 then mret (file_fail 400 "not_a_directory" "use /v1/files to read a file")
                 else
                   ents ← call (ReadDir (f_Fd f));
                   match ents with
                   | Err e => mret (fileError (FSafe (PathError "readdirent" (f_Name f) e)))
                   | Ok ents =>
                       out ← list_entries f p ents;
                       mret (FListing (clean p) (sort_by info_less out))
                   end
             end;
      call (Close (f_Fd f));; mret resp
  end.

(** The file routes of [Routes] (server.go). *)
Inductive FileRoute := RouteGet | RoutePut | RouteDelete | RouteList.
Definition serveFiles (route : FileRoute) (roots : list Root) (ws : string) (q : Values) : Fs FileResponse :=
  match route with
  | RouteGet => handleFileGet roots q
  | RoutePut => handleFilePut roots q
  | RouteDelete => handleFileDelete roots q
  | RouteList => handleFileList roots ws q
  end.
End Files.

(** ** Which root *)

Abbreviation depth r := (String.length (clean (root_Path r))).

(** [r] is the longest root the path lies in, the first of those. *)
Definition longest_root (c : string) (roots : list Root) (r : Root) (rel : string) : Prop :=
  exists i, roots !! i = Some r /\ rel_in c r = Some rel /\
    forall j r', roots !! j = Some r' -> is_Some (rel_in c r') ->
      (depth r' < depth r)%nat \/ ((depth r' <= depth r)%nat /\ (i <= j)%nat).

Lemma longest_root_unique c roots r rel r' rel' :
  longest_root c roots r rel -> longest_root c roots r' rel' -> r = r' /\ rel = rel'.
Proof.
  intros (i & Hi & Hr & H1) (j & Hj & Hr' & H2).
  assert (i = j) as ->; [|by simplify_eq].
  specialize (H1 j r' Hj (mk_is_Some _ _ Hr')). specialize (H2 i r Hi (mk_is_Some _ _ Hr)). lia.
Qed.
Definition better (c : string) (best : option (Root * string)) (r : Root) : option (Root * string) :=
  match rel_in c r with
  | None => best
  | Some rel =>
      match best with
      | None => Some (r, rel)
      | Some (b, _) => if (depth b <? depth r)%nat then Some (r, rel) else best
      end
  end.
Lemma best_root_foldl c roots b : best_root c roots b = foldl (better c) b roots.
Proof. revert b. by induction roots as [|r roots IH]; intros b; cbn; [|rewrite IH]. Qed.
Lemma lookup_at_end {A} (l : list A) x : (l ++ [x])%list !! length l = Some x.
Proof. by rewrite lookup_app_r, Nat.sub_diag by lia. Qed.
Lemma best_root_longest c roots :
  match best_root c roots None with
  | Some (r, rel) => longest_root c roots r rel
  | None => forall r, r ∈ roots -> rel_in c r = None
  end.
Proof.
  rewrite best_root_foldl. induction roots as [|x roots IH] using rev_ind; [by intros r ?%elem_of_nil|].
  rewrite foldl_snoc. unfold better at 1.
  destruct (foldl (better c) None roots) as [[b brel]|]; destruct (rel_in c x) as [rel|] eqn:Ex.
  - destruct IH as (i & Hi & Hb & H). pose proof (lookup_lt_Some _ _ _ Hi) as Hl.
    destruct (Nat.ltb_spec (depth b) (depth x)).
    + exists (length roots). split; [apply lookup_at_end|]. split; [done|].
      intros j r' Hj Hr'. apply lookup_app_Some in Hj as [Hj|[Hj1 Hj]].
      * left. specialize (H j r' Hj Hr'). lia.
      * apply list_lookup_singleton_Some in Hj as [? <-]. right. lia.
    + exists i. split; [by apply lookup_app_l_Some|]. split; [done|].
      intros j r' [Hj|[Hj1 Hj]]%lookup_app_Some Hr'; [by eauto|].
      apply list_lookup_singleton_Some in Hj as [? <-]. right. lia.
  - destruct IH as (i & Hi & Hb & H). exists i. split; [by apply lookup_app_l_Some|]. split; [done|].
    intros j r' [Hj|[Hj1 Hj]]%lookup_app_Some Hr'; [by eauto|].
    apply list_lookup_singleton_Some in Hj as [? <-]. rewrite Ex in Hr'. by destruct Hr'.
  - exists (length roots). split; [apply lookup_at_end|]. split; [done|].
    intros j r' [Hj|[Hj1 Hj]]%lookup_app_Some Hr'.
    + rewrite (IH r') in Hr' by by eapply list_elem_of_lookup_2. by destruct Hr'.
    + apply list_lookup_singleton_Some in Hj as [? <-]. right. lia.
  - intros r [?|[->|[]%elem_of_nil]%elem_of_cons]%elem_of_app; auto.
Qed.

Lemma rel_in_spec c r rel :
  rel_in c r = Some rel <->
  (c = clean (root_Path r) /\ rel = ".") \/
  (c <> clean (root_Path r) /\ c = clean (root_Path r) +:+ "/" +:+ rel).
Proof.
  unfold rel_in. case_bool_decide as E; [split; [intros [= <-]; by left|intros [[_ ->]|[? _]]; done]|].
  destruct (has_prefix c _) eqn:Hp.
  - apply has_prefix_spec in Hp as [t ->]. rewrite trim_prefix_app. split.
    + intros [= <-]. right. split; [done|by rewrite app_assoc_str].
    + intros [[? _]|[_ Ht]]; [done|]. rewrite app_assoc_str in Ht. apply app_inj_l, app_inj_l in Ht. by subst.
  - split; [done|]. intros [[? _]|[_ ->]]; [done|].
    by rewrite <-app_assoc_str, has_prefix_app in Hp.
Qed.

(** Paths that are cleaned and rooted, segment by segment. *)
Lemma render_split rs segs rel :
  path_segs rs -> path_segs segs ->
  render segs = render rs +:+ "/" +:+ rel -> 
  exists tl, tl <> [] /\ segs = (rs ++ tl)%list /\ rel = join "/" tl.
Proof.
  intros Hrs Hsegs E. pose proof (split_render_app rs rel Hrs) as H. rewrite <-E in H.
  unfold render in H at 1. rewrite slash_app, split_slash_cons in H. injection H as H.
  destruct segs as [|x segs].
  { apply (f_equal String.length) in E. unfold render in E.
    rewrite !length_app_str in E. cbn in E. lia. }
  rewrite split_join in H by (done || by apply path_segs_no_slash).
  destruct rs as [|y rs].
  { cbn in H. injection H as -> _. inversion_clear Hsegs as [|? ? [[? _] _] _]. done. }
  cbn in H. exists (split slash rel). split; [apply split_not_nil|].
  split; [by rewrite H|by rewrite join_split].
Qed.

(** What a path resolves to, when the roots are canonical. *)
Definition canonical_roots (roots : list Root) : Prop := Forall (fun r => canonical (root_Path r)) roots.
Definition rel_of (segs : list string) : string := match segs with [] => "." | _ => join "/" segs end.

Lemma resolveRoot_ok roots p r rel :
  resolveRoot roots p = Ok (r, rel) <-> has_prefix p "/" = true /\ longest_root (clean p) roots r rel.
Proof.
  unfold resolveRoot. destruct (has_prefix p "/") eqn:Hp; [|by rewrite orb_true_r; split; [|intros []]].
  rewrite bool_decide_eq_false_2 by (by intros ->). cbn [orb negb].
  pose proof (best_root_longest (clean p) roots) as Hb.
  destruct (best_root _ _ _) as [[b brel]|].
  - split; [intros [= <- <-]; done|]. intros [_ H].
    by destruct (longest_root_unique _ _ _ _ _ _ H Hb) as [-> ->].
  - split; [done|]. intros [_ (i & Hi & Hr & _)]. rewrite Hb in Hr; [done|]. by eapply list_elem_of_lookup_2.
Qed.
Lemma resolveRoot_segs roots p r rel :
  canonical_roots roots -> resolveRoot roots p = Ok (r, rel) ->
  exists rs segs, root_Path r = render rs /\ path_segs (rs ++ segs) /\
    clean p = render (rs ++ segs) /\ rel = rel_of segs.
Proof.
  intros Hc [Hp (i & Hi & Hr & _)]%resolveRoot_ok.
  destruct (clean_rooted p Hp) as (segs & Hcp & Hs & _).
  apply list_elem_of_lookup_2 in Hi. unfold canonical_roots in Hc. rewrite Forall_forall in Hc.
  destruct (Hc _ Hi) as (rs & Hrp & Hrs%good_segs_path).
  apply rel_in_spec in Hr. rewrite Hrp, clean_render in Hr by done. exists rs.
  destruct Hr as [[-> ->]|[Hne E]].
  - exists []. rewrite app_nil_r. done.
  - rewrite Hcp in E. destruct (render_split rs segs rel Hrs Hs E) as (tl & Hn & -> & ->).
    exists tl. split; [done|]. split; [done|]. split; [done|]. by destruct tl.
Qed.

(** A path belongs to the longest configured root it lies in once both are
    cleaned, to the first of several as long, and is forbidden exactly when
    there is none; and what is left of it always passes the opener's lexical
    gate, so that [path_escape] is answered for a symbolic link or a NUL only. *)
Theorem resolveRoot_exact roots p r rel :
  (resolveRoot roots p = Ok (r, rel) <->
     has_prefix p "/" = true /\ longest_root (clean p) roots r rel) /\
  (canonical_roots roots -> no_byte nul p -> resolveRoot roots p = Ok (r, rel) ->
     checkRel rel = Ok rel).
Proof.
  split; [apply resolveRoot_ok|]. intros Hc Hn Hr.
  pose proof Hr as [Hp _]%resolveRoot_ok.
  destruct (resolveRoot_segs _ _ _ _ Hc Hr) as (rs & segs & _ & Hs & Hcp & ->).
  destruct (clean_rooted p Hp) as (segs' & E & Hs' & Hin). rewrite Hcp in E.
  apply (f_equal (split slash)) in E. unfold render in E. rewrite !slash_app, !split_slash_cons in E.
  destruct segs as [|x segs]; [done|].
  assert ((rs ++ x :: segs)%list <> []) as Hne by (by destruct rs).
  injection E as E. rewrite split_join in E by (done || by apply path_segs_no_slash).
  destruct segs' as [|y segs'].
  { cbn in E. unfold path_segs in Hs. rewrite E in Hs. by inversion_clear Hs as [|? ? [[? _] _] _]. }
  rewrite split_join in E by (done || by apply path_segs_no_slash).
  apply checkRel_accepts. rewrite bool_decide_eq_false_2.
  - split; [|done]. right. right. exists (x :: segs). split; [done|]. split; [done|].
    assert (Forall good_seg (rs ++ x :: segs)) as H; [|by apply Forall_app in H as [_ H]].
    unfold path_segs in Hs'. rewrite E. rewrite Forall_forall in *. intros z Hz.
    destruct (Hs' z Hz) as [? ?]. split; [done|]. split; [done|]. apply Hin in Hz.
    rewrite <-(join_split p) in Hn. rewrite no_byte_join, Forall_forall in Hn by done. by apply Hn.
  - unfold path_segs in Hs. apply Forall_app in Hs as [_ Hs]. intros E2.
    inversion_clear Hs as [|? ? [[? _] _] _]. unfold rel_of in E2.
    destruct segs; [done|]. rewrite join_cons in E2. by destruct x.
Qed.

(** ** What the handlers may touch *)

Definition may_write (flags : Z) : bool :=
  negb (Z.land flags (Z.lor (Z.lor O_WRONLY O_RDWR) (Z.lor O_CREAT O_TRUNC)) =? 0)%Z.

Section Confined.
Context {OS : Kernel} {OSL : @KernelLaws OS}.
#[local] Hint Extern 0 Kernel => exact (Watched OS) : typeclass_instances.
Context (Errno_string : Errno -> string) (roots : list Root) (p : string).
Context (writes : bool).   (* the handler is one that writes *)

(** The root the request's path belongs to; if [w], one that may be written,
    by a handler that writes. *)
Definition selects (w : bool) (r : Root) (rel : string) : Prop :=
  resolveRoot roots p = Ok (r, rel) /\ (w = true -> writes = true /\ root_ReadOnly r = false).
(** A descriptor of a file beneath that root. *)
Definition holds_beneath (w : bool) (fd : Z) (s : k_state) : Prop :=
  exists r rel n, selects w r rel /\ k_fds s !! fd = Some n /\ contained s (root_Path r) rel n.
(** A path strictly beneath that root and not below what was asked for. *)
Definition on_the_way (q : string) : Prop :=
  exists r rel, selects true r rel /\
    contains (root_Path r) q = true /\ q <> root_Path r /\ contains q (clean p) = true.

(** The path was just looked for beneath that root, by an opening that (if
    [found]) found a file contained in it; and of no path of this request did
    the kernel say that it leaves its root. *)
Definition just_looked (found : bool) (q : string) (s : @k_state (Watched OS)) : Prop :=
  exists r rel sub, selects true r rel /\ q = path_join [root_Path r; sub] /\
    looked (root_Path r) sub found s.2 /\
    (found = true -> sub = rel /\ exists n, contained s (root_Path r) rel n).
(** An entry, read from it, of the contained directory that was opened. *)
Definition entry_of (q : string) (s : @k_state (Watched OS)) : Prop :=
  exists r rel n dir x, selects false r rel /\ contained s (root_Path r) rel n /\
    file_name (root_Path r) rel dir /\ x ∈ w_listed s.2 /\ q = dir +:+ "/" +:+ x.

(** What a handler promises of each of its calls. *)
Definition file_promise (R : Type) (e : FsE R) (s : @k_state (Watched OS)) : Prop :=
  match e with
  | Open q fl _ => exists r rel, selects false r rel /\ q = root_Path r /\ fl = root_flags
  | Openat _ _ fl _ | Openat2 _ _ fl _ _ =>
      may_write fl = true -> exists r rel, selects true r rel
  | Fstat fd | ReadDir fd | ServeContent fd _ _ => holds_beneath false fd s
  | CopyBody fd limit => holds_beneath true fd s /\ limit = maxUploadBytes
  | Lstat q => entry_of q s
  | Mkdir q _ => on_the_way q /\ just_looked false q s
  | Remove q | RemoveAll q => on_the_way q /\ q = clean p /\ just_looked true q s
  | Close _ | Missing_Load | Missing_Store _ => True
  end.

Lemma promise_opens r rel w flags :
  selects w r rel -> w = may_write flags -> (flags = O_RDONLY \/ flags = put_flags) ->
  forall R (e : FsE R) s, opens_with (root_Path r) flags R e -> file_promise R e s.
Proof.
  intros [Hsel Hw] -> Hfl R e s. destruct e; cbn; try done.
  - intros [-> ->]. exists r, rel. by split.
  - intros [->| ->]; [done|]. destruct Hfl as [->| ->]; [done|]. intros _. exists r, rel. split; [done|]. by intros _; apply Hw.
  - intros ->. destruct Hfl as [->| ->]; [done|]. intros _. exists r, rel. split; [done|]. by intros _; apply Hw.
Qed.
Lemma contained_seen (s s' : @k_state (Watched OS)) root rel n :
  remembers s s' -> contained s root rel n -> contained s' root rel n.
Proof.
  intros Hm (d & Hd & Hb). exists d. split; [by eapply remembers_named|].
  destruct Hb; [left; by eapply remembers_below|right; by eapply descends_seen].
Qed.
Lemma holds_use w r rel fds fd (s s1 : @k_state (Watched OS)) :
  selects w r rel -> holds_one fds fd (contained s (root_Path r) rel) s ->
  remembers s s1 -> k_fds s1 = k_fds s ->
  holds_beneath w fd s1 /\ holds_one fds fd (contained s1 (root_Path r) rel) s1.
Proof.
  intros Hs (Hn & n & Hf & Hc) Hm Hf1. apply (contained_seen _ _ _ _ _ Hm) in Hc. split.
  - exists r, rel, n. split; [done|]. split; [|done]. by rewrite Hf1, Hf, lookup_insert, decide_True.
  - split; [done|]. exists n. by rewrite Hf1.
Qed.

(** A call while the file is open: its promise may use what it was opened as
    and what has been seen. *)
Lemma amid_file_call {A R} w r rel fds fd (e : FsE R) (f : R -> Fs A) (s : @k_state (Watched OS)) Q :
  selects w r rel -> holds_one fds fd (contained s (root_Path r) rel) s ->
  on_descriptors e = false ->
  (forall s1, holds_beneath w fd s1 -> holds_one fds fd (contained s1 (root_Path r) rel) s1 ->
     s1.2 = s.2 -> file_promise R e s1) ->
  (forall a s', holds_one fds fd (contained s' (root_Path r) rel) s' ->
     s'.2 = observe e a s.2 -> amid file_promise (f a) s' Q) ->
  amid file_promise (call e ≫= f) s Q.
Proof.
  intros Hs Hh He HG Hf. apply amid_watched.
  - intros s1 Hm Hf1 Ho. destruct (holds_use _ _ _ _ _ _ _ Hs Hh Hm Hf1). by apply HG.
  - intros a s' Hm Ho Hf1. apply Hf; [|done]. by destruct (holds_use _ _ _ _ _ _ _ Hs Hh Hm (Hf1 He)).
Qed.
Lemma amid_close_file {A} fds fd P (f : unit -> Fs A) (s : @k_state (Watched OS)) Q :
  holds_one fds fd P s ->
  (forall s', k_fds s' = fds -> remembers s s' -> s'.2 = s.2 -> amid file_promise (f tt) s' Q) ->
  amid file_promise (call (Close fd) ≫= f) s Q.
Proof.
  intros (Hn & n & Hf & _) H. apply rg_call. intros s1 Ho. split; [done|]. intros [] s2 Hs.
  pose proof (k_others_seen _ _ Ho) as Hm. pose proof (k_others_fds _ _ Ho) as Hf1.
  pose proof (k_close _ _ _ _ Hs) as Hc. pose proof (k_sem_seen _ _ _ _ _ Hs) as Hm2.
  destruct Ho as [_ Ho], Hs as [_ Hs]. apply H.
  - by rewrite Hc, Hf1, Hf, delete_insert_id.
  - by eapply remembers_trans.
  - by rewrite Hs, Ho.
Qed.

(** Nothing stays open. *)
Definition leaves {A} (fds : gmap Z k_node) (a : A) (s : @k_state (Watched OS)) : Prop := k_fds s = fds.

(** An opening, and what it looked at. *)
Lemma amid_open_file r rel w flags (s : @k_state (Watched OS)) sub :
  selects w r rel -> w = may_write flags -> (flags = O_RDONLY \/ flags = put_flags) ->
  w_escaped s.2 = false -> forall perm,
  amid file_promise (OpenBeneath (root_Path r) sub flags perm) s (fun o s' =>
    opens_contained (k_fds s) (root_Path r) sub o s' /\ looks (root_Path r) sub o s').
Proof.
  intros Hs Hw Hfl He perm. apply amid_both; [|by apply OpenBeneath_looks].
  apply OpenBeneath_opens; [by eapply promise_opens|]. by destruct Hfl as [-> | ->].
Qed.

Lemma openForRead_opens (s : @k_state (Watched OS)) :
  w_escaped s.2 = false ->
  amid file_promise (openForRead roots p) s (fun r s' =>
    match r with
    | Ok f => exists rt rel, selects false rt rel /\
        holds_one (k_fds s) (f_Fd f) (contained s' (root_Path rt) rel) s' /\
        file_name (root_Path rt) rel (f_Name f)
    | Err _ => leaves (k_fds s) r s'
    end).
Proof.
  intros He. unfold openForRead. destruct (resolveRoot roots p) as [[rt rel]|e] eqn:Hr; [|done].
  assert (selects false rt rel) as Hs by done.
  apply amid_bind. eapply amid_mono; [|eapply amid_open_file; [exact Hs|done|by left|done]].
  intros [f|e] s' [H Hl]; cbn in *; [|done]. exists rt, rel. tauto.
Qed.

Lemma handleFileGet_confined q (s : @k_state (Watched OS)) :
  query_get q "path" = p -> w_escaped s.2 = false ->
  amid file_promise (handleFileGet Errno_string roots q) s (leaves (k_fds s)).
Proof.
  intros E He. unfold handleFileGet. rewrite E. apply amid_bind.
  eapply amid_mono; [|by apply openForRead_opens].
  intros [f|e] s1 H; [|exact H]. destruct H as (r & rel & Hs & Hh & _).
  eapply amid_file_call; [done..|]. intros [fi|e] s2 Hh2 _.
  - destruct (st_IsDir fi).
    + by eapply amid_close_file.
    + apply amid_bind. eapply amid_file_call; [done..|]. intros [] s3 Hh3 _.
      apply rg_ret. by eapply amid_close_file.
  - by eapply amid_close_file.
Qed.

Lemma list_entries_confined r rel fds f ents (s : @k_state (Watched OS)) :
  selects false r rel -> holds_one fds (f_Fd f) (contained s (root_Path r) rel) s ->
  file_name (root_Path r) rel (f_Name f) -> (forall e, e ∈ ents -> de_Name e ∈ w_listed s.2) ->
  amid file_promise (list_entries f p ents) s (fun _ s' =>
    holds_one fds (f_Fd f) (contained s' (root_Path r) rel) s').
Proof.
  intros Hs. revert s. induction ents as [|e ents IH]; intros s Hh Hn Hin; [done|]. cbn [list_entries].
  eapply amid_file_call; [done..| |].
  - intros s1 _ (_ & n & _ & Hc) Ho. exists r, rel, n, (f_Name f), (de_Name e).
    split; [done|]. split; [done|]. split; [done|]. split; [rewrite Ho; apply Hin; left|done].
  - intros info s1 Hh1 Ho. apply amid_bind.
    eapply amid_mono; [|apply IH; [done|done|]].
    + by intros [] s2 Hh2.
    + intros e' He'. rewrite Ho. apply Hin. by right.
Qed.
Lemma handleFileList_confined ws q (s : @k_state (Watched OS)) :
  (if bool_decide (query_get q "path" = "") then ws else query_get q "path") = p ->
  w_escaped s.2 = false ->
  amid file_promise (handleFileList Errno_string roots ws q) s (leaves (k_fds s)).
Proof.
  intros E He. unfold handleFileList. rewrite E. apply amid_bind.
  eapply amid_mono; [|by apply openForRead_opens].
  intros [f|e] s1 H; [|exact H]. destruct H as (r & rel & Hs & Hh & Hname).
  eapply amid_file_call; [done..|]. intros [fi|e] s2 Hh2 _; [|by eapply amid_close_file].
  destruct (st_IsDir fi); cbn [negb]; [|by eapply amid_close_file].
  apply amid_bind. eapply amid_file_call; [done..|]. intros [ents|e] s3 Hh3 Ho3.
  - apply amid_bind. eapply amid_mono; [|eapply list_entries_confined; [done|exact Hh3|done|]].
    + intros out s4 Hh4. apply rg_ret. cbn in Hh4. eapply amid_close_file; [exact Hh4|].
      intros s5 H5 _ _. exact H5.
    + intros e He'. rewrite Ho3. cbn. apply elem_of_app. left. by apply list_elem_of_fmap_2.
  - by eapply amid_close_file.
Qed.

(** The path of a prefix of what is left of the request's path. *)
Lemma way_path r segs l m rs :
  selects true r (rel_of segs) -> root_Path r = render rs -> path_segs (rs ++ segs) ->
  clean p = render (rs ++ segs) -> segs = (l ++ m)%list -> l <> [] ->
  path_join [root_Path r; join "/" l] = render (rs ++ l) /\ on_the_way (render (rs ++ l)).
Proof.
  intros Hs Hr Hp Hc -> Hl. unfold path_segs in Hp. rewrite !Forall_app in Hp. destruct Hp as (H1 & H2 & H3).
  pose proof (path_segs_no_slash _ H2) as Hn.
  split.
  - rewrite Hr, path_join_beneath, split_join, filter_plain;
      rewrite ?split_join; auto using path_segs_plain, plain_no_dotdot.
  - exists r, (rel_of (l ++ m)). split; [done|]. rewrite Hr, Hc. split; [apply contains_render_app|].
    split; [|rewrite app_assoc; apply contains_render_app].
    intros E. apply (f_equal (split slash)) in E. unfold render in E.
    rewrite !slash_app, !split_slash_cons in E. injection E as E.
    assert (Forall (no_byte slash) rs) by by apply path_segs_no_slash.
    rewrite split_join in E; [|by destruct rs|by apply Forall_app].
    destruct rs as [|x rs]; cbn [app] in E.
    + destruct l as [|y l]; [done|]. cbn in E. injection E as -> _.
      by inversion_clear H2 as [|? ? [[? _] _] _].
    + rewrite split_join in E by done. apply (f_equal length) in E. cbn in E. rewrite length_app in E.
      destruct l; [done|cbn in E; lia].
Qed.

Lemma join_nonempty l : Forall plain_seg l -> join "/" l = "" -> l = [].
Proof.
  destruct l as [|x l]; [done|]. intros [[Hx _] _]%Forall_cons E. destruct l; [done|].
  rewrite join_cons in E. by destruct x.
Qed.
Lemma next_path l x :
  Forall plain_seg l ->
  (if bool_decide (join "/" l = "") then x else join "/" l +:+ "/" +:+ x) = join "/" (l ++ [x]).
Proof.
  intros Hl. case_bool_decide as E; [by rewrite (join_nonempty _ Hl E)|].
  rewrite join_app; [done|by intros ->|done].
Qed.
Lemma path_Dir_rel l x :
  path_segs (l ++ [x]) -> path_Dir (rel_of (l ++ [x])) = rel_of l.
Proof.
  unfold path_segs. intros [Hl Hx]%Forall_app. apply Forall_cons in Hx as [[Hx1 Hx2] _].
  pose proof (path_segs_plain _ Hl) as Hpl. pose proof (path_segs_no_slash _ Hl) as Hn.
  unfold path_Dir. destruct l as [|y l].
  { cbn [app rel_of join]. by rewrite (proj2 (last_index_byte_none x slash)). }
  change (rel_of ((y :: l) ++ [x])) with (join "/" ((y :: l) ++ [x])).
  rewrite join_app by done. change (join "/" [x]) with x.
  assert (forall a b, take_string (S (String.length a)) (a +:+ "/" +:+ b) = a +:+ "/") as Htake.
  { intros a b. pose proof (take_length_app (a +:+ "/") b) as Ht.
    by rewrite length_app_str, app_assoc_str, Nat.add_1_r in Ht. }
  rewrite (slash_app x), last_index_byte_app, <-(slash_app x), Htake by done.
  assert (split slash (join "/" (y :: l) +:+ "/") = ((y :: l) ++ [""])%list) as Hsp
    by by apply (split_join_app (y :: l) "").
  assert (has_prefix (join "/" (y :: l) +:+ "/") "/" = false) as Hab.
  { pose proof (Forall_inv Hpl) as [Hy _]. pose proof (Forall_inv Hn) as Hyn.
    destruct y as [|c y]; [done|]. destruct Hyn as [Hc _].
    assert (exists t, join "/" (String c y :: l) +:+ "/" = String c t) as [t ->]
      by (destruct l; eexists; [reflexivity|rewrite join_cons; reflexivity]).
    cbn. destruct (ascii_dec "/" c) as [E|]; [|done]. exfalso. apply Hc. by rewrite <-E. }
  rewrite clean_relative, Hsp, filter_app, filter_plain.
  - rewrite filter_cons_False by (intros [? _]; done). by rewrite app_nil_r.
  - done.
  - intros E. apply (f_equal String.length) in E. rewrite length_app_str in E. cbn in E. lia.
  - done.
  - rewrite Hsp. apply not_elem_of_app. split; [by apply plain_no_dotdot|].
    by apply not_elem_of_cons; split; [|apply not_elem_of_nil].
Qed.

(** Every directory [mkdirAllBeneath] makes is on the way to the path, and was
    just looked for. *)
Lemma mkdir_segs_confined r rs segs l m d todo (s : @k_state (Watched OS)) :
  selects true r (rel_of segs) -> root_Path r = render rs -> path_segs (rs ++ segs) ->
  clean p = render (rs ++ segs) -> segs = (l ++ m)%list -> l = (d ++ todo)%list ->
  w_escaped s.2 = false ->
  amid file_promise (mkdir_segs (root_Path r) (join "/" d) todo) s (fun a s' =>
    leaves (k_fds s) a s' /\ (a = Ok tt -> w_escaped s'.2 = false)).
Proof.
  intros Hs Hr Hp Hc El. revert d s. induction todo as [|x todo IH]; intros d s Ed Hesc; [done|].
  cbn [mkdir_segs].
  assert (Forall plain_seg (d ++ x :: todo)) as Hpl.
  { subst. apply path_segs_plain in Hp. rewrite !Forall_app in *. tauto. }
  apply Forall_app in Hpl as [Hd [Hx _]%Forall_cons].
  rewrite bool_decide_eq_false_2 by (by destruct Hx). rewrite next_path by done.
  destruct (way_path r segs (d ++ [x]) (todo ++ m) rs) as [Hq Hway]; try done.
  { subst. by rewrite <-!app_assoc. }
  { by destruct d. }
  assert (forall s', k_fds s' = k_fds s -> w_escaped s'.2 = false ->
    amid file_promise (mkdir_segs (root_Path r) (join "/" (d ++ [x])) todo) s' (fun a s' =>
      leaves (k_fds s) a s' /\ (a = Ok tt -> w_escaped s'.2 = false))) as Hgo.
  { intros s' <-. apply IH. by rewrite <-app_assoc. }
  apply amid_bind. eapply amid_mono; [|eapply (amid_open_file r (rel_of segs) false);
    [by split; [exact (proj1 Hs)|]|done|by left|done]].
  intros [f|e] s1 [Ho Hl]; cbn in Ho, Hl.
  - eapply amid_close_file; [exact Ho|]. intros s2 Hf2 _ Hg. apply Hgo; [done|]. rewrite Hg. apply Hl.
  - destruct (IsEscape e); [done|]. specialize (Hl eq_refl). rewrite Hq. apply amid_watched.
    + intros s2 _ _ Hg. split; [exact Hway|]. exists r, (rel_of segs), (join "/" (d ++ [x])).
      by rewrite Hg, Hq.
    + intros a s2 _ Hg Hf2. specialize (Hf2 eq_refl). cbn in Hg.
      assert (w_escaped s2.2 = false) as He2 by (rewrite Hg; apply Hl).
      pose proof (eq_trans Hf2 Ho) as Hf.
      destruct a as [[]|n]; [by apply Hgo|]. case_bool_decide; [by apply Hgo|]. by split.
Qed.

Lemma handleFilePut_confined q (s : @k_state (Watched OS)) :
  canonical_roots roots -> query_get q "path" = p -> writes = true -> w_escaped s.2 = false ->
  amid file_promise (handleFilePut Errno_string roots q) s (leaves (k_fds s)).
Proof.
  intros Hcan E Hw He. unfold handleFilePut. rewrite E.
  destruct (resolveRoot roots p) as [[r rel]|e] eqn:Hres; [|done].
  destruct (root_ReadOnly r) eqn:Hro; [done|]. case_bool_decide as Hdot; [done|].
  assert (selects true r rel) as Hsel by done.
  destruct (resolveRoot_segs _ _ _ _ Hcan Hres) as (rs & segs & Hr & Hp & Hc & Hrel). subst rel.
  destruct segs as [|x l _] using rev_ind; [done|].
  assert (path_segs (l ++ [x])) as Hlx by (unfold path_segs in *; rewrite !Forall_app in *; tauto).
  rewrite path_Dir_rel by done. apply amid_bind.
  eapply (amid_mono _ _ _ (fun a s' => leaves (k_fds s) a s' /\ (a = Ok tt -> w_escaped s'.2 = false))).
  - intros [[]|e] s1 [Hf1 He1]; [|exact Hf1]. apply amid_bind.
    eapply amid_mono; [|eapply amid_open_file; [exact Hsel|done|by right|by apply He1]].
    intros [f|e] s2 [Ho _]; cbn in Ho; [|exact (eq_trans Ho Hf1)].
    eapply amid_file_call; [exact Hsel|exact Ho|done|by intros s3 Hb|]. intros n s3 Ho3 _.
    eapply amid_close_file; [exact Ho3|]. intros s4 Hf4 _ _. exact (eq_trans Hf4 Hf1).
  - case_bool_decide as Hl; [done|]. unfold mkdirAllBeneath.
    destruct l as [|y l]; [done|]. cbn [rel_of].
    assert (split slash (join "/" (y :: l)) = y :: l) as ->.
    { apply split_join; [done|]. apply path_segs_no_slash. by apply Forall_app in Hlx as [? _]. }
    by apply (mkdir_segs_confined r rs ((y :: l) ++ [x]) (y :: l) [x] []).
Qed.

Lemma handleFileDelete_confined q (s : @k_state (Watched OS)) :
  canonical_roots roots -> query_get q "path" = p -> writes = true -> w_escaped s.2 = false ->
  amid file_promise (handleFileDelete Errno_string roots q) s (leaves (k_fds s)).
Proof.
  intros Hcan E Hw He. unfold handleFileDelete. rewrite E.
  destruct (resolveRoot roots p) as [[r rel]|e] eqn:Hres; [|done].
  destruct (root_ReadOnly r) eqn:Hro; [done|]. case_bool_decide as Hdot; [done|].
  assert (selects true r rel) as Hsel by done.
  destruct (resolveRoot_segs _ _ _ _ Hcan Hres) as (rs & segs & Hr & Hp & Hc & Hrel).
  destruct segs as [|x l]; [done|]. rewrite Hrel in Hsel.
  destruct (way_path r (x :: l) (x :: l) [] rs) as [Hq Hway]; try done; [by rewrite app_nil_r|].
  change (join "/" (x :: l)) with (rel_of (x :: l)) in Hq. rewrite <-Hrel in Hq, Hsel.
  apply amid_bind. eapply amid_mono; [|eapply (amid_open_file r rel false);
    [by split|done|by left|done]].
  intros [f|e] s1 [Ho Hl]; cbn in Ho, Hl; [|exact Ho]. destruct (Ho) as (_ & n & _ & Hn).
  eapply amid_close_file; [exact Ho|]. intros s2 Hf2 Hm Hg.
  assert (forall s3, remembers s2 s3 -> s3.2 = s2.2 ->
    on_the_way (path_join [root_Path r; rel]) /\ path_join [root_Path r; rel] = clean p /\
    just_looked true (path_join [root_Path r; rel]) s3) as Hprom.
  { intros s3 Hm3 Hg3. rewrite Hq. split; [done|]. split; [done|]. exists r, rel, rel. rewrite Hq, Hg3, Hg.
    split; [done|]. split; [done|]. split; [apply Hl|]. intros _. split; [done|]. exists n.
    eapply contained_seen; [exact Hm3|]. by eapply contained_seen. }
  case_bool_decide; (apply amid_watched; [by intros; apply Hprom|]);
    intros a s3 _ _ Hf3; pose proof (eq_trans (Hf3 eq_refl) Hf2) as Hf.
  - by destruct a as [[]|[[op at_] e]].
  - by destruct a as [[]|e].
Qed.
End Confined.

(** The path a request is about, and whether its route writes. *)
Definition asked (route : FileRoute) (ws : string) (q : Values) : string :=
  match route with
  | RouteList => if bool_decide (query_get q "path" = "") then ws else query_get q "path"
  | _ => query_get q "path"
  end.
Definition route_writes (route : FileRoute) : bool :=
  match route with RoutePut | RouteDelete => true | _ => false end.

(** C24: whatever others do to the tree meanwhile, the file API reads and lists
    only files contained in the root the request's path belongs to, and of a
    directory's entries only those it was read to hold; it creates, writes and
    removes only if that root is not mounted read-only and the route is one that
    writes.  Bytes go to a file contained in the root.  What is made or removed
    by path lies strictly beneath it and leads to (for a removal, is) the path
    asked for, right after that very path was looked for beneath the root: a
    directory is only made where nothing could be opened, an entry only removed
    where a contained file was, and neither once the kernel has answered that
    some path leaves its root.  No descriptor stays open, on any branch.
    (Between the look and the call by path others may still swap a directory
    for a link; that window is the code's.) *)
Theorem files_confined {OS : Kernel} {OSL : @KernelLaws OS} Errno_string route roots ws q s :
  canonical_roots roots ->
  amid (OS := Watched OS) (file_promise roots (asked route ws q) (route_writes route))
    (serveFiles Errno_string route roots ws q) (s, unseen) (leaves (k_fds s)).
Proof.
  intros Hc. destruct route.
  - by apply (handleFileGet_confined _ _ _ _ q (s, unseen)).
  - by apply (handleFilePut_confined _ _ _ _ q (s, unseen)).
  - by apply (handleFileDelete_confined _ _ _ _ q (s, unseen)).
  - by apply (handleFileList_confined _ _ _ _ ws q (s, unseen)).
Qed.

(** ** On a concrete tree *)

Definition wit_roots : list Root :=
  [{| root_Path := "/srv"; root_ReadOnly := false |}; {| root_Path := "/srv/a"; root_ReadOnly := true |}].
Definition wit_query (p : string) : Values := {[ "path" := [p] ]}.
Definition wit_serve route p : FileResponse :=
  fst (interp tree_step (serveFiles itoa route wit_roots "/srv" (wit_query p)) (wit_tree true)).

Example file_answers :
  map (fun '(route, p) => wit_serve route p)
    [(RoutePut, "/srv/a/b"); (RouteDelete, "/srv/"); (RouteGet, "/etc/passwd");
     (RouteGet, "/srv/../etc/passwd"); (RouteGet, "/srv/l"); (RouteDelete, "/srv/a/../l");
     (RouteDelete, "/srv/gone")] =
  [file_fail 403 "read_only" "this path is mounted read-only";
   file_fail 403 "root_delete" "refusing to delete a mount root";
   fileError itoa errNoRoot; fileError itoa errNoRoot;
   fileError itoa (FSafe ErrEscape); fileError itoa (FSafe ErrEscape);
   file_fail 404 "not_found" "no such file or directory"].
Proof. vm_compute. reflexivity. Qed.

Lemma wit_roots_canonical : canonical_roots wit_roots.
Proof. repeat constructor; cbn; apply isAbsClean_canonical; vm_compute; reflexivity. Qed.
Lemma files_confined_wit :
  canonical_roots wit_roots /\
  amid (OS := Watched TreeKernel) (file_promise wit_roots "/srv/new/x" true)
    (serveFiles itoa RoutePut wit_roots "/srv" (wit_query "/srv/new/x")) (wit_tree true, unseen)
    (leaves (OS := TreeKernel) (t_fds (wit_tree true))).
Proof.
  split; [exact wit_roots_canonical|].
  exact (files_confined (OS := TreeKernel) itoa RoutePut wit_roots "/srv" (wit_query "/srv/new/x")
    (wit_tree true) wit_roots_canonical).
Defined.
Lemma resolveRoot_exact_wit :
  resolveRoot wit_roots "/srv/a/b/../c" = Ok ({| root_Path := "/srv/a"; root_ReadOnly := true |}, "c") /\
  checkRel "c" = Ok "c".
Proof.
  split; [vm_compute; reflexivity|].
  apply (proj2 (resolveRoot_exact wit_roots "/srv/a/b/../c" {| root_Path := "/srv/a"; root_ReadOnly := true |} "c")
    wit_roots_canonical); vm_compute; [repeat split; intros H; discriminate H|reflexivity].
Defined.
