(* ===== verification/InitProto.v ===== *)
(** * Requests, output and frames of jdix-init (pkg/initd: exec.go, stream.go)

    What an exec request asks for, bounded capture of output, the frames of a
    stream and the padded base64 they carry bytes in. *)
From S2P Require Import Prelude GoStrings Url Api ApiKey.
Open Scope string_scope.
Open Scope Z_scope.

(** ** Bounds *)

Definition defaultTimeout : Z := 120 * second.
Definition maxTimeout : Z := 6 * hour.
Definition defaultMaxOutput : Z := Z.shiftl 4 20.
Definition gracePeriod : Z := 5 * second.

Definition timeoutOf (req : ExecRequest) : Z :=
  if ex_TimeoutSeconds req <=? 0 then defaultTimeout
  else
    let d := seconds (ex_TimeoutSeconds req) in
    if maxTimeout <? d then maxTimeout else d.

(** The limit of [handleExec]. *)
Definition outputLimit (req : ExecRequest) : Z :=
  if ex_MaxOutputBytes req <=? 0 then defaultMaxOutput else ex_MaxOutputBytes req.

(** ** capWriter *)

Record capWriter := { cw_buf : string; cw_limit : Z; cw_over : bool }.
Definition newCapWriter (limit : Z) : capWriter := {| cw_buf := ""; cw_limit := limit; cw_over := false |}.
(** [Write], which always reports the whole of [p] as written. *)
Definition Write (p : string) (c : capWriter) : capWriter :=
  let room := cw_limit c - Z.of_nat (String.length (cw_buf c)) in
  if 0 <? room then
    if Z.of_nat (String.length p) <=? room
    then {| cw_buf := cw_buf c +:+ p; cw_limit := cw_limit c; cw_over := cw_over c |}
    else {| cw_buf := cw_buf c +:+ take_string (Z.to_nat room) p; cw_limit := cw_limit c; cw_over := true |}
  else if (0 <? String.length p)%nat
  then {| cw_buf := cw_buf c; cw_limit := cw_limit c; cw_over := true |}
  else c.
(** [io.Copy] of what a pipe delivers, read by read. *)
Definition Copy (reads : list string) (c : capWriter) : capWriter := foldl (fun c p => Write p c) c reads.

(** ** Signals *)

Definition SIGHUP : Z := 1.
Definition SIGINT : Z := 2.
Definition SIGQUIT : Z := 3.
Definition SIGKILL : Z := 9.
Definition SIGTERM : Z := 15.
Definition signalByName (name : string) : Z :=
  if bool_decide (name ∈ ["SIGINT"; "INT"; "2"]) then SIGINT
  else if bool_decide (name ∈ ["SIGQUIT"; "QUIT"; "3"]) then SIGQUIT
  else if bool_decide (name ∈ ["SIGKILL"; "KILL"; "9"]) then SIGKILL
  else if bool_decide (name ∈ ["SIGHUP"; "HUP"; "1"]) then SIGHUP
  else SIGTERM.

(** ** Queries of the streaming routes *)

(** The digits of [strconv.ParseUint], which stops where 64 bits overflow. *)
Fixpoint parse_sat (acc : Z) (s : string) : option Z :=
  match s with
  | EmptyString => Some acc
  | String a s' =>
      match digit_val a with
      | None => None
      | Some d => if 2 ^ 64 <=? acc * 10 + d then Some (2 ^ 64 - 1) else parse_sat (acc * 10 + d) s'
      end
  end.
(** An optional sign, and the digits after it. *)
Definition split_sign (s : string) : bool * string :=
  match s with
  | String a s' =>
      if ascii_dec a "-"%char then (true, s')
      else if ascii_dec a "+"%char then (false, s') else (false, s)
  | EmptyString => (false, s)
  end.
Definition sat_value (s : string) : option Z :=
  let '(neg, body) := split_sign s in
  match body with
  | EmptyString => None
  | _ => option_map (fun n => if neg then Z.max (- n) (- 2 ^ 63) else Z.min n (2 ^ 63 - 1)) (parse_sat 0 body)
  end.
(** The value of [strconv.Atoi] when its error is dropped: what is out of
    range counts as the nearest integer, what does not parse as 0. *)
Definition atoi_value (s : string) : Z := default 0 (sat_value s).
(** The text of its error. *)
Definition atoi_error (s : string) : string :=
  "strconv.Atoi: parsing " +:+ quote s +:+ ": " +:+
  match sat_value s with Some _ => "value out of range" | None => "invalid syntax" end.

Definition execReqFromQuery (q : Values) : ExecRequest :=
  let v := query_get q "timeoutSeconds" in
  {| ex_Cmd := query_get q "cmd";
     ex_Argv := default [] (q !! "argv");
     ex_Cwd := query_get q "cwd";
     ex_Env := ∅;
     ex_TimeoutSeconds := if bool_decide (v = "") then 0 else atoi_value v;
     ex_MaxOutputBytes := 0 |}.
Definition sizeFromQuery (q : Values) : Z * Z :=
  let read k d := match atoi (query_get q k) with Some v => if 0 <? v then v else d | None => d end in
  (read "cols" 120, read "rows" 40).

(** ** Padded base64 (base64.StdEncoding) *)

Fixpoint drop_breaks (s : string) : string :=
  match s with
  | EmptyString => ""
  | String c s' => if line_break c then drop_breaks s' else String c (drop_breaks s')
  end.
Definition padding (n : nat) : string :=
  match (n mod 3)%nat with 1%nat => "==" | 2%nat => "=" | _ => "" end.
Definition StdEncode (s : string) : string :=
  EncodeToString std_alphabet s +:+ padding (String.length s).
(** Line breaks apart, the length is a multiple of four and at most two [=]
    close the text. *)
Definition StdDecode (s : string) : option string :=
  let t := drop_breaks s in
  if negb (String.length t mod 4 =? 0)%nat then None
  else if has_suffix t "==" then DecodeString std_alphabet (trim_suffix t "==")
  else DecodeString std_alphabet (trim_suffix t "=").

(** ** Frames *)

Definition frame (t : string) : Frame :=
  {| fr_T := t; fr_D := ""; fr_Seq := 0; fr_Cols := 0; fr_Rows := 0; fr_Sig := ""; fr_Code := 0;
     fr_DurationMs := 0; fr_ErrCode := ""; fr_Msg := "" |}.
Definition data_frame (kind data : string) : Frame :=
  {| fr_T := kind; fr_D := StdEncode data; fr_Seq := 0; fr_Cols := 0; fr_Rows := 0; fr_Sig := "";
     fr_Code := 0; fr_DurationMs := 0; fr_ErrCode := ""; fr_Msg := "" |}.
Definition error_frame (code msg : string) : Frame :=
  {| fr_T := FrameError; fr_D := ""; fr_Seq := 0; fr_Cols := 0; fr_Rows := 0; fr_Sig := "";
     fr_Code := 0; fr_DurationMs := 0; fr_ErrCode := code; fr_Msg := msg |}.
Definition exit_frame (code durationMs : Z) : Frame :=
  {| fr_T := FrameExit; fr_D := ""; fr_Seq := 0; fr_Cols := 0; fr_Rows := 0; fr_Sig := "";
     fr_Code := code; fr_DurationMs := durationMs; fr_ErrCode := ""; fr_Msg := "" |}.
Definition with_seq (f : Frame) (n : Z) : Frame :=
  {| fr_T := fr_T f; fr_D := fr_D f; fr_Seq := n; fr_Cols := fr_Cols f; fr_Rows := fr_Rows f;
     fr_Sig := fr_Sig f; fr_Code := fr_Code f; fr_DurationMs := fr_DurationMs f;
     fr_ErrCode := fr_ErrCode f; fr_Msg := fr_Msg f |}.
(** The frames [send] numbers. *)
Definition numbered (f : Frame) : bool :=
  bool_decide (fr_T f = FrameStdout) || bool_decide (fr_T f = FrameStderr) || bool_decide (fr_T f = FrameEvent).

(** ** Properties *)

(** The deadline of a command is never beyond six hours; it is exactly the
    number of seconds asked for when that is between one and the maximum, two
    minutes when none is asked for, and the maximum above it, as long as the
    request stays below the 292 years a 64-bit duration counts. *)
Theorem timeoutOf_bounds req :
  let n := ex_TimeoutSeconds req in
  timeoutOf req <= maxTimeout /\
  (n <= 9223372036 ->
     0 < timeoutOf req /\
     timeoutOf req = if n <=? 0 then defaultTimeout else Z.min (n * second) maxTimeout).
Proof.
  cbn zeta. unfold timeoutOf. destruct (Z.leb_spec (ex_TimeoutSeconds req) 0).
  { unfold defaultTimeout, maxTimeout, hour, minute, second. lia. }
  split.
  - destruct (Z.ltb_spec maxTimeout (seconds (ex_TimeoutSeconds req))); lia.
  - intros Hn. rewrite seconds_small by lia.
    destruct (Z.ltb_spec maxTimeout (ex_TimeoutSeconds req * second));
      unfold maxTimeout, hour, minute, second in *; lia.
Qed.
(** Beyond that the product wraps around: the deadline may lie in the past. *)
Lemma timeoutOf_overflow :
  timeoutOf (execReqFromQuery {[ "timeoutSeconds" := ["99999999999999999999"] ]}) = - second.
Proof. vm_compute. reflexivity. Qed.

Lemma length_take n s : String.length (take_string n s) = Nat.min n (String.length s).
Proof. revert n. induction s as [|c s IH]; intros [|n]; cbn; auto. Qed.
Lemma take_app_str n s t :
  take_string n (s +:+ t) = take_string n s +:+ take_string (n - String.length s) t.
Proof.
  revert n. induction s as [|c s IH]; intros [|n]; cbn; first [done | by destruct t | by rewrite IH].
Qed.
Lemma take_all n s : (String.length s <= n)%nat -> take_string n s = s.
Proof. revert n. induction s as [|c s IH]; intros [|n] H; cbn in *; [done..|lia|]. rewrite IH; [done|lia]. Qed.

(** What a bounded writer promises: it shows the first [limit] bytes of what
    was written and whether there were more. *)
Definition captured (limit : Z) (written : string) (c : capWriter) : Prop :=
  cw_limit c = limit /\ cw_buf c = take_string (Z.to_nat limit) written /\
  cw_over c = (limit <? Z.of_nat (String.length written)).

Lemma captured_Write limit written p c :
  0 < limit -> captured limit written c -> captured limit (written +:+ p) (Write p c).
Proof.
  intros Hl (El & Eb & Eo). unfold Write. rewrite El, Eb, length_take.
  unfold captured. rewrite take_app_str, length_app_str.
  destruct (Z.ltb_spec 0 (limit - Z.of_nat (Nat.min (Z.to_nat limit) (String.length written)))).
  - assert (String.length written < Z.to_nat limit)%nat as Hlt by lia.
    rewrite Nat.min_r by lia. rewrite !(take_all (Z.to_nat limit) written) by lia.
    destruct (Z.leb_spec (Z.of_nat (String.length p)) (limit - Z.of_nat (String.length written))); cbn;
      (split; [done|split]).
    + by rewrite take_all by lia.
    + rewrite Eo. destruct (Z.ltb_spec limit (Z.of_nat (String.length written))), (Z.ltb_spec limit (Z.of_nat (String.length written + String.length p))); lia || done.
    + f_equal. f_equal. lia.
    + symmetry. apply Z.ltb_lt. lia.
  - assert (Z.to_nat limit - String.length written = 0)%nat as -> by lia.
    destruct p as [|a p]; cbn [take_string String.length Nat.ltb]; cbn.
    + rewrite app_empty_r, Nat.add_0_r. done.
    + split; [done|]. split; [by rewrite app_empty_r|]. symmetry. apply Z.ltb_lt. lia.
Qed.

Lemma Copy_captured limit reads :
  0 < limit -> captured limit (String.concat "" reads) (Copy reads (newCapWriter limit)).
Proof.
  intros Hl. assert (forall w c, captured limit w c ->
    captured limit (w +:+ String.concat "" reads) (Copy reads c)) as H.
  { induction reads as [|p reads IH]; intros w c Hc.
    - cbn. by rewrite app_empty_r.
    - apply captured_Write with (p := p) in Hc; [|done]. apply IH in Hc.
      rewrite app_assoc_str in Hc. cbn [Copy foldl]. destruct reads; [|exact Hc].
      cbn in Hc |- *. by rewrite app_empty_r in Hc. }
  apply (H ""). split; [done|]. split; [by destruct (Z.to_nat limit)|]. symmetry. apply Z.ltb_ge. cbn. lia.
Qed.

(** However the output of a command is cut into writes, a bounded writer
    refines its specification: it holds the first [limit] bytes of it all and
    tells whether there were more; it never holds more than [limit] bytes; and
    the limit a request asks for, or the default, is positive. *)
Theorem Copy_captures req reads :
  let limit := outputLimit req in
  let c := Copy reads (newCapWriter limit) in
  0 < limit /\ captured limit (String.concat "" reads) c /\
  Z.of_nat (String.length (cw_buf c)) <= limit.
Proof.
  cbn zeta. assert (0 < outputLimit req) as Hl.
  { unfold outputLimit. destruct (Z.leb_spec (ex_MaxOutputBytes req) 0); [done|lia]. }
  split; [done|]. pose proof (Copy_captured _ reads Hl) as H. split; [exact H|].
  destruct H as (_ & -> & _). rewrite length_take. lia.
Qed.

(** ** Bytes through frames *)

Definition pad_char : ascii := equals_sign.
Lemma drop_breaks_none s : no_byte "010" s -> no_byte "013" s -> drop_breaks s = s.
Proof.
  induction s as [|c s IH]; [done|]. intros [H1 H2] [H3 H4]. cbn. unfold line_break.
  destruct (ascii_dec c _); [done|]. destruct (ascii_dec c _); [done|]. by rewrite IH.
Qed.
Lemma padding_triple n : padding (S (S (S n))) = padding n.
Proof. unfold padding. replace (S (S (S n)))%nat with (n + 1 * 3)%nat by lia. by rewrite Nat.Div0.mod_add. Qed.
Lemma length_StdEncode s : (String.length (StdEncode s) mod 4 = 0)%nat.
Proof.
  induction s as [|a|a b|a b c s IH] using string_triples; [done..|].
  unfold StdEncode in *. cbn [EncodeToString String.length]. cbv zeta. cbn [String.append String.length].
  rewrite padding_triple. set (n := String.length _) in *.
  replace (S (S (S (S n))))%nat with (n + 1 * 4)%nat by lia. by rewrite Nat.Div0.mod_add.
Qed.
Lemma no_suffix c s p : no_byte c s -> has_suffix s (String c p) = false.
Proof.
  intros Hs. apply not_true_iff_false. intros [t ->]%has_suffix_spec.
  apply no_byte_app in Hs as [_ [Hc _]]. done.
Qed.

(** Whatever bytes go into a frame come out of it again. *)
Lemma StdDecode_StdEncode s : StdDecode (StdEncode s) = Some s.
Proof.
  pose proof (length_StdEncode s) as Hl. unfold StdDecode, StdEncode in *.
  assert (forall c, c = "010"%char \/ c = "013"%char \/ c = pad_char ->
            no_byte c (EncodeToString std_alphabet s)) as Hno.
  { intros c Hc. apply no_byte_encode. destruct Hc as [->|[->| ->]]; vm_compute; reflexivity. }
  set (e := EncodeToString std_alphabet s) in *.
  rewrite drop_breaks_none.
  2,3: apply no_byte_app; split; [apply Hno; auto|]; unfold padding; by destruct (_ mod 3)%nat as [|[|[|?]]].
  rewrite Hl. cbn [negb Nat.eqb].
  assert (no_byte pad_char e) as Hp by (apply Hno; auto).
  assert (forall t, t = e -> DecodeString std_alphabet t = Some s) as Hd.
  { intros t ->. apply decode_encode, std_good. }
  unfold padding. destruct (_ mod 3)%nat as [|[|[|?]]]; cbn.
  1,4: rewrite app_empty_r, no_suffix by done; unfold trim_suffix; rewrite no_suffix by done; by apply Hd.
  - rewrite (proj2 (has_suffix_spec _ _)) by eauto. rewrite trim_suffix_app. by apply Hd.
  - destruct (has_suffix (e +:+ "=") "==") eqn:Hs; [|rewrite trim_suffix_app; by apply Hd].
    exfalso. apply has_suffix_spec in Hs as [t Ht]. change "==" with ("=" +:+ "=") in Ht.
    rewrite <-app_assoc_str in Ht. apply (f_equal (fun x => trim_suffix x "=")) in Ht.
    rewrite !trim_suffix_app in Ht. rewrite Ht in Hp. apply no_byte_app in Hp as [_ [Hc _]]. done.
Qed.

(** ** Numbers in queries *)

Lemma parse_digits_grows acc s n : 0 <= acc -> parse_digits acc s = Some n -> acc <= n.
Proof.
  revert acc. induction s as [|c s IH]; intros acc Ha; cbn; [intros [= ->]; lia|].
  unfold digit_val. destruct (_ && _)%bool eqn:Hd; [|done]. intros H%IH; bool_to_prop; lia.
Qed.
Lemma parse_sat_digits acc s n :
  0 <= acc -> parse_digits acc s = Some n -> n < 2 ^ 64 -> parse_sat acc s = Some n.
Proof.
  revert acc. induction s as [|c s IH]; intros acc Ha; cbn [parse_digits parse_sat]; [done|].
  destruct (digit_val c) as [d|] eqn:Ed; [|done]. intros Hp Hn.
  assert (0 <= d) as Hd.
  { unfold digit_val in Ed. destruct (_ && _)%bool eqn:E; [|done]. bool_to_prop. injection Ed as <-. lia. }
  assert (acc * 10 + d <= n) by (eapply parse_digits_grows; [|exact Hp]; lia). destruct (Z.leb_spec (2 ^ 64) (acc * 10 + d)); [lia|].
  apply IH; [lia|done..].
Qed.
(** In range, dropping [Atoi]'s error drops nothing. *)
Lemma atoi_value_atoi s v : atoi s = Some v -> atoi_value s = v.
Proof.
  unfold atoi, atoi_value, sat_value. fold (split_sign s). destruct (split_sign s) as [neg body].
  destruct body as [|c body]; [done|]. destruct (parse_digits 0 (String c body)) as [n|] eqn:Ep; [|done].
  destruct (_ && _)%bool eqn:Hr; [|done]. intros [= <-]. bool_to_prop.
  assert (0 <= n) by (eapply parse_digits_grows; [|exact Ep]; lia).
  rewrite (parse_sat_digits 0 (String c body) n); [cbn; destruct neg; lia|lia|done|destruct neg; lia].
Qed.

Lemma timeoutOf_bounds_wit :
  timeoutOf (execReqFromQuery {[ "timeoutSeconds" := ["86400"] ]}) = maxTimeout /\
  0 < timeoutOf (execReqFromQuery {[ "timeoutSeconds" := ["90"] ]}).
Proof.
  split; [vm_compute; reflexivity|].
  apply (proj2 (timeoutOf_bounds (execReqFromQuery {[ "timeoutSeconds" := ["90"] ]}))).
  vm_compute. intros H. discriminate H.
Defined.
