(* ===== verification/InitProc.v ===== *)
(** * jdix-init: configuration and processes (pkg/initd: server.go, proc.go, exec.go)

    The state handed over at bind time, the table of processes, the commands
    that are built from requests, and the handlers as programs over [InitE],
    the calls they make to the reaper, the process table, the kernel and the
    connection.  What runs under [s.mu] or the table's mutex is one call. *)
From S2P Require Import Prelude GoStrings GoTime Url Api Calls InitProto.
Open Scope string_scope.
Open Scope Z_scope.

(** ** server.go *)

Record InitServer := {
  is_SandboxID : string;
  is_Env : gmap string string;
  is_Roots : list Root;
  is_Workspace : string;
  is_Ready : bool }.
Definition NewServer (workspace : string) : InitServer :=
  {| is_SandboxID := ""; is_Env := ∅; is_Roots := []; is_Workspace := workspace; is_Ready := false |}.

Inductive InitResponse :=
| IError (code : Z) (e : Error)
| IOk
| IHealth (ready : bool) (sandboxID : string) (uptimeMs processes : Z)
| IExec (res : ExecResult)
| IProcesses (ps : list Process)
| ISignalled (pid sig : Z)
| IHijacked.                                  (* the connection became a WebSocket, or Accept answered *)
Definition init_fail (code : Z) (errCode msg : string) : InitResponse :=
  IError code {| err_Code := errCode; err_Message := msg |}.

(** [body] is the decoded request, or why it does not decode. *)
Definition handleConfigure (body : result string ConfigureRequest) (s : InitServer)
    : InitResponse * InitServer :=
  match body with
  | Err msg => (init_fail 400 "invalid_body" msg, s)
  | Ok req =>
      let env := cf_Secrets req ∪ cf_Env req in
      let ws := if bool_decide (cf_Workspace req = "") then is_Workspace s else cf_Workspace req in
      let roots := match cf_Roots req with
                   | [] => [{| root_Path := ws; root_ReadOnly := false |}]
                   | roots => roots
                   end in
      if is_Ready s then (init_fail 409 "already_configured" "initialization is one-shot", s)
      else (IOk, {| is_SandboxID := cf_SandboxID req; is_Env := env; is_Roots := roots;
                    is_Workspace := ws; is_Ready := true |})
  end.
Definition snapshot (s : InitServer) : gmap string string * list Root * string :=
  (is_Env s, is_Roots s, is_Workspace s).

(** ** proc.go *)

(** [exec.Cmd] as far as it is filled in; a pty replaces the process group by
    a session of its own. *)
Inductive ProcAttr := Setpgid | SetsidSetctty.
Record Cmd := {
  cmd_Argv : list string; cmd_Dir : string; cmd_Env : list string; cmd_SysProcAttr : ProcAttr }.
Record procEntry := { pe_Label : string; pe_Started : Time; pe_Done : bool }.
Abbreviation procTable := (gmap Z procEntry).

Definition addPID (pid : Z) (label : string) (now : Time) (t : procTable) : procTable :=
  <[pid := {| pe_Label := label; pe_Started := now; pe_Done := false |}]> t.
Definition finish (pid : Z) (t : procTable) : procTable :=
  match t !! pid with
  | Some e => <[pid := {| pe_Label := pe_Label e; pe_Started := pe_Started e; pe_Done := true |}]> t
  | None => t
  end.
Definition forget (pid : Z) (t : procTable) : procTable := base.delete pid t.
Definition status (pid : Z) (t : procTable) : bool * bool :=
  match t !! pid with Some e => (pe_Done e, true) | None => (false, false) end.
Definition process (pid : Z) (t : procTable) : bool := bool_decide (is_Some (t !! pid)).
Definition count (t : procTable) : Z := Z.of_nat (size t).
(** In some order: Go's map iteration has none. *)
Definition list_procs (t : procTable) : list Process :=
  map (fun '(pid, e) => {| p_PID := pid; p_Cmd := pe_Label e; p_Started := RFC3339 (pe_Started e);
                           p_Running := negb (pe_Done e) |}) (map_to_list t).

Definition handleHealth (s : InitServer) (startedAt now : Time) (t : procTable) : InitResponse :=
  IHealth (is_Ready s) (is_SandboxID s) (Z.quot (now - startedAt) millisecond) (count t).

(** ** Commands *)

(** The environment in some order, as [os/exec] takes it. *)
Definition flat_env (env : gmap string string) : list string :=
  map (fun '(k, v) => k +:+ "=" +:+ v) (map_to_list env).
Definition buildCmd (s : InitServer) (req : ExecRequest) : result string (Cmd * string) :=
  let '(env, _, ws) := snapshot s in
  let? cl := match ex_Argv req with
             | name :: args => Ok (name :: args, name)
             | [] => if bool_decide (ex_Cmd req = "") then Err "either cmd or argv is required"
                     else Ok (["/bin/sh"; "-c"; ex_Cmd req], ex_Cmd req)
             end in
  Ok ({| cmd_Argv := cl.1;
         cmd_Dir := if bool_decide (ex_Cwd req = "") then ws else ex_Cwd req;
         cmd_Env := flat_env (ex_Env req ∪ env);
         cmd_SysProcAttr := Setpgid |}, cl.2).
(** The pty variant. *)
Definition with_session (c : Cmd) : Cmd :=
  {| cmd_Argv := cmd_Argv c; cmd_Dir := cmd_Dir c; cmd_Env := cmd_Env c; cmd_SysProcAttr := SetsidSetctty |}.

(** ** Calls *)

Inductive InitE : Type -> Type :=
| Now : InitE Time
| StdinPipe : InitE (result string unit)
| StdoutPipe : InitE (result string unit)
| StderrPipe : InitE (result string unit)
| StartCmd (c : Cmd) : InitE (result string Z)
| PtyStart (c : Cmd) (cols rows : Z) : InitE (result string Z)
| PtySetsize (cols rows : Z) : InitE unit
| PtyClose : InitE unit
| Adopt (pid : Z) : InitE unit
| Wait (pid : Z) : InitE Z
| AddPID (pid : Z) (label : string) : InitE unit
| Finish (pid : Z) : InitE unit
| Forget (pid : Z) : InitE unit
| Status (pid : Z) : InitE (bool * bool)
| HasProcess (pid : Z) : InitE bool
| GoDeadline (pid : Z) : InitE unit           (* go s.enforceDeadline(ctx, pid) *)
| GoStreams (pid : Z) : InitE unit            (* the pumps, keepalive and readControl *)
| Drained : InitE (list string * list string) (* both copies ended: what they read *)
| PumpsDone : InitE unit
| CtxDone : InitE unit                        (* <-ctx.Done() *)
| CtxExceeded : InitE bool
| Cancel : InitE unit
| Kill (pid sig : Z) : InitE (result Z unit)
| ProcSignal (pid sig : Z) : InitE (result string unit)
| Sleep (d : Z) : InitE unit
| WsAccept : InitE (result unit unit)
| NextSeq : InitE Z
| WsWrite (f : Frame) : InitE (result string unit)
| WsClose : InitE unit
| WsCloseNow : InitE unit
| StdinWrite (data : string) : InitE (result string unit)
| StdinClose : InitE unit.
Abbreviation Init := (Prog InitE).

(** ** exec.go *)

(** [start] *)
Definition start (c : Cmd) (label : string) : Init (result string Z) :=
  r ← call (StartCmd c);
  match r with
  | Err e => mret (Err e)
  | Ok pid => call (AddPID pid label);; call (GoDeadline pid);; mret (Ok pid)
  end.

Definition handleExec (s : InitServer) (body : result string ExecRequest) : Init InitResponse :=
  match body with
  | Err msg => mret (init_fail 400 "invalid_body" msg)
  | Ok req =>
      let limit := outputLimit req in
      resp ←
        match buildCmd s req with
        | Err e => mret (init_fail 400 "invalid_request" e)
        | Ok (cmd, label) =>
            outPipe ← call StdoutPipe;
            match outPipe with
            | Err e => mret (init_fail 500 "pipe_failed" e)
            | Ok _ =>
                errPipe ← call StderrPipe;
                match errPipe with
                | Err e => mret (init_fail 500 "pipe_failed" e)
                | Ok _ =>
                    started ← call Now;
                    r ← start cmd label;
                    match r with
                    | Err e => mret (init_fail 400 "spawn_failed" e)
                    | Ok pid =>
                        code ← call (Wait pid);
                        call (Finish pid);;
                        out ← call Drained;
                        ended ← call Now;
                        timedOut ← call CtxExceeded;
                        let stdout := Copy out.1 (newCapWriter limit) in
                        let stderr := Copy out.2 (newCapWriter limit) in
                        call (Forget pid);;
                        mret (IExec {| er_ExitCode := code; er_Stdout := cw_buf stdout;
                                       er_Stderr := cw_buf stderr;
                                       er_DurationMs := Z.quot (ended - started) millisecond;
                                       er_Truncated := cw_over stdout || cw_over stderr;
                                       er_TimedOut := timedOut |})
                    end
                end
            end
        end;
      call Cancel;; mret resp
  end.

Definition kill_group (pid sig : Z) : Init unit :=
  r ← call (Kill (- pid) sig);
  match r with Ok _ => mret tt | Err _ => _ ← call (Kill pid sig); mret tt end.
Definition enforceDeadline (pid : Z) : Init unit :=
  call CtxDone;;
  st ← call (Status pid);
  if (st.2 && st.1)%bool then mret tt
  else
    kill_group pid SIGTERM;;
    call (Sleep gracePeriod);;
    st ← call (Status pid);
    if (st.2 && negb st.1)%bool then kill_group pid SIGKILL else mret tt.

(** [path_pid] and [signal] are the request's path value and query. *)
Definition handleProcessSignal (path_pid signal : string) : Init InitResponse :=
  match atoi path_pid with
  | None => mret (init_fail 400 "invalid_pid" (atoi_error path_pid))
  | Some pid =>
      ok ← call (HasProcess pid);
      if negb ok then mret (init_fail 404 "no_such_process" "this sandbox did not start that process")
      else
        let sig := signalByName signal in
        r ← call (Kill (- pid) sig);
        match r with
        | Ok _ => mret (ISignalled pid sig)
        | Err _ =>
            r ← call (ProcSignal pid sig);
            match r with
            | Ok _ => mret (ISignalled pid sig)
            | Err e => mret (init_fail 500 "signal_failed" e)
            end
        end
  end.

(** ** Configuration is one-shot *)

(** The state a request configures. *)
Definition configured (req : ConfigureRequest) (s : InitServer) : InitServer :=
  (handleConfigure (Ok req) s).2.
Fixpoint configures (bodies : list (result string ConfigureRequest)) (s : InitServer)
    : list InitResponse * InitServer :=
  match bodies with
  | [] => ([], s)
  | b :: bodies' =>
      let '(r, s1) := handleConfigure b s in
      let '(rs, s2) := configures bodies' s1 in (r :: rs, s2)
  end.
Lemma configures_ready bodies s :
  is_Ready s = true ->
  (configures bodies s).2 = s /\ Forall (fun r => r <> IOk) (configures bodies s).1.
Proof.
  intros Hs. induction bodies as [|b bodies IH]; [done|]. cbn [configures].
  assert ((handleConfigure b s).2 = s /\ (handleConfigure b s).1 <> IOk) as [H1 H2].
  { destruct b; cbn; [rewrite Hs|]; done. }
  destruct (handleConfigure b s) as [r s1]. cbn in H1, H2. subst s1.
  destruct (configures bodies s) as [rs s2]. destruct IH as [IH1 IH2]. by split; [|constructor].
Qed.

(** Of all the configurations a namespace is ever sent, in any order, the
    first that decodes is accepted and every later one refused: it alone
    decides the sandbox's identity, roots (the workspace, writable, when it
    names none), workspace (the image's when it names none) and environment,
    in which a secret wins over a variable of the same name; until then the
    namespace is no sandbox, and nothing that does not decode changes it. *)
Theorem configure_once ws pre req rest :
  Forall (fun b => is_ok b = false) pre ->
  let '(rs, s) := configures (pre ++ Ok req :: rest) (NewServer ws) in
  exists refused later, rs = (refused ++ IOk :: later)%list /\ length refused = length pre /\
    Forall (fun r => exists e, r = IError 400 e) refused /\ Forall (fun r => r <> IOk) later /\
    is_Ready s = true /\ is_SandboxID s = cf_SandboxID req /\
    is_Workspace s = (if bool_decide (cf_Workspace req = "") then ws else cf_Workspace req) /\
    is_Roots s <> [] /\ (cf_Roots req <> [] -> is_Roots s = cf_Roots req) /\
    forall k, is_Env s !! k = match cf_Secrets req !! k with Some v => Some v | None => cf_Env req !! k end.
Proof.
  intros Hpre. induction Hpre as [|b pre Hb _ IH].
  - cbn [app configures]. destruct (handleConfigure (Ok req) (NewServer ws)) as [r s1] eqn:Ec.
    cbn in Ec. injection Ec as <- <-.
    pose proof (configures_ready rest (configured req (NewServer ws)) eq_refl) as [Hs Hl].
    change (configured req (NewServer ws)) with (handleConfigure (Ok req) (NewServer ws)).2 in Hs, Hl.
    cbn [handleConfigure NewServer is_Ready is_Workspace snd] in Hs, Hl.
    destruct (configures rest _) as [rs s2]. cbn in Hs, Hl. subst s2.
    exists [], rs. cbn. repeat (split; [done|]). split; [by destruct (cf_Roots req)|].
    split; [by destruct (cf_Roots req)|]. intros k. rewrite lookup_union.
    destruct (cf_Secrets req !! k), (cf_Env req !! k); done.
  - destruct b as [?|msg]; [done|]. cbn [app configures handleConfigure].
    destruct (configures (pre ++ Ok req :: rest) (NewServer ws)) as [rs s].
    destruct IH as (refused & later & -> & Hl & Hr & H).
    exists (init_fail 400 "invalid_body" msg :: refused), later.
    split; [done|]. split; [cbn; lia|]. split; [|exact H]. constructor; [|done]. by eexists.
Qed.

Definition wit_configure : ConfigureRequest :=
  {| cf_SandboxID := "sbx"; cf_Env := {[ "A" := "1" ]}; cf_Secrets := {[ "A" := "s" ]};
     cf_Roots := []; cf_Workspace := "" |}.
Lemma configure_once_wit :
  let '(rs, s) := configures ([Err "EOF"] ++ Ok wit_configure :: [Ok wit_configure]) (NewServer "/workspace") in
  exists refused later, rs = (refused ++ IOk :: later)%list /\ length refused = 1%nat /\
    Forall (fun r => exists e, r = IError 400 e) refused /\ Forall (fun r => r <> IOk) later /\
    is_Ready s = true /\ is_SandboxID s = "sbx" /\ is_Workspace s = "/workspace" /\
    is_Roots s <> [] /\ (cf_Roots wit_configure <> [] -> is_Roots s = cf_Roots wit_configure) /\
    forall k, is_Env s !! k = match cf_Secrets wit_configure !! k with
                              | Some v => Some v | None => cf_Env wit_configure !! k end.
Proof.
  apply (configure_once "/workspace" [Err "EOF"] wit_configure [Ok wit_configure]).
  repeat constructor.
Defined.
