(* ===== verification/InitStream.v ===== *)
(** * Streaming sessions of jdix-init (pkg/initd: stream.go, exec.go)

    The two handlers that hold a WebSocket, and what runs beside them: the
    pumps that turn reads into frames, the keepalive and the client-to-server
    half.  A reader is the list of what its reads delivered before the error
    that ended it; an incoming message is its frame, or why it is none. *)
From S2P Require Import Prelude GoStrings Url Api Calls InitProto InitProc.
Open Scope string_scope.
Open Scope Z_scope.

Definition send (f : Frame) : Init (result string unit) :=
  if numbered f then
    n ← call NextSeq;
    call (WsWrite (with_seq f n))
  else call (WsWrite f).

Fixpoint pumpStream (kind : string) (reads : list string) : Init unit :=
  match reads with
  | [] => mret tt
  | buf :: reads' =>
      if (0 <? String.length buf)%nat then
        r ← send (data_frame kind buf);
        match r with Err _ => mret tt | Ok _ => pumpStream kind reads' end
      else pumpStream kind reads'
  end.

(** [ticks] beats of the ticker before the context ends. *)
Fixpoint keepalive (ticks : nat) : Init unit :=
  match ticks with
  | O => mret tt
  | S n =>
      r ← send (frame FramePing);
      match r with Err _ => mret tt | Ok _ => keepalive n end
  end.

Section Control.
(** [base64.CorruptInputError.Error] *)
Context (corrupt : string -> string).

Definition uint16 (n : Z) : Z := n mod 2 ^ 16.

(** One frame of the client; [false] ends the loop. *)
Definition control_frame (pid : Z) (stdin pty : bool) (f : Frame) : Init bool :=
  let t := fr_T f in
  if bool_decide (t = FrameStdin) then
    match StdDecode (fr_D f) with
    | None => send (error_frame "bad_base64" (corrupt (fr_D f)));; mret true
    | Some raw =>
        if stdin then
          r ← call (StdinWrite raw);
          mret (match r with Ok _ => true | Err _ => false end)
        else mret true
    end
  else if bool_decide (t = FrameResize) then
    if pty && (0 <? fr_Cols f) && (0 <? fr_Rows f)
    then call (PtySetsize (uint16 (fr_Cols f)) (uint16 (fr_Rows f)));; mret true
    else mret true
  else if bool_decide (t = FrameSignal) then
    kill_group pid (signalByName (fr_Sig f));; mret true
  else if bool_decide (t = FramePing) then
    send (frame FramePong);; mret true
  else mret true.

Fixpoint readControl (pid : Z) (stdin pty : bool) (incoming : list (result string Frame)) : Init unit :=
  match incoming with
  | [] => if stdin then call StdinClose else mret tt
  | Err msg :: rest => send (error_frame "bad_frame" msg);; readControl pid stdin pty rest
  | Ok f :: rest =>
      go_on ← control_frame pid stdin pty f;
      if go_on : bool then readControl pid stdin pty rest else mret tt
  end.
End Control.

Definition handleExecStream (s : InitServer) (q : Values) : Init InitResponse :=
  let req := execReqFromQuery q in
  conn ← call WsAccept;
  match conn with
  | Err _ => mret IHijacked
  | Ok _ =>
      match buildCmd s req with
      | Err e => send (error_frame "invalid_request" e);; mret tt
      | Ok (cmd, label) =>
          call StdinPipe;; call StdoutPipe;; call StderrPipe;;
          started ← call Now;
          r ← start cmd label;
          match r with
          | Err e => send (error_frame "spawn_failed" e);; mret tt
          | Ok pid =>
              call (GoStreams pid);;
              code ← call (Wait pid);
              call (Finish pid);;
              call PumpsDone;;
              ended ← call Now;
              send (exit_frame code (Z.quot (ended - started) millisecond));;
              call WsClose;;
              call (Forget pid)
          end
      end;;
      call Cancel;; call WsCloseNow;; mret IHijacked
  end.

(** A login shell unless the request names a command. *)
Definition pty_request (req : ExecRequest) : ExecRequest :=
  match ex_Argv req with
  | [] => if bool_decide (ex_Cmd req = "")
          then {| ex_Cmd := ex_Cmd req; ex_Argv := ["/bin/sh"; "-l"]; ex_Cwd := ex_Cwd req;
                  ex_Env := ex_Env req; ex_TimeoutSeconds := ex_TimeoutSeconds req;
                  ex_MaxOutputBytes := ex_MaxOutputBytes req |}
          else req
  | _ => req
  end.

Definition handlePTY (s : InitServer) (q : Values) : Init InitResponse :=
  let req := pty_request (execReqFromQuery q) in
  conn ← call WsAccept;
  match conn with
  | Err _ => mret IHijacked
  | Ok _ =>
      match buildCmd s req with
      | Err e => send (error_frame "invalid_request" e);; mret tt
      | Ok (cmd, label) =>
          let '(cols, rows) := sizeFromQuery q in
          r ← call (PtyStart (with_session cmd) (uint16 cols) (uint16 rows));
          match r with
          | Err e => send (error_frame "pty_failed" e);; mret tt
          | Ok pid =>
              call (Adopt pid);;
              call (AddPID pid label);;
              call (GoDeadline pid);;
              started ← call Now;
              call (GoStreams pid);;
              code ← call (Wait pid);
              call (Finish pid);;
              call PtyClose;;
              call PumpsDone;;
              ended ← call Now;
              send (exit_frame code (Z.quot (ended - started) millisecond));;
              call WsClose;;
              call (Forget pid);;
              call PtyClose
          end
      end;;
      call Cancel;; call WsCloseNow;; mret IHijacked
  end.

(** ** The life of a process *)

(** The table; the process this request started; the pids it found there. *)
Record Table := { tb : procTable; mine : option Z; found : list Z }.

(** Other requests change the table, but not the entry of this one's process
    (they would if the kernel gave its pid out again before it is forgotten). *)
Definition others (s s' : Table) : Prop :=
  mine s' = mine s /\ found s' = found s /\
  forall pid, mine s = Some pid -> tb s' !! pid = tb s !! pid.
Definition same_but (s : Table) (t : procTable) : Table := {| tb := t; mine := mine s; found := found s |}.

Definition init_sem (R : Type) (e : InitE R) (s : Table) (r : R) (s' : Table) : Prop :=
  match e in InitE R return R -> Prop with
  | StartCmd _ | PtyStart _ _ _ => fun r =>
      match r with
      | Ok pid => s' = {| tb := tb s; mine := Some pid; found := found s |}
      | Err _ => s' = s
      end
  | AddPID pid label => fun _ => exists now, s' = same_but s (addPID pid label now (tb s))
  | Finish pid => fun _ => s' = same_but s (finish pid (tb s))
  | Forget pid => fun _ => s' = same_but s (forget pid (tb s))
  | Status pid => fun r => r = status pid (tb s) /\ s' = s
  | HasProcess pid => fun r =>
      r = process pid (tb s) /\
      s' = {| tb := tb s; mine := mine s; found := if process pid (tb s) then pid :: found s else found s |}
  | _ => fun _ => s' = s
  end r.

(** What a handler promises: it starts one process at most, sets off the
    programs beside it for that process, waits for it while the table shows it
    running, forgets it once it is done and before the context is cancelled, and
    signals only processes found in the table. *)
Definition init_promise (R : Type) (e : InitE R) (s : Table) : Prop :=
  match e with
  | StartCmd _ | PtyStart _ _ _ => mine s = None
  | AddPID pid _ | GoDeadline pid | GoStreams pid | Adopt pid => mine s = Some pid
  | Wait pid => mine s = Some pid /\ exists e, tb s !! pid = Some e /\ pe_Done e = false
  | Forget pid => mine s = Some pid /\ exists e, tb s !! pid = Some e /\ pe_Done e = true
  | Cancel => forall pid, mine s = Some pid -> tb s !! pid = None
  | Kill p _ => exists pid, pid ∈ found s /\ p = - pid
  | ProcSignal pid _ => pid ∈ found s
  | _ => True
  end.

(** The programs a request sets off beside it: the deadline, the pumps, the
    keepalive and the client's half of the connection. *)
Inductive companion (pid : Z) : Init unit -> Prop :=
| beside_deadline : companion pid (enforceDeadline pid)
| beside_pump kind reads : companion pid (pumpStream kind reads)
| beside_keepalive ticks : companion pid (keepalive ticks)
| beside_control corrupt stdin pty incoming :
    companion pid (readControl corrupt pid stdin pty incoming).
(** They may outlive the request: all that stays is which process it started. *)
Definition beside (s s' : Table) : Prop := mine s' = mine s.
(** They leave the table to the request, start nothing, and signal its process
    or that one's group. *)
Definition companion_promise (R : Type) (e : InitE R) (s : Table) : Prop :=
  match e with
  | StartCmd _ | PtyStart _ _ _ | AddPID _ _ | Adopt _ | Wait _ | Finish _ | Forget _ | GoDeadline _
  | GoStreams _ | Cancel | HasProcess _ | ProcSignal _ _ => False
  | Kill p _ => exists pid, mine s = Some pid /\ (p = - pid \/ p = pid)
  | _ => True
  end.

(** At the end nothing of the request's process is left in the table. *)
Definition tidy {A} (_ : A) (s : Table) : Prop := forall pid, mine s = Some pid -> tb s !! pid = None.

Section Life.
Implicit Types Q : InitResponse -> Table -> Prop.
Abbreviation life := (rg others init_promise init_sem).

(** Calls that have nothing to do with the table. *)
Definition aside {R} (e : InitE R) : bool :=
  match e with
  | StartCmd _ | PtyStart _ _ _ | AddPID _ _ | GoDeadline _ | GoStreams _ | Adopt _ | Wait _
  | Finish _ | Forget _ | Status _ | HasProcess _ | Cancel | Kill _ _ | ProcSignal _ _ => false
  | _ => true
  end.
(** Where a request's process stands. *)
Definition stands (m : option (Z * option bool)) (s : Table) : Prop :=
  match m with
  | None => mine s = None
  | Some (pid, None) => mine s = Some pid /\ tb s !! pid = None
  | Some (pid, Some d) => mine s = Some pid /\ exists e, tb s !! pid = Some e /\ pe_Done e = d
  end.
Lemma stands_others m s s' : others s s' -> stands m s -> stands m s'.
Proof.
  intros (Hm & _ & Ht). destruct m as [[pid [d|]]|]; cbn; rewrite Hm; try done.
  - intros [H1 H2]. by rewrite (Ht pid H1).
  - intros [H1 H2]. by rewrite (Ht pid H1).
Qed.
Lemma life_aside {A R} (e : InitE R) (f : R -> Init A) m s (Q' : A -> Table -> Prop) :
  aside e = true -> stands m s -> (forall r s', stands m s' -> life (f r) s' Q') ->
  life (call e ≫= f) s Q'.
Proof.
  intros He Hs H. apply rg_call. intros s1 Ho. apply (stands_others _ _ _ Ho) in Hs.
  destruct e; try done; (split; [done|]); intros r s2 Hr; cbn in Hr; subst; by apply H.
Qed.
Lemma life_send {A} fr (f : result string unit -> Init A) m s (Q' : A -> Table -> Prop) :
  stands m s -> (forall r s', stands m s' -> life (f r) s' Q') -> life (send fr ≫= f) s Q'.
Proof.
  intros Hs H. apply rg_bind. unfold send. destruct (numbered fr).
  - eapply life_aside; [done|exact Hs|]. intros n s1 H1.
    change (call (WsWrite (with_seq fr n))) with (call (WsWrite (with_seq fr n)) ≫= mret).
    eapply life_aside; [done|exact H1|]. intros r s2 H2. by apply rg_ret, H.
  - change (call (WsWrite fr)) with (call (WsWrite fr) ≫= mret).
    eapply life_aside; [done|exact Hs|]. intros r s2 H2. by apply rg_ret, H.
Qed.

(** The calls about the process, one by one. *)
Lemma life_spawn {A} (e : InitE (result string Z)) (f : result string Z -> Init A) s (Q' : A -> Table -> Prop) :
  (exists c, e = StartCmd c) \/ (exists c x y, e = PtyStart c x y) ->
  stands None s ->
  (forall msg s', stands None s' -> life (f (Err msg)) s' Q') ->
  (forall pid s', mine s' = Some pid -> life (f (Ok pid)) s' Q') ->
  life (call e ≫= f) s Q'.
Proof.
  intros He Hs Herr Hok. apply rg_call. intros s1 Ho. pose proof (stands_others None _ _ Ho Hs) as H1.
  destruct He as [[c ->]|(c & x & y & ->)]; (split; [exact H1|]);
    intros [pid|msg] s2 Hr; cbn in Hr; subst; auto.
Qed.
Lemma mine_others s s' pid : others s s' -> mine s = Some pid -> mine s' = Some pid.
Proof. by intros (-> & _). Qed.
Lemma life_named {A} (e : InitE unit) pid (f : unit -> Init A) s (Q' : A -> Table -> Prop) :
  e = GoDeadline pid \/ e = GoStreams pid \/ e = Adopt pid ->
  mine s = Some pid ->
  (forall s', mine s' = Some pid /\ tb s' !! pid = tb s !! pid -> life (f tt) s' Q') ->
  life (call e ≫= f) s Q'.
Proof.
  intros He Hm H. apply rg_call. intros s1 Ho. pose proof (mine_others _ _ _ Ho Hm) as H1.
  destruct Ho as (_ & _ & Ht).
  destruct He as [->|[->| ->]]; (split; [exact H1|]); intros [] s2 Hr; cbn in Hr; subst;
    apply H; (split; [done|by apply Ht]).
Qed.
Lemma life_streams {A} pid d (f : unit -> Init A) s (Q' : A -> Table -> Prop) :
  stands (Some (pid, Some d)) s ->
  (forall s', stands (Some (pid, Some d)) s' -> life (f tt) s' Q') ->
  life (call (GoStreams pid) ≫= f) s Q'.
Proof.
  intros (Hm & e & He & Hd) H. eapply life_named; [by right; left|exact Hm|].
  intros s' [Hm' Ht]. apply H. split; [done|]. exists e. by rewrite Ht.
Qed.
Lemma life_add {A} pid label (f : unit -> Init A) s (Q' : A -> Table -> Prop) :
  mine s = Some pid ->
  (forall s', stands (Some (pid, Some false)) s' -> life (f tt) s' Q') ->
  life (call (AddPID pid label) ≫= f) s Q'.
Proof.
  intros Hm H. apply rg_call. intros s1 Ho. pose proof (mine_others _ _ _ Ho Hm) as H1.
  split; [done|]. intros [] s2 [now ->]. apply H. split; [done|].
  eexists. cbn. unfold addPID. by rewrite lookup_insert, decide_True.
Qed.
Lemma life_wait {A} pid (f : Z -> Init A) s (Q' : A -> Table -> Prop) :
  stands (Some (pid, Some false)) s ->
  (forall code s', stands (Some (pid, Some false)) s' -> life (f code) s' Q') ->
  life (call (Wait pid) ≫= f) s Q'.
Proof.
  intros Hs H. apply rg_call. intros s1 Ho. pose proof (stands_others _ _ _ Ho Hs) as H1.
  split; [exact H1|]. intros code s2 Hr. cbn in Hr. subst. by apply H.
Qed.
Lemma life_finish {A} pid (f : unit -> Init A) s (Q' : A -> Table -> Prop) :
  stands (Some (pid, Some false)) s ->
  (forall s', stands (Some (pid, Some true)) s' -> life (f tt) s' Q') ->
  life (call (Finish pid) ≫= f) s Q'.
Proof.
  intros Hs H. apply rg_call. intros s1 Ho. destruct (stands_others _ _ _ Ho Hs) as (Hm & e & He & _).
  split; [done|]. intros [] s2 ->. apply H. split; [done|]. cbn. unfold finish. rewrite He.
  eexists. by rewrite lookup_insert, decide_True.
Qed.
Lemma life_forget {A} pid (f : unit -> Init A) s (Q' : A -> Table -> Prop) :
  stands (Some (pid, Some true)) s ->
  (forall s', stands (Some (pid, None)) s' -> life (f tt) s' Q') ->
  life (call (Forget pid) ≫= f) s Q'.
Proof.
  intros Hs H. apply rg_call. intros s1 Ho. pose proof (stands_others _ _ _ Ho Hs) as H1.
  split; [exact H1|]. destruct H1 as [Hm _]. intros [] s2 ->. apply H. split; [done|]. cbn.
  apply lookup_delete_eq.
Qed.
(** No process, or one that is forgotten. *)
Lemma stands_tidy {A} m s (a : A) :
  match m with Some (_, Some _) => False | _ => True end -> stands m s -> tidy a s.
Proof.
  destruct m as [[pid [d|]]|]; [done| |]; cbn.
  - intros _ [Hm Ht] pid' Hm'. by rewrite Hm in Hm'; simplify_eq.
  - intros _ Hm pid' Hm'. by rewrite Hm in Hm'.
Qed.
Lemma life_cancel {A} m (f : unit -> Init A) s (Q' : A -> Table -> Prop) :
  match m with Some (_, Some _) => False | _ => True end -> stands m s ->
  (forall s', stands m s' -> life (f tt) s' Q') ->
  life (call Cancel ≫= f) s Q'.
Proof.
  intros Hn Hs H. apply rg_call. intros s1 Ho. pose proof (stands_others _ _ _ Ho Hs) as H1.
  split; [by apply (stands_tidy m s1 tt)|]. intros [] s2 Hr. cbn in Hr. subst. by apply H.
Qed.

Lemma others_trans a b c : others a b -> others b c -> others a c.
Proof.
  intros (H1 & H2 & H3) (H4 & H5 & H6). split; [congruence|]. split; [congruence|].
  intros pid Hm. rewrite H6 by congruence. auto.
Qed.
(** [start]: the process, if any, is in the table and running. *)
Lemma start_life c label s :
  stands None s ->
  life (start c label) s (fun r s' =>
    match r with Ok pid => stands (Some (pid, Some false)) s' | Err _ => stands None s' end).
Proof.
  intros Hs. unfold start. apply life_spawn; [by eauto|done|done|].
  intros pid s1 Hm. apply life_add; [done|]. intros s2 (Hm2 & e & He & Hd).
  eapply life_named; [by left|exact Hm2|]. intros s3 [Hm3 Ht]. apply rg_ret. split; [done|].
  exists e. by rewrite Ht.
Qed.

(** The end of every handler. *)
Lemma life_end {A} m (a : A) s :
  match m with Some (_, Some _) => False | _ => True end -> stands m s ->
  life (call Cancel;; mret a) s tidy.
Proof.
  intros Hn Hs. eapply life_cancel; [exact Hn|exact Hs|]. intros s' Hs'. by apply rg_ret, (stands_tidy m).
Qed.
Lemma life_hang_up {A} m (a : A) s :
  match m with Some (_, Some _) => False | _ => True end -> stands m s ->
  life (call Cancel;; call WsCloseNow;; mret a) s tidy.
Proof.
  intros Hn Hs. eapply life_cancel; [exact Hn|exact Hs|]. intros s1 H1.
  eapply life_aside; [done|exact H1|]. intros [] s2 H2. by apply rg_ret, (stands_tidy m).
Qed.

Lemma handleExec_life s0 body s : stands None s -> life (handleExec s0 body) s tidy.
Proof.
  intros Hs. unfold handleExec. destruct body as [req|msg]; [|by apply rg_ret, (stands_tidy None)].
  apply rg_bind. destruct (buildCmd s0 req) as [[cmd label]|e]; [|by apply rg_ret, (life_end None)].
  eapply life_aside; [done|exact Hs|]. intros [[]|e] s1 H1; [|by apply rg_ret, (life_end None)].
  eapply life_aside; [done|exact H1|]. intros [[]|e] s2 H2; [|by apply rg_ret, (life_end None)].
  eapply life_aside; [done|exact H2|]. intros started s3 H3.
  apply rg_bind. eapply rg_mono; [|by apply start_life].
  intros [pid|e] s4 H4; [|by apply rg_ret, (life_end None)].
  apply life_wait; [done|]. intros code s5 H5. apply life_finish; [done|]. intros s6 H6.
  eapply life_aside; [done|exact H6|]. intros out s7 H7.
  eapply life_aside; [done|exact H7|]. intros ended s8 H8.
  eapply life_aside; [done|exact H8|]. intros timedOut s9 H9.
  apply life_forget; [done|]. intros s10 H10. by apply rg_ret, (life_end (Some (pid, None))).
Qed.

Lemma handleExecStream_life s0 q s : stands None s -> life (handleExecStream s0 q) s tidy.
Proof.
  intros Hs. unfold handleExecStream.
  eapply life_aside; [done|exact Hs|]. intros [[]|[]] s1 H1; [|by apply rg_ret, (stands_tidy None)].
  apply rg_bind. destruct (buildCmd s0 _) as [[cmd label]|e].
  2:{ eapply life_send; [exact H1|]. intros r s2 H2. by apply rg_ret, (life_hang_up None). }
  eapply life_aside; [done|exact H1|]. intros ra sa Ha.
  eapply life_aside; [done|exact Ha|]. intros rb sb Hb.
  eapply life_aside; [done|exact Hb|]. intros rc sc Hc.
  eapply life_aside; [done|exact Hc|]. intros started s3 H3.
  apply rg_bind. eapply rg_mono; [|by apply start_life]. intros [pid|e] s4 H4.
  2:{ eapply life_send; [exact H4|]. intros r s5 H5. by apply rg_ret, (life_hang_up None). }
  apply (life_streams pid false); [exact H4|]. intros s5 H5.
  apply life_wait; [done|]. intros code s6 H6. apply life_finish; [done|]. intros s7 H7.
  eapply life_aside; [done|exact H7|]. intros [] s8 H8.
  eapply life_aside; [done|exact H8|]. intros ended s9 H9.
  eapply life_send; [exact H9|]. intros r s10 H10.
  eapply life_aside; [done|exact H10|]. intros [] s11 H11.
  change (call (Forget pid)) with (call (Forget pid) ≫= mret).
  apply life_forget; [done|]. intros s12 H12. by apply rg_ret, (life_hang_up (Some (pid, None))).
Qed.

Lemma handlePTY_life s0 q s : stands None s -> life (handlePTY s0 q) s tidy.
Proof.
  intros Hs. unfold handlePTY.
  eapply life_aside; [done|exact Hs|]. intros [[]|[]] s1 H1; [|by apply rg_ret, (stands_tidy None)].
  apply rg_bind. destruct (buildCmd s0 _) as [[cmd label]|e].
  2:{ eapply life_send; [exact H1|]. intros r s2 H2. by apply rg_ret, (life_hang_up None). }
  destruct (sizeFromQuery q) as [cols rows].
  apply life_spawn; [right; by eauto|done| |].
  { intros msg s2 H2. eapply life_send; [exact H2|]. intros r s3 H3. by apply rg_ret, (life_hang_up None). }
  intros pid s2 Hm2. eapply life_named; [by right; right|exact Hm2|]. intros s3 [Hm3 _].
  apply life_add; [done|]. intros s4 (Hm4 & e & He & Hd).
  eapply life_named; [by left|exact Hm4|]. intros s5 [Hm5 Ht].
  assert (stands (Some (pid, Some false)) s5) as H5 by (split; [done|]; exists e; by rewrite Ht).
  eapply life_aside; [done|exact H5|]. intros started s6 H6.
  apply (life_streams pid false); [exact H6|]. intros s7 H7.
  apply life_wait; [done|]. intros code s8 H8. apply life_finish; [done|]. intros s9 H9.
  eapply life_aside; [done|exact H9|]. intros [] s10 H10.
  eapply life_aside; [done|exact H10|]. intros [] s11 H11.
  eapply life_aside; [done|exact H11|]. intros ended s12 H12.
  eapply life_send; [exact H12|]. intros r s13 H13.
  eapply life_aside; [done|exact H13|]. intros [] s14 H14.
  apply life_forget; [done|]. intros s15 H15.
  change (call PtyClose) with (call PtyClose ≫= mret).
  eapply life_aside; [done|exact H15|]. intros [] s16 H16.
  by apply rg_ret, (life_hang_up (Some (pid, None))).
Qed.

Lemma handleProcessSignal_life pid sig s : stands None s -> life (handleProcessSignal pid sig) s tidy.
Proof.
  intros Hs. unfold handleProcessSignal. destruct (atoi pid) as [p|]; [|by apply rg_ret, (stands_tidy None)].
  apply rg_call. intros s1 (Hm1 & Hf1 & _). split; [done|]. intros ok s2 [-> ->].
  destruct (process p (tb s1)); cbn [negb]; [|apply rg_ret, (stands_tidy None); [done|]; cbn; congruence].
  apply rg_call. intros s3 (Hm3 & Hf3 & _). cbn in Hm3, Hf3.
  split; [exists p; split; [rewrite Hf3; by left|done]|].
  intros [[]|e] s4 H4; cbn in H4; subst; [apply rg_ret, (stands_tidy None); [done|]; cbn; congruence|].
  apply rg_call. intros s5 (Hm5 & Hf5 & _). split; [cbn; rewrite Hf5, Hf3; by left|].
  intros [[]|e'] s6 H6; cbn in H6; subst; apply rg_ret, (stands_tidy None); try done; cbn; congruence.
Qed.

(** The routes about processes (server.go). *)
Inductive ExecRoute :=
| RouteExec (body : result string ExecRequest)
| RouteExecStream (q : Values)
| RoutePTY (q : Values)
| RouteSignal (pid signal : string).
Definition serveExec (s0 : InitServer) (route : ExecRoute) : Init InitResponse :=
  match route with
  | RouteExec body => handleExec s0 body
  | RouteExecStream q => handleExecStream s0 q
  | RoutePTY q => handlePTY s0 q
  | RouteSignal pid signal => handleProcessSignal pid signal
  end.

(** *** Beside the request *)

Abbreviation stay_beside := (rg beside companion_promise init_sem).

(** Nothing they call changes which process is the request's. *)
Lemma beside_call {A R} pid (e : InitE R) (f : R -> Init A) s (Q' : A -> Table -> Prop) :
  mine s = Some pid -> (forall s1, mine s1 = Some pid -> companion_promise R e s1) ->
  (forall r s', mine s' = Some pid -> stay_beside (f r) s' Q') -> stay_beside (call e ≫= f) s Q'.
Proof.
  intros Hm HG H. apply rg_call. intros s1 Ho. assert (mine s1 = Some pid) as H1 by (unfold beside in Ho; congruence).
  specialize (HG s1 H1). split; [exact HG|]. intros r s2 Hr. apply H.
  destruct e; try (by destruct HG); cbn in Hr; intuition (subst; done).
Qed.
(** One that ends the program. *)
Lemma beside_last {R} pid (e : InitE R) s :
  mine s = Some pid -> (forall s1, mine s1 = Some pid -> companion_promise R e s1) ->
  stay_beside (call e) s (fun _ s' => mine s' = Some pid).
Proof.
  intros Hm HG. change (call e) with (call e ≫= mret). apply (beside_call pid); [done..|].
  intros r s1 H1. exact H1.
Qed.
Lemma beside_send {A} pid fr (f : result string unit -> Init A) s (Q' : A -> Table -> Prop) :
  mine s = Some pid -> (forall r s', mine s' = Some pid -> stay_beside (f r) s' Q') ->
  stay_beside (send fr ≫= f) s Q'.
Proof.
  intros Hm H. apply rg_bind. eapply rg_mono; [intros r s' Hs'; apply H; exact Hs'|].
  unfold send. destruct (numbered fr); [|by apply beside_last].
  apply (beside_call pid); [done..|]. intros n s1 H1. by apply beside_last.
Qed.
Lemma beside_kill pid sig s :
  mine s = Some pid -> stay_beside (kill_group pid sig) s (fun _ s' => mine s' = Some pid).
Proof.
  intros Hm. unfold kill_group.
  apply (beside_call pid); [done|by intros s1 H1; exists pid; auto|]. intros [[]|e] s1 H1; [done|].
  apply (beside_call pid); [done|by intros s2 H2; exists pid; auto|]. by intros r s2 H2.
Qed.
Definition still (pid : Z) (_ : unit) (s : Table) : Prop := mine s = Some pid.
Lemma control_beside corrupt pid stdin pty f s :
  mine s = Some pid ->
  stay_beside (control_frame corrupt pid stdin pty f) s (fun _ s' => mine s' = Some pid).
Proof.
  intros Hm. unfold control_frame. cbv zeta. destruct (bool_decide _).
  { destruct (StdDecode _) as [raw|].
    - destruct stdin; [|done]. apply (beside_call pid); [done..|]. by intros [] s1 H1.
    - apply (beside_send pid); [done|]. by intros r s1 H1. }
  destruct (bool_decide _).
  { destruct (_ && _)%bool; [|done]. apply (beside_call pid); [done..|]. by intros [] s1 H1. }
  destruct (bool_decide _).
  { apply rg_bind. eapply rg_mono; [|by apply beside_kill]. done. }
  destruct (bool_decide _); [|done]. apply (beside_send pid); [done|]. by intros r s1 H1.
Qed.
Lemma companion_stays pid p s : companion pid p -> mine s = Some pid -> stay_beside p s (still pid).
Proof.
  intros Hp. destruct Hp as [|kind reads|ticks|corrupt stdin pty incoming]; revert s.
  - intros s Hm. unfold enforceDeadline. apply (beside_call pid); [done..|]. intros [] s1 H1.
    apply (beside_call pid); [done..|]. intros st s2 H2. destruct (_ && _)%bool; [done|].
    apply rg_bind. eapply rg_mono; [|by apply beside_kill]. intros [] s3 H3.
    apply (beside_call pid); [done..|]. intros [] s4 H4.
    apply (beside_call pid); [done..|]. intros st' s5 H5. destruct (_ && _)%bool; [|done].
    by apply beside_kill.
  - induction reads as [|buf reads IH]; intros s Hm; cbn [pumpStream]; [done|].
    destruct (_ <? _)%nat; [|by apply IH]. apply (beside_send pid); [done|].
    intros [[]|e] s1 H1; [by apply IH|done].
  - induction ticks as [|n IH]; intros s Hm; cbn [keepalive]; [done|].
    apply (beside_send pid); [done|]. intros [[]|e] s1 H1; [by apply IH|done].
  - induction incoming as [|[f|msg] rest IH]; intros s Hm; cbn [readControl].
    + destruct stdin; [|done]. by apply beside_last.
    + apply rg_bind. eapply rg_mono; [|by apply control_beside]. intros [] s1 H1; [by apply IH|done].
    + apply (beside_send pid); [done|]. intros r s1 H1. by apply IH.
Qed.

(** C25: under any interleaving of requests and on every branch, a request
    starts at most one process; while it waits for it, the process table shows
    it running; it forgets the process exactly when it is done, so nothing of
    it is left at the end.  A request signals only the group of a process found
    in the table, or that process.  What it sets off beside it (the deadline,
    the pumps, the keepalive, the client's frames) is set off for its own
    process, and whatever happens to the table meanwhile starts nothing, leaves
    the table alone and signals only that process and its group, the deadline
    even after it is forgotten ([deadline_signals_forgotten]). *)
Theorem exec_tidy s0 route s :
  (mine s = None -> rg others init_promise init_sem (serveExec s0 route) s tidy) /\
  (forall pid p, mine s = Some pid -> companion pid p ->
     rg beside companion_promise init_sem p s (still pid)).
Proof.
  split; [|intros pid p Hm Hp; by apply companion_stays].
  intros Hs. destruct route; cbn [serveExec].
  - by apply handleExec_life.
  - by apply handleExecStream_life.
  - by apply handlePTY_life.
  - by apply handleProcessSignal_life.
Qed.
End Life.

Lemma exec_tidy_wit :
  rg others init_promise init_sem
    (serveExec (NewServer "/workspace") (RouteExecStream {[ "cmd" := ["ls"] ]}))
    {| tb := ∅; mine := None; found := [] |} tidy /\
  rg beside companion_promise init_sem (enforceDeadline 7)
    {| tb := ∅; mine := Some 7; found := [] |} (still 7).
Proof.
  split.
  - apply (proj1 (exec_tidy _ _ _)). reflexivity.
  - apply (proj2 (exec_tidy (NewServer "") (RoutePTY ∅) {| tb := ∅; mine := Some 7; found := [] |})).
    + reflexivity.
    + apply beside_deadline.
Defined.

(** ** A deadline that outlives its process *)

(** The promise above puts [Forget] before [Cancel]: when a request ends before
    its deadline, [enforceDeadline] wakes to a table without the process, which
    it takes for one that may be running: it signals the group all the same. *)
Definition deadline_sem (t : procTable) (R : Type) (e : InitE R) (log : list (Z * Z)) (r : R)
    (log' : list (Z * Z)) : Prop :=
  match e in InitE R return R -> Prop with
  | Status pid => fun r => r = status pid t /\ log' = log
  | Kill pid sig => fun r => r = Ok tt /\ log' = (log ++ [(pid, sig)])%list
  | _ => fun _ => log' = log
  end r.
Lemma deadline_signals_forgotten t pid :
  t !! pid = None ->
  wp (deadline_sem t) (enforceDeadline pid) [] (fun _ log => log = [(- pid, SIGTERM)]).
Proof.
  intros Ht. unfold enforceDeadline. apply wp_call. intros [] l1 ->.
  apply wp_call. intros st l2 [-> ->]. unfold status. rewrite Ht. cbn [fst snd andb].
  apply wp_bind, wp_call. intros r l3 [-> ->]. apply wp_ret.
  apply wp_call. intros [] l4 ->. apply wp_call. intros st l5 [-> ->].
  unfold status. by rewrite Ht.
Qed.
(** A process that is done but not yet forgotten is left alone. *)
Lemma deadline_spares_done t pid e :
  t !! pid = Some e -> pe_Done e = true ->
  wp (deadline_sem t) (enforceDeadline pid) [] (fun _ log => log = []).
Proof.
  intros Ht Hd. unfold enforceDeadline. apply wp_call. intros [] l1 ->.
  apply wp_call. intros st l2 [-> ->]. unfold status. rewrite Ht, Hd. done.
Qed.

(** ** Numbered before the lock *)

(** Two goroutines that each run one [send], call by call in the order of a
    schedule ([true]: the first): what is written on the connection. *)
Definition send_step (p : Init (result string unit)) (seq : Z) (log : list Frame)
    : option (Init (result string unit) * Z * list Frame) :=
  match p with
  | Ret _ => None
  | Vis e k =>
      match e in InitE R return (R -> Init (result string unit)) -> option _ with
      | NextSeq => fun k => Some (k (seq + 1), seq + 1, log)
      | WsWrite f => fun k => Some (k (Ok tt), seq, (log ++ [f])%list)
      | _ => fun _ => None
      end k
  end.
Fixpoint sends (schedule : list bool) (p q : Init (result string unit)) (seq : Z) (log : list Frame)
    : list Frame :=
  match schedule with
  | [] => log
  | true :: rest =>
      match send_step p seq log with Some (p', seq', log') => sends rest p' q seq' log' | None => log end
  | false :: rest =>
      match send_step q seq log with Some (q', seq', log') => sends rest p q' seq' log' | None => log end
  end.
(** The number is drawn before the connection's mutex is taken, so frames can
    reach the client against the order of their numbers. *)
Lemma frames_out_of_order :
  map fr_Seq (sends [true; false; false; true] (send (data_frame FrameStdout "a"))
    (send (data_frame FrameStderr "b")) 0 []) = [2; 1].
Proof. vm_compute. reflexivity. Qed.
