(* ===== verification/InitRoutes.v ===== *)
(** * jdix-init's routes (pkg/initd/server.go)

    The table of the data plane's routes with the two that are execd's own, and
    the handler built of them: which of the handlers of InitProc.v, InitStream.v
    and InitFiles.v a request runs, on what of the request. *)
From S2P Require Import Prelude GoStrings Calls Url Api Route Mux Posix InitProto InitProc InitStream InitFiles.
Open Scope string_scope.
Open Scope list_scope.

Inductive InitRoute :=
| IHealthRoute | IConfigureRoute
| IExecRoute | IExecStreamRoute | IPTYRoute | IProcessListRoute | IProcessSignalRoute
| IFileRoute (f : FileRoute).
(** The public surface. *)
Definition InitRoutes : list (string * list string * InitRoute) :=
  [ ("POST", ["v1"; "exec"], IExecRoute);
    ("GET", ["v1"; "exec"; "stream"], IExecStreamRoute);
    ("GET", ["v1"; "pty"], IPTYRoute);
    ("GET", ["v1"; "processes"], IProcessListRoute);
    ("DELETE", ["v1"; "processes"; wildcard], IProcessSignalRoute);
    ("GET", ["v1"; "files"], IFileRoute RouteGet);
    ("PUT", ["v1"; "files"], IFileRoute RoutePut);
    ("DELETE", ["v1"; "files"], IFileRoute RouteDelete);
    ("GET", ["v1"; "files"; "list"], IFileRoute RouteList) ].
Definition init_patterns : list (string * list string * InitRoute) :=
  ("GET", ["health"], IHealthRoute) :: ("POST", ["configure"], IConfigureRoute) :: InitRoutes.

(** What a request makes the server do: answer at once, perhaps in a new
    configuration, or run one of its programs. *)
Inductive InitAction :=
| IAnswer (resp : InitResponse) (s : InitServer)
| IRun (p : Init InitResponse)
| IFiles (p : Fs FileResponse)
| IRedirect (path : string) | IWrongMethod | INoRoute.
Section Handler.
Context (decode_exec : string -> result string ExecRequest).
Context (decode_configure : string -> result string ConfigureRequest).
(** [syscall.Errno.Error] *)
Context (Errno_string : Errno -> string).

Definition handleProcessList (t : procTable) : InitResponse := IProcesses (list_procs t).
(** [w] is what the pattern's wildcard matched; [t] is the process table. *)
Definition init_route (s : InitServer) (startedAt now : Time) (t : procTable) (r : Request)
    (route : InitRoute) (w : string) : InitAction :=
  let q := parse_query (u_RawQuery (rq_URL r)) in
  match route with
  | IHealthRoute => IAnswer (handleHealth s startedAt now t) s
  | IConfigureRoute => let '(resp, s') := handleConfigure (decode_configure (rq_Body r)) s in IAnswer resp s'
  | IExecRoute => IRun (serveExec s (RouteExec (decode_exec (rq_Body r))))
  | IExecStreamRoute => IRun (serveExec s (RouteExecStream q))
  | IPTYRoute => IRun (serveExec s (RoutePTY q))
  | IProcessListRoute => IAnswer (handleProcessList t) s
  | IProcessSignalRoute => IRun (serveExec s (RouteSignal w (query_get q "signal")))
  | IFileRoute f => let '(_, roots, ws) := snapshot s in IFiles (serveFiles Errno_string f roots ws q)
  end.
Definition InitHandler (s : InitServer) (startedAt now : Time) (t : procTable) (r : Request) : InitAction :=
  match dispatch_to init_patterns r with
  | DRedirect path => IRedirect path
  | DFound route w => init_route s startedAt now t r route w
  | DWrongMethod => IWrongMethod
  | DUnknown => INoRoute
  end.
(** The request was given to a handler. *)
Definition taken_up (a : InitAction) : bool :=
  match a with IAnswer _ _ | IRun _ | IFiles _ => true | _ => false end.

Lemma route_handled s startedAt now t r route w : taken_up (init_route s startedAt now t r route w) = true.
Proof.
  unfold init_route. destruct route; try done.
  - by destruct (handleConfigure _ s).
Qed.
Lemma InitHandler_handled s startedAt now t r :
  taken_up (InitHandler s startedAt now t r) = true <->
  canonical_path r = true /\ exists m pattern h, (m, pattern, h) ∈ init_patterns /\
    match_method m (rq_Method r) = true /\ is_Some (match_path pattern (path_segments r) "").
Proof.
  unfold InitHandler, dispatch_to. rewrite <-find_route_found.
  destruct (canonical_path r); cbn [negb]; [|by split; [|intros [? _]]].
  destruct (find_route init_patterns (rq_Method r) (path_segments r)) as [[h w]|].
  - rewrite route_handled. split; [intros _; split; [done|eauto]|done].
  - destruct (existsb _ _); (split; [done|intros [_ []]; done]).
Qed.
End Handler.
