(* ===== verification/OpenApi.v ===== *)
(** * The OpenAPI documents against the servers' routes (internal/openapicheck; api/openapi)

    The checks of internal/openapicheck as functions from a document to the
    complaints they report, what a document without complaints satisfies, and
    the two documents of api/openapi, as far as the checks read them. *)
From S2P Require Import Prelude Calls GoStrings Api Url Route Mux Posix InitProto InitProc InitStream InitFiles InitRoutes.
From S2P Require Import ApiKey Store ApiServer Warmup.
Open Scope string_scope.
Open Scope list_scope.

(** ** Documents *)

(** YAML as the checks assert its types: an object's entries, in some order. *)
Inductive Any := AnyString (s : string) | AnyObject (fields : list (string * Any)) | AnyOther | AnyNil.
Fixpoint field (k : string) (fields : list (string * Any)) : Any :=
  match fields with
  | [] => AnyNil
  | (k', v) :: fields' => if bool_decide (k' = k) then v else field k fields'
  end.
Definition object_of (a : Any) : option (list (string * Any)) :=
  match a with AnyObject fields => Some fields | _ => None end.
Definition as_string (a : Any) : string := match a with AnyString s => s | _ => "" end.
Definition is_nil (a : Any) : bool := match a with AnyNil => true | _ => false end.
Record Doc := { doc_OpenAPI : string; doc_Paths : list (string * list (string * Any)) }.

Definition httpVerbs : list string := ["get"; "put"; "post"; "delete"; "patch"; "head"; "options"].
(** [Load], once the file is read and parsed. *)
Definition Load (parsed : result string Doc) : result string Doc :=
  let? doc := parsed in
  guard negb (bool_decide (doc_OpenAPI doc = "")) else "has no openapi version" ;;
  guard negb (Nat.eqb (length (doc_Paths doc)) 0) else "describes no paths" ;;
  Ok doc.
(** What [Each] walks: verb, path and operation. *)
Definition Each (d : Doc) : list (string * string * list (string * Any)) :=
  concat (map (fun '(path, item) =>
    omap (fun '(key, raw) =>
      if bool_decide (key ∈ httpVerbs) then
        match object_of raw with Some op => Some (key, path, op) | None => None end
      else None) item) (doc_Paths d)).
Definition upper_byte (a : ascii) : ascii :=
  let n := nat_of_ascii a in if ((97 <=? n) && (n <=? 122))%nat then ascii_of_nat (n - 32) else a.
Fixpoint upper (s : string) : string :=
  match s with EmptyString => EmptyString | String a s' => String (upper_byte a) (upper s') end.
Definition op_name (verb path : string) : string := upper verb +:+ " " +:+ path.
Definition Operations (d : Doc) : gset string :=
  list_to_set (map (fun '(verb, path, _) => op_name verb path) (Each d)).

(** ** The checks *)

Inductive Complaint := Undocumented (op : string) | Phantom (op : string) | Unnamed (op : string)
  | SameName (id op1 op2 : string) | Untyped (op code : string).
Definition sorted_strings (l : list string) : list string := sort_by str_ltb l.
Definition SameSurface (d : Doc) (served : list string) : list Complaint :=
  let inSpec := Operations d in
  let inCode : gset string := list_to_set served in
  map Undocumented (sorted_strings (elements (inCode ∖ inSpec))) ++
  map Phantom (sorted_strings (elements (inSpec ∖ inCode))).
(** [Named]'s loop, with the names seen so far. *)
Fixpoint named_from (seen : gmap string string) (ops : list (string * string * list (string * Any))) : list Complaint :=
  match ops with
  | [] => []
  | (verb, path, op) :: ops' =>
      let id := as_string (field "operationId" op) in
      if bool_decide (id = "") then Unnamed (op_name verb path) :: named_from seen ops'
      else
        match seen !! id with
        | Some prev => [SameName id prev (op_name verb path)]
        | None => []
        end ++ named_from (<[id := op_name verb path]> seen) ops'
  end.
Definition Named (d : Doc) : list Complaint := named_from ∅ (Each d).
Definition untyped (op : string) (response : string * Any) : list Complaint :=
  let '(code, body) := response in
  if negb (has_prefix code "2") then []
  else if bool_decide (code = "204") || bool_decide (code = "101") then []
  else if is_nil (field "content" (default [] (object_of body))) then [Untyped op code] else [].
Definition TypedSuccess (d : Doc) : list Complaint :=
  concat (map (fun '(verb, path, op) =>
    concat (map (untyped (op_name verb path)) (default [] (object_of (field "responses" op))))) (Each d)).

(** ** What they establish *)

Lemma sorted_nil l : sorted_strings l = [] <-> l = [].
Proof.
  unfold sorted_strings. rewrite <-!length_zero_iff_nil, length_sort_by. done.
Qed.
Lemma SameSurface_none d served :
  SameSurface d served = [] <-> (forall op, op ∈ Operations d <-> op ∈ served).
Proof.
  unfold SameSurface. cbv zeta. generalize (Operations d). intros D. rewrite app_nil.
  assert (Hn : forall (f : string -> Complaint) (X : gset string),
    map f (sorted_strings (elements X)) = [] <-> X ≡ ∅).
  { intros f X. rewrite <-elements_empty_iff, <-sorted_nil. by destruct (sorted_strings _). }
  rewrite !Hn. set_unfold. split.
  - intros [H1 H2] op. specialize (H1 op). specialize (H2 op).
    destruct (decide (op ∈ D)), (decide (op ∈ served)); tauto.
  - intros H. split; intros op; specialize (H op); tauto.
Qed.

(** An operation of a document. *)
Definition operation (d : Doc) (o : string * string * list (string * Any)) : Prop := o ∈ Each d.
Definition op_id (o : string * string * list (string * Any)) : string := as_string (field "operationId" (snd o)).

Lemma named_from_none seen ops :
  named_from seen ops = [] <->
  Forall (fun o => op_id o <> "") ops /\ NoDup (map op_id ops) /\
  Forall (fun o => seen !! op_id o = None) ops.
Proof.
  revert seen. induction ops as [|[[verb path] op] ops IH]; intros seen; cbn [named_from map].
  { split; [|done]. intros _. repeat constructor. }
  cbv zeta. rewrite !Forall_cons, NoDup_cons. cbn [op_id snd]. unfold op_id at 1 4. cbn [snd].
  set (id := as_string (field "operationId" op)).
  case_bool_decide as Hid; [split; [discriminate|]; by intros [[? _] _]|].
  rewrite app_nil, IH.
  assert (Hs : (match seen !! id with Some prev => [SameName id prev (op_name verb path)] | None => [] end) = [] <->
    seen !! id = None) by by destruct (seen !! id).
  rewrite Hs, !Forall_forall. setoid_rewrite list_elem_of_fmap.
  assert (Hins : forall o, <[id := op_name verb path]> seen !! op_id o = None <-> op_id o <> id /\ seen !! op_id o = None).
  { intros o. rewrite lookup_insert_None. split; intros []; split; congruence. }
  setoid_rewrite Hins. split.
  - intros (H1 & H2 & H3 & H4). split; [split; [done|exact H2]|]. split; [split; [|exact H3]|split; [exact H1|]].
    + intros (o & E & Ho). by destruct (H4 o Ho).
    + intros o Ho. by apply H4.
  - intros ([_ H2] & [H3 H4] & [H1 H5]). split; [done|]. split; [done|]. split; [done|].
    intros o Ho. split; [|by apply H5]. intros E. apply H3. by exists o.
Qed.
Lemma Named_none d :
  Named d = [] <-> Forall (fun o => op_id o <> "") (Each d) /\ NoDup (map op_id (Each d)).
Proof.
  unfold Named. rewrite named_from_none. split; [tauto|]. intros [H1 H2]. split; [done|]. split; [done|].
  apply Forall_forall. intros o _. apply lookup_empty.
Qed.

Lemma TypedSuccess_none d :
  TypedSuccess d = [] <-> forall o code body, operation d o ->
    (code, body) ∈ default [] (object_of (field "responses" (snd o))) ->
    has_prefix code "2" = true -> code <> "204" -> code <> "101" ->
    is_nil (field "content" (default [] (object_of body))) = false.
Proof.
  assert (Hconcat : forall {A} (ls : list (list A)), concat ls = [] <-> forall l, l ∈ ls -> l = []).
  { intros A ls. induction ls as [|l ls IH]; cbn; [by split; [intros _ l ?%elem_of_nil|]|].
    rewrite app_nil, IH. setoid_rewrite elem_of_cons. split; [intros [-> H] l' [->|?]; auto|].
    intros H. split; [apply H; by left|]. intros l' ?. apply H. by right. }
  assert (Hu : forall op code body, untyped op (code, body) = [] <->
    (has_prefix code "2" = true -> code <> "204" -> code <> "101" ->
     is_nil (field "content" (default [] (object_of body))) = false)).
  { intros op code body. unfold untyped. destruct (has_prefix code "2"); cbn [negb]; [|done].
    repeat case_bool_decide; cbn [orb]; [by (split; [intros _ _ ? ?; contradiction|done])..|].
    destruct (is_nil _); [|done]. split; [discriminate|]. intros Hd. exfalso. by discriminate Hd. }
  unfold TypedSuccess, operation. rewrite Hconcat. split.
  - intros H [[verb path] op] code body Ho Hr. cbn [snd] in Hr.
    specialize (H _ (proj2 (list_elem_of_fmap _ _ _) (ex_intro _ _ (conj eq_refl Ho)))). cbn in H.
    rewrite Hconcat in H.
    specialize (H _ (proj2 (list_elem_of_fmap _ _ _) (ex_intro _ _ (conj eq_refl Hr)))). exact (proj1 (Hu _ _ _) H).
  - intros H l Hl. apply list_elem_of_fmap in Hl as ([[verb path] op] & -> & Ho). apply Hconcat.
    intros l' Hl'. apply list_elem_of_fmap in Hl' as ([code body] & -> & Hr). apply Hu. exact (H (verb, path, op) code body Ho Hr).
Qed.

(** ** api/openapi *)

(** An operation as far as the checks read it: its name, and for each status
    whether the answer has a content schema. *)
Definition op (verb id : string) (responses : list (string * bool)) : string * Any :=
  (verb, AnyObject
    [("operationId", AnyString id);
     ("responses", AnyObject (map (fun '(code, typed) =>
        (code, AnyObject (if typed : bool then [("content", AnyOther)] else []))) responses))]).

Definition control_plane_doc : Doc :=
  {| doc_OpenAPI := "3.1.0"; doc_Paths := [
    ("/v1/sandboxes", [op "post" "createSandbox" [("201", true); ("200", true); ("400", false); ("401", false); ("403", false); ("409", true); ("429", false)];
       op "get" "listSandboxes" [("200", true); ("401", false); ("403", false)]]);
    ("/v1/sandboxes/{id}", [("parameters", AnyOther);
       op "get" "getSandbox" [("200", true); ("401", false); ("403", false); ("404", false)];
       op "delete" "deleteSandbox" [("200", true); ("401", false); ("403", false); ("404", false)]]);
    ("/v1/templates", [op "get" "listTemplates" [("200", true); ("401", false); ("403", false)]]);
    ("/v1/templates/{name}/warmup-request", [("parameters", AnyOther);
       op "post" "requestWarmup" [("202", true); ("400", false); ("401", false); ("403", false); ("404", false)]]);
    ("/v1/quota", [op "get" "getQuota" [("200", true); ("401", false); ("403", false)]]);
    ("/v1/admin/warmup-requests", [op "get" "listWarmupRequests" [("200", true); ("401", false); ("403", false)]]);
    ("/v1/admin/warmup-requests/{id}/review", [("parameters", AnyOther);
       op "post" "reviewWarmup" [("200", true); ("400", false); ("401", false); ("403", false); ("404", false); ("409", true)]]);
    ("/v1/admin/budget", [op "get" "getBudget" [("200", true); ("401", false); ("403", false)]])] |}.

Definition data_plane_doc : Doc :=
  {| doc_OpenAPI := "3.1.0"; doc_Paths := [
    ("/v1/exec", [op "post" "exec" [("200", true); ("400", false); ("401", false); ("410", false)]]);
    ("/v1/exec/stream", [op "get" "execStream" [("101", false); ("401", false)]]);
    ("/v1/pty", [op "get" "pty" [("101", false); ("401", false)]]);
    ("/v1/processes", [op "get" "listProcesses" [("200", true); ("401", false)]]);
    ("/v1/processes/{pid}", [("parameters", AnyOther);
       op "delete" "signalProcess" [("200", true); ("401", false); ("404", true)]]);
    ("/v1/files", [op "get" "readFile" [("200", true); ("206", true); ("400", true); ("401", false); ("403", false); ("404", false)];
       op "put" "writeFile" [("200", true); ("401", false); ("403", false)];
       op "delete" "deleteFile" [("200", true); ("401", false); ("403", false); ("404", false)]]);
    ("/v1/files/list", [op "get" "listFiles" [("200", true); ("401", false); ("403", false); ("404", false)]]);
    ("/v1/ports", [op "post" "exposePort" [("200", true); ("400", true); ("401", false)]]);
    ("/v1/keepalive", [op "post" "keepAlive" [("200", true); ("401", false); ("410", false)]])] |}.

(** ** What the documents describe is what is served *)

(** A path of a document as a pattern: a segment in braces is a wildcard. *)
Definition doc_pattern (path : string) : list string :=
  map (fun s => if has_prefix s "{" then wildcard else s) (split slash (drop_string 1 path)).
Definition surface (d : Doc) : list (string * list string) :=
  map (fun '(verb, path, _) => (upper verb, doc_pattern path)) (Each d).
(** An operation of the document is asked for. *)
Definition documented (d : Doc) (method : string) (segs : list string) : Prop :=
  exists m pattern, (m, pattern) ∈ surface d /\ match_method m method = true /\ is_Some (match_path pattern segs "").

Definition same_patterns (l1 l2 : list (string * list string)) : bool :=
  forallb (fun x => bool_decide (x ∈ l2)) l1 && forallb (fun x => bool_decide (x ∈ l1)) l2.
Lemma same_patterns_iff l1 l2 x : same_patterns l1 l2 = true -> x ∈ l1 <-> x ∈ l2.
Proof.
  unfold same_patterns. rewrite andb_true_iff, !forallb_forall. setoid_rewrite <-list_elem_of_In.
  setoid_rewrite bool_decide_eq_true. intros [H1 H2]. split; auto.
Qed.
(** What is answered before jdix-init: a port's URL by the gateway, keepalive by execd. *)
Definition answered_before : list (string * list string) :=
  [ ("POST", ["v1"; "ports"]); ("POST", ["v1"; "keepalive"]) ].
Lemma data_surface : same_patterns (surface data_plane_doc) (answered_before ++ map fst InitRoutes) = true.
Proof. vm_compute. reflexivity. Qed.

Lemma match_literal pattern : Forall (fun p => p <> wildcard) pattern -> forall segs found,
  is_Some (match_path pattern segs found) <-> segs = pattern.
Proof.
  induction 1 as [|p pattern Hp _ IH]; intros [|x segs] found; cbn [match_path].
  - split; [done|eauto].
  - split; [by intros []|discriminate].
  - split; [by intros []|discriminate].
  - rewrite bool_decide_eq_false_2 by done. case_bool_decide as Hx.
    + subst x. rewrite IH. split; [by intros ->|by intros [= ->]].
    + split; [by intros []|by intros [= ->]].
Qed.
Lemma answered_before_matches m pattern method segs :
  (m, pattern) ∈ answered_before ->
  match_method m method = true /\ is_Some (match_path pattern segs "") <-> method = "POST" /\ segs = pattern.
Proof.
  intros Hin. assert (Hm : m = "POST" /\ Forall (fun p => p <> wildcard) pattern).
  { unfold answered_before in Hin. rewrite !elem_of_cons in Hin. destruct Hin as [[= -> ->]|[[= -> ->]|Hin]];
      [by (split; [done|repeat constructor])..|by apply elem_of_nil in Hin]. }
  destruct Hm as [-> Hl]. rewrite match_literal by done. unfold match_method.
  rewrite orb_true_iff, andb_true_iff, !bool_decide_eq_true. intuition congruence.
Qed.

Section Served.
Context (decode_exec : string -> result string ExecRequest).
Context (decode_configure : string -> result string ConfigureRequest).
Context (Errno_string : Errno -> string).
(** An operation of the data plane's document is one that jdix-init hands to a
    handler, or one of the two answered before; and nothing else is served. *)
Lemma init_documented s startedAt now t r :
  canonical_path r = true -> match path_segments r with x :: _ => x = "v1" | [] => False end ->
  documented data_plane_doc (rq_Method r) (path_segments r) <->
  taken_up (InitHandler decode_exec decode_configure Errno_string s startedAt now t r) = true \/
  ("POST", path_segments r) ∈ answered_before /\ rq_Method r = "POST".
Proof.
  intros Hc Hv. rewrite InitHandler_handled. unfold documented. split.
  - intros (m & pattern & Hin & Hm & Hp). rewrite (same_patterns_iff _ _ _ data_surface), elem_of_app in Hin.
    destruct Hin as [Hin|([[m' p'] h] & [= -> ->] & Hin)%list_elem_of_fmap].
    + right. destruct (proj1 (answered_before_matches _ _ _ _ Hin) (conj Hm Hp)) as [Hpost ->].
      split; [|done]. unfold answered_before in *. rewrite !elem_of_cons in *. destruct Hin as [[= -> ->]|[[= -> ->]|?%elem_of_nil]]; auto; done.
    + left. split; [done|]. exists m', p', h. split; [|done]. unfold init_patterns. do 2 right. done.
  - intros [[_ (m & pattern & h & Hin & Hm & Hp)]|[Hin Hpost]].
    + exists m, pattern. split; [|done]. apply (same_patterns_iff _ _ _ data_surface), elem_of_app. right.
      apply list_elem_of_fmap. exists (m, pattern, h). split; [done|]. unfold init_patterns in Hin.
      rewrite !elem_of_cons in Hin. destruct (path_segments r) as [|x segs]; [done|]. subst x.
      destruct Hin as [[= -> -> ->]|[[= -> -> ->]|Hin]]; [by destruct Hp..|done].
    + exists "POST", (path_segments r). split; [apply (same_patterns_iff _ _ _ data_surface), elem_of_app; by left|].
      by apply answered_before_matches.
Qed.
End Served.

(** The control plane's routes are its document's operations. *)
Lemma mux_found (routes : list ApiRoute) r :
  is_Some (mux routes r) <-> exists rt, rt ∈ routes /\ match_method (ar_Method rt) (rq_Method r) = true /\
    is_Some (match_path (ar_Path rt) (path_segments r) "").
Proof.
  induction routes as [|rt routes IH]; cbn [mux].
  { split; [by intros []|by intros (? & ?%elem_of_nil & _)]. }
  split.
  - destruct (match_method _ _) eqn:Em; [destruct (match_path _ _ "") eqn:Ep|].
    + intros _. exists rt. split; [left|]. rewrite Ep. eauto.
    + intros (rt' & Hin & H)%IH. exists rt'. split; [by right|done].
    + intros (rt' & Hin & H)%IH. exists rt'. split; [by right|done].
  - intros (rt' & [->|Hin]%elem_of_cons & Hm & Hp).
    + rewrite Hm. destruct Hp as [f ->]. by eexists.
    + assert (is_Some (mux routes r)) by (apply IH; eauto).
      destruct (match_method (ar_Method rt) (rq_Method r)); [|done]. destruct (match_path (ar_Path rt) (path_segments r) ""); [eexists; reflexivity|assumption].
Qed.
Section ServedApi.
Context (decode_warmup : string -> result string WarmupRequestBody) (decode_review : string -> result string ReviewBody).
Context (cfg : Config) (decode_create : string -> result string CreateSandboxRequest).
Context (requestSum : CreateSandboxRequest -> string) (fuel : nat).
Abbreviation routes := (Routes decode_warmup decode_review cfg decode_create requestSum fuel).
Lemma control_surface : same_patterns (surface control_plane_doc) (map (fun rt => (ar_Method rt, ar_Path rt)) routes) = true.
Proof. vm_compute. reflexivity. Qed.
Lemma api_documented r : documented control_plane_doc (rq_Method r) (path_segments r) <-> is_Some (mux routes r).
Proof.
  rewrite mux_found. unfold documented. split.
  - intros (m & pattern & Hin & Hm & Hp). apply (same_patterns_iff _ _ _ control_surface), list_elem_of_fmap in Hin as (rt & [= -> ->] & Hin).
    by exists rt.
  - intros (rt & Hin & Hm & Hp). exists (ar_Method rt), (ar_Path rt). split; [|done].
    apply (same_patterns_iff _ _ _ control_surface), list_elem_of_fmap. by exists rt.
Qed.
End ServedApi.
(** Every operation has a name of its own, and every success that carries
    something carries a schema. *)
Lemma documents_checked :
  Named control_plane_doc = [] /\ Named data_plane_doc = [] /\ TypedSuccess control_plane_doc = [] /\ TypedSuccess data_plane_doc = [].
Proof. split_and!; vm_compute; reflexivity. Qed.
