(* ===== verification/SdkStream.v ===== *)
(** * Streams of the Go client (sdk/go/exec.go)

    What the client sends for a command and makes of the frames it receives,
    and that it agrees with the server: a streamed command, drained, gives the
    result the synchronous form gives. *)
From S2P Require Import Prelude GoStrings Url Api Calls InitProto InitProc InitStream.
Open Scope string_scope.
Open Scope Z_scope.

Record Result := {
  re_ExitCode : Z; re_Stdout : string; re_Stderr : string; re_DurationMs : Z;
  re_Truncated : bool; re_TimedOut : bool }.
Definition Result_Ok (r : Result) : bool := re_ExitCode r =? 0.

Record RunOpts := {
  ro_Cwd : string; ro_Env : gmap string string; ro_Timeout : Z; ro_MaxOutputBytes : Z;
  ro_Argv : list string }.
(** [int(d.Seconds())] *)
Definition whole_seconds (d : Z) : Z := Z.quot d second.

(** The body [Run] posts. *)
Definition Run_request (cmd : string) (o : RunOpts) : ExecRequest :=
  {| ex_Cmd := cmd; ex_Argv := ro_Argv o; ex_Cwd := ro_Cwd o; ex_Env := ro_Env o;
     ex_TimeoutSeconds := if 0 <? ro_Timeout o then whole_seconds (ro_Timeout o) else 0;
     ex_MaxOutputBytes := ro_MaxOutputBytes o |}.
(** The query [RunStream] opens its stream with. *)
Definition RunStream_query (cmd : string) (o : option RunOpts) : Values :=
  match o with
  | Some o => if 0 <? ro_Timeout o
              then <["timeoutSeconds" := [itoa (whole_seconds (ro_Timeout o))]]> {[ "cmd" := [cmd] ]}
              else {[ "cmd" := [cmd] ]}
  | None => {[ "cmd" := [cmd] ]}
  end.
Record PTYOpts := { po_Cmd : string; po_Cols : Z; po_Rows : Z }.
Definition PTY_query (o : PTYOpts) : Values :=
  let q := if bool_decide (po_Cmd o = "") then ∅ else {[ "cmd" := [po_Cmd o] ]} in
  let q := if 0 <? po_Cols o then <["cols" := [itoa (po_Cols o)]]> q else q in
  if 0 <? po_Rows o then <["rows" := [itoa (po_Rows o)]]> q else q.

(** ** Frames the client sends *)

Definition Stdin (p : string) : Frame := data_frame "stdin" p.
Definition CloseStdin : Frame := frame "stdin".
Definition signal_frame (sig : string) : Frame :=
  {| fr_T := "signal"; fr_D := ""; fr_Seq := 0; fr_Cols := 0; fr_Rows := 0; fr_Sig := sig; fr_Code := 0;
     fr_DurationMs := 0; fr_ErrCode := ""; fr_Msg := "" |}.
Definition resize_frame (cols rows : Z) : Frame :=
  {| fr_T := "resize"; fr_D := ""; fr_Seq := 0; fr_Cols := cols; fr_Rows := rows; fr_Sig := ""; fr_Code := 0;
     fr_DurationMs := 0; fr_ErrCode := ""; fr_Msg := "" |}.

(** ** Events *)

Inductive StreamErr := ConnErr (msg : string) | FrameErr (code msg : string).
Inductive StreamEvent :=
| EvData (kind data : string)
| EvExit (code durationMs : Z)
| EvError (e : StreamErr).

Section Pump.
(** [base64.CorruptInputError.Error]; and whether the session's own context
    was still running when the connection ended. *)
Context (corrupt : string -> string) (open : bool).

(** The loop of [pump] over what the connection delivers: the events, and how
    many pongs were sent. [lost] is the error that ends the connection. *)
Fixpoint pump (incoming : list (result string Frame)) (lost : string) : list StreamEvent * nat :=
  match incoming with
  | [] => (if open then [EvError (ConnErr lost)] else [], O)
  | Err msg :: rest =>
      let '(evs, n) := pump rest lost in (EvError (ConnErr msg) :: evs, n)
  | Ok f :: rest =>
      if bool_decide (fr_T f = "stdout" \/ fr_T f = "stderr") then
        let '(evs, n) := pump rest lost in
        (match StdDecode (fr_D f) with
         | None => EvError (ConnErr (corrupt (fr_D f)))
         | Some raw => EvData (fr_T f) raw
         end :: evs, n)
      else if bool_decide (fr_T f = "exit") then ([EvExit (fr_Code f) (fr_DurationMs f)], O)
      else if bool_decide (fr_T f = "error") then
        let '(evs, n) := pump rest lost in (EvError (FrameErr (fr_ErrCode f) (fr_Msg f)) :: evs, n)
      else if bool_decide (fr_T f = "ping") then
        let '(evs, n) := pump rest lost in (evs, S n)
      else pump rest lost
  end.
End Pump.

(** [Collect]: an error ends it at once, without the output. *)
Fixpoint collect (out errBuf : string) (code durationMs : Z) (evs : list StreamEvent)
    : Result * option StreamErr :=
  let res stdout stderr :=
    {| re_ExitCode := code; re_Stdout := stdout; re_Stderr := stderr; re_DurationMs := durationMs;
       re_Truncated := false; re_TimedOut := false |} in
  match evs with
  | [] => (res out errBuf, None)
  | EvData kind data :: evs' =>
      if bool_decide (kind = "stdout") then collect (out +:+ data) errBuf code durationMs evs'
      else collect out (errBuf +:+ data) code durationMs evs'
  | EvExit c d :: evs' => collect out errBuf c d evs'
  | EvError e :: _ => (res "" "", Some e)
  end.
Definition Collect (evs : list StreamEvent) : Result * option StreamErr := collect "" "" (-1) 0 evs.

(** ** A session *)

(** The frames a program writes when every write succeeds, whatever numbers
    it draws. *)
Fixpoint writes (p : Init unit) (fs : list Frame) : Prop :=
  match p with
  | Ret _ => fs = []
  | Vis e k =>
      match e in InitE R return (R -> Init unit) -> Prop with
      | NextSeq => fun k => exists n, writes (k n) fs
      | WsWrite f => fun k => exists fs', fs = f :: fs' /\ writes (k (Ok tt)) fs'
      | _ => fun _ => False
      end k
  end.

(** Two sequences of frames on one connection, each in its own order. *)
Inductive shuffle {A} : list A -> list A -> list A -> Prop :=
| shuffle_nil : shuffle [] [] []
| shuffle_left x a b c : shuffle a b c -> shuffle (x :: a) b (x :: c)
| shuffle_right x a b c : shuffle a b c -> shuffle a (x :: b) (x :: c).
Lemma shuffle_filter {A} (P : A -> Prop) `{forall x, Decision (P x)} a b c :
  shuffle a b c -> Forall (fun x => ~ P x) b -> filter P c = filter P a.
Proof.
  induction 1 as [|x a b c Hs IH|x a b c Hs IH]; intros Hb; [done| |].
  - rewrite !filter_cons. by rewrite IH.
  - inversion_clear Hb. rewrite filter_cons_False by done. auto.
Qed.
Lemma shuffle_comm {A} (a b c : list A) : shuffle a b c -> shuffle b a c.
Proof. induction 1; by constructor. Qed.
Lemma shuffle_Forall {A} (P : A -> Prop) a b c : shuffle a b c -> Forall P a -> Forall P b -> Forall P c.
Proof. induction 1; intros Ha Hb; [done|inversion_clear Ha|inversion_clear Hb]; constructor; auto. Qed.
Lemma shuffle_elem_l {A} (a b c : list A) x : shuffle a b c -> x ∈ a -> x ∈ c.
Proof.
  induction 1; [done| |]; rewrite !elem_of_cons; tauto.
Qed.

Definition of_kind (kind : string) (f : Frame) : Prop := fr_T f = kind.
#[local] Instance of_kind_dec kind f : Decision (of_kind kind f).
Proof. unfold of_kind. apply _. Defined.
(** What the frames of one kind carry. *)
Definition data_of (kind : string) (fs : list Frame) : string :=
  String.concat "" (map (fun f => default "" (StdDecode (fr_D f))) (filter (of_kind kind) fs)).
Lemma concat_cons x l : String.concat "" (x :: l) = x +:+ String.concat "" l.
Proof. destruct l; cbn; [by rewrite app_empty_r|done]. Qed.
Lemma data_of_cons kind f fs :
  data_of kind (f :: fs) =
  if decide (of_kind kind f) then default "" (StdDecode (fr_D f)) +:+ data_of kind fs else data_of kind fs.
Proof. unfold data_of. rewrite filter_cons. destruct (decide _); [apply concat_cons|done]. Qed.

(** The frames of a session in which no message is lost. *)
Definition session_frame (f : Frame) : Prop :=
  ((fr_T f = "stdout" \/ fr_T f = "stderr") /\ is_Some (StdDecode (fr_D f))) \/
  fr_T f = "ping" \/ fr_T f = "pong".

Lemma collect_session corrupt open lost fs out err code durationMs c d rest :
  Forall session_frame fs ->
  collect out err c d (pump corrupt open (map Ok (fs ++ [exit_frame code durationMs]) ++ rest) lost).1 =
  ({| re_ExitCode := code; re_Stdout := out +:+ data_of "stdout" fs; re_Stderr := err +:+ data_of "stderr" fs;
      re_DurationMs := durationMs; re_Truncated := false; re_TimedOut := false |}, None).
Proof.
  intros Hf. revert out err. induction Hf as [|f fs Hf Hfs IH]; intros out err.
  { unfold data_of. cbn. by rewrite !app_empty_r. }
  cbn [map app]. cbn [pump]. destruct (pump _ _ _ _) as [evs n] eqn:Ep.
  cbn [fst] in IH. rewrite !data_of_cons.
  destruct Hf as [[[Ht|Ht] [raw Hraw]]|[Ht|Ht]]; rewrite Ht in *.
  - rewrite bool_decide_eq_true_2, Hraw by auto. cbn [fst collect].
    rewrite (bool_decide_eq_true_2 ("stdout" = "stdout")), IH by done.
    rewrite decide_True, decide_False by (unfold of_kind; by rewrite Ht).
    by rewrite app_assoc_str.
  - rewrite bool_decide_eq_true_2, Hraw by auto. cbn [fst collect].
    rewrite (bool_decide_eq_false_2 ("stderr" = "stdout")), IH by done.
    rewrite decide_False, decide_True by (unfold of_kind; by rewrite Ht).
    by rewrite app_assoc_str.
  - cbn. rewrite IH. by rewrite !decide_False by (unfold of_kind; by rewrite Ht).
  - cbn. rewrite IH. by rewrite !decide_False by (unfold of_kind; by rewrite Ht).
Qed.

(** Pumps write what they read, in order. *)
Lemma pump_writes kind reads fs :
  kind = FrameStdout \/ kind = FrameStderr ->
  writes (pumpStream kind reads) fs ->
  Forall (fun f => fr_T f = kind /\ is_Some (StdDecode (fr_D f))) fs /\
  data_of kind fs = String.concat "" reads.
Proof.
  intros Hk. revert fs. induction reads as [|buf reads IH]; intros fs; [by cbn; intros ->|].
  cbn [pumpStream]. destruct (Nat.ltb_spec 0 (String.length buf)) as [Hb|Hb].
  - unfold send. assert (numbered (data_frame kind buf) = true) as ->
      by (by destruct Hk as [-> | ->]).
    cbn [mbind K_bind bindK call writes]. intros [n (fs' & -> & Hw)].
    destruct (IH _ Hw) as [H1 H2]. split.
    + constructor; [|done]. cbn. rewrite StdDecode_StdEncode. by eauto.
    + rewrite data_of_cons, decide_True by done. cbn [with_seq fr_D data_frame].
      by rewrite StdDecode_StdEncode, H2, concat_cons.
  - intros Hw. destruct (IH _ Hw) as [H1 H2]. split; [done|].
    rewrite concat_cons. destruct buf; [done|cbn in Hb; lia].
Qed.
Lemma keepalive_writes n fs : writes (keepalive n) fs -> Forall (of_kind FramePing) fs.
Proof.
  revert fs. induction n as [|n IH]; intros fs; [by cbn; intros ->|].
  cbn [keepalive]. unfold send. cbn [numbered frame fr_T].
  change (numbered (frame FramePing)) with false. cbn [mbind K_bind bindK call writes].
  intros (fs' & -> & Hw). constructor; [done|by apply IH].
Qed.

(** What the synchronous form answers for the same process, from [handleExec]. *)
Definition exec_result (limit code : Z) (out err : list string) : Result :=
  let stdout := Copy out (newCapWriter limit) in
  let stderr := Copy err (newCapWriter limit) in
  {| re_ExitCode := code; re_Stdout := cw_buf stdout; re_Stderr := cw_buf stderr; re_DurationMs := 0;
     re_Truncated := cw_over stdout || cw_over stderr; re_TimedOut := false |}.
Lemma Copy_whole limit reads :
  0 < limit -> cw_over (Copy reads (newCapWriter limit)) = false ->
  cw_buf (Copy reads (newCapWriter limit)) = String.concat "" reads.
Proof.
  intros Hl. destruct (Copy_captured limit reads Hl) as (_ & -> & ->). intros Ho%Z.ltb_ge.
  apply take_all. lia.
Qed.

(** The frames of a streamed command are a session's. *)
Lemma streamed_frames out err beats fo fe fk fs1 fs :
  writes (pumpStream FrameStdout out) fo -> writes (pumpStream FrameStderr err) fe ->
  writes (keepalive beats) fk -> shuffle fo fe fs1 -> shuffle fs1 fk fs -> Forall session_frame fs.
Proof.
  intros [Ho _]%pump_writes [He _]%pump_writes Hk%keepalive_writes H1 H2; [|by right|by left].
  eapply shuffle_Forall; [exact H2|eapply shuffle_Forall; [exact H1| |]|].
  - eapply List.Forall_impl; [|exact Ho]. intros f [Hf1 Hf2]. left. split; [by left|done].
  - eapply List.Forall_impl; [|exact He]. intros f [Hf1 Hf2]. left. split; [by right|done].
  - eapply List.Forall_impl; [|exact Hk]. intros f Hf. right. by left.
Qed.

(** However the frames of the two pumps and of the keepalive interleave on
    the connection, and whatever comes after the exit frame, draining a
    streamed command gives the exit code and the whole of both outputs, in
    order and apart: what the synchronous form answers for the same process,
    unless that had to truncate. *)
Theorem stream_agrees_with_exec corrupt open lost limit out err beats fo fe fk fs1 fs code d rest :
  writes (pumpStream FrameStdout out) fo -> writes (pumpStream FrameStderr err) fe ->
  writes (keepalive beats) fk -> shuffle fo fe fs1 -> shuffle fs1 fk fs ->
  0 < limit -> re_Truncated (exec_result limit code out err) = false ->
  let '(res, e) := Collect (pump corrupt open (map Ok (fs ++ [exit_frame code d]) ++ rest) lost).1 in
  e = None /\ re_ExitCode res = code /\ re_DurationMs res = d /\
  re_Stdout res = re_Stdout (exec_result limit code out err) /\
  re_Stderr res = re_Stderr (exec_result limit code out err).
Proof.
  intros Ho He Hk H1 H2 Hl [Ht1 Ht2]%orb_false_iff.
  pose proof (streamed_frames _ _ _ _ _ _ _ _ Ho He Hk H1 H2) as Hfs.
  apply pump_writes in Ho as [Ho Hdo]; [|by left]. apply pump_writes in He as [He Hde]; [|by right].
  apply keepalive_writes in Hk.
  unfold Collect. rewrite collect_session by done. split; [done|]. split; [done|]. split; [done|].
  cbn [re_Stdout re_Stderr exec_result]. rewrite !Copy_whole, <-Hdo, <-Hde by done.
  assert (forall k, k <> FramePing -> filter (of_kind k) fs = filter (of_kind k) fs1) as Hping.
  { intros k Hne. eapply shuffle_filter; [exact H2|]. eapply List.Forall_impl; [|exact Hk].
    unfold of_kind. intros f -> E. by apply Hne. }
  unfold data_of. rewrite !Hping by done. split.
  - rewrite (shuffle_filter (of_kind "stdout") _ _ _ H1); [done|].
    eapply List.Forall_impl; [|exact He]. unfold of_kind. by intros f [-> _].
  - rewrite (shuffle_filter (of_kind "stderr") _ _ _ (shuffle_comm _ _ _ H1)); [done|].
    eapply List.Forall_impl; [|exact Ho]. unfold of_kind. by intros f [-> _].
Qed.

(** ** What reaches the server *)

Lemma atoi_value_itoa n : in_int64 n -> atoi_value (itoa n) = n.
Proof. intros H. by apply atoi_value_atoi, atoi_itoa. Qed.
Lemma itoa_not_empty n : in_int64 n -> itoa n <> "".
Proof. intros H E. pose proof (atoi_itoa n H) as Ha. by rewrite E in Ha. Qed.
Lemma whole_seconds_range d : in_int64 d -> in_int64 (whole_seconds d).
Proof. unfold in_int64, whole_seconds, second. intros H. Z.to_euclidean_division_equations. lia. Qed.
Lemma query_get_insert (q : Values) k v k' :
  query_get (<[k := [v]]> q) k' = if decide (k = k') then v else query_get q k'.
Proof.
  unfold query_get. destruct (decide (k = k')) as [->|Hne];
    [by rewrite lookup_insert_eq|by rewrite lookup_insert_ne].
Qed.
Lemma insert_nonempty (q : Values) k v :
  (forall x, q !! x <> Some []) -> forall x, <[k := [v]]> q !! x <> Some [].
Proof.
  intros Hq x. destruct (decide (k = x)) as [->|]; [by rewrite lookup_insert_eq|by rewrite lookup_insert_ne].
Qed.
Lemma empty_nonempty x : (∅ : Values) !! x <> Some [].
Proof. by rewrite lookup_empty. Qed.
Lemma singleton_nonempty k v x : ({[k := [v]]} : Values) !! x <> Some [].
Proof. apply (insert_nonempty ∅), empty_nonempty. Qed.
Ltac nonempty_values :=
  repeat apply insert_nonempty; first [apply singleton_nonempty | apply empty_nonempty].

(** The stream a client opens asks the server for exactly the command, in
    the deadline the synchronous form would ask for, whatever bytes the
    command is made of; and a terminal is opened at the size that was asked
    for, or 120 by 40. *)
Theorem stream_query_roundtrip cmd o p :
  in_int64 (ro_Timeout o) -> in_int64 (po_Cols p) -> in_int64 (po_Rows p) ->
  let req := execReqFromQuery (parse_query (encode_query (RunStream_query cmd (Some o)))) in
  let q := parse_query (encode_query (PTY_query p)) in
  ex_Cmd req = cmd /\
  ex_TimeoutSeconds req = ex_TimeoutSeconds (Run_request cmd o) /\
  ex_Cmd (execReqFromQuery q) = po_Cmd p /\
  sizeFromQuery q = (if 0 <? po_Cols p then po_Cols p else 120, if 0 <? po_Rows p then po_Rows p else 40).
Proof.
  intros Ht Hc Hr. cbv zeta. rewrite !parse_encode_query.
  - assert (forall c, ({["cmd" := [c]]} : Values) = <["cmd" := [c]]> ∅) as Hsing by done.
    split; [|split; [|split]].
    + unfold RunStream_query, execReqFromQuery. cbn [ex_Cmd]. rewrite Hsing.
      destruct (0 <? ro_Timeout o); rewrite ?query_get_insert;
        repeat (rewrite ?decide_True, ?decide_False by done); done.
    + unfold RunStream_query, execReqFromQuery, Run_request. cbn [ex_TimeoutSeconds]. rewrite Hsing.
      destruct (0 <? ro_Timeout o); rewrite ?query_get_insert;
        repeat (rewrite ?decide_True, ?decide_False by done).
      * rewrite bool_decide_eq_false_2 by by apply itoa_not_empty, whole_seconds_range.
        by apply atoi_value_itoa, whole_seconds_range.
      * done.
    + unfold PTY_query, execReqFromQuery. cbn [ex_Cmd].
      destruct (0 <? po_Rows p), (0 <? po_Cols p); case_bool_decide as E; rewrite ?Hsing, ?query_get_insert;
        repeat (rewrite ?decide_True, ?decide_False by done); by rewrite ?E.
    + unfold sizeFromQuery, PTY_query.
      destruct (0 <? po_Rows p) eqn:E1, (0 <? po_Cols p) eqn:E2; case_bool_decide as E;
        rewrite ?Hsing, ?query_get_insert;
        repeat (rewrite ?decide_True, ?decide_False by done);
        rewrite ?atoi_itoa, ?E1, ?E2 by done; done.
  - unfold PTY_query. destruct (0 <? po_Rows p), (0 <? po_Cols p); case_bool_decide; nonempty_values.
  - unfold RunStream_query. destruct (0 <? ro_Timeout o); nonempty_values.
Qed.

(** An empty stdin frame, which [CloseStdin] sends, writes nothing and leaves
    the command's standard input open. *)
Lemma CloseStdin_keeps_open corrupt pid :
  control_frame corrupt pid true false CloseStdin =
  (r ← call (StdinWrite ""); mret (match r with Ok _ => true | Err _ => false end)).
Proof. reflexivity. Qed.
(** A timeout below one second becomes the server's default of two minutes. *)
Lemma short_timeout cmd o :
  0 < ro_Timeout o < second -> timeoutOf (Run_request cmd o) = defaultTimeout.
Proof.
  intros H. unfold timeoutOf, Run_request, whole_seconds. cbn [ex_TimeoutSeconds].
  rewrite Z.quot_small by lia. by destruct (0 <? ro_Timeout o).
Qed.

(** ** Witnesses *)

Definition wit_out : list Frame := [with_seq (data_frame "stdout" "a") 1; with_seq (data_frame "stdout" "bc") 3].
Definition wit_err : list Frame := [with_seq (data_frame "stderr" "x") 2].
Definition wit_session : list Frame :=
  [with_seq (data_frame "stdout" "a") 1; frame FramePing; with_seq (data_frame "stderr" "x") 2;
   with_seq (data_frame "stdout" "bc") 3].
Lemma wit_shuffle : exists fs1, shuffle wit_out wit_err fs1 /\ shuffle fs1 [frame FramePing] wit_session.
Proof.
  exists [with_seq (data_frame "stdout" "a") 1; with_seq (data_frame "stderr" "x") 2;
          with_seq (data_frame "stdout" "bc") 3]. split.
  - apply shuffle_left, shuffle_right, shuffle_left, shuffle_nil.
  - apply shuffle_left, shuffle_right, shuffle_left, shuffle_left, shuffle_nil.
Qed.

Lemma stream_agrees_with_exec_wit :
  re_Truncated (exec_result 100 7 ["a"; ""; "bc"] ["x"]) = false /\
  (Collect (pump id true (map Ok (wit_session ++ [exit_frame 7 12]) ++ []) "EOF").1).1 =
  {| re_ExitCode := 7; re_Stdout := "abc"; re_Stderr := "x"; re_DurationMs := 12;
     re_Truncated := false; re_TimedOut := false |} /\
  let '(res, e) := Collect (pump id true (map Ok (wit_session ++ [exit_frame 7 12]) ++ []) "EOF").1 in
  e = None /\ re_ExitCode res = 7 /\ re_DurationMs res = 12 /\
  re_Stdout res = re_Stdout (exec_result 100 7 ["a"; ""; "bc"] ["x"]) /\
  re_Stderr res = re_Stderr (exec_result 100 7 ["a"; ""; "bc"] ["x"]).
Proof.
  split; [vm_compute; reflexivity|]. split; [vm_compute; reflexivity|].
  destruct wit_shuffle as (fs1 & H1 & H2).
  apply (stream_agrees_with_exec id true "EOF" 100 ["a"; ""; "bc"] ["x"] 1 wit_out wit_err
    [frame FramePing] fs1 wit_session 7 12 []).
  - exists 1. eexists. split; [reflexivity|]. exists 3. eexists. split; reflexivity.
  - exists 2. eexists. split; reflexivity.
  - eexists. split; reflexivity.
  - exact H1.
  - exact H2.
  - reflexivity.
  - vm_compute. reflexivity.
Defined.

Definition wit_opts : RunOpts :=
  {| ro_Cwd := ""; ro_Env := ∅; ro_Timeout := 90 * second; ro_MaxOutputBytes := 0; ro_Argv := [] |}.
Lemma stream_query_roundtrip_wit :
  let req := execReqFromQuery (parse_query (encode_query (RunStream_query "a=b&c; d+%" (Some wit_opts)))) in
  let q := parse_query (encode_query (PTY_query {| po_Cmd := "sh -c 'x'"; po_Cols := 80; po_Rows := 0 |})) in
  ex_Cmd req = "a=b&c; d+%" /\ ex_TimeoutSeconds req = 90 /\
  ex_Cmd (execReqFromQuery q) = "sh -c 'x'" /\ sizeFromQuery q = (80, 40).
Proof.
  apply (stream_query_roundtrip "a=b&c; d+%" wit_opts
    {| po_Cmd := "sh -c 'x'"; po_Cols := 80; po_Rows := 0 |});
    (split; [intros H; vm_compute in H; discriminate H|reflexivity]).
Defined.
