(* ===== verification/SdkClient.v ===== *)
(** * The Go client (sdk/go/client.go, sandbox.go, files.go)

    The request loop [do] with its retries, the errors it decodes, and what the
    client does on top of it: creating and waiting for a sandbox, keeping it
    alive, closing it, and the addresses of the file API.  The network, the
    clock and the caller's context answer calls; JSON is a parameter.

    Reading and writing of response bodies by the caller, and Go's [http.Client]
    (redirects, its 90 s timeout) are not modelled. *)
From S2P Require Import Prelude GoStrings Url Api Calls.
From S2P Require Execd SdkStream.
Open Scope string_scope.

(** ** Configuration *)

Definition DefaultBaseURL : string := "https://api.jdix.example.com".
Record Client := {
  c_baseURL : string; c_apiKey : string; c_userAgent : string; c_maxRetry : nat }.
Definition ClientOption : Type := Client -> Client.
Definition WithAPIKey (key : string) : ClientOption := fun c =>
  {| c_baseURL := c_baseURL c; c_apiKey := key; c_userAgent := c_userAgent c; c_maxRetry := c_maxRetry c |}.
Definition WithBaseURL (u : string) : ClientOption := fun c =>
  {| c_baseURL := trim_suffix u "/"; c_apiKey := c_apiKey c; c_userAgent := c_userAgent c;
     c_maxRetry := c_maxRetry c |}.
Definition WithUserAgent (ua : string) : ClientOption := fun c =>
  {| c_baseURL := c_baseURL c; c_apiKey := c_apiKey c; c_userAgent := ua; c_maxRetry := c_maxRetry c |}.
Definition NewClient (opts : list ClientOption) : result string Client :=
  let c := foldl (fun c o => o c)
             {| c_baseURL := DefaultBaseURL; c_apiKey := ""; c_userAgent := "jdix-go/0.1"; c_maxRetry := 3 |}
             opts in
  guard negb (bool_decide (c_apiKey c = "")) else "jdix: an API key is required (jdix.WithAPIKey)" ;;
  Ok c.

(** ** Errors *)

Record ApiError := { er_StatusCode : Z; er_Code : string; er_Message : string; er_RetryAfter : Z }.
Definition Error_string (e : ApiError) : string :=
  if negb (bool_decide (er_Code e = ""))
  then "jdix: " +:+ er_Code e +:+ " (" +:+ itoa (er_StatusCode e) +:+ "): " +:+ er_Message e
  else "jdix: request failed with " +:+ itoa (er_StatusCode e).
Inductive Sentinel := ErrQuotaExceeded | ErrUnauthorized | ErrNotFound | ErrExpired | ErrTimeout.
Definition Error_Is (e : ApiError) (target : Sentinel) : bool :=
  match target with
  | ErrQuotaExceeded => er_StatusCode e =? 429
  | ErrUnauthorized => (er_StatusCode e =? 401) || (er_StatusCode e =? 403)
  | ErrNotFound => er_StatusCode e =? 404
  | ErrExpired => er_StatusCode e =? 410
  | ErrTimeout => false
  end%Z.
Inductive Fail := FApi (e : ApiError) | FText (msg : string) | FSentinel (s : Sentinel).

(** ** Requests *)

Record HttpReq := {
  hq_Method : string; hq_URL : string; hq_Header : gmap string string; hq_Body : option string }.
Record HttpResp := { hp_Status : Z; hp_RetryAfter : string; hp_Body : string }.

(** What a request asks of its surroundings: whether Go accepts the method and
    the URL, the answer, a wait (ended early by the context's error). *)
Inductive HttpE : Type -> Type :=
| NewRequest (method url : string) : HttpE (option string)
| HttpDo (q : HttpReq) : HttpE (result string HttpResp)
| Backoff (below : Z) : HttpE (option string)         (* for a random time below the limit *)
| Pause (delay : Z) : HttpE (option string).
Abbreviation Http := (Prog HttpE).

Definition retryable (method : string) (status : Z) : bool :=
  if negb (bool_decide (method = "GET")) && negb (bool_decide (method = "HEAD")) then false
  else bool_decide (status ∈ [0; 500; 502; 503; 504]%Z).

Section Decode.
(** [json.Unmarshal] into the error body: its code and message. *)
Context (decode_body : string -> option (string * string)).

Definition decodeError (resp : HttpResp) : option ApiError :=
  if (200 <=? hp_Status resp)%Z && (hp_Status resp <? 300)%Z then None
  else
    let b := take_string (Z.to_nat 8192) (hp_Body resp) in
    let '(code, message) := default ("", "") (decode_body b) in
    let secs := Execd.scan_int (hp_RetryAfter resp) in
    Some {| er_StatusCode := hp_Status resp; er_Code := code;
            er_Message := if bool_decide (message = "") then trim_space b else message;
            er_RetryAfter := if negb (bool_decide (hp_RetryAfter resp = "")) && (0 <? secs)%Z
                             then seconds secs else 0 |}.

(** The request of one attempt. *)
Definition do_request (c : Client) (method path : string) (payload : option string)
    (headers : gmap string string) : HttpReq :=
  let h := {[ "Authorization" := "Bearer " +:+ c_apiKey c; "User-Agent" := c_userAgent c ]} in
  let h := match payload with Some _ => <["Content-Type" := "application/json"]> h | None => h end in
  {| hq_Method := method; hq_URL := c_baseURL c +:+ path; hq_Header := headers ∪ h; hq_Body := payload |}.

(** The longest pause before an attempt; [rand.Int63n] picks one below it. *)
Definition backoff_limit (attempt : nat) : Z := int64 (int64 (Z.shiftl 1 (Z.of_nat attempt)) * 100000000).

Section Do.
Context {A : Type} (decode : string -> result string A).
Context (c : Client) (method path : string) (payload : option string) (headers : gmap string string).

(** The loop: [n] attempts are left. [None] is a nil error with nothing decoded. *)
Fixpoint do_attempts (n attempt : nat) (lastErr : option Fail) : Http (result Fail (option A)) :=
  match n with
  | O => mret (match lastErr with Some e => Err e | None => Ok None end)
  | S n =>
      over ← (if (0 <? attempt)%nat then call (Backoff (backoff_limit attempt)) else mret None);
      match over with Some e => mret (Err (FText e)) | None =>
      bad ← call (NewRequest method (c_baseURL c +:+ path));
      match bad with Some e => mret (Err (FText e)) | None =>
      resp ← call (HttpDo (do_request c method path payload headers));
      match resp with
      | Err e =>
          if negb (retryable method 0) then mret (Err (FText e))
          else do_attempts n (S attempt) (Some (FText e))
      | Ok resp =>
          match decodeError resp with
          | None => mret (match decode (hp_Body resp) with Ok a => Ok (Some a) | Err e => Err (FText e) end)
          | Some apiErr =>
              if negb (retryable method (er_StatusCode apiErr)) then mret (Err (FApi apiErr))
              else do_attempts n (S attempt) (Some (FApi apiErr))
          end
      end end end
  end.
End Do.

(** [body] is what [json.Marshal] makes of the body, where there is one. *)
Definition do {A} (decode : string -> result string A) (c : Client) (method path : string)
    (body : option (result string string)) (headers : gmap string string) : Http (result Fail (option A)) :=
  match body with
  | Some (Err e) => mret (Err (FText e))
  | Some (Ok b) => do_attempts decode c method path (Some b) headers (S (c_maxRetry c)) 0 None
  | None => do_attempts decode c method path None headers (S (c_maxRetry c)) 0 None
  end.
End Decode.

(** ** Sandboxes *)

Definition NoExpiry : Z := -1.
Record Mount := { mo_Path : string; mo_Volume : string; mo_SubPath : string; mo_ReadOnly : bool }.
Record CreateOpts := {
  co_Template : string; co_TTL : Z; co_Env : gmap string string; co_Mounts : list Mount;
  co_Metadata : gmap string string; co_IdempotencyKey : string; co_KeepAlive : bool }.
Record mountSpec := { ms_Path : string; ms_Volume : string; ms_SubPath : string; ms_ReadOnly : bool }.
Record createRequest := {
  cq_Template : string; cq_TTLSeconds : Z; cq_Filesystem : option (list mountSpec);
  cq_Env : gmap string string; cq_Metadata : gmap string string }.
Record sandboxJSON := {
  sj_ID : string; sj_State : string; sj_Template : string; sj_IsolationTier : string;
  sj_Endpoint : string; sj_ExpiresAt : option Time; sj_ColdStart : bool; sj_Reason : string }.
(** [Sandbox]: [sx_keepAlive] is the interval the background renewal runs at,
    while it runs; [sx_closed] is the [sync.Once]. *)
Record Sandbox := {
  sx_ID : string; sx_Template : string; sx_IsolationTier : string; sx_Endpoint : string;
  sx_ColdStart : bool; sx_state : string; sx_expiresAt : option Time;
  sx_keepAlive : option Z; sx_closed : bool }.

Definition newSandbox (j : sandboxJSON) : Sandbox :=
  {| sx_ID := sj_ID j; sx_Template := sj_Template j; sx_IsolationTier := sj_IsolationTier j;
     sx_Endpoint := sj_Endpoint j; sx_ColdStart := sj_ColdStart j; sx_state := sj_State j;
     sx_expiresAt := sj_ExpiresAt j; sx_keepAlive := None; sx_closed := false |}.
Definition Create_request (o : CreateOpts) : createRequest :=
  {| cq_Template := co_Template o;
     cq_TTLSeconds := if (co_TTL o =? NoExpiry)%Z then -1
                      else if (0 <? co_TTL o)%Z then SdkStream.whole_seconds (co_TTL o) else 0;
     cq_Filesystem :=
       match co_Mounts o with
       | [] => None
       | ms => Some (map (fun m => {| ms_Path := mo_Path m; ms_Volume := mo_Volume m;
                                      ms_SubPath := mo_SubPath m; ms_ReadOnly := mo_ReadOnly m |}) ms)
       end;
     cq_Env := co_Env o; cq_Metadata := co_Metadata o |}.
(** How often [startKeepAlive] renews, and for how long. *)
Definition keepAlive_ttl (ttl : Z) : Z := if (ttl <=? 0)%Z then 600 * second else ttl.
Definition keepAlive_interval (ttl : Z) : Z :=
  let interval := Z.quot (keepAlive_ttl ttl) 3 in
  if (interval <? 15 * second)%Z then 15 * second else interval.
Definition startKeepAlive (ttl : Z) (s : Sandbox) : Sandbox :=
  {| sx_ID := sx_ID s; sx_Template := sx_Template s; sx_IsolationTier := sx_IsolationTier s;
     sx_Endpoint := sx_Endpoint s; sx_ColdStart := sx_ColdStart s; sx_state := sx_state s;
     sx_expiresAt := sx_expiresAt s; sx_keepAlive := Some (keepAlive_interval ttl);
     sx_closed := sx_closed s |}.

Definition endpointURL (s : Sandbox) (path : string) : result string string :=
  guard negb (bool_decide (sx_Endpoint s = ""))
    else ("jdix: sandbox " +:+ sx_ID s +:+ " has no endpoint yet; call WaitReady first") ;;
  Ok (trim_suffix (sx_Endpoint s) "/" +:+ path).

Section Ops.
Context (decode_body : string -> option (string * string)).
Context (decode_sandbox : string -> result string sandboxJSON).
Context (decode_expiry : string -> result string (option Time)).
Context (marshal : createRequest -> result string string).

Definition failed (message : string) : Fail :=
  FApi {| er_StatusCode := 422; er_Code := "sandbox_failed"; er_Message := message; er_RetryAfter := 0 |}.
Definition empty_json : sandboxJSON :=
  {| sj_ID := ""; sj_State := ""; sj_Template := ""; sj_IsolationTier := ""; sj_Endpoint := "";
     sj_ExpiresAt := None; sj_ColdStart := false; sj_Reason := "" |}.

Definition Create (c : Client) (o : CreateOpts) : Http (result Fail Sandbox) :=
  if bool_decide (co_Template o = "") then mret (Err (FText "jdix: CreateOpts.Template is required"))
  else
    let headers := if negb (bool_decide (co_IdempotencyKey o = ""))
                   then {[ "Idempotency-Key" := co_IdempotencyKey o ]} else ∅ in
    r ← do decode_body decode_sandbox c "POST" "/v1/sandboxes" (Some (marshal (Create_request o))) headers;
    mret (match r with
          | Err e => Err e
          | Ok out =>
              let out := default empty_json out in
              if bool_decide (sj_State out = "failed") then Err (failed (sj_Reason out))
              else
                let sbx := newSandbox out in
                Ok (if co_KeepAlive o && negb (co_TTL o =? NoExpiry)%Z
                    then startKeepAlive (co_TTL o) sbx else sbx)
          end).

Definition sandbox_path (id : string) : string := "/v1/sandboxes/" +:+ escape id encodePathSegment.
Definition Get (c : Client) (id : string) : Http (result Fail Sandbox) :=
  r ← do decode_body decode_sandbox c "GET" (sandbox_path id) None ∅;
  mret (match r with Err e => Err e | Ok out => Ok (newSandbox (default empty_json out)) end).

(** [WaitReady], polling at most [n] times; [None] when it would poll on. *)
Definition refreshed (s fresh : Sandbox) : Sandbox :=
  {| sx_ID := sx_ID s; sx_Template := sx_Template s; sx_IsolationTier := sx_IsolationTier fresh;
     sx_Endpoint := sx_Endpoint fresh; sx_ColdStart := sx_ColdStart s; sx_state := sx_state fresh;
     sx_expiresAt := sx_expiresAt fresh; sx_keepAlive := sx_keepAlive s; sx_closed := sx_closed s |}.
Definition next_delay (delay : Z) : Z := if (delay <? 2 * second)%Z then delay * 2 else delay.
Fixpoint wait_loop (c : Client) (n : nat) (delay : Z) (s : Sandbox)
    : Http (option (result Fail unit) * Sandbox) :=
  match n with
  | O => mret (None, s)
  | S n =>
      r ← Get c (sx_ID s);
      match r with
      | Err e => mret (Some (Err e), s)
      | Ok fresh =>
          let s := refreshed s fresh in
          if bool_decide (sx_state s = "running") then mret (Some (Ok tt), s)
          else if bool_decide (sx_state s = "failed") then mret (Some (Err (failed (sx_state fresh))), s)
          else if bool_decide (sx_state s = "expired") then mret (Some (Err (FSentinel ErrExpired)), s)
          else
            over ← call (Pause delay);
            match over with
            | Some e => mret (Some (Err (FText e)), s)
            | None => wait_loop c n (next_delay delay) s
            end
      end
  end.
Definition WaitReady (c : Client) (n : nat) (s : Sandbox) : Http (option (result Fail unit) * Sandbox) :=
  if bool_decide (sx_state s = "running") then mret (Some (Ok tt), s)
  else wait_loop c n (100 * 1000000) s.

Definition dataPlane {A} (decode : string -> result string A) (c : Client) (s : Sandbox)
    (method path : string) (body : option (result string string)) : Http (result Fail A) :=
  match endpointURL s path with
  | Err e => mret (Err (FText e))
  | Ok u =>
      match body with
      | Some (Err e) => mret (Err (FText e))
      | _ =>
          let payload := match body with Some (Ok b) => Some b | _ => None end in
          bad ← call (NewRequest method u);
          match bad with Some e => mret (Err (FText e)) | None =>
          let h := {[ "Authorization" := "Bearer " +:+ c_apiKey c; "User-Agent" := c_userAgent c ]} in
          let h := match payload with Some _ => <["Content-Type" := "application/json"]> h | None => h end in
          resp ← call (HttpDo {| hq_Method := method; hq_URL := u; hq_Header := h; hq_Body := payload |});
          mret (match resp with
                | Err e => Err (FText e)
                | Ok resp =>
                    match decodeError decode_body resp with
                    | Some e => Err (FApi e)
                    | None => match decode (hp_Body resp) with Ok a => Ok a | Err e => Err (FText e) end
                    end
                end)
          end
      end
  end.

Definition KeepAlive (c : Client) (s : Sandbox) (ttl : Z) : Http (result Fail Sandbox) :=
  let secs := SdkStream.whole_seconds ttl in
  let secs := if (secs <=? 0)%Z then 300%Z else secs in
  r ← dataPlane decode_expiry c s "POST" ("/v1/keepalive?ttlSeconds=" +:+ itoa secs) None;
  mret (match r with
        | Err e => Err e
        | Ok expiresAt =>
            Ok {| sx_ID := sx_ID s; sx_Template := sx_Template s; sx_IsolationTier := sx_IsolationTier s;
                  sx_Endpoint := sx_Endpoint s; sx_ColdStart := sx_ColdStart s; sx_state := sx_state s;
                  sx_expiresAt := expiresAt; sx_keepAlive := sx_keepAlive s; sx_closed := sx_closed s |}
        end).

Definition closed (s : Sandbox) : Sandbox :=
  {| sx_ID := sx_ID s; sx_Template := sx_Template s; sx_IsolationTier := sx_IsolationTier s;
     sx_Endpoint := sx_Endpoint s; sx_ColdStart := sx_ColdStart s; sx_state := sx_state s;
     sx_expiresAt := sx_expiresAt s; sx_keepAlive := None; sx_closed := true |}.
Definition Close (c : Client) (s : Sandbox) : Http (option Fail * Sandbox) :=
  if sx_closed s then mret (None, s)
  else
    r ← do decode_body (fun _ => Ok tt) c "DELETE" (sandbox_path (sx_ID s)) None ∅;
    mret (match r with
          | Err (FApi e) => if (er_StatusCode e =? 404)%Z then None else Some (FApi e)
          | Err e => Some e
          | Ok _ => None
          end, closed s).
End Ops.

(** ** Listings and streams *)

Section More.
Context (decode_body : string -> option (string * string)).

Definition List_path (state : string) : string :=
  "/v1/sandboxes" +:+ (if negb (bool_decide (state = "")) then "?state=" +:+ QueryEscape state else "").
Definition SdkList (decode : string -> result string (list sandboxJSON)) (c : Client) (state : string)
    : Http (result Fail (list Sandbox)) :=
  r ← do decode_body decode c "GET" (List_path state) None ∅;
  mret (match r with Err e => Err e | Ok out => Ok (map newSandbox (default [] out)) end).
Definition Templates {A} (decode : string -> result string (list A)) (c : Client) : Http (result Fail (list A)) :=
  r ← do decode_body decode c "GET" "/v1/templates" None ∅;
  mret (match r with Err e => Err e | Ok out => Ok (default [] out) end).
Definition SdkRun (marshal : Api.ExecRequest -> result string string)
    (decode : string -> result string SdkStream.Result) (c : Client) (s : Sandbox) (cmd : string)
    (o : SdkStream.RunOpts) : Http (result Fail SdkStream.Result) :=
  dataPlane decode_body decode c s "POST" "/v1/exec" (Some (marshal (SdkStream.Run_request cmd o))).

(** [strings.Replace(s, old, new, 1)] *)
Definition replace_first (s old new : string) : string :=
  match index_of s old with
  | Some i => take_string i s +:+ new +:+ drop_string (i + String.length old) s
  | None => s
  end.
(** The address [openStream] dials. *)
Definition openStream_url (s : Sandbox) (path : string) (q : Values) : result string string :=
  let? base := endpointURL s path in
  let wsURL := replace_first base "https://" "wss://" in
  let wsURL := replace_first wsURL "http://" "ws://" in
  Ok (if bool_decide (q = ∅) then wsURL else wsURL +:+ "?" +:+ encode_query q).
End More.

(** ** The file API and processes *)

Definition files_path (path : string) : string := "/v1/files?path=" +:+ QueryEscape path.
Definition list_path (path : string) : string := "/v1/files/list?path=" +:+ QueryEscape path.
Definition remove_path (path : string) (recursive : bool) : string :=
  files_path path +:+ (if recursive then "&recursive=true" else "").
Definition signal_path (pid : Z) (sig : string) : string :=
  "/v1/processes/" +:+ itoa pid +:+ "?signal=" +:+ QueryEscape sig.

Section Files.
Context (decode_body : string -> option (string * string)).

(** One request whose body is the caller's. *)
Definition file_request (c : Client) (s : Sandbox) (method path : string) (content : option string)
    : Http (result Fail string) :=
  match endpointURL s path with
  | Err e => mret (Err (FText e))
  | Ok u =>
      bad ← call (NewRequest method u);
      match bad with Some e => mret (Err (FText e)) | None =>
      let h := {[ "Authorization" := "Bearer " +:+ c_apiKey c ]} in
      let h := match content with
               | Some _ => <["Content-Type" := "application/octet-stream"]> h
               | None => h end in
      resp ← call (HttpDo {| hq_Method := method; hq_URL := u; hq_Header := h; hq_Body := content |});
      mret (match resp with
            | Err e => Err (FText e)
            | Ok resp => match decodeError decode_body resp with
                         | Some e => Err (FApi e)
                         | None => Ok (hp_Body resp)
                         end
            end)
      end
  end.
Definition Files_Open (c : Client) (s : Sandbox) (path : string) : Http (result Fail string) :=
  file_request c s "GET" (files_path path) None.
Definition Files_Write (c : Client) (s : Sandbox) (path content : string) : Http (result Fail unit) :=
  r ← file_request c s "PUT" (files_path path) (Some content);
  mret (match r with Err e => Err e | Ok _ => Ok tt end).
Definition Files_List {A} (decode : string -> result string A) (c : Client) (s : Sandbox) (path : string)
    : Http (result Fail A) :=
  dataPlane decode_body decode c s "GET" (list_path path) None.
Definition Files_Remove (c : Client) (s : Sandbox) (path : string) (recursive : bool) : Http (result Fail unit) :=
  dataPlane decode_body (fun _ => Ok tt) c s "DELETE" (remove_path path recursive) None.
Definition Processes {A} (decode : string -> result string A) (c : Client) (s : Sandbox) : Http (result Fail A) :=
  dataPlane decode_body decode c s "GET" "/v1/processes" None.
Definition Signal (c : Client) (s : Sandbox) (pid : Z) (sig : string) : Http (result Fail unit) :=
  dataPlane decode_body (fun _ => Ok tt) c s "DELETE" (signal_path pid sig) None.
(** [marshal] renders the port and [public: true]; [decode] reads the URL. *)
Definition Expose (marshal : Z -> result string string) (decode : string -> result string string)
    (c : Client) (s : Sandbox) (port : Z) : Http (result Fail string) :=
  r ← dataPlane decode_body decode c s "POST" "/v1/ports" (Some (marshal port));
  mret (match r with
        | Err e => Err e
        | Ok url =>
            if bool_decide (url = "")
            then Err (FApi {| er_StatusCode := 0; er_Code := "no_url";
                              er_Message := "the gateway did not say where this port is published";
                              er_RetryAfter := 0 |})
            else Ok url
        end).
End Files.

(** ** What a request sends *)

Section Retries.
Context (decode_body : string -> option (string * string)).

(** Every exchange, in order. *)
Definition Exchange : Type := HttpReq * result string HttpResp.
Definition log_sem (R : Type) (e : HttpE R) (s : list Exchange) (r : R) (s' : list Exchange) : Prop :=
  match e in HttpE R return R -> Prop with
  | HttpDo q => fun r => s' = (s ++ [(q, r)])%list
  | _ => fun _ => s' = s
  end r.
(** A failure that a repeat might fix: none, a 500, 502, 503 or 504 (or 0, which
    no server sends). *)
Definition transient (a : result string HttpResp) : bool :=
  match a with
  | Err _ => true
  | Ok resp => bool_decide (hp_Status resp ∈ [0; 500; 502; 503; 504]%Z)
  end.
(** What the caller is told of an answer. *)
Definition told {A} (decode : string -> result string A) (a : result string HttpResp)
    : result Fail (option A) :=
  match a with
  | Err e => Err (FText e)
  | Ok resp =>
      match decodeError decode_body resp with
      | Some e => Err (FApi e)
      | None => match decode (hp_Body resp) with Ok x => Ok (Some x) | Err e => Err (FText e) end
      end
  end.
Definition tries (c : Client) (method : string) : nat :=
  if bool_decide (method = "GET" \/ method = "HEAD") then S (c_maxRetry c) else 1%nat.

Definition repeats (method : string) : bool := bool_decide (method = "GET" \/ method = "HEAD").
Lemma retryable_method method status :
  retryable method status = repeats method && bool_decide (status ∈ [0; 500; 502; 503; 504]%Z).
Proof.
  unfold retryable, repeats.
  destruct (bool_decide (method = "GET" \/ method = "HEAD")) eqn:E.
  - apply bool_decide_eq_true in E as [-> | ->]; done.
  - apply bool_decide_eq_false in E. by rewrite !bool_decide_false by tauto.
Qed.
Lemma decodeError_status resp e :
  decodeError decode_body resp = Some e -> er_StatusCode e = hp_Status resp.
Proof.
  unfold decodeError. destruct (_ && _); [done|]. destruct (default _ _) as [code msg]. by intros [= <-].
Qed.
Lemma decodeError_none resp :
  decodeError decode_body resp = None <-> (200 <= hp_Status resp < 300)%Z.
Proof.
  unfold decodeError. destruct (default _ _) as [code msg].
  destruct (Z.leb_spec 200 (hp_Status resp)), (Z.ltb_spec (hp_Status resp) 300); cbn; split; try done; lia.
Qed.

Section Attempts.
Context {A : Type} (decode : string -> result string A).
Context (c : Client) (method path : string) (payload : option string) (headers : gmap string string).
Abbreviation req := (do_request c method path payload headers).

(** What a finished request has to show for itself: only its own request was
    sent, again only after a failure that a repeat might fix, and the caller is
    told of the last answer, unless the context ended before a repeat. *)
Definition accounts (log : list Exchange) (r : result Fail (option A)) : Prop :=
  Forall (fun x => fst x = req) log /\ Forall (fun x => transient (snd x) = true) (removelast log) /\
  match last log with
  | None => exists msg, r = Err (FText msg)
  | Some (_, a) => r = told decode a \/ transient a = true /\ exists msg, r = Err (FText msg)
  end.
(** Between two attempts. *)
Definition pending_log (attempt : nat) (lastErr : option Fail) (log : list Exchange) : Prop :=
  length log = attempt /\ Forall (fun x => fst x = req) log /\
  Forall (fun x => transient (snd x) = true) log /\ (log <> [] -> repeats method = true) /\
  match last log with
  | None => lastErr = None
  | Some (_, a) => exists f, lastErr = Some f /\ told decode a = Err f
  end.

Lemma pending_accounts attempt lastErr log msg :
  pending_log attempt lastErr log -> accounts log (Err (FText msg)).
Proof.
  intros (_ & Hr & Ht & _ & _). split; [done|]. destruct log as [|x log _] using rev_ind; [by split; [constructor|eexists]|].
  rewrite removelast_last, last_snoc. apply Forall_app in Ht as [Ht Hx]. split; [done|].
  destruct x as [q a]. right. split; [|by eexists]. rewrite Forall_singleton in Hx. exact Hx.
Qed.
Lemma pending_next attempt lastErr log a f :
  pending_log attempt lastErr log -> transient a = true -> repeats method = true ->
  told decode a = Err f -> pending_log (S attempt) (Some f) (log ++ [(req, a)]).
Proof.
  intros (Hl & Hr & Ht & _ & _) Ha Hm Hf. split; [rewrite length_app; cbn; lia|].
  split; [apply Forall_app; by repeat constructor|]. split; [apply Forall_app; by repeat constructor|].
  split; [done|]. rewrite last_snoc. eauto.
Qed.
Lemma answered_accounts attempt lastErr log a :
  pending_log attempt lastErr log -> accounts (log ++ [(req, a)]) (told decode a).
Proof.
  intros (_ & Hr & Ht & _ & _). split; [apply Forall_app; by repeat constructor|].
  rewrite removelast_last, last_snoc. split; [done|by left].
Qed.

Lemma do_attempts_accounts n attempt lastErr log :
  pending_log attempt lastErr log -> (n = 0%nat -> log <> []) ->
  wp log_sem (do_attempts decode_body decode c method path payload headers n attempt lastErr) log
    (fun r log' => accounts log' r /\ (length log' <= attempt + if repeats method then n else 1)%nat).
Proof.
  revert attempt lastErr log. induction n as [|n IH]; intros attempt lastErr log Hp Hn; cbn [do_attempts].
  { apply wp_ret. destruct Hp as (Hl & Hr & Ht & Hm & Hlast). split; [|destruct (repeats method); lia].
    split; [done|]. destruct log as [|[q a] log _] using rev_ind; [by destruct (Hn eq_refl)|].
    rewrite removelast_last. rewrite last_snoc in Hlast |- *. destruct Hlast as (f & -> & Hf).
    apply Forall_app in Ht as [Ht _]. split; [done|by left]. }
  pose proof Hp as (Hl & _ & _ & Hm & _). apply wp_bind.
  eapply (wp_mono _ _ _ (fun _ s => s = log)).
  2:{ destruct (0 <? attempt)%nat; [|by apply wp_ret].
      change (call ?e) with (call e ≫= mret). apply wp_call. intros r s' ->. by apply wp_ret. }
  assert (Hidle : (length log <= attempt + if repeats method then S n else 1)%nat) by (destruct (repeats method); lia).
  intros [e|] s ->; [apply wp_ret; split; [by eapply pending_accounts|done]|].
  apply wp_call. intros [e|] s ->; [apply wp_ret; split; [by eapply pending_accounts|done]|].
  assert (Hone : forall a, (length (log ++ [(req, a)]) <= attempt + if repeats method then S n else 1)%nat).
  { intros a. rewrite length_app. cbn. destruct (repeats method); lia. }
  assert (Hnext : forall a f, transient a = true -> repeats method = true -> told decode a = Err f ->
    wp log_sem (do_attempts decode_body decode c method path payload headers n (S attempt) (Some f))
      (log ++ [(req, a)])%list
      (fun r log' => accounts log' r /\ (length log' <= attempt + if repeats method then S n else 1)%nat)).
  { intros a f Ha Hrep Hf. eapply wp_mono; [|apply IH; [by apply pending_next with lastErr|]].
    - intros r log' [H1 H2]. split; [done|]. rewrite Hrep in *. lia.
    - intros _. by destruct log. }
  apply wp_call. intros [resp|e] s ->.
  - destruct (decodeError decode_body resp) as [err|] eqn:Hd.
    + rewrite retryable_method, (decodeError_status _ _ Hd).
      assert (Ht : told decode (Ok resp) = Err (FApi err)) by (cbn; by rewrite Hd).
      destruct (repeats method && _) eqn:Hrt; cbn [negb].
      * apply andb_prop in Hrt as [Hrep Hst]. by apply Hnext.
      * apply wp_ret. split; [|apply Hone]. rewrite <-Ht. by eapply answered_accounts.
    + apply wp_ret. split; [|apply Hone].
      replace (match decode (hp_Body resp) with Ok a => Ok (Some a) | Err e => Err (FText e) end)
        with (told decode (Ok resp)) by (cbn; by rewrite Hd). by eapply answered_accounts.
  - rewrite retryable_method, (bool_decide_true (0%Z ∈ _)), andb_true_r by set_solver.
    destruct (repeats method) eqn:Hrep; cbn [negb].
    + by apply Hnext.
    + apply wp_ret. split; [|apply Hone].
      by apply (answered_accounts attempt lastErr log (Err e)).
Qed.
End Attempts.

(** The client repeats only what is safe to repeat: whatever the network
    answers, every request it sends for one call is the same one, with the
    caller's key; a method that changes something is sent at most once, a GET
    or HEAD at most [maxRetry] times more, each time only after a transport
    failure or a 500, 502, 503 or 504; and the caller is told of the last
    answer, unless the context ended before a repeat. *)
Theorem do_retries {A} (decode : string -> result string A) c method path payload headers :
  wp log_sem (do decode_body decode c method path (Ok <$> payload) headers) []
    (fun r log => accounts decode c method path payload headers log r /\
       (length log <= if repeats method then S (c_maxRetry c) else 1)%nat).
Proof.
  unfold do. destruct payload; cbn [fmap option_fmap option_map];
    (apply (do_attempts_accounts decode); [|done]); repeat split; try constructor; done.
Qed.
End Retries.

(** ** Waiting for a sandbox *)

Section Waiting.
Context (decode_body : string -> option (string * string)).
Context (decode_sandbox : string -> result string sandboxJSON).
Context (deadline : Time).

(** Time passes; a request begun after the caller's deadline fails, and a pause
    that is not cut short lasts. *)
Definition timed_sem (R : Type) (e : HttpE R) (now : Time) (r : R) (now' : Time) : Prop :=
  (now <= now')%Z /\
  match e in HttpE R return R -> Prop with
  | HttpDo _ => fun r => (deadline < now)%Z -> exists msg, r = Err msg
  | Pause d => fun r => r = None -> (now + d <= now')%Z
  | _ => fun _ => True
  end r.
Abbreviation timed := (wp timed_sem).

Lemma do_attempts_timed {A} (decode : string -> result string A) c method path payload headers n attempt lastErr now :
  timed (do_attempts decode_body decode c method path payload headers n attempt lastErr) now
    (fun r now' => (now <= now')%Z /\
       ((deadline < now)%Z -> n <> 0%nat \/ lastErr <> None -> is_ok r = false)).
Proof.
  revert attempt lastErr now. induction n as [|n IH]; intros attempt lastErr now; cbn [do_attempts].
  { apply wp_ret. split; [lia|]. intros _ [?|?]; [done|]. by destruct lastErr. }
  apply wp_bind. eapply (wp_mono _ _ _ (fun _ s => (now <= s)%Z)).
  2:{ destruct (0 <? attempt)%nat; [|by apply wp_ret; lia].
      change (call ?e) with (call e ≫= mret). apply wp_call. intros r s' [? _]. by apply wp_ret. }
  intros [e|] s1 H1; [apply wp_ret; by split|].
  apply wp_call. intros [e|] s2 [H2 _]; [apply wp_ret; split; [lia|done]|].
  apply wp_call. intros resp s3 [H3 Hdo].
  assert (Hnext : forall f, timed (do_attempts decode_body decode c method path payload headers n (S attempt) (Some f)) s3
    (fun r now' => (now <= now')%Z /\ ((deadline < now)%Z -> S n <> 0%nat \/ lastErr <> None -> is_ok r = false))).
  { intros f. eapply wp_mono; [|apply IH]. intros r s4 [H4 He]. split; [lia|].
    intros Hd _. apply He; [lia|by right]. }
  destruct resp as [resp|e].
  - destruct (decodeError decode_body resp) as [err|].
    + destruct (retryable _ _); cbn [negb]; [by apply Hnext|]. apply wp_ret. split; [lia|done].
    + apply wp_ret. split; [lia|]. intros Hd _. destruct Hdo as [msg Hm]; [lia|done].
  - destruct (retryable _ _); cbn [negb]; [by apply Hnext|]. apply wp_ret. split; [lia|done].
Qed.
Lemma Get_timed c id now :
  timed (Get decode_body decode_sandbox c id) now
    (fun r now' => (now <= now')%Z /\ ((deadline < now)%Z -> is_ok r = false)).
Proof.
  unfold Get. apply wp_bind. eapply wp_mono; [|apply do_attempts_timed].
  intros r now' [H1 H2]. apply wp_ret. split; [done|]. intros Hd.
  specialize (H2 Hd (or_introl (Nat.neq_succ_0 _))). by destruct r.
Qed.

(** What the caller learns. *)
Definition waited (r : option (result Fail unit)) (s : Sandbox) : Prop :=
  match r with
  | None => False
  | Some (Ok _) => sx_state s = "running"
  | Some (Err _) => True
  end.
Definition first_delay : Z := 100 * 1000000.
Lemma wait_loop_returns c n delay s now :
  (first_delay <= delay)%Z -> (deadline < now + (Z.of_nat n - 1) * first_delay)%Z -> n <> 0%nat ->
  timed (wait_loop decode_body decode_sandbox c n delay s) now (fun r _ => waited (fst r) (snd r)).
Proof.
  revert delay s now. induction n as [|n IH]; intros delay s now Hd Hn Hz; [done|]. cbn [wait_loop].
  apply wp_bind. eapply wp_mono; [|apply Get_timed]. intros [fresh|e] s1 [H1 H2]; [|by apply wp_ret].
  case_bool_decide as Hs; [by apply wp_ret|].
  case_bool_decide; [by apply wp_ret|]. case_bool_decide; [by apply wp_ret|].
  apply wp_call. intros [e|] s2 [H3 H4]; [by apply wp_ret|]. specialize (H4 eq_refl).
  assert (now <= deadline)%Z as Hnow.
  { destruct (Z.le_gt_cases now deadline) as [|Hgt]; [done|]. specialize (H2 ltac:(lia)). done. }
  destruct n as [|n]; [cbn in Hn; lia|]. apply IH; [|lia|done].
  unfold next_delay. case_match; unfold first_delay in *; lia.
Qed.

(** Waiting ends: under a context with a deadline [WaitReady] returns, after
    at most one poll for every 100 ms there were and two more, whatever the
    control plane answers; and when it returns without an error the sandbox is
    running. *)
Theorem WaitReady_returns c s now :
  (now <= deadline)%Z ->
  timed (WaitReady decode_body decode_sandbox c (Z.to_nat (2 + (deadline - now) / first_delay)) s) now
    (fun r _ => waited (fst r) (snd r)).
Proof.
  intros Hnow. unfold WaitReady. case_bool_decide; [by apply wp_ret|].
  assert (0 <= (deadline - now) / first_delay)%Z as Hq by (apply Z.div_pos; unfold first_delay; lia).
  pose proof (Z.mul_succ_div_gt (deadline - now) first_delay ltac:(done)) as Hm.
  apply wait_loop_returns; [done| |lia]. rewrite Z2Nat.id by lia. lia.
Qed.
End Waiting.
(** The pauses between polls double, up to less than four seconds. *)
Lemma next_delay_bounded delay :
  (first_delay <= delay < 4 * second)%Z -> (first_delay <= next_delay delay < 4 * second)%Z.
Proof. unfold next_delay, first_delay, second. case_match; lia. Qed.

(** ** Closing, keeping alive, addresses *)

(** Only the first [Close] asks for anything; what it could not do, a later one
    does not do either, and says so to nobody. *)
Lemma failed_close_is_final decode_body c s msg :
  sx_closed s = false ->
  let down R (e : HttpE R) (n : nat) : R * nat :=
    match e in HttpE R return R * nat with
    | HttpDo _ => (Err msg, S n) | NewRequest _ _ => (None, n) | Backoff _ => (None, n) | Pause _ => (None, n)
    end in
  interp down (Close decode_body c s) 0%nat = ((Some (FText msg), closed s), 1%nat) /\
  interp down (Close decode_body c (closed s)) 1%nat = ((None, closed s), 1%nat).
Proof. intros H. cbv zeta. unfold Close. rewrite H. split; reflexivity. Qed.

(** A single missed renewal is harmless from 30 seconds on; below 15 seconds
    the first one comes too late. *)
Lemma keepAlive_spare ttl :
  (0 < ttl)%Z ->
  ((30 * second <= ttl)%Z -> (2 * keepAlive_interval ttl <= ttl)%Z) /\
  ((ttl < 15 * second)%Z -> (ttl < keepAlive_interval ttl)%Z).
Proof.
  intros H. unfold keepAlive_interval, keepAlive_ttl, second in *.
  destruct (Z.leb_spec ttl 0); [lia|]. rewrite (Z.quot_div_nonneg ttl 3) by lia.
  pose proof (Z.mul_div_le ttl 3 ltac:(lia)).
  destruct (Z.ltb_spec (ttl / 3) (15 * 1000000000)); lia.
Qed.
(** Less than a second is asked for as nothing, and so is given the default. *)
Lemma short_ttl_lost o : (0 < co_TTL o < second)%Z -> cq_TTLSeconds (Create_request o) = 0%Z.
Proof.
  intros H. unfold Create_request. cbn [cq_TTLSeconds]. destruct (Z.eqb_spec (co_TTL o) NoExpiry); [unfold NoExpiry in *; lia|].
  destruct (Z.ltb_spec 0 (co_TTL o)); [|lia]. apply Z.quot_small. lia.
Qed.

(** The query of an address. *)
Definition query_of (path : string) : Values := parse_query (snd (fst (cut path "?"%char))).
Lemma query_of_pairs base kvs :
  no_byte "?" base ->
  query_of (base +:+ "?" +:+ join "&" (map (fun kv => pair_string (fst kv) (snd kv)) kvs)) =
  foldl add_pair ∅ kvs.
Proof.
  intros Hb. unfold query_of. change ("?" +:+ ?x) with (String "?" x). rewrite cut_app by done.
  cbn [fst snd]. unfold parse_query. by rewrite parse_encoded.
Qed.
(** What the client is asked for, the server reads: the addresses of the file
    API carry the path, and that of a signal its name, whatever bytes they are
    made of. *)
Lemma addresses_intact path sig recursive pid :
  (0 <= pid)%Z ->
  query_get (query_of (files_path path)) "path" = path /\
  query_get (query_of (list_path path)) "path" = path /\
  query_get (query_of (remove_path path recursive)) "path" = path /\
  query_get (query_of (remove_path path recursive)) "recursive" = (if recursive then "true" else "") /\
  query_get (query_of (signal_path pid sig)) "signal" = sig.
Proof.
  intros Hpid.
  assert (Hfiles : query_of (files_path path) = {[ "path" := [path] ]}).
  { apply (query_of_pairs "/v1/files" [("path", path)]). by repeat split. }
  assert (Hrec : query_of (remove_path path true) = <["recursive" := ["true"]]> {[ "path" := [path] ]}).
  { unfold remove_path, files_path. rewrite app_assoc_str.
    apply (query_of_pairs "/v1/files" [("path", path); ("recursive", "true")]). by repeat split. }
  assert (Hlist : query_of (list_path path) = {[ "path" := [path] ]}).
  { apply (query_of_pairs "/v1/files/list" [("path", path)]). by repeat split. }
  assert (Hsig : query_of (signal_path pid sig) = {[ "signal" := [sig] ]}).
  { unfold signal_path. rewrite <-app_assoc_str.
    apply (query_of_pairs ("/v1/processes/" +:+ itoa pid) [("signal", sig)]).
    rewrite no_byte_app. split; [by repeat split|]. by apply itoa_no_byte. }
  rewrite Hfiles, Hlist, Hsig. unfold query_get.
  destruct recursive.
  - by rewrite Hrec, lookup_insert_eq, lookup_insert_ne, !lookup_singleton_eq.
  - assert (remove_path path false = files_path path) as -> by (unfold remove_path; by rewrite app_empty_r).
    rewrite Hfiles, !lookup_singleton_eq. by rewrite lookup_singleton_ne.
Qed.

(** ** On concrete answers *)

Definition wit_client : Client :=
  {| c_baseURL := "https://api.example.com"; c_apiKey := "jdix_sk_0_x"; c_userAgent := "jdix-go/0.1";
     c_maxRetry := 3 |}.
Definition wit_decode (b : string) : result string sandboxJSON :=
  Ok {| sj_ID := "sbx-1"; sj_State := b; sj_Template := "py"; sj_IsolationTier := "userns";
        sj_Endpoint := "https://api.example.com/s/sbx-1/"; sj_ExpiresAt := None; sj_ColdStart := false;
        sj_Reason := "" |}.
(** The network, as the list of what it will answer; the rest is left over. *)
Definition scripted (R : Type) (e : HttpE R) (s : list (result string HttpResp)) : R * list (result string HttpResp) :=
  match e in HttpE R return R * list (result string HttpResp) with
  | HttpDo _ => match s with a :: s' => (a, s') | [] => (Err "EOF", []) end
  | NewRequest _ _ | Backoff _ | Pause _ => (None, s)
  end.
Definition wit_resp (status : Z) (body : string) : result string HttpResp :=
  Ok {| hp_Status := status; hp_RetryAfter := "7"; hp_Body := body |}.
Example retries :
  let run method script := interp scripted
    (do (fun _ => None) (fun b => Ok b) wit_client method "/v1/x" None ∅) script in
  run "GET" [wit_resp 503 ""; Err "reset"; wit_resp 200 "fine"; wit_resp 200 "left"] =
    (Ok (Some "fine"), [wit_resp 200 "left"]) /\
  run "POST" [wit_resp 503 "busy "; wit_resp 200 "left"] =
    (Err (FApi {| er_StatusCode := 503; er_Code := ""; er_Message := "busy"; er_RetryAfter := (7 * second)%Z |}),
     [wit_resp 200 "left"]) /\
  snd (run "GET" [Err "a"; Err "b"; Err "c"; Err "d"; Err "e"]) = [Err "e"].
Proof. vm_compute. auto. Qed.
Example waits :
  fst (interp scripted (WaitReady (fun _ => None) wit_decode wit_client 12 (newSandbox empty_json))
    [wit_resp 200 "pending"; wit_resp 502 ""; wit_resp 200 "binding"; wit_resp 200 "running"]).1 = Some (Ok tt).
Proof. vm_compute. reflexivity. Qed.

Lemma WaitReady_returns_wit :
  (0 <= 1 * second)%Z /\
  wp (timed_sem (1 * second)%Z)
    (WaitReady (fun _ => None) wit_decode wit_client 12 (newSandbox empty_json)) 0%Z
    (fun r _ => waited (fst r) (snd r)).
Proof.
  split; [discriminate|].
  apply (WaitReady_returns (fun _ => None) wit_decode (1 * second)%Z wit_client (newSandbox empty_json) 0).
  discriminate.
Defined.
Example stream_addresses :
  let sbx := newSandbox (default empty_json (match wit_decode "running" with Ok j => Some j | _ => None end)) in
  openStream_url sbx "/v1/exec/stream" {[ "cmd" := ["ls -l"] ]} =
    Ok "wss://api.example.com/s/sbx-1/v1/exec/stream?cmd=ls+-l" /\
  openStream_url sbx "/v1/pty" ∅ = Ok "wss://api.example.com/s/sbx-1/v1/pty".
Proof. vm_compute. auto. Qed.
