(* ===== verification/SdkSession.v ===== *)
(** * A live stream of the Go client (sdk/go/exec.go)

    A stream is a connection, the goroutine that pumps it into a channel of 64
    events, a consumer and whoever closes it.  SdkStream.v says what a pump
    makes of a whole connection; here the pump is a machine that takes one step
    at a time, blocks on a full channel and is interleaved with the others. *)
From S2P Require Import Prelude GoStrings Url Api Calls Gateway InitProto InitProc InitStream SdkStream SdkClient.
Open Scope string_scope.
Open Scope list_scope.

(** ** The machine *)

Definition eventsCap : nat := 64.

(** Where the pump is; [ASend]'s flag says that it returns afterwards. *)
Inductive PumpAt :=
| ARead
| ASend (ev : StreamEvent) (last : bool)
| APong
| ACancel                                  (* the deferred calls, last one first *)
| AClose
| AEnded.
Record Stream := {
  st_wire : list (result string Frame);    (* what came over the connection and was not read *)
  st_gone : option string;                 (* the connection's end *)
  st_cancelled : bool;                     (* the session's context *)
  st_events : list StreamEvent;            (* the channel *)
  st_closed : bool;                        (* it was closed *)
  st_pump : PumpAt }.
Definition set_wire w s := {| st_wire := w; st_gone := st_gone s; st_cancelled := st_cancelled s;
  st_events := st_events s; st_closed := st_closed s; st_pump := st_pump s |}.
Definition set_gone g s := {| st_wire := st_wire s; st_gone := g; st_cancelled := st_cancelled s;
  st_events := st_events s; st_closed := st_closed s; st_pump := st_pump s |}.
Definition set_cancelled s := {| st_wire := st_wire s; st_gone := st_gone s; st_cancelled := true;
  st_events := st_events s; st_closed := st_closed s; st_pump := st_pump s |}.
Definition set_events c s := {| st_wire := st_wire s; st_gone := st_gone s; st_cancelled := st_cancelled s;
  st_events := c; st_closed := st_closed s; st_pump := st_pump s |}.
Definition set_closed s := {| st_wire := st_wire s; st_gone := st_gone s; st_cancelled := st_cancelled s;
  st_events := st_events s; st_closed := true; st_pump := st_pump s |}.
Definition set_pump p s := {| st_wire := st_wire s; st_gone := st_gone s; st_cancelled := st_cancelled s;
  st_events := st_events s; st_closed := st_closed s; st_pump := p |}.

(** ** Opening *)

Inductive DialE : Type -> Type :=
| WithCancel : DialE unit
| Dial (url : string) (header : Header) : DialE (result string unit)
| CancelSession : DialE unit
| SetReadLimit (n : Z) : DialE unit
| GoPump : DialE unit.
Definition readLimit : Z := Z.shiftl 32 20.
Definition new_stream : Stream :=
  {| st_wire := []; st_gone := None; st_cancelled := false; st_events := []; st_closed := false; st_pump := ARead |}.
Definition openStream (c : Client) (s : Sandbox) (path : string) (q : Values)
    : Prog DialE (result string Stream) :=
  match openStream_url s path q with
  | Err e => mret (Err e)
  | Ok url =>
      call WithCancel;;
      r ← call (Dial url {[ "Authorization" := ["Bearer " +:+ c_apiKey c] ]});
      match r with
      | Err e => call CancelSession;; mret (Err e)
      | Ok _ => call (SetReadLimit readLimit);; call GoPump;; mret (Ok new_stream)
      end
  end.

(** ** The client's side of a stream *)

(** [Stream.send]: [conn.Write] answers for itself where the session is open. *)
Definition Stream_send (marshal : Frame -> result string string) (write : string -> option string) (f : Frame) (s : Stream)
    : option string :=
  match marshal f with
  | Err e => Some e
  | Ok b => if st_cancelled s then Some "context canceled" else match st_gone s with Some e => Some e | None => write b end
  end.
(** [Close]; the connection keeps the first end it came to. *)
Definition Stream_Close (s : Stream) : Stream :=
  let s := set_cancelled s in match st_gone s with None => set_gone (Some "closed") s | Some _ => s end.
Lemma closed_sends_nothing marshal write write' f s :
  Stream_send marshal write f (Stream_Close s) = Stream_send marshal write' f (Stream_Close s) /\
  Stream_send marshal write f (Stream_Close s) <> None.
Proof. unfold Stream_send, Stream_Close. destruct (marshal f), (st_gone s) eqn:E; cbn; by rewrite ?E. Qed.

Section Machine.
(** [base64.CorruptInputError.Error] *)
Context (corrupt : string -> string).

(** The switch of [pump] on one message. *)
Definition on_message (m : result string Frame) : PumpAt :=
  match m with
  | Err msg => ASend (EvError (ConnErr msg)) false
  | Ok f =>
      if bool_decide (fr_T f = "stdout" \/ fr_T f = "stderr") then
        match StdDecode (fr_D f) with
        | None => ASend (EvError (ConnErr (corrupt (fr_D f)))) false
        | Some raw => ASend (EvData (fr_T f) raw) false
        end
      else if bool_decide (fr_T f = "exit") then ASend (EvExit (fr_Code f) (fr_DurationMs f)) true
      else if bool_decide (fr_T f = "error") then ASend (EvError (FrameErr (fr_ErrCode f) (fr_Msg f))) false
      else if bool_decide (fr_T f = "ping") then APong
      else ARead
  end.
(** A read that failed. *)
Definition on_lost (cancelled : bool) (err : string) : PumpAt :=
  if cancelled then ACancel else ASend (EvError (ConnErr err)) true.

Inductive Label :=
| LArrive (m : result string Frame)        (* the server's message *)
| LLose (err : string)                     (* the connection ends *)
| LCancel | LConnClose                     (* the two halves of [Close] *)
| LRecv (ev : StreamEvent)                 (* the consumer *)
| LPump.
Inductive step : Label -> Stream -> Stream -> Prop :=
| step_arrive m s : st_gone s = None -> step (LArrive m) s (set_wire (st_wire s ++ [m]) s)
| step_lose e s : st_gone s = None -> step (LLose e) s (set_gone (Some e) s)
| step_cancel s : step LCancel s (set_cancelled s)
| step_conn_close s : st_gone s = None -> step LConnClose s (set_gone (Some "closed") s)
| step_recv ev evs s : st_events s = ev :: evs -> step (LRecv ev) s (set_events evs s)
| step_read m w s : st_pump s = ARead -> st_wire s = m :: w ->
    step LPump s (set_wire w (set_pump (on_message m) s))
| step_read_failed e s : st_pump s = ARead ->
    (st_wire s = [] /\ st_gone s = Some e) \/ st_cancelled s = true ->
    step LPump s (set_pump (on_lost (st_cancelled s) e) s)
| step_send ev last s : st_pump s = ASend ev last -> (length (st_events s) < eventsCap)%nat ->
    step LPump s (set_events (st_events s ++ [ev]) (set_pump (if last then ACancel else ARead) s))
| step_pong s : st_pump s = APong -> step LPump s (set_pump ARead s)
| step_deferred_cancel s : st_pump s = ACancel -> step LPump s (set_cancelled (set_pump AClose s))
| step_deferred_close s : st_pump s = AClose -> step LPump s (set_closed (set_pump AEnded s)).

(** A session: what happened since it was opened, in order. *)
Inductive session : list Label -> Stream -> Prop :=
| session_open : session [] new_stream
| session_step ls l s s' : session ls s -> step l s s' -> session (ls ++ [l]) s'.

Definition arrivals (ls : list Label) : list (result string Frame) :=
  omap (fun l => match l with LArrive m => Some m | _ => None end) ls.
Definition received (ls : list Label) : list StreamEvent :=
  omap (fun l => match l with LRecv ev => Some ev | _ => None end) ls.

(** ** What it delivers *)

(** The events of one message, and whether it is the last one pumped. *)
Definition events_of (m : result string Frame) : list StreamEvent :=
  match on_message m with ASend ev _ => [ev] | _ => [] end.
Definition is_exit (m : result string Frame) : bool :=
  match on_message m with ASend _ true => true | _ => false end.
Lemma pump_message open m rest lost :
  (pump corrupt open (m :: rest) lost).1 =
  events_of m ++ (if is_exit m then [] else (pump corrupt open rest lost).1).
Proof.
  destruct m as [f|msg]; unfold events_of, is_exit, on_message; cbn [pump].
  - repeat case_bool_decide; try destruct (StdDecode (fr_D f)); destruct (pump corrupt open rest lost); done.
  - by destruct (pump corrupt open rest lost).
Qed.
Lemma pump_messages open ms rest lost :
  Forall (fun m => is_exit m = false) ms ->
  (pump corrupt open (ms ++ rest) lost).1 = concat (map events_of ms) ++ (pump corrupt open rest lost).1.
Proof.
  induction 1 as [|m ms Hm _ IH]; [done|]. cbn [app map concat]. by rewrite pump_message, Hm, IH, app_assoc.
Qed.
Lemma pump_lost open lost :
  (pump corrupt open [] lost).1 = if open then [EvError (ConnErr lost)] else [].
Proof. done. Qed.

(** What the pump has taken from the connection and not sent yet. *)
Definition pending (p : PumpAt) : list StreamEvent := match p with ASend ev _ => [ev] | _ => [] end.
Definition over (p : PumpAt) : bool :=
  match p with ARead | APong | ASend _ false => false | _ => true end.

(** Nothing is left to read, and nothing will come. *)
Definition drained (s : Stream) : Prop := st_wire s = [] /\ st_gone s <> None.

Record session_inv (ls : list Label) (s : Stream) (read : list (result string Frame)) : Prop := {
  si_arrived : read ++ st_wire s = arrivals ls;
  si_cap : (length (st_events s) <= eventsCap)%nat;
  si_closed : st_closed s = true <-> st_pump s = AEnded;
  si_live : over (st_pump s) = false ->
    Forall (fun m => is_exit m = false) read /\
    received ls ++ st_events s ++ pending (st_pump s) = concat (map events_of read);
  si_over : over (st_pump s) = true -> exists open lost,
    received ls ++ st_events s ++ pending (st_pump s) = (pump corrupt open read lost).1 /\
    (open = false -> LCancel ∈ ls);
  si_cancelled : st_cancelled s = true -> over (st_pump s) = true \/ LCancel ∈ ls;
  si_all : over (st_pump s) = true -> LCancel ∉ ls ->
    (exists r m, read = r ++ [m] /\ is_exit m = true) \/ drained s }.

Lemma arrivals_app ls l : arrivals (ls ++ [l]) = arrivals ls ++ (match l with LArrive m => [m] | _ => [] end).
Proof. unfold arrivals. rewrite omap_app. by destruct l. Qed.
Lemma received_app ls l : received (ls ++ [l]) = received ls ++ (match l with LRecv ev => [ev] | _ => [] end).
Proof. unfold received. rewrite omap_app. by destruct l. Qed.
Lemma on_message_cases m :
  (over (on_message m) = false /\ is_exit m = false /\ pending (on_message m) = events_of m) \/
  (over (on_message m) = true /\ is_exit m = true /\ pending (on_message m) = events_of m).
Proof.
  unfold is_exit, events_of, on_message. destruct m as [f|msg]; [|by left].
  repeat case_bool_decide; try destruct (StdDecode (fr_D f)); by (left + right).
Qed.
(** Where the pump goes on, and what it has sent, is all that matters. *)
Lemma on_message_ended m : on_message m <> AEnded.
Proof. unfold on_message. destruct m as [f|msg]; repeat case_bool_decide; try destruct (StdDecode (fr_D f)); done. Qed.

Lemma inv_read ls m w s read :
  st_pump s = ARead -> st_wire s = m :: w -> session_inv ls s read ->
  session_inv (ls ++ [LPump]) (set_wire w (set_pump (on_message m) s)) (read ++ [m]).
Proof.
  intros Hp Hw [Ha Hc Hcl Hl _ Hca _]. rewrite Hp in *. destruct (Hl eq_refl) as [Hne Hev].
  assert (E : received ls ++ st_events s = concat (map events_of read)) by (by rewrite <-Hev, app_nil_r).
  constructor; cbn -[on_message]; rewrite ?arrivals_app, ?received_app, ?app_nil_r; [|done| | | | |].
  - by rewrite <-Ha, Hw, <-app_assoc.
  - rewrite Hcl. split; [done|]. by intros ?%on_message_ended.
  - intros Ho. destruct (on_message_cases m) as [(_ & Hx & Hpe)|(Hx & _ & _)]; [|congruence]. split.
    + apply Forall_app. split; [done|by apply Forall_singleton].
    + by rewrite Hpe, app_assoc, E, map_app, concat_app; cbn; rewrite app_nil_r.
  - intros Ho. destruct (on_message_cases m) as [(Hx & _ & _)|(_ & Hx & Hpe)]; [congruence|].
    exists true, "". split; [|done]. by rewrite Hpe, app_assoc, E, pump_messages, pump_message, Hx, app_nil_r.
  - intros H. destruct (Hca H) as [?|?]; [done|]. right. apply elem_of_app. by left.
  - intros Ho _. left. exists read, m. split; [done|].
    destruct (on_message_cases m) as [(Hx & _ & _)|(_ & Hx & _)]; congruence.
Qed.
Lemma not_in_app {A} (l : A) ls k : l ∉ ls ++ k -> l ∉ ls.
Proof. intros H Hin. apply H, elem_of_app. by left. Qed.
Lemma inv_read_failed ls e s read :
  st_pump s = ARead -> (st_wire s = [] /\ st_gone s = Some e) \/ st_cancelled s = true -> session_inv ls s read ->
  session_inv (ls ++ [LPump]) (set_pump (on_lost (st_cancelled s) e) s) read.
Proof.
  intros Hp Hfail [Ha Hc Hcl Hl _ Hca _]. rewrite Hp in *. destruct (Hl eq_refl) as [Hne Hev].
  assert (E : received ls ++ st_events s = concat (map events_of read)) by (by rewrite <-Hev, app_nil_r).
  constructor; cbn; rewrite ?arrivals_app, ?received_app, ?app_nil_r; [done..| | | | |].
  - rewrite Hcl. by destruct (st_cancelled s).
  - by destruct (st_cancelled s).
  - intros _. pose proof (pump_messages (negb (st_cancelled s)) read [] e Hne) as Hpm. rewrite app_nil_r in Hpm.
    exists (negb (st_cancelled s)), e. rewrite Hpm, pump_lost, app_assoc, E. split; [by destruct (st_cancelled s)|].
    intros Hca'. destruct (Hca (proj1 (negb_false_iff _) Hca')); [done|]. apply elem_of_app. by left.
  - intros H. rewrite H. by left.
  - intros _ Hn%not_in_app. right. destruct Hfail as [[Hw Hg]|H]; [by split; cbn; [|rewrite Hg]|].
    by destruct (Hca H).
Qed.
(** A step that sends what was pending, or moves on within a phase. *)
Lemma inv_moved ls s s' read :
  session_inv ls s read -> st_wire s' = st_wire s -> st_gone s' = st_gone s -> (length (st_events s') <= eventsCap)%nat ->
  over (st_pump s') = over (st_pump s) ->
  st_events s' ++ pending (st_pump s') = st_events s ++ pending (st_pump s) ->
  (st_closed s' = true <-> st_pump s' = AEnded) ->
  (st_cancelled s' = true -> st_cancelled s = true \/ over (st_pump s') = true) ->
  session_inv (ls ++ [LPump]) s' read.
Proof.
  intros [Ha Hc Hcl Hl Ho Hca Hall] Ew Eg Hlen Eo Ep Hcl' Hca'.
  constructor; rewrite ?arrivals_app, ?received_app, ?app_nil_r, ?Ew, ?Eo, ?Ep; [done..| | |].
  - intros H. destruct (Ho H) as (open & lost & E & Hin). exists open, lost. split; [done|].
    intros H'. apply elem_of_app. left. auto.
  - intros H. rewrite Eo in Hca'. destruct (Hca' H) as [H'|?]; [|by left].
    destruct (Hca H') as [?|?]; [by left|right]. apply elem_of_app. by left.
  - intros H Hn%not_in_app. destruct (Hall H Hn) as [?|[??]]; [by left|]. right. split; congruence.
Qed.
(** A step of the others: what arrived, what was received, the context. *)
Lemma inv_outside ls l s s' read :
  session_inv ls s read -> st_pump s' = st_pump s -> st_closed s' = st_closed s ->
  read ++ st_wire s' = arrivals (ls ++ [l]) ->
  received (ls ++ [l]) ++ st_events s' = received ls ++ st_events s -> (length (st_events s') <= eventsCap)%nat ->
  (st_cancelled s' = true -> st_cancelled s = true \/ l = LCancel) -> (drained s -> drained s') -> session_inv (ls ++ [l]) s' read.
Proof.
  intros [Ha Hc Hcl Hl Ho Hca Hall] Ep Ecl Ea Er Hlen Hca' Hdr.
  constructor; rewrite ?Ep, ?Ecl, ?(app_assoc (received _)), ?Er, <-?(app_assoc (received _)); [done..| | |].
  - intros H. destruct (Ho H) as (open & lost & E & Hin). exists open, lost. split; [done|].
    intros H'. apply elem_of_app. left. auto.
  - intros H. destruct (Hca' H) as [H'| ->]; [|right; apply elem_of_app; right; left].
    destruct (Hca H') as [?|?]; [by left|right]. apply elem_of_app. by left.
  - intros H Hn%not_in_app. destruct (Hall H Hn) as [?|?]; [by left|right; auto].
Qed.
Lemma session_holds ls s : session ls s -> exists read, session_inv ls s read.
Proof.
  induction 1 as [|ls l s s' _ [read Hinv] Hs].
  { exists []. by constructor; cbn; try done; lia. }
  destruct Hs as [m s Hg|e s Hg|s|s Hg|ev evs s Hev|m w s Hp Hw|e s Hp Hfail|ev last s Hp Hlt|s Hp|s Hp|s Hp].
  - exists read. eapply inv_outside; [done..| |by rewrite received_app, app_nil_r|by apply Hinv|by left|intros [Hx Hy]; try done; by split].
    rewrite arrivals_app. change (read ++ (st_wire s ++ [m]) = arrivals ls ++ [m]).
    by rewrite app_assoc, (si_arrived _ _ _ Hinv).
  - exists read. eapply inv_outside; [done..| |by rewrite received_app, app_nil_r|by apply Hinv|by left|intros [Hx Hy]; try done; by split].
    rewrite arrivals_app, app_nil_r. by apply Hinv.
  - exists read. eapply inv_outside; [done..| |by rewrite received_app, app_nil_r|by apply Hinv|by right|done].
    rewrite arrivals_app, app_nil_r. by apply Hinv.
  - exists read. eapply inv_outside; [done..| |by rewrite received_app, app_nil_r|by apply Hinv|by left|intros [Hx Hy]; try done; by split].
    rewrite arrivals_app, app_nil_r. by apply Hinv.
  - exists read. eapply inv_outside; [done..| | | |by left|done].
    + rewrite arrivals_app, app_nil_r. by apply Hinv.
    + by rewrite received_app, Hev, <-app_assoc.
    + pose proof (si_cap _ _ _ Hinv) as Hc. rewrite Hev in Hc. cbn in *. lia.
  - exists (read ++ [m]). by apply inv_read.
  - exists read. by apply inv_read_failed.
  - exists read. eapply inv_moved; [done|done|done| | | | |by left]; cbn; rewrite ?Hp.
    + rewrite length_app. cbn. lia.
    + by destruct last.
    + by destruct last; rewrite app_nil_r.
    + rewrite (si_closed _ _ _ Hinv), Hp. by destruct last.
  - exists read. eapply inv_moved; [done|done|done|by apply Hinv| | | |by left]; cbn; rewrite ?Hp; try done.
    by rewrite (si_closed _ _ _ Hinv), Hp.
  - exists read. eapply inv_moved; [done|done|done|by apply Hinv| | | |by right]; cbn; rewrite ?Hp; try done.
    by rewrite (si_closed _ _ _ Hinv), Hp.
  - exists read. eapply inv_moved; [done|done|done|by apply Hinv| | | |by left]; cbn; rewrite ?Hp; done.
Qed.

(** ** What a drained session collects *)

Lemma session_frame_not_exit f : session_frame f -> is_exit (Ok f) = false.
Proof.
  unfold is_exit, on_message. intros [[Ht [raw Hr]]|Ht].
  - rewrite bool_decide_eq_true_2, Hr by done. done.
  - destruct Ht as [->| ->]; reflexivity.
Qed.
Lemma exit_is_exit c d : is_exit (Ok (exit_frame c d)) = true.
Proof. reflexivity. Qed.
(** An error among the events is what [Collect] answers. *)
Lemma collect_error out err c d evs e rest :
  exists e', (collect out err c d (evs ++ EvError e :: rest)).2 = Some e'.
Proof.
  revert out err c d. induction evs as [|ev evs IH]; intros out err c d; [by eexists|].
  destruct ev as [kind data|c' d'|e']; cbn; [case_bool_decide| |by eexists]; apply IH.
Qed.
(** The reads of a session that no client closed, at its end: everything up to
    the exit frame, or all there was and the error that ended it. *)
Lemma closed_reads ls s fs code d :
  session ls s -> st_closed s = true -> st_events s = [] -> LCancel ∉ ls ->
  Forall session_frame fs -> arrivals ls `prefix_of` map Ok (fs ++ [exit_frame code d]) ->
  exists open lost,
    (arrivals ls = map Ok (fs ++ [exit_frame code d]) /\
     received ls = (pump corrupt open (arrivals ls) lost).1) \/
    (arrivals ls <> map Ok (fs ++ [exit_frame code d]) /\ exists evs e rest, received ls = evs ++ EvError e :: rest).
Proof.
  intros Hs Hcl Hev Hn Hfs [tail Hpre]. destruct (session_holds ls s Hs) as (read & [Ha _ Hcl' _ Ho _ Hall]).
  apply Hcl' in Hcl. rewrite Hcl in *. destruct (Ho eq_refl) as (open & lost & Er & Hopen).
  rewrite Hev, !app_nil_r in Er. destruct open; [|by destruct Hn; auto].
  assert (Hne : Forall (fun m => is_exit m = false) (map Ok fs : list (result string Frame))).
  { rewrite Forall_map. eapply Forall_impl; [exact Hfs|]. intros f. apply session_frame_not_exit. }
  exists true, lost. destruct (Hall eq_refl Hn) as [(r & m & -> & Hm)|[Hw Hg]].
  - left. rewrite map_app in Hpre. cbn in Hpre. rewrite <-Ha, <-!app_assoc in Hpre.
    assert (r = map Ok fs /\ [m] ++ st_wire s ++ tail = [Ok (exit_frame code d)]) as [-> Ht].
    { clear -Hpre Hne Hm. revert r Hpre. induction fs as [|f fs IH]; intros r Hpre.
      - destruct r as [|x r]; [done|]. cbn in Hpre. injection Hpre as -> E. by destruct r.
      - inversion_clear Hne as [|? ? Hf Hfs]. destruct r as [|x r].
        + cbn in Hpre. injection Hpre as <- _. congruence.
        + cbn in Hpre. injection Hpre as <- Hpre. destruct (IH Hfs r Hpre) as [-> E]. done. }
    injection Ht as -> Ht. apply app_nil in Ht as [Hw Ht].
    rewrite Hw, app_nil_r in Ha. rewrite <-Ha, map_app. done.
  - rewrite Hw, app_nil_r in Ha. subst read.
    assert (Hd : arrivals ls = map Ok (fs ++ [exit_frame code d]) \/ arrivals ls <> map Ok (fs ++ [exit_frame code d])).
    { destruct tail as [|m tail]; [left; by rewrite app_nil_r in Hpre|right]. intros E. rewrite E in Hpre.
      apply (f_equal length) in Hpre. rewrite length_app in Hpre. cbn in Hpre. lia. }
    destruct Hd as [Hd|Hd]; [by left|right]. split; [done|].
    assert (Hsh : arrivals ls `prefix_of` map Ok fs).
    { rewrite map_app in Hpre. cbn in Hpre. destruct tail as [|x tail _] using rev_ind.
      - rewrite app_nil_r in Hpre. rewrite map_app in Hd. by destruct Hd.
      - rewrite app_assoc in Hpre. apply app_inj_tail in Hpre as [Hpre _]. by exists tail. }
    destruct Hsh as [k Hk]. rewrite Hk in Hne. apply Forall_app in Hne as [Hne _].
    pose proof (pump_messages true _ [] lost Hne) as Hpm. rewrite app_nil_r in Hpm.
    rewrite Er, Hpm, pump_lost. by eexists _, _, [].
Qed.
End Machine.

(** C37: a live stream, end to end.  However the server's pumps and keepalive
    interleave on the connection, however the client's pump, its channel of 64
    events and the consumer are scheduled, and wherever the connection breaks:
    a stream that was drained until its channel closed, and not closed by the
    client before, collects exactly the exit code and the outputs the
    synchronous form answers for the same process when everything up to the
    exit frame arrived, and an error, never a shortened output, when not. *)
Theorem live_stream_agrees corrupt limit out err beats fo fe fk fs1 fs code d ls s :
  writes (pumpStream FrameStdout out) fo -> writes (pumpStream FrameStderr err) fe ->
  writes (keepalive beats) fk -> shuffle fo fe fs1 -> shuffle fs1 fk fs ->
  (0 < limit)%Z -> re_Truncated (exec_result limit code out err) = false ->
  session corrupt ls s -> st_closed s = true -> st_events s = [] -> LCancel ∉ ls ->
  arrivals ls `prefix_of` map Ok (fs ++ [exit_frame code d]) ->
  let '(res, e) := Collect (received ls) in
  (e = None <-> arrivals ls = map Ok (fs ++ [exit_frame code d])) /\
  (e = None -> re_ExitCode res = code /\ re_DurationMs res = d /\
     re_Stdout res = re_Stdout (exec_result limit code out err) /\
     re_Stderr res = re_Stderr (exec_result limit code out err)).
Proof.
  intros Ho He Hk H1 H2 Hl Ht Hs Hcl Hev Hn Hpre.
  pose proof (streamed_frames _ _ _ _ _ _ _ _ Ho He Hk H1 H2) as Hfs.
  destruct (closed_reads corrupt ls s fs code d Hs Hcl Hev Hn Hfs Hpre)
    as (open & lost & [[Ea Er]|(Ea & evs & e & rest & Er)]); rewrite Er.
  - pose proof (stream_agrees_with_exec corrupt open lost limit out err beats fo fe fk fs1 fs code d []
      Ho He Hk H1 H2 Hl Ht) as H. rewrite app_nil_r in H. rewrite Ea.
    destruct (Collect _) as [res e]. destruct H as (-> & H). by split.
  - unfold Collect. destruct (collect_error "" "" (-1) 0 evs e rest) as [e' E].
    destruct (collect _ _ _ _ _) as [res e0]. cbn in E. subst e0. by split.
Qed.

(** ** Coming to an end *)

(** A step of the pump or of the consumer. *)
Definition drains (corrupt : string -> string) (s s' : Stream) : Prop :=
  step corrupt LPump s s' \/ exists ev, step corrupt (LRecv ev) s s'.
(** How many such steps are left at most, once the connection is gone. *)
Definition pump_weight (p : PumpAt) : nat :=
  match p with
  | AEnded => 0 | AClose => 1 | ACancel => 2 | ASend _ true => 4 | ARead => 5 | APong => 6 | ASend _ false => 7
  end.
Definition remaining (s : Stream) : nat :=
  3 * length (st_wire s) + pump_weight (st_pump s) + length (st_events s).
Lemma on_message_weight corrupt m : (pump_weight (on_message corrupt m) <= 7)%nat.
Proof.
  unfold on_message. destruct m as [f|msg]; [|done]. repeat case_bool_decide;
    try destruct (StdDecode (fr_D f)); cbn; lia.
Qed.
Lemma drains_remaining corrupt s s' :
  drains corrupt s s' -> (remaining s' < remaining s)%nat /\ (st_gone s' = st_gone s).
Proof.
  intros [Hs|[ev Hs]]; unfold remaining; inversion Hs; subst; cbn -[on_message];
    rewrite ?length_app; split; try done.
  - pose proof (on_message_weight corrupt m). rewrite H, H0. cbn. lia.
  - rewrite H. unfold on_lost. destruct (st_cancelled s); cbn; lia.
  - rewrite H. match goal with b : bool |- _ => destruct b end; cbn; lia.
  - rewrite H. cbn. lia.
  - rewrite H. cbn. lia.
  - rewrite H. cbn. lia.
  - match goal with E : st_events s = _ |- _ => rewrite E end. cbn. lia.
Qed.
(** The stream can come to an end: its connection has ended, or its exit frame
    has arrived. *)
Definition ending (corrupt : string -> string) (ls : list Label) (s : Stream) : Prop :=
  st_gone s <> None \/ exists m, m ∈ arrivals ls /\ is_exit corrupt m = true.
Lemma drains_session corrupt ls s s' :
  session corrupt ls s -> ending corrupt ls s -> drains corrupt s s' ->
  exists ls', session corrupt ls' s' /\ ending corrupt ls' s'.
Proof.
  intros Hs He Hd. destruct (drains_remaining corrupt s s' Hd) as [_ Hg].
  assert (Hgo : forall l, step corrupt l s s' -> arrivals (ls ++ [l]) = arrivals ls ->
    exists ls', session corrupt ls' s' /\ ending corrupt ls' s').
  { intros l Hl Ea. exists (ls ++ [l]). split; [by eapply session_step|]. unfold ending. by rewrite Hg, Ea. }
  destruct Hd as [Hd|[ev Hd]]; eapply Hgo; [exact Hd| |exact Hd|]; by rewrite arrivals_app, app_nil_r.
Qed.
Lemma drains_stops corrupt ls s :
  session corrupt ls s -> ending corrupt ls s ->
  (forall s', ~ drains corrupt s s') -> st_closed s = true /\ st_events s = [].
Proof.
  intros Hs He Hno. destruct (session_holds corrupt ls s Hs) as (read & [Ha _ Hcl Hl _ _ _]).
  assert (Hev : st_events s = []).
  { destruct (st_events s) as [|ev evs] eqn:E; [done|]. destruct (Hno (set_events evs s)).
    right. exists ev. by constructor. }
  split; [|done]. apply Hcl. destruct (st_pump s) as [|ev l| | | |] eqn:Ep; [exfalso..|done].
  - destruct (st_wire s) as [|m w] eqn:Ew; [|eapply Hno; left; by eapply step_read].
    destruct He as [Hg|(m & Hm & Hx)].
    + destruct (st_gone s) as [e|] eqn:Eg; [|done].
      eapply Hno. left. eapply step_read_failed; [done|by left].
    + destruct (Hl eq_refl) as [Hne _]. rewrite app_nil_r in Ha. subst read.
      rewrite Forall_forall in Hne. specialize (Hne m Hm). congruence.
  - eapply Hno. left. eapply step_send; [done|]. rewrite Hev. cbn. unfold eventsCap. lia.
  - eapply Hno. left. by apply step_pong.
  - eapply Hno. left. by apply step_deferred_cancel.
  - eapply Hno. left. by apply step_deferred_close.
Qed.

(** C38: a stream that is drained comes to an end.  Once the connection has
    ended, by the server, the network or [Close], or the exit frame has arrived,
    whatever the pump and the consumer do in whatever order takes finitely many
    steps, and where neither can go on, every event was received and the channel
    is closed: a loop over [Events] never waits for ever. *)
Theorem drained_stream_ends corrupt ls s :
  session corrupt ls s -> ending corrupt ls s ->
  (forall n s', nsteps (drains corrupt) n s s' -> (n <= remaining s)%nat) /\
  forall s', rtc (drains corrupt) s s' -> (forall s2, ~ drains corrupt s' s2) ->
    st_closed s' = true /\ st_events s' = [].
Proof.
  intros Hs He. split.
  - intros n s' Hn. assert (n + remaining s' <= remaining s)%nat; [|lia].
    clear Hs He. induction Hn as [s|n s1 s2 s3 Hd _ IH]; [lia|].
    destruct (drains_remaining corrupt s1 s2 Hd) as [Hr _]. lia.
  - intros s' Hr. revert ls Hs He.
    induction Hr as [s|s s2 s3 Hd _ IH]; intros ls Hs He Hno; [by eapply drains_stops|].
    destruct (drains_session corrupt ls s s2 Hs He Hd) as (ls' & Hs' & He'). by eapply IH.
Qed.

(** ** A stream that is abandoned *)

(** What the others do while nobody receives. *)
Inductive unattended (corrupt : string -> string) (s : Stream) : Stream -> Prop :=
| un_refl : unattended corrupt s s
| un_step l s1 s2 : (forall ev, l <> LRecv ev) -> unattended corrupt s s1 -> step corrupt l s1 s2 ->
    unattended corrupt s s2.
(** A pump that waits on a full channel waits for a receiver: [Close], which
    cancels the context and ends the connection, does not release it. *)
Lemma blocked_pump_stays corrupt s s' ev l :
  st_pump s = ASend ev l -> length (st_events s) = eventsCap -> unattended corrupt s s' ->
  st_pump s' = ASend ev l /\ st_events s' = st_events s /\ st_closed s' = st_closed s.
Proof.
  intros Hp Hlen Hu. induction Hu as [|la s1 s2 Hl _ (IH1 & IH2 & IH3) Hs]; [done|].
  inversion Hs; subst; cbn; rewrite ?IH1, ?IH2, ?IH3; try done; try congruence.
  rewrite IH2, Hlen in *. lia.
Qed.

Lemma received_cat ls ls' : received (ls ++ ls') = received ls ++ received ls'.
Proof. apply omap_app. Qed.
(** Output that keeps arriving fills the channel. *)
Lemma session_fills corrupt n ls s data :
  session corrupt ls s -> st_pump s = ARead -> st_wire s = [] -> st_gone s = None ->
  (length (st_events s) + n <= eventsCap)%nat ->
  exists ls' s', session corrupt (ls ++ ls') s' /\ received ls' = [] /\
    s' = set_events (st_events s ++ replicate n (EvData "stdout" data)) s.
Proof.
  intros Hs Hp Hw Hg. revert ls s Hs Hp Hw Hg. induction n as [|n IH]; intros ls s Hs Hp Hw Hg Hlen.
  { exists [], s. rewrite app_nil_r. split; [done|]. split; [done|]. cbn. rewrite app_nil_r. by destruct s. }
  set (m := Ok (data_frame "stdout" data) : result string Frame).
  assert (Em : on_message corrupt m = ASend (EvData "stdout" data) false).
  { unfold m, on_message. rewrite bool_decide_eq_true_2 by by left. cbn [data_frame fr_D].
    by rewrite StdDecode_StdEncode. }
  set (s1 := set_wire [m] s).
  set (s2 := set_wire [] (set_pump (ASend (EvData "stdout" data) false) s1)).
  set (s3 := set_events (st_events s ++ [EvData "stdout" data]) (set_pump ARead s2)).
  assert (H3 : session corrupt (((ls ++ [LArrive m]) ++ [LPump]) ++ [LPump]) s3).
  { eapply (session_step _ _ _ s2); [eapply (session_step _ _ _ s1); [eapply (session_step _ _ _ s); [exact Hs|]|]|].
    - pose proof (step_arrive corrupt m s Hg) as Ha. rewrite Hw in Ha. exact Ha.
    - unfold s2. rewrite <-Em. by apply step_read.
    - apply (step_send corrupt _ false s2); [done|]. cbn. lia. }
  destruct (IH _ _ H3) as (ls' & s' & Hs' & Hr & ->); [done|done|exact Hg| |].
  { cbn. rewrite length_app. cbn. lia. }
  exists ([LArrive m; LPump; LPump] ++ ls'), (set_events (st_events s3 ++ replicate n (EvData "stdout" data)) s3).
  split; [|split].
  - rewrite <-!app_assoc in Hs'. exact Hs'.
  - exact Hr.
  - unfold s3, s2, s1. cbn. rewrite <-app_assoc. cbn. destruct s; cbn in *. by subst.
Qed.

(** [Collect] returns at the first error without closing the stream.  Where more
    output than the channel holds has come by then, the pump waits for ever:
    the stream's [Close] does not end it. *)
Theorem abandoned_stream_leaks corrupt : exists ls s,
  session corrupt ls s /\ (Collect (received ls)).2 <> None /\
  LCancel ∈ ls /\ LConnClose ∈ ls /\
  forall s', unattended corrupt s s' -> st_closed s' = false.
Proof.
  set (e := EvError (ConnErr "bad frame")). set (bad := Err "bad frame" : result string Frame).
  set (more := Ok (data_frame "stdout" "x") : result string Frame).
  assert (H0 : session corrupt [LArrive bad; LPump; LPump; LRecv e] new_stream).
  { change [LArrive bad; LPump; LPump; LRecv e] with (((([] ++ [LArrive bad]) ++ [LPump]) ++ [LPump]) ++ [LRecv e]).
    eapply session_step; [eapply session_step; [eapply session_step; [eapply session_step|]|]|].
    - apply session_open.
    - by constructor.
    - by eapply step_read.
    - eapply step_send; [done|]. cbn. unfold eventsCap. lia.
    - by eapply step_recv. }
  destruct (session_fills corrupt eventsCap _ _ "x" H0) as (ls & s & Hs & Hr & ->); [done..|].
  set (full := set_events (st_events new_stream ++ replicate eventsCap (EvData "stdout" "x")) new_stream) in Hs.
  set (stuck := set_gone (Some "closed") (set_cancelled (set_wire []
    (set_pump (ASend (EvData "stdout" "x") false) (set_wire [more] full))))).
  set (l0 := [LArrive bad; LPump; LPump; LRecv e] ++ ls) in Hs.
  exists ((((l0 ++ [LArrive more]) ++ [LPump]) ++ [LCancel]) ++ [LConnClose]), stuck.
  split; [|split; [|split; [|split]]].
  - eapply session_step; [eapply session_step; [eapply session_step; [eapply session_step; [exact Hs|]|]|]|].
    + by apply (step_arrive corrupt more full).
    + by eapply (step_read corrupt more [] (set_wire [more] full)).
    + apply step_cancel.
    + by apply step_conn_close.
  - unfold l0. rewrite !received_app, !app_nil_r, received_cat, Hr. done.
  - apply elem_of_app. left. apply elem_of_app. right. left.
  - apply elem_of_app. right. left.
  - intros s' Hu. destruct (blocked_pump_stays corrupt stuck s' _ false eq_refl eq_refl Hu) as (_ & _ & ->). done.
Qed.

(** ** Witnesses *)

(** The exit frame arrives, is pumped and received, and the channel closed. *)
Definition wit_exit : result string Frame := Ok (exit_frame 7 12).
Definition wit_labels : list Label :=
  [LArrive wit_exit; LPump; LPump; LRecv (EvExit 7 12); LPump; LPump].
Definition wit_end : Stream :=
  {| st_wire := []; st_gone := None; st_cancelled := true; st_events := []; st_closed := true; st_pump := AEnded |}.
Lemma wit_steps corrupt : session corrupt wit_labels wit_end.
Proof.
  change wit_labels with
    (((((([] ++ [LArrive wit_exit]) ++ [LPump]) ++ [LPump]) ++ [LRecv (EvExit 7 12)]) ++ [LPump]) ++ [LPump]).
  eapply session_step; [eapply session_step; [eapply session_step; [eapply session_step;
    [eapply session_step; [eapply session_step; [apply session_open|]|]|]|]|]|].
  - by apply step_arrive.
  - by apply (step_read corrupt wit_exit []).
  - apply step_send; [reflexivity|]. cbn. unfold eventsCap. lia.
  - by eapply step_recv.
  - by apply step_deferred_cancel.
  - by apply step_deferred_close.
Defined.
Lemma live_stream_agrees_wit :
  let '(res, e) := Collect (received wit_labels) in
  (e = None <-> arrivals wit_labels = map Ok ([] ++ [exit_frame 7 12])) /\
  (e = None -> re_ExitCode res = 7%Z /\ re_DurationMs res = 12%Z /\
     re_Stdout res = re_Stdout (exec_result 100 7 [] []) /\ re_Stderr res = re_Stderr (exec_result 100 7 [] [])).
Proof.
  apply (live_stream_agrees id 100 [] [] 0 [] [] [] [] [] 7 12 wit_labels wit_end).
  - reflexivity.
  - reflexivity.
  - reflexivity.
  - constructor.
  - constructor.
  - reflexivity.
  - vm_compute. reflexivity.
  - apply wit_steps.
  - reflexivity.
  - reflexivity.
  - unfold wit_labels. rewrite !elem_of_cons, elem_of_nil. intuition discriminate.
  - exists []. reflexivity.
Defined.
(** The exit frame has come and was not read. *)
Definition wit_arrived : Stream := set_wire [wit_exit] new_stream.
Lemma drained_stream_ends_wit :
  (forall n s', nsteps (drains id) n wit_arrived s' -> (n <= 8)%nat) /\
  forall s', rtc (drains id) wit_arrived s' -> (forall s2, ~ drains id s' s2) ->
    st_closed s' = true /\ st_events s' = [].
Proof.
  apply (drained_stream_ends id [LArrive wit_exit] wit_arrived).
  - apply (session_step id [] (LArrive wit_exit) new_stream); [apply session_open|].
    by apply (step_arrive id wit_exit new_stream).
  - right. exists wit_exit. split; [left|reflexivity].
Defined.
