(* ===== verification/InitMain.v ===== *)
(** * Starting jdix-init (cmd/jdix-init/main.go, pkg/initd: priv_linux.go, server.go)

    The order in which the process guards itself as a supervisor, listens, drops
    its privileges and serves, and the status it exits with:
    whatever fails, it never serves a tenant with more privilege than it was
    told to keep. *)
From S2P Require Import Prelude GoStrings Calls Posix InitProto.
Open Scope string_scope.
Open Scope Z_scope.

(** ** Arguments *)

(** [strings.SplitN(s, ":", 2)] and the two numbers. *)
Definition parseIDs (s : string) : result string (Z * Z) :=
  let '(u, g, found) := cut s ":"%char in
  guard found else "--drop-to must look like uid:gid, got " +:+ quote s ;;
  let? uid := match atoi u with Some n => Ok n | None => Err ("--drop-to uid: " +:+ atoi_error u) end in
  let? gid := match atoi g with Some n => Ok n | None => Err ("--drop-to gid: " +:+ atoi_error g) end in
  guard negb ((uid =? 0) || (gid =? 0)) else "--drop-to must not target root" ;;
  Ok (uid, gid).

(** ** Calls *)

(** What ends [run]'s select: [Serve] came back, as it does when closed, or with
    an error; or a signal came. *)
Inductive ServeEnd := ServeClosed | ServeFailed (err : string) | Signalled.
Inductive MainE : Type -> Type :=
| Setgroups (gids : list Z) : MainE (result Errno unit)
| Setgid (gid : Z) : MainE (result Errno unit)
| Setuid (uid : Z) : MainE (result Errno unit)
| Geteuid : MainE Z
| Getuid : MainE Z
| MkdirAll (path : string) (mode : Z) : MainE (result string unit)
| RemoveFile (path : string) : MainE unit
| ListenUnix (path : string) : MainE (result string unit)
| Chmod (path : string) (mode : Z) : MainE (result string unit)
| CloseListener : MainE unit
| GoReaper : MainE unit
| StopReaper : MainE unit
| CheckFilesystemView : MainE (result string unit)  (* ProbeView.CheckFilesystemView *)
| BecomeSubreaper : MainE (result Errno unit)       (* PR_SET_CHILD_SUBREAPER *)
| ProtectSupervisor : MainE (result Errno unit)     (* PR_SET_DUMPABLE, 0 *)
| Serve : MainE ServeEnd
| Shutdown (timeout : Z) : MainE (option string).
Abbreviation Main := (Prog MainE).

Definition maxUnixPath : nat := 104.
Definition path_dir_of (p : string) : string :=
  match last_index_byte p slash with Some i => clean (take_string (S i) p) | None => "." end.

Definition Listen (path : string) : Main (result string unit) :=
  if (maxUnixPath <=? String.length path)%nat then
    mret (Err ("socket path is " +:+ itoa (Z.of_nat (String.length path)) +:+
               " bytes; the kernel limit is " +:+ itoa (Z.of_nat maxUnixPath - 1) +:+ ": " +:+ path))
  else
    d ← call (MkdirAll (path_dir_of path) 0x1c0);
    match d with
    | Err e => mret (Err e)
    | Ok _ =>
        call (RemoveFile path);;
        l ← call (ListenUnix path);
        match l with
        | Err e => mret (Err e)
        | Ok _ =>
            c ← call (Chmod path 0x180);
            match c with
            | Err e => call CloseListener;; mret (Err e)
            | Ok _ => mret (Ok tt)
            end
        end
    end.

Section Main.
(** [syscall.Errno.Error] *)
Context (Errno_string : Errno -> string).

Definition DropPrivileges (uid gid : Z) : Main (result string unit) :=
  r ← call (Setgroups [gid]);
  match r with
  | Err e => mret (Err ("setgroups: " +:+ Errno_string e))
  | Ok _ =>
      r ← call (Setgid gid);
      match r with
      | Err e => mret (Err ("setgid: " +:+ Errno_string e))
      | Ok _ =>
          r ← call (Setuid uid);
          match r with
          | Err e => mret (Err ("setuid: " +:+ Errno_string e))
          | Ok _ =>
              got ← call Geteuid;
              if negb (got =? uid)
              then mret (Err ("privilege drop incomplete: euid is " +:+ itoa got +:+ ", want " +:+ itoa uid))
              else
                got ← call Getuid;
                if negb (got =? uid)
                then mret (Err ("privilege drop incomplete: ruid is " +:+ itoa got +:+ ", want " +:+ itoa uid))
                else mret (Ok tt)
          end
      end
  end.

Definition shutdownTimeout : Z := 5 * 1000000000.
Definition serve_until : Main (option string) :=
  woken ← call Serve;
  match woken with
  | ServeClosed => mret None
  | ServeFailed err => mret (Some err)
  | Signalled => call (Shutdown shutdownTimeout)
  end.
(** [run]: its deferred calls end it on every path. *)
Definition drop_then_serve (dropTo : string) : Main (option string) :=
  dropped ←
    (if bool_decide (dropTo = "") then mret (Ok tt)
     else match parseIDs dropTo with
          | Err e => mret (Err e)
          | Ok (uid, gid) =>
              r ← DropPrivileges uid gid;
              mret (match r with
                    | Err e => Err ("drop privileges to " +:+ dropTo +:+ ": " +:+ e)
                    | Ok _ => Ok tt
                    end)
          end);
  match dropped with
  | Err e => mret (Some e)
  | Ok _ => serve_until
  end.
Definition run (socket dropTo : string) : Main (option string) :=
  call GoReaper;;
  l ← Listen socket;
  err ← match l with
        | Err e => mret (Some ("listen " +:+ socket +:+ ": " +:+ e))
        | Ok _ => err ← drop_then_serve dropTo; call CloseListener;; mret err
        end;
  call StopReaper;; mret err.

(** What [main] does first when it shares the container's PID namespace. *)
Definition guard_supervisor : Main (result string unit) :=
  r ← call CheckFilesystemView;
  match r with
  | Err e => mret (Err e)
  | Ok _ =>
      r ← call BecomeSubreaper;
      match r with
      | Err e => mret (Err (Errno_string e))
      | Ok _ =>
          r ← call ProtectSupervisor;
          mret (match r with Err e => Err (Errno_string e) | Ok _ => Ok tt end)
      end
  end.
Definition exit_status (err : option string) : Z := match err with Some _ => 1 | None => 0 end.
(** [main], up to its exit status. *)
Definition init_main (subreaper : bool) (socket dropTo : string) : Main Z :=
  guarded ← (if subreaper then guard_supervisor else mret (Ok tt));
  match guarded with
  | Err e => mret 1
  | Ok _ => err ← run socket dropTo; mret (exit_status err)
  end.
End Main.

(** ** What it runs as when it serves *)

Record Ids := {
  id_groups : list Z; id_gid : Z; id_euid : Z; id_ruid : Z;
  id_socket : option (string * Z);              (* the listener's path and mode *)
  id_viewed : bool;                             (* the filesystem was found to be the sandbox's *)
  id_subreaper : bool;
  id_dumpable : bool;
  id_failed : bool;                             (* a call has been answered by an error *)
  id_end : option (option string) }.            (* what serving ended with, once it has *)

Definition with_ids (gs : list Z) (g eu ru : Z) (s : Ids) : Ids :=
  {| id_groups := gs; id_gid := g; id_euid := eu; id_ruid := ru; id_socket := id_socket s; id_viewed := id_viewed s;
     id_subreaper := id_subreaper s; id_dumpable := id_dumpable s; id_failed := id_failed s; id_end := id_end s |}.
Definition with_guards (v sr d : bool) (s : Ids) : Ids :=
  {| id_groups := id_groups s; id_gid := id_gid s; id_euid := id_euid s; id_ruid := id_ruid s; id_socket := id_socket s;
     id_viewed := v; id_subreaper := sr; id_dumpable := d; id_failed := id_failed s; id_end := id_end s |}.
Definition with_socket (p : string) (mode : Z) (s : Ids) : Ids :=
  {| id_groups := id_groups s; id_gid := id_gid s; id_euid := id_euid s; id_ruid := id_ruid s;
     id_socket := Some (p, mode); id_viewed := id_viewed s; id_subreaper := id_subreaper s; id_dumpable := id_dumpable s;
     id_failed := id_failed s; id_end := id_end s |}.
Definition with_outcome (failed : bool) (e : option (option string)) (s : Ids) : Ids :=
  {| id_groups := id_groups s; id_gid := id_gid s; id_euid := id_euid s; id_ruid := id_ruid s; id_socket := id_socket s;
     id_viewed := id_viewed s; id_subreaper := id_subreaper s; id_dumpable := id_dumpable s; id_failed := failed;
     id_end := e |}.
(** A call that succeeds does what it says; one that is answered by an error has
    failed. *)
Definition unless {E A} (r : result E A) (s1 s : Ids) : Ids :=
  match r with Ok _ => s1 | Err _ => with_outcome true (id_end s) s end.
(** Serving that ended with an error, or without. *)
Definition ended (err : option string) (s : Ids) : Ids :=
  with_outcome (match err with Some _ => true | None => id_failed s end) (Some err) s.

(** The kernel: what it says it did, it did; but a [setuid] may leave any uids
    behind, which only asking tells.  A change of ids does not make a process
    dumpable again ([fs.suid_dumpable] is 0). *)
Definition main_sem (R : Type) (e : MainE R) (s : Ids) (r : R) (s' : Ids) : Prop :=
  match e in MainE R return R -> Prop with
  | Setgroups gs => fun r => s' = unless r (with_ids gs (id_gid s) (id_euid s) (id_ruid s) s) s
  | Setgid g => fun r => s' = unless r (with_ids (id_groups s) g (id_euid s) (id_ruid s) s) s
  | Setuid _ => fun r => exists eu ru, let s1 := with_ids (id_groups s) (id_gid s) eu ru s in s' = unless r s1 s1
  | Geteuid => fun r => r = id_euid s /\ s' = s
  | Getuid => fun r => r = id_ruid s /\ s' = s
  | MkdirAll _ _ => fun r => s' = unless r s s
  | ListenUnix p => fun r => exists mode, s' = unless r (with_socket p mode s) s
  | Chmod p m => fun r => s' = unless r (with_socket p m s) s
  | CheckFilesystemView => fun r => s' = unless r (with_guards true (id_subreaper s) (id_dumpable s) s) s
  | BecomeSubreaper => fun r => s' = unless r (with_guards (id_viewed s) true (id_dumpable s) s) s
  | ProtectSupervisor => fun r => s' = unless r (with_guards (id_viewed s) (id_subreaper s) false s) s
  | Serve => fun r =>
      s' = match r with ServeClosed => ended None s | ServeFailed err => ended (Some err) s | Signalled => s end
  | Shutdown _ => fun r => s' = ended r s
  | _ => fun _ => s' = s
  end r.

(** Serving: on a socket of the owner's alone; and as the ids asked for, none
    of them root, in the user's effective and real id, the group and the
    supplementary groups, or as at the start when none were asked for. *)
Definition serves_as (socket dropTo : string) (s0 s : Ids) : Prop :=
  id_socket s = Some (socket, 0x180) /\
  if bool_decide (dropTo = "") then
    id_euid s = id_euid s0 /\ id_ruid s = id_ruid s0 /\ id_gid s = id_gid s0 /\ id_groups s = id_groups s0
  else exists uid gid, parseIDs dropTo = Ok (uid, gid) /\ uid <> 0 /\ gid <> 0 /\
         id_euid s = uid /\ id_ruid s = uid /\ id_gid s = gid /\ id_groups s = [gid].
(** What a supervisor in the container's own PID namespace must have done
    before anything else. *)
Definition guarded (subreaper : bool) (s : Ids) : Prop :=
  subreaper = true -> id_viewed s = true /\ id_subreaper s = true /\ id_dumpable s = false.
Definition main_promise (subreaper : bool) (socket dropTo : string) (s0 : Ids)
    (R : Type) (e : MainE R) (s : Ids) : Prop :=
  match e with
  | CheckFilesystemView | BecomeSubreaper | ProtectSupervisor => True
  | Serve => guarded subreaper s /\ serves_as socket dropTo s0 s
  | Setgroups _ | Setgid _ => guarded subreaper s /\ id_euid s = id_euid s0   (* while it still may *)
  | _ => guarded subreaper s
  end.

Lemma parseIDs_not_root s uid gid : parseIDs s = Ok (uid, gid) -> uid <> 0 /\ gid <> 0.
Proof.
  unfold parseIDs. destruct (cut s _) as [[u g] found]. rewrite guard_ok. intros [_ H].
  destruct (atoi u); [|done]. destruct (atoi g); [|done]. cbn in H.
  apply guard_ok in H as [Hz [= -> ->]]. apply negb_true_iff, orb_false_iff in Hz as [?%Z.eqb_neq ?%Z.eqb_neq].
  done.
Qed.

Section Serving.
Context (Errno_string : Errno -> string) (subreaper : bool) (socket dropTo : string) (s0 : Ids).
Abbreviation running := (rg eq (main_promise subreaper socket dropTo s0) main_sem).
Abbreviation guards := (guarded subreaper).

(** Nothing has failed and nobody has been served so far. *)
Definition fresh (s : Ids) : Prop := id_failed s = false /\ id_end s = None.
(** What is returned to [main] is how it went. *)
Definition went (err : option string) (s : Ids) : Prop :=
  match err with None => id_failed s = false /\ id_end s = Some None | Some _ => id_end s <> Some None end.
(** The ids, apart from the socket. *)
Definition same_ids (s : Ids) : Prop :=
  id_euid s = id_euid s0 /\ id_ruid s = id_ruid s0 /\ id_gid s = id_gid s0 /\ id_groups s = id_groups s0.

Lemma running_call {A R} (e : MainE R) (f : R -> Main A) s Q :
  main_promise subreaper socket dropTo s0 R e s ->
  (forall r s', main_sem R e s r s' -> running (f r) s' Q) -> running (call e ≫= f) s Q.
Proof. intros HG H. apply rg_call. intros s1 <-. by split. Qed.

Lemma Listen_private s :
  same_ids s -> guards s -> fresh s ->
  running (Listen socket) s (fun r s' => guards s' /\
    match r with Ok _ => same_ids s' /\ id_socket s' = Some (socket, 0x180) /\ fresh s' | Err _ => id_end s' = None end).
Proof.
  intros Hs Hg [Hf He]. unfold Listen. destruct (_ <=? _)%nat; [done|].
  apply running_call; [done|]. intros [[]|e] s1 ->; [|done].
  apply running_call; [done|]. intros [] s2 ->.
  apply running_call; [done|]. intros [[]|e] s3 [mode ->]; [|done].
  apply running_call; [done|]. intros [[]|e] s4 ->; [done|].
  apply running_call; [done|]. by intros [] s5 ->.
Qed.

Lemma DropPrivileges_drops uid gid s :
  id_euid s = id_euid s0 -> guards s -> fresh s ->
  running (DropPrivileges Errno_string uid gid) s (fun r s' => guards s' /\ id_socket s' = id_socket s /\
    match r with
    | Ok _ => id_euid s' = uid /\ id_ruid s' = uid /\ id_gid s' = gid /\ id_groups s' = [gid] /\ fresh s'
    | Err _ => id_end s' = None
    end).
Proof.
  intros Hs Hg [Hf He]. unfold DropPrivileges.
  apply running_call; [done|]. intros [[]|e] s1 ->; [|done].
  apply running_call; [done|]. intros [[]|e] s2 ->; [|done].
  apply running_call; [done|]. intros [[]|e] s3 (eu & ru & ->); [|done].
  apply running_call; [done|]. intros got s4 [-> ->]. cbn [unless with_ids id_euid].
  destruct (Z.eqb_spec eu uid) as [->|]; [|done]. cbn [negb].
  apply running_call; [done|]. intros got s5 [-> ->]. cbn [unless with_ids id_ruid].
  destruct (Z.eqb_spec ru uid) as [->|]; done.
Qed.

(** Whatever ends its serving, a guarded process stays one. *)
Lemma serve_until_guarded s :
  guards s -> serves_as socket dropTo s0 s -> fresh s ->
  running serve_until s (fun err s' => guards s' /\ went err s').
Proof.
  intros Hg Hs [Hf He]. unfold serve_until. apply running_call; [done|]. intros [|e|] s1 ->; [done..|].
  change (call (Shutdown shutdownTimeout)) with (call (Shutdown shutdownTimeout) ≫= mret).
  apply running_call; [done|]. intros [err|] s2 ->; done.
Qed.
Lemma drop_then_serve_guarded s :
  same_ids s -> guards s -> id_socket s = Some (socket, 0x180) -> fresh s ->
  running (drop_then_serve Errno_string dropTo) s (fun err s' => guards s' /\ went err s').
Proof.
  intros Hids Hg Hsock Hfr. unfold drop_then_serve. apply rg_bind.
  eapply (rg_mono _ _ _ _ _ (fun r s' => guards s' /\
    match r with Ok _ => serves_as socket dropTo s0 s' /\ fresh s' | Err _ => id_end s' = None end)).
  { intros [[]|e] s3 [Hg3 H3]; [destruct H3; by apply serve_until_guarded|]. apply rg_ret. split; [done|]. cbn. by rewrite H3. }
  unfold serves_as. case_bool_decide as Hd; [by apply rg_ret|].
  destruct (parseIDs dropTo) as [[uid gid]|e] eqn:Hp; [|by apply rg_ret; destruct Hfr].
  apply rg_bind. eapply rg_mono; [|apply DropPrivileges_drops; [by destruct Hids|done|done]].
  intros [[]|e] s3 (Hg3 & Hs3 & H3); apply rg_ret; [|done]. rewrite Hs3. split; [done|]. split; [|tauto]. split; [done|].
  apply parseIDs_not_root in Hp as Hr. exists uid, gid. tauto.
Qed.

(** [run] serves on a socket of the owner's alone, as the ids asked for. *)
Lemma run_serves_dropped s :
  same_ids s -> guards s -> fresh s ->
  running (run Errno_string socket dropTo) s (fun err s' => guards s' /\ went err s').
Proof.
  intros Hs Hg Hfr. unfold run. apply running_call; [done|]. intros [] s1 ->. apply rg_bind.
  eapply rg_mono; [|by apply Listen_private]. intros [[]|e] s2 [Hg2 Hl].
  2:{ apply rg_bind, rg_ret. apply running_call; [done|]. intros [] s3 ->. apply rg_ret. split; [done|]. cbn. by rewrite Hl. }
  destruct Hl as (Hids & Hsock & Hfr2). apply rg_bind, rg_bind.
  eapply rg_mono; [|by apply drop_then_serve_guarded]. intros err s3 [Hg3 Hw].
  apply running_call; [done|]. intros [] s4 ->. apply rg_ret.
  apply running_call; [done|]. by intros [] s5 ->.
Qed.

Lemma guard_supervisor_guards s :
  same_ids s -> fresh s ->
  running (guard_supervisor Errno_string) s (fun r s' =>
    match r with Ok _ => same_ids s' /\ guards s' /\ fresh s' | Err _ => id_end s' = None end).
Proof.
  intros Hs [Hf He]. unfold guard_supervisor.
  apply running_call; [done|]. intros [[]|e] s1 ->; [|done].
  apply running_call; [done|]. intros [[]|e] s2 ->; [|done].
  apply running_call; [done|]. intros [[]|e] s3 ->; [|done].
  apply rg_ret. split; [done|]. by split; [intros _|].
Qed.

(** C39: jdix-init serves tenants only over a socket that is its owner's alone
    (0600), and, told to drop its privileges, only once the kernel itself has
    confirmed that its effective and real user are the ones asked for, neither
    them nor the group being root and the supplementary groups gone.  Told to
    supervise the container's own PID namespace, it does nothing at all before
    it has seen that the filesystem is the sandbox's, adopts orphans and is
    closed to ptrace and /proc.  Whatever fails on the way (a probe, the
    listener, the argument, a system call, a drop that was silently partial),
    it serves nobody and ends with status 1, as it does when serving or its
    shutdown ends with an error: the status is 0 exactly when serving came to a
    clean end, and then nothing had failed. *)
Theorem init_serves_guarded s :
  same_ids s -> fresh s ->
  running (init_main Errno_string subreaper socket dropTo) s (fun status s' =>
    (status = 0 /\ id_end s' = Some None /\ id_failed s' = false /\ guards s') \/
    (status = 1 /\ id_end s' <> Some None)).
Proof.
  intros Hs Hfr. unfold init_main. apply rg_bind.
  eapply (rg_mono _ _ _ _ _ (fun r s' =>
    match r with Ok _ => same_ids s' /\ guards s' /\ fresh s' | Err _ => id_end s' = None end)).
  { intros [[]|e] s1 H1; [|apply rg_ret; right; by rewrite H1]. destruct H1 as (Hs1 & Hg1 & Hfr1).
    apply rg_bind. eapply rg_mono; [|by apply run_serves_dropped].
    intros [err|] s2 [Hg2 Hw]; apply rg_ret; [by right|]. left. by destruct Hw. }
  pose proof (guard_supervisor_guards s Hs Hfr) as Hg.
  destruct subreaper; [exact Hg|apply rg_ret; by split].
Qed.
End Serving.

Definition wit_root : Ids :=
  {| id_groups := [0]; id_gid := 0; id_euid := 0; id_ruid := 0; id_socket := None;
     id_viewed := false; id_subreaper := false; id_dumpable := true; id_failed := false; id_end := None |}.
Lemma init_serves_guarded_wit :
  parseIDs "1000:1000" = Ok (1000, 1000) /\
  rg eq (main_promise true "/run/jdix/init.sock" "1000:1000" wit_root) main_sem
    (init_main itoa true "/run/jdix/init.sock" "1000:1000") wit_root (fun status s' =>
      (status = 0 /\ id_end s' = Some None /\ id_failed s' = false /\ guarded true s') \/
      (status = 1 /\ id_end s' <> Some None)).
Proof.
  split; [vm_compute; reflexivity|].
  apply (init_serves_guarded itoa true "/run/jdix/init.sock" "1000:1000" wit_root wit_root); repeat split.
Defined.
