(* ===== verification/ExecdRun.v ===== *)
(** * execd at work: processes, files and time (pkg/execd)

    [Execd] says what a bind answers; this file says what it does on the way.
    [launch], [waitForSocket], [configureInit], [handleBind], [expire] and
    [stop] are programs over the system calls they make: descriptors are
    opened and closed, bubblewrap is started, interrupted and killed, the
    socket is polled against the clock, and the server's state is read and
    written in the critical sections of the code.  [Execd.handleBind] is what
    the program computes when nothing interferes. *)
From stdpp Require Import gmultiset.
From S2P Require Import Prelude Calls GoStrings Api Bwrap Url Route Gateway Execd.
Open Scope string_scope.

(** ** What bubblewrap said last *)

Definition tailMax : nat := Z.to_nat 4096.
Definition newline : ascii := "010"%char.
Record tail := { tl_buf : string }.
Definition tail_Write (t : tail) (p : string) : tail :=
  let buf := tl_buf t +:+ p in
  {| tl_buf := if (tailMax <? String.length buf)%nat
               then drop_string (String.length buf - tailMax) buf else buf |}.
Definition tail_String (t : tail) : string :=
  trim_space (List.last (split newline (trim_space (tl_buf t))) "").

(** ** System calls *)

Inductive ExecE : Type -> Type :=
| XNow : ExecE Time
| XSleep (d : Z) : ExecE unit
| XCtxErr : ExecE (option string)                          (* runCtx.Err() *)
| XDial (sock : string) (timeout : Z) : ExecE (result string unit)
| XOpenMount (root sub : string) : ExecE (result string File)
| XFilter : ExecE (result string File)
| XClose (f : File) : ExecE unit
| XLaunch (argv : list string) (files : list File) : ExecE (result string Z)
| XAdopt (pid : Z) : ExecE unit
| XDiag : ExecE string
| XInterrupt (pid : Z) : ExecE unit
| XAwait (pid : Z) (reaped : bool) (grace : Z) : ExecE bool  (* whether it ended in time *)
| XKill (pid : Z) : ExecE unit
| XCancel (pid : Z) : ExecE unit
| XStopTimer : ExecE unit
| XConfigure (body : ConfigureRequest) : ExecE (result string (Z * string))
| XCheck (req : BindRequest) : ExecE (option Reply)
| XPublish (sb : sandbox) (pid : Z) : ExecE unit
| XTake : ExecE (option (option Z))   (* [None]: expired before; else the sandbox's process *)
| XOnExpire (reason : string) : ExecE unit.
Abbreviation Exec := (Prog ExecE).

Section Run.
Context (cfg : Config) (initDial graceKill : Z).

(** [New]'s defaults. *)
Definition init_dial : Z := if (initDial =? 0)%Z then (10 * second)%Z else initDial.
Definition grace_kill : Z := if (graceKill =? 0)%Z then (5 * second)%Z else graceKill.
Definition filesystem : bool := bool_decide (cfg_Tier cfg = TierFilesystem).
(** Whether this process has a [reaper]. *)
Definition has_reaper : bool := filesystem.

(** ** Waiting for jdix-init *)

Definition sock_path : string := path_join [IPCDir (cfg_Layout cfg); InitSocketName].

Fixpoint poll_socket (fuel : nat) (deadline : Time) (lastErr : option string)
    : Exec (option (result string unit)) :=
  match fuel with
  | O => mret None
  | S fuel =>
      now ← call XNow;
      if before now deadline then
        over ← call XCtxErr;
        match over with
        | Some e => mret (Some (Err e))
        | None =>
            conn ← call (XDial sock_path (500 * millisecond));
            match conn with
            | Ok _ => mret (Some (Ok tt))
            | Err e => call (XSleep (2 * millisecond)) ≫= fun _ => poll_socket fuel deadline (Some e)
            end
        end
      else mret (Some (Err (default "timed out" lastErr)))
  end.
Definition dial_timeout : Z := if (init_dial <=? 0)%Z then (10 * second)%Z else init_dial.
Definition waitForSocket (fuel : nat) : Exec (option (result string unit)) :=
  start ← call XNow; poll_socket fuel (start + dial_timeout)%Z None.

(** ** launch *)

(** The loop that pins the mounts; the files opened are the deferred closer's. *)
Fixpoint pin_mounts (ms : list Mount) (files : list File) (fds : gmap string Z)
    : Exec (result LaunchError (gmap string Z) * list File) :=
  match ms with
  | [] => mret (Ok fds, files)
  | m :: ms' =>
      opened ← call (XOpenMount (default "" (cfg_Volumes cfg !! src_Volume (m_Source m))) (src_SubPath (m_Source m)));
      match opened with
      | Err e => mret (Err (LOpen e), files)
      | Ok f => pin_mounts ms' (files ++ [f])%list (<[m_Path m := (3 + Z.of_nat (length files))%Z]> fds)
      end
  end.
(** Arguments and files, in the order the code makes them. *)
Definition prepare_launch (req : BindRequest) : Exec (result LaunchError (list string) * list File) :=
  let spec := br_Filesystem req in
  match Validate (bind_policy cfg ∅) spec (cfg_Layout cfg) with
  | Err e => mret (Err (LInvalid e), [])
  | Ok _ =>
      pinned ← (if filesystem then pin_mounts (fs_Mounts spec) [] ∅ else mret (Ok ∅, []));
      let '(fds, files) := pinned in
      match fds with
      | Err e => mret (Err e, files)
      | Ok fds =>
          match Generate (cfg_StatIsDir cfg) spec (bind_policy cfg fds) (cfg_Layout cfg) with
          | Err e => mret (Err (LGenerate e), files)
          | Ok argv =>
              if filesystem then
                filter ← call XFilter;
                match filter with
                | Err e => mret (Err (LFilter e), files)
                | Ok f => mret (Ok ("--seccomp" :: itoa (3 + Z.of_nat (length files)) :: argv), (files ++ [f])%list)
                end
              else mret (Ok argv, files)
          end
      end
  end.
Fixpoint close_files (files : list File) : Exec unit :=
  match files with
  | [] => mret tt
  | f :: files => call (XClose f) ≫= fun _ => close_files files
  end.
(** From the launcher to the sandbox, with the process it runs as. *)
Definition start_sandbox (fuel : nat) (req : BindRequest) (argv : list string) (files : list File)
    : Exec (option (result LaunchError (sandbox * Z))) :=
  started ← call (XLaunch argv files);
  match started with
  | Err e => mret (Some (Err (LStart e)))
  | Ok pid =>
      _ ← (if has_reaper then call (XAdopt pid) else mret tt);
      up ← waitForSocket fuel;
      match up with
      | None => mret None
      | Some (Err e) =>
          call (XCancel pid) ≫= fun _ => call (XKill pid) ≫= fun _ =>
          last ← call XDiag;
          mret (Some (Err (LSocket (if negb (bool_decide (last = "")) then last else e))))
      | Some (Ok _) =>
          now ← call XNow;
          mret (Some (Ok ({| sb_id := br_SandboxID req; sb_tenant := br_Tenant req; sb_token := br_Token req;
                             sb_boundAt := now;
                             sb_expiresAt := if (0 <? br_TTLSeconds req)%Z
                                             then (now + seconds (br_TTLSeconds req))%Z else 0%Z;
                             sb_argv := argv |}, pid)))
      end
  end.
Definition launch_run (fuel : nat) (req : BindRequest) : Exec (option (result LaunchError (sandbox * Z))) :=
  prepared ← prepare_launch req;
  let '(argv, files) := prepared in
  r ← match argv with
      | Err e => mret (Some (Err e))
      | Ok argv => start_sandbox fuel req argv files
      end;
  close_files files ≫= fun _ => mret r.

(** ** Configuring jdix-init, stopping the sandbox *)

Definition configureInit (req : BindRequest) : Exec (result string unit) :=
  resp ← call (XConfigure (configure_request req));
  mret (match resp with
        | Err e => Err e
        | Ok (status, body) =>
            if (status =? 200)%Z then Ok tt
            else Err ("jdix-init rejected the configuration: " +:+ itoa status +:+ " " +:+ take_string tailMax body)
        end).

(** [timer] is whether a TTL timer was set. *)
Definition stop (timer : bool) (pid : Z) : Exec unit :=
  _ ← (if timer then call XStopTimer else mret tt);
  call (XInterrupt pid) ≫= fun _ =>
  ended ← call (XAwait pid has_reaper grace_kill);
  _ ← (if (ended : bool) then mret tt else call (XKill pid));
  call (XCancel pid).

(** ** The handlers *)

Context (tier : Tier) (render : LaunchError -> string).

Definition handleBind_run (fuel : nat) (req : BindRequest) : Exec (option Reply) :=
  refused ← call (XCheck req);
  match refused with
  | Some r => mret (Some r)
  | None =>
      launched ← launch_run fuel req;
      match launched with
      | None => mret None
      | Some (Err e) => mret (Some (RError 400 "bind_failed" (render e)))
      | Some (Ok (sb, pid)) =>
          configured ← configureInit req;
          match configured with
          | Err e => stop false pid ≫= fun _ => mret (Some (RError 500 "configure_failed" e))
          | Ok _ =>
              call (XPublish sb pid) ≫= fun _ =>
              mret (Some (RBound {| bs_SandboxID := sb_id sb; bs_IsolationTier := tier;
                                    bs_BoundAt := sb_boundAt sb; bs_ExpiresAt := sb_expiresAt sb;
                                    bs_BwrapArgs := sb_argv sb |}))
          end
      end
  end.

(** [expire], for the TTL and for [handleUnbind]. *)
Definition expire_run (reason : string) : Exec unit :=
  taken ← call XTake;
  match taken with
  | None => mret tt
  | Some pid =>
      _ ← (match pid with Some pid => stop true pid | None => mret tt end);
      call (XOnExpire reason)
  end.
End Run.

(** ** The data plane's routes *)

(** What the proxy into the namespace sends: the request to the socket, without
    the credential; the path stays as it is and the transport dials the socket
    whatever the host. *)
Definition data_rewrite (o : Outbound) : Outbound :=
  set_origin "http://init" "init" (on_header (header_del "Authorization") (set_origin "http://init" "" o)).
(** Its [ErrorHandler]. *)
Definition unreachable : Reply := RError 502 "sandbox_unreachable" "the sandbox is not responding".

Inductive DataAnswer :=
| DataHealthy
| DataReply (r : Reply)
| DataForward (o : Outbound)    (* to jdix-init; [unreachable] where that fails *)
| DataRedirect (to : string)
| DataWrongMethod
| DataUnknown.
(** [DataHandler], on a path as ServeMux has cleaned it. *)
Definition DataHandler (now : Time) (r : Request) (o : Outbound) (s : ExecdServer)
    : DataAnswer * ExecdServer :=
  let path := u_Path (rq_URL r) in
  if has_prefix path "/v1/" then
    let '(reply, s') := data_plane now r s in
    (match reply with RProxied _ => DataForward (data_rewrite o) | _ => DataReply reply end, s')
  else if bool_decide (path = "/v1") then (DataRedirect "/v1/", s)
  else if bool_decide (path = "/healthz") then
    (if bool_decide (rq_Method r = "GET") || bool_decide (rq_Method r = "HEAD") then DataHealthy
     else DataWrongMethod, s)
  else (DataUnknown, s).

(** ** What a handler holds

    The descriptors it has opened, the processes it has started that may be
    running, the sandboxes it has published with their processes, and the time.
    Other handlers run in between: what the server's state answers is
    arbitrary. *)
Record Held := {
  hl_files : gmultiset File; hl_procs : gset Z; hl_published : list (sandbox * Z); hl_now : Time }.
Definition with_files (f : gmultiset File -> gmultiset File) (h : Held) : Held :=
  {| hl_files := f (hl_files h); hl_procs := hl_procs h; hl_published := hl_published h; hl_now := hl_now h |}.
Definition with_procs (f : gset Z -> gset Z) (h : Held) : Held :=
  {| hl_files := hl_files h; hl_procs := f (hl_procs h); hl_published := hl_published h; hl_now := hl_now h |}.
Definition at_time (t : Time) (h : Held) : Held :=
  {| hl_files := hl_files h; hl_procs := hl_procs h; hl_published := hl_published h; hl_now := t |}.
Definition published (sb : sandbox) (pid : Z) (h : Held) : Held :=
  {| hl_files := hl_files h; hl_procs := hl_procs h ∖ {[ pid ]};
     hl_published := (sb, pid) :: hl_published h; hl_now := hl_now h |}.
Definition opened (r : result string File) (h : Held) : Held :=
  match r with Ok f => with_files (fun X => {[+ f +]} ⊎ X) h | Err _ => h end.
Definition without (pid : Z) : Held -> Held := with_procs (fun P => P ∖ {[ pid ]}).

(** The clock does not go back, a sleep lasts as long as asked, a killed
    process is gone, and so is one whose context is cancelled
    ([exec.CommandContext]) or that was waited for. *)
Definition exec_sem (R : Type) (e : ExecE R) (h : Held) : R -> Held -> Prop :=
  match e in ExecE R return R -> Held -> Prop with
  | XNow => fun r h' => (hl_now h <= r)%Z /\ h' = at_time r h
  | XSleep d => fun _ h' => exists t, (hl_now h + d <= t)%Z /\ h' = at_time t h
  | XDial _ _ => fun _ h' => exists t, (hl_now h <= t)%Z /\ h' = at_time t h
  | XOpenMount _ _ | XFilter => fun r h' => h' = opened r h
  | XClose f => fun _ h' => h' = with_files (fun X => X ∖ {[+ f +]}) h
  | XLaunch _ _ => fun r h' =>
      match r with Ok pid => h' = with_procs (fun P => {[ pid ]} ∪ P) h | Err _ => h' = h end
  | XAwait pid _ _ => fun ended h' => h' = if (ended : bool) then without pid h else h
  | XKill pid | XCancel pid => fun _ h' => h' = without pid h
  | XCheck req => fun r h' => h' = h /\ exists s, r = bind_check s req
  | XPublish sb pid => fun _ h' => h' = published sb pid h
  | _ => fun _ h' => h' = h
  end.
Abbreviation xwp := (wp exec_sem).

Section Tidy.
Context (cfg : Config) (initDial graceKill : Z) (tier : Tier) (render : LaunchError -> string).

(** The rounds [waitForSocket] has time for. *)
Definition dial_rounds : nat := Z.to_nat (dial_timeout initDial / (2 * millisecond) + 2).

Lemma dial_timeout_pos : (0 < dial_timeout initDial)%Z.
Proof. unfold dial_timeout, second. destruct (Z.leb_spec (init_dial initDial) 0); lia. Qed.

(** The same but for the time. *)
Definition later (h h' : Held) : Prop := exists t, h' = at_time t h.
Lemma later_refl h : later h h.
Proof. exists (hl_now h). by destruct h. Qed.
Lemma at_time_twice t t' h : at_time t' (at_time t h) = at_time t' h.
Proof. done. Qed.

Lemma poll_socket_ends fuel deadline lastErr h0 h :
  later h0 h -> (0 < fuel)%nat ->
  (deadline < hl_now h + (Z.of_nat fuel - 1) * (2 * millisecond))%Z ->
  xwp (poll_socket cfg fuel deadline lastErr) h (fun r h' => r <> None /\ later h0 h').
Proof.
  revert lastErr h. induction fuel as [|fuel IH]; intros lastErr h [t0 ->] Hf Hd; [lia|].
  cbn [poll_socket]. apply wp_call. intros now h1 [Ht ->]. cbn in Ht, Hd.
  unfold before. destruct (Z.ltb_spec now deadline); [|by split; [|eexists]].
  apply wp_call. intros over h2 ->. destruct over as [e|]; [by split; [|eexists]|].
  apply wp_call. intros conn h3 (t3 & Ht3 & ->). cbn in Ht3.
  destruct conn as [[]|e]; [by split; [|eexists]|].
  apply wp_call. intros [] h4 (t4 & Ht4 & ->). cbn in Ht4.
  apply IH; [by eexists|unfold millisecond in *; lia|]. cbn. unfold millisecond in *. lia.
Qed.
Lemma waitForSocket_ends h0 h :
  later h0 h -> xwp (waitForSocket cfg initDial dial_rounds) h (fun r h' => r <> None /\ later h0 h').
Proof.
  intros [t0 ->]. unfold waitForSocket. apply wp_call. intros t h1 [Ht ->].
  pose proof dial_timeout_pos as Hp. unfold dial_rounds. set (d := dial_timeout initDial) in *.
  pose proof (Z.div_mod d (2 * millisecond) ltac:(done)). pose proof (Z.mod_pos_bound d (2 * millisecond) ltac:(done)).
  assert (0 <= d / (2 * millisecond))%Z by (apply Z.div_pos; [lia|done]).
  apply poll_socket_ends; [by eexists|lia|]. rewrite Z2Nat.id by lia. cbn. nia.
Qed.
Lemma close_files_wp files h Q :
  Q tt (with_files (fun X => X ∖ list_to_set_disj files) h) -> xwp (close_files files) h Q.
Proof.
  revert h. induction files as [|f files IH]; intros h; cbn [close_files list_to_set_disj].
  { destruct h as [F P pb n]. unfold with_files; cbn. by replace (F ∖ ∅) with F by multiset_solver. }
  intros HQ. apply wp_call. intros [] h1 ->. apply IH. destruct h as [F P pb n]. unfold with_files in *; cbn in *.
  by replace (F ∖ {[+ f +]} ∖ list_to_set_disj files) with (F ∖ ({[+ f +]} ⊎ list_to_set_disj files)) by multiset_solver.
Qed.

(** A launch under way: these files open, these processes started, nothing
    published yet. *)
Definition launching (files : list File) (procs : gset Z) (h : Held) : Prop :=
  hl_files h = list_to_set_disj files /\ hl_procs h = procs /\ hl_published h = [].
Lemma launching_later files procs h h' : later h h' -> launching files procs h -> launching files procs h'.
Proof. by intros [t ->]. Qed.
Lemma launching_opened files procs r h :
  launching files procs h ->
  launching (match r with Ok f => (files ++ [f])%list | Err _ => files end) procs (opened r h).
Proof.
  intros (Hf & Hp & Hn). destruct r as [f|e]; [|done]. split; [|done].
  cbn [opened with_files hl_files]. rewrite Hf, list_to_set_disj_app. cbn [list_to_set_disj].
  multiset_solver.
Qed.

Lemma pin_mounts_wp ms files fds procs h :
  launching files procs h ->
  xwp (pin_mounts cfg ms files fds) h (fun r h' => launching (snd r) procs h').
Proof.
  revert files fds h. induction ms as [|m ms IH]; intros files fds h Hl; cbn [pin_mounts]; [done|].
  apply wp_call. intros r h1 ->. pose proof (launching_opened _ _ r h Hl) as Hl1.
  destruct r as [f|e]; [by apply IH|done].
Qed.
Lemma prepare_launch_wp req procs h :
  launching [] procs h ->
  xwp (prepare_launch cfg req) h (fun r h' => launching (snd r) procs h').
Proof.
  intros Hl. unfold prepare_launch. cbv zeta. destruct (Validate _ _ _) as [[]|e]; [|done].
  apply wp_bind. eapply wp_mono; [|refine (_ : xwp _ _ (fun r h' => launching (snd r) procs h'))].
  2: { destruct (filesystem cfg); [by apply pin_mounts_wp|done]. }
  intros [[fds|e] files] h1 H1; cbn [snd] in H1; [|done]. destruct (Generate _ _ _ _); [|done].
  destruct (filesystem cfg); [|done]. apply wp_call. intros r h2 ->.
  pose proof (launching_opened _ _ r h1 H1). by destruct r.
Qed.

(** What is left running: the process of a sandbox that came up, or nothing. *)
Definition survivor {E} (r : option (result E (sandbox * Z))) : gset Z :=
  match r with Some (Ok (_, pid)) => {[ pid ]} | _ => ∅ end.

Lemma start_sandbox_wp req argv files h :
  launching files ∅ h ->
  xwp (start_sandbox cfg initDial dial_rounds req argv files) h
    (fun r h' => r <> None /\ launching files (survivor r) h' /\
       match r with Some (Ok (sb, _)) => sb_id sb = br_SandboxID req /\ sb_argv sb = argv | _ => True end).
Proof.
  intros Hl. unfold start_sandbox. apply wp_call. intros [pid|e] h1 ->; [|done].
  set (h1 := with_procs _ h). assert (launching files {[ pid ]} h1) as H1.
  { destruct Hl as (? & Hp & ?). split; [done|]. split; [|done]. cbn. rewrite Hp. set_solver. }
  apply wp_bind. apply (wp_mono _ _ _ (fun _ h' => h' = h1)).
  2: { destruct (has_reaper cfg); [|done]. by intros [] h' ->. }
  intros [] ? ->. apply wp_bind. eapply wp_mono; [|apply waitForSocket_ends, later_refl].
  intros up h2 [Hup H2]. apply (launching_later _ _ _ _ H2) in H1. destruct up as [[[]|e]|]; [..|done].
  - apply wp_call. intros now h3 [_ ->]. apply wp_ret. split; [done|].
    by split; [exact (launching_later _ _ h2 _ (ex_intro _ now eq_refl) H1)|].
  - apply wp_call. intros [] h3 ->. apply wp_call. intros [] h4 ->. apply wp_call. intros last h5 ->.
    apply wp_ret. split; [done|]. split; [|done]. destruct H1 as (? & Hp & ?). split; [done|]. split; [|done].
    cbn. rewrite Hp. set_solver.
Qed.
Lemma launch_run_wp req h :
  launching [] ∅ h ->
  xwp (launch_run cfg initDial dial_rounds req) h
    (fun r h' => r <> None /\ launching [] (survivor r) h' /\
       match r with Some (Ok (sb, _)) => sb_id sb = br_SandboxID req | _ => True end).
Proof.
  intros Hl. unfold launch_run. apply wp_bind. eapply wp_mono; [|by apply prepare_launch_wp].
  intros [argv files] h1 H1. cbn [snd] in H1. apply wp_bind.
  eapply wp_mono; [|refine (_ : xwp _ _ (fun r h' => r <> None /\ launching files (survivor r) h' /\
    match r with Some (Ok (sb, _)) => sb_id sb = br_SandboxID req | _ => True end))].
  2: { destruct argv as [argv|e]; [|done]. eapply wp_mono; [|by apply start_sandbox_wp].
       intros r h2 (? & ? & H). split; [done|]. split; [done|]. destruct r as [[[sb ?]|?]|]; [by destruct H|done..]. }
  intros r h2 (Hr & H2 & Hid). apply wp_bind, close_files_wp, wp_ret. split; [done|]. split; [|done].
  destruct H2 as (Hf & Hp & Hn). split; [|by split]. cbn. rewrite Hf. multiset_solver.
Qed.

Lemma stop_wp timer pid h Q :
  (forall h', hl_files h' = hl_files h -> hl_procs h' = hl_procs h ∖ {[ pid ]} ->
     hl_published h' = hl_published h -> Q tt h') ->
  xwp (stop cfg graceKill timer pid) h Q.
Proof.
  intros HQ. unfold stop. apply wp_bind. apply (wp_mono _ _ _ (fun _ h' => h' = h)).
  2: { destruct timer; [|done]. by intros [] h' ->. }
  intros [] ? ->. apply wp_call. intros [] ? ->. apply wp_call. intros ended h1 ->.
  apply wp_bind. apply (wp_mono _ _ _ (fun _ h' => h' = without pid h)).
  2: { destruct ended; [done|]. by intros [] h' ->. }
  intros [] ? ->. intros [] h2 ->. apply HQ; [done| |done]. cbn.
  apply set_eq. intros x. rewrite !elem_of_difference. tauto.
Qed.

Definition nothing (t : Time) : Held :=
  {| hl_files := ∅; hl_procs := ∅; hl_published := []; hl_now := t |}.

(** C28: a bind leaves nothing behind.  Whatever the kernel, bubblewrap, the
    clock and jdix-init answer, and whatever other handlers do in between, a
    bind request is answered within the rounds the dial time-out allows; by
    then every file it opened is closed again and every process it started has
    been killed, except that a request answered with success has published
    exactly one sandbox, the one asked for, with the one process it runs as. *)
Theorem bind_leaves_nothing req t :
  xwp (handleBind_run cfg initDial graceKill tier render dial_rounds req) (nothing t) (fun reply h =>
    hl_files h = ∅ /\ hl_procs h = ∅ /\
    match reply with
    | Some (RBound resp) => exists sb pid,
        hl_published h = [(sb, pid)] /\ bs_SandboxID resp = br_SandboxID req /\ sb_id sb = br_SandboxID req /\
        bs_BwrapArgs resp = sb_argv sb /\ bs_ExpiresAt resp = sb_expiresAt sb
    | Some (RError status _ _) => hl_published h = [] /\ (400 <= status)%Z
    | _ => False
    end).
Proof.
  unfold handleBind_run. apply wp_call. intros refused h1 [-> [s Hs]].
  destruct refused as [r|].
  { apply wp_ret. split; [done|]. split; [done|]. unfold bind_check in Hs.
    destruct (_ || _)%bool; [by injection Hs as ->|]. destruct (es_sb s); [by injection Hs as ->|].
    destruct (es_expired s); [by injection Hs as ->|done]. }
  apply wp_bind. eapply wp_mono; [|by apply launch_run_wp].
  intros launched h2 (Hl & (Hf & Hp & Hn) & Hid). destruct launched as [[[sb pid]|e]|]; [..|done]; cbn in Hp, Hf.
  2: by apply wp_ret.
  apply wp_bind. unfold configureInit. apply wp_call. intros resp h3 ->. apply wp_ret.
  set (configured := match resp with Ok _ => _ | Err e => Err e end). destruct configured as [[]|e].
  - apply wp_call. intros [] h4 ->. apply wp_ret. cbn. rewrite Hf, Hp, Hn. split; [done|]. split; [set_solver|].
    by exists sb, pid.
  - apply wp_bind, stop_wp. intros h4 Hf4 Hp4 Hn4. apply wp_ret. rewrite Hf4, Hp4, Hn4, Hf, Hp.
    split; [done|]. split; [set_solver|]. by split.
Qed.
End Tidy.

(** ** The handlers of [Execd], when nothing interferes *)

Definition world_host (w : World) (configured : result string unit) (R : Type) (e : ExecE R)
    (s : ExecdServer) : R * ExecdServer :=
  match e in ExecE R return R * ExecdServer with
  | XNow => (w_Now w, s)
  | XCtxErr => (match w_Socket w with Err e => Some e | Ok _ => None end, s)
  | XDial _ _ => (w_Socket w, s)
  | XOpenMount root sub => (w_OpenMount w root sub, s)
  | XFilter => (w_Filter w, s)
  | XLaunch argv files => (w_Start w argv files, s)
  | XDiag => (w_Diag w, s)
  | XAwait _ _ _ => (true, s)
  | XConfigure _ => (match configured with Ok _ => Ok (200%Z, "") | Err e => Err e end, s)
  | XCheck req => (bind_check s req, s)
  | XPublish sb _ => (tt, bind_publish sb s)
  | XTake => (if es_expired s then None else Some (match es_sb s with Some _ => Some 0%Z | None => None end), Execd.expire s)
  | XSleep _ | XClose _ | XAdopt _ | XInterrupt _ | XKill _ | XCancel _ | XStopTimer | XOnExpire _ => (tt, s)
  end.

Section Refines.
Context (cfg : Config) (initDial graceKill : Z) (tier : Tier) (render : LaunchError -> string).
Context (w : World) (configured : result string unit).
Abbreviation run := (interp (world_host w configured)).

Lemma run_pin_mounts ms files fds s :
  run (pin_mounts cfg ms files fds) s =
  match open_mounts w (cfg_Volumes cfg) ms files fds with
  | Ok (files', fds') => ((Ok fds', files'), s)
  | Err e => ((Err e, snd (fst (run (pin_mounts cfg ms files fds) s))), s)
  end.
Proof.
  revert files fds. induction ms as [|m ms IH]; intros files fds; cbn; [done|].
  destruct (w_OpenMount w _ _) as [f|e]; [apply IH|done].
Qed.
Lemma run_prepare_launch req s : exists files,
  run (prepare_launch cfg req) s =
  match bind_argv w cfg req with
  | Ok (argv, files') => ((Ok argv, files'), s)
  | Err e => ((Err e, files), s)
  end.
Proof.
  unfold prepare_launch, bind_argv. cbv zeta. destruct (Validate _ _ _) as [[]|e]; [|by eexists].
  rewrite interp_bind. unfold filesystem. destruct (bool_decide (cfg_Tier cfg = TierFilesystem)) eqn:Ht.
  - rewrite run_pin_mounts. destruct (open_mounts _ _ _ _ _) as [[files fds]|e]; cbn; [|by eexists].
    destruct (Generate _ _ _ _) as [argv|e]; [|by eexists]. cbn. destruct (w_Filter w); by eexists.
  - cbn. destruct (Generate _ _ _ _) as [argv|e]; by eexists.
Qed.
Lemma run_close_files files s : run (close_files files) s = (tt, s).
Proof. induction files as [|f files IH]; cbn; [done|exact IH]. Qed.
Lemma run_socket fuel s :
  run (waitForSocket cfg initDial (S fuel)) s = (Some (w_Socket w), s).
Proof.
  unfold waitForSocket. cbn. unfold before.
  destruct (Z.ltb_spec (w_Now w) (w_Now w + dial_timeout initDial)) as [_|Hle]; cbn.
  - destruct (w_Socket w) as [[]|e] eqn:Hw; cbn; by rewrite ?Hw.
  - pose proof (dial_timeout_pos initDial). lia.
Qed.
Definition with_pid (r : result LaunchError sandbox) (pid : Z) : result LaunchError (sandbox * Z) :=
  match r with Ok sb => Ok (sb, pid) | Err e => Err e end.
(** The end of [launch]. *)
Definition started (req : BindRequest) (argv : list string) (files : list File) : result LaunchError sandbox :=
  match w_Start w argv files with
  | Err e => Err (LStart e)
  | Ok pid =>
      match w_Socket w with
      | Err e => Err (LSocket (if negb (bool_decide (w_Diag w = "")) then w_Diag w else e))
      | Ok _ =>
          Ok {| sb_id := br_SandboxID req; sb_tenant := br_Tenant req; sb_token := br_Token req;
                sb_boundAt := w_Now w;
                sb_expiresAt := if (0 <? br_TTLSeconds req)%Z
                                then (w_Now w + seconds (br_TTLSeconds req))%Z else 0%Z;
                sb_argv := argv |}
      end
  end.
Lemma run_start fuel req argv files s : exists pid,
  run (start_sandbox cfg initDial (S fuel) req argv files) s =
    (Some (with_pid (started req argv files) pid), s).
Proof.
  unfold start_sandbox, started. rewrite bind_call. cbn [interp world_host].
  destruct (w_Start w argv files) as [pid|e]; [|by exists 0%Z]. exists pid. rewrite interp_bind.
  assert (run (if has_reaper cfg then call (XAdopt pid) else mret tt) s = (tt, s)) as ->
    by by destruct (has_reaper cfg).
  rewrite interp_bind, run_socket. by destruct (w_Socket w) as [[]|e].
Qed.
Lemma run_launch fuel req s : exists pid,
  run (launch_run cfg initDial (S fuel) req) s = (Some (with_pid (launch w cfg req) pid), s).
Proof.
  unfold launch_run, launch. rewrite interp_bind. destruct (run_prepare_launch req s) as [files ->].
  destruct (bind_argv w cfg req) as [[argv fs]|e]; rewrite interp_bind.
  - destruct (run_start fuel req argv fs s) as [pid ->]. exists pid. by rewrite interp_bind, run_close_files.
  - exists 0%Z. cbn [interp mret K_ret]. by rewrite interp_bind, run_close_files.
Qed.
Lemma run_stop timer pid s : run (stop cfg graceKill timer pid) s = (tt, s).
Proof. unfold stop. rewrite interp_bind. destruct timer; cbn; done. Qed.

(** The handlers of [Execd] are what the programs compute. *)
Lemma handleBind_run_computes fuel req s :
  run (handleBind_run cfg initDial graceKill tier render (S fuel) req) s =
  let '(reply, s') := handleBind cfg tier render w configured req s in (Some reply, s').
Proof.
  destruct (handleBind cfg tier render w configured req s) as [reply s'] eqn:E.
  unfold handleBind_run, handleBind in *. rewrite bind_call. cbn [interp world_host].
  destruct (bind_check s req) as [r|]; [by injection E as <- <-|].
  rewrite interp_bind. destruct (run_launch fuel req s) as [pid ->].
  destruct (launch w cfg req) as [sb|e]; [|by injection E as <- <-]. cbn [with_pid].
  rewrite interp_bind. unfold configureInit. rewrite bind_call. cbn [interp world_host].
  assert (run (stop cfg graceKill false pid) s = (tt, s)) as Hstop by apply run_stop.
  destruct configured as [[]|e]; injection E as <- <-; [done|]. cbn [interp mret K_ret].
  by rewrite interp_bind, Hstop.
Qed.
Lemma expire_run_computes reason s : run (expire_run cfg graceKill reason) s = (tt, Execd.expire s).
Proof.
  unfold expire_run. rewrite bind_call. cbn [interp world_host].
  destruct (es_expired s) eqn:Hx; [done|]. rewrite interp_bind.
  destruct (es_sb s); [by rewrite run_stop|done].
Qed.

(** What a bind is to do, said without the code: refused as malformed, when
    another sandbox has the Pod, when the Pod's time is over, when the sandbox
    cannot be set up, when its socket does not come up, when it cannot be
    configured, each leaving the server as it was; or the Pod is from then on
    the sandbox's that was asked for, until its TTL is over, with a timer for
    it. *)
Definition refused (code : Z) (errCode : string) (s : ExecdServer) (reply : Reply) (s' : ExecdServer) : Prop :=
  s' = s /\ exists msg, reply = RError code errCode msg.
Definition bound_to (req : BindRequest) (argv : list string) (reply : Reply) (s' : ExecdServer) : Prop :=
  let expires := if (0 <? br_TTLSeconds req)%Z then (w_Now w + seconds (br_TTLSeconds req))%Z else 0%Z in
  s' = {| es_sb := Some {| sb_id := br_SandboxID req; sb_tenant := br_Tenant req; sb_token := br_Token req;
                           sb_boundAt := w_Now w; sb_expiresAt := expires; sb_argv := argv |};
          es_expired := false;
          es_timer := if is_zero_time expires then None else Some expires |} /\
  reply = RBound {| bs_SandboxID := br_SandboxID req; bs_IsolationTier := tier; bs_BoundAt := w_Now w;
                    bs_ExpiresAt := expires; bs_BwrapArgs := argv |}.
Definition bind_outcome (req : BindRequest) (s : ExecdServer) (reply : Reply) (s' : ExecdServer) : Prop :=
  if decide (br_SandboxID req = "" \/ br_Token req = "") then refused 400 "invalid_request" s reply s' else
  if decide (es_sb s <> None) then refused 409 "already_bound" s reply s' else
  if es_expired s then refused 410 "expired" s reply s' else
  match bind_argv w cfg req with
  | Err _ => refused 400 "bind_failed" s reply s'
  | Ok (argv, files) =>
      match w_Start w argv files, w_Socket w, configured with
      | Ok _, Ok _, Ok _ => bound_to req argv reply s'
      | Ok _, Ok _, Err _ => refused 500 "configure_failed" s reply s'
      | _, _, _ => refused 400 "bind_failed" s reply s'
      end
  end.
Lemma handleBind_outcome req s :
  let '(reply, s') := handleBind cfg tier render w configured req s in bind_outcome req s reply s'.
Proof.
  unfold handleBind, bind_check, bind_outcome.
  case_decide as Hbad.
  { assert ((bool_decide (br_SandboxID req = "") || bool_decide (br_Token req = ""))%bool = true) as ->
      by (apply orb_true_iff; rewrite !bool_decide_eq_true; done). by split; [|eexists]. }
  assert ((bool_decide (br_SandboxID req = "") || bool_decide (br_Token req = ""))%bool = false) as ->
    by (apply orb_false_iff; rewrite !bool_decide_eq_false; tauto).
  destruct (es_sb s) as [sb|] eqn:Esb; [rewrite decide_True by done; by split; [|eexists]|].
  case_decide as Hd; [by destruct Hd|]. destruct (es_expired s) eqn:Ex; [by split; [|eexists]|].
  unfold launch. destruct (bind_argv w cfg req) as [[argv files]|e]; [|by split; [|eexists]].
  destruct (w_Start w argv files) as [pid|e]; [|by split; [|eexists]].
  destruct (w_Socket w) as [[]|e]; [|by split; [|eexists]].
  destruct configured as [[]|e]; [|by split; [|eexists]].
  split; [|done]. unfold bind_publish. rewrite Ex. cbn. f_equal. by destruct (is_zero_time _).
Qed.

(** C29: a bind that runs alone, with a dial that has any time at all, does
    what [bind_outcome] says it is to do on every branch, and the TTL's or an
    unbind's [expire] leaves the Pod unbound, its time over and no timer set,
    once and for all.  So do the handlers over which the Pod's life is proved
    in Execd.v. *)
Theorem handleBind_run_refines fuel req reason s :
  (exists reply s',
     run (handleBind_run cfg initDial graceKill tier render (S fuel) req) s = (Some reply, s') /\
     handleBind cfg tier render w configured req s = (reply, s') /\ bind_outcome req s reply s') /\
  let after := if es_expired s then s else {| es_sb := None; es_expired := true; es_timer := None |} in
  run (expire_run cfg graceKill reason) s = (tt, after) /\ Execd.expire s = after.
Proof.
  split.
  - pose proof (handleBind_outcome req s) as H. rewrite (handleBind_run_computes fuel req s).
    destruct (handleBind cfg tier render w configured req s) as [reply s']. by exists reply, s'.
  - cbv zeta. by rewrite expire_run_computes.
Qed.
End Refines.

(** Nothing reaches jdix-init but through the gate, and what does carries no
    Authorization header: the bearer of the sandbox's own token, before its
    deadline. *)
Lemma DataHandler_gated now r o s o' s' :
  DataHandler now r o s = (DataForward o', s') ->
  o' = data_rewrite o /\ s' = s /\ ob_Header o' !! "Authorization" = None /\
  exists sb, es_sb s = Some sb /\ tokenMatches (execd_bearer r) (sb_token sb) = true /\
    (is_zero_time (sb_expiresAt sb) = true \/ (now <= sb_expiresAt sb)%Z).
Proof.
  unfold DataHandler. destruct (has_prefix _ _); [|by repeat case_match].
  destruct (data_plane now r s) as [reply s1] eqn:E. destruct reply as [| | | |hd]; intros [= <- <-].
  unfold data_plane, authorised in E. destruct (es_sb s) as [sb|] eqn:Esb; [|done].
  destruct (tokenMatches _ _) eqn:Et; [|done].
  destruct (negb _ && after now _)%bool eqn:Ex; [done|]. destruct (_ && _)%bool in E.
  { unfold keepalive in E. rewrite Esb in E. by destruct (negb (bool_decide (sb_id sb = sb_id sb))) in E. }
  injection E as _ <-. split; [done|]. split; [done|]. split; [apply lookup_delete_eq|].
  exists sb. split; [done|]. split; [done|]. unfold after in Ex. apply andb_false_iff in Ex as [Ex|Ex].
  - left. by apply negb_false_iff.
  - right. by apply Z.ltb_ge.
Qed.

(** ** The tail of the diagnostics *)

Lemma tail_keeps_end ps : forall t, (String.length (tl_buf t) <= tailMax)%nat ->
  exists dropped, (tl_buf t +:+ join "" ps = dropped +:+ tl_buf (foldl tail_Write t ps)) /\
    String.length (tl_buf (foldl tail_Write t ps)) =
      (String.length (tl_buf t +:+ join "" ps) `min` tailMax)%nat.
Proof.
  assert (Hj : forall p ps, join "" (p :: ps) = p +:+ join "" ps).
  { intros p [|q ps']; cbn; [by rewrite app_empty_r|done]. }
  induction ps as [|p ps IH]; intros t Ht.
  { cbn. rewrite app_empty_r. exists "". split; [done|lia]. }
  rewrite Hj, <-app_assoc_str. cbn [foldl]. set (buf := tl_buf t +:+ p).
  assert (exists d, buf = d +:+ tl_buf (tail_Write t p) /\
            String.length (tl_buf (tail_Write t p)) = (String.length buf `min` tailMax)%nat) as (d & Hd & Hl).
  { unfold tail_Write. cbn [tl_buf]. fold buf. destruct (Nat.ltb_spec tailMax (String.length buf)) as [Hlt|Hge].
    - exists (take_string (String.length buf - tailMax) buf). rewrite take_drop_app. split; [done|].
      pose proof (take_drop_app (String.length buf - tailMax) buf) as Htd.
      apply (f_equal String.length) in Htd. rewrite length_app_str in Htd.
      assert (String.length (take_string (String.length buf - tailMax) buf) = String.length buf - tailMax)%nat as Hlen.
      { assert (forall n s, (n <= String.length s)%nat -> String.length (take_string n s) = n) as Htk.
        { clear. induction n as [|n IHn]; intros [|a s]; cbn; try lia. intros. f_equal. apply IHn. lia. }
        apply Htk. lia. }
      lia.
    - exists "". split; [done|]. lia. }
  destruct (IH (tail_Write t p)) as (d' & Hd' & Hl'); [lia|].
  exists (d +:+ d'). rewrite app_assoc_str, <-Hd', Hd, app_assoc_str. split; [done|].
  apply (f_equal String.length) in Hd. rewrite length_app_str in Hd.
  rewrite Hl', !length_app_str, Hl. lia.
Qed.
