(* ===== verification/ControlPlane.v ===== *)
(** * The control port, from both ends (execd/server.go; controller/execdclient.go, execdproxy.go)

    execd's [ControlHandler] with its routes, and the controller's two clients
    of it: [HTTPExecdClient] dials the Pod, [APIProxyExecdClient] goes through
    the Kubernetes API server.  Both are instances of [PodTransport], the
    interface the reconcilers are written against ([Binder] and [Prober]).

    JSON, the network and the API server's proxy are parameters; [Delivers]
    is what the reconcilers rely on, for both clients against this handler. *)
From S2P Require Import Prelude Calls GoStrings Api Bwrap Url Route Gateway PodSpec Kube Execd ExecdRun.
Open Scope string_scope.

(** ** JSON on the wire *)

Record ProbeAnswer := { pa_Tier : Tier; pa_Reason : string; pa_Probes : gmap string bool }.
Record Json := {
  js_bind : BindRequest -> string;
  js_read_bind : string -> result string BindRequest;
  js_bound : BindResponse -> string;
  js_read_bound : string -> result string BindResponse;
  js_status : StatusResponse -> string;
  js_probe : ProbeAnswer -> string;
  js_read_probe : string -> result string (Tier * string);
  js_ok : string;
  js_error : string -> string -> string;
  js_read_error : string -> option (string * string) }.

(** ** execd's side *)

(** What execd was started with and has measured. *)
Record ExecdNode := {
  nd_cfg : Config; nd_probe : ProbeAnswer; nd_startedAt : Time;
  nd_render : LaunchError -> string;
  nd_world : World;                         (* what the kernel answers the next bind *)
  nd_configured : result string unit }.

Inductive ControlRoute := RouteBind | RouteUnbind | RouteStatus | RouteProbe | RouteWrongMethod | RouteUnknown.
(** The patterns of [ControlHandler]: a [GET] pattern serves [HEAD] too. *)
Definition control_patterns : list (string * (string * ControlRoute)) :=
  [("POST", ("/internal/v1/bind", RouteBind)); ("POST", ("/internal/v1/unbind", RouteUnbind));
   ("GET", ("/internal/v1/status", RouteStatus)); ("GET", ("/internal/v1/probe", RouteProbe))].
Definition method_serves (pattern method : string) : bool :=
  bool_decide (pattern = method) || (bool_decide (pattern = "GET") && bool_decide (method = "HEAD")).
Definition control_route (method path : string) : ControlRoute :=
  match List.find (fun e => bool_decide (fst (snd e) = path)) control_patterns with
  | None => RouteUnknown
  | Some (m, (_, route)) => if method_serves m method then route else RouteWrongMethod
  end.

Section Server.
Context (js : Json) (nd : ExecdNode).

Definition reply_error (status : Z) (code msg : string) : Z * string := (status, js_error js code msg).
Definition handleProbe : Z * string := (200%Z, js_probe js (nd_probe nd)).
(** [handleBind] on a body: the decoding, the handler, the answer. *)
Definition serve_bind (body : string) (s : ExecdServer) : (Z * string) * ExecdServer :=
  match js_read_bind js body with
  | Err e => (reply_error 400 "invalid_body" e, s)
  | Ok req =>
      let '(reply, s') := handleBind (nd_cfg nd) (pa_Tier (nd_probe nd)) (nd_render nd) (nd_world nd)
                            (nd_configured nd) req s in
      (match reply with
       | RBound resp => (200%Z, js_bound js resp)
       | RError status code msg => reply_error status code msg
       | _ => (200%Z, js_ok js)
       end, s')
  end.
Definition handleUnbind (s : ExecdServer) : (Z * string) * ExecdServer := ((200%Z, js_ok js), Execd.expire s).
Definition internal (r : Request) (s : ExecdServer) (next : (Z * string) * ExecdServer)
    : (Z * string) * ExecdServer :=
  match requireInternal (nd_cfg nd) r with
  | Some (RError status code msg) => (reply_error status code msg, s)
  | _ => next
  end.
Definition ControlHandler (r : Request) (s : ExecdServer) : (Z * string) * ExecdServer :=
  match control_route (rq_Method r) (u_Path (rq_URL r)) with
  | RouteBind => internal r s (serve_bind (rq_Body r) s)
  | RouteUnbind => internal r s (handleUnbind s)
  | RouteStatus =>
      internal r s ((200%Z, js_status js (handleStatus (pa_Tier (nd_probe nd)) (pa_Reason (nd_probe nd))
                                            (nd_startedAt nd) s)), s)
  | RouteProbe => (handleProbe, s)
  | RouteWrongMethod => ((405%Z, "Method Not Allowed" +:+ String newline ""), s)
  | RouteUnknown => ((404%Z, "404 page not found" +:+ String newline ""), s)
  end.
End Server.

(** ** The controller's side *)

(** What a client asks of the network: a request to an address, or one through
    the API server to a Pod's port and path; the latter is answered by
    [DoRaw]'s body and error. *)
Inductive WireE : Type -> Type :=
| Dial (url : string) (timeout : Z) (r : Request) : WireE (result string (Z * string))
| ProxyRaw (ns target suffix : string) (timeout : Z) (r : Request) : WireE (string * option string).
Abbreviation Wire := (Prog WireE).

Definition control_request (method path : string) (header : Header) (body : option string) : Request :=
  {| rq_Method := method; rq_Host := ""; rq_URL := {| u_Path := path; u_RawPath := ""; u_RawQuery := "" |};
     rq_Header := match body with Some _ => header_set "Content-Type" "application/json" header | None => header end;
     rq_RemoteAddr := ""; rq_TLS := false; rq_Body := default "" body |}.
Definition credential (key value token : string) : Header :=
  if negb (bool_decide (token = "")) then {[ key := [value] ]} else ∅.

Record HTTPExecdClient := { hc_Port : Z; hc_Timeout : Z }.
Definition NewHTTPExecdClient : HTTPExecdClient := {| hc_Port := PortControl; hc_Timeout := 20 * second |}.
Definition url (c : HTTPExecdClient) (podIP path : string) : string :=
  "http://" +:+ JoinHostPort podIP (itoa (hc_Port c)) +:+ path.
Record APIProxyExecdClient := { ac_Port : Z; ac_Timeout : Z }.
Definition NewAPIProxyExecdClient : APIProxyExecdClient := {| ac_Port := PortControl; ac_Timeout := 30 * second |}.
Definition podName (c : APIProxyExecdClient) (pod : PodRef) : string :=
  "http:" +:+ ref_Name pod +:+ ":" +:+ itoa (ac_Port c).

(** How much of an error's body the direct client reads. *)
Definition errorBody : nat := Z.to_nat 4096.

Section Clients.
Context (js : Json).

Definition explained (body : string) : option string :=
  match js_read_error js body with
  | Some (code, msg) =>
      if negb (bool_decide (msg = "")) then Some ("execd: " +:+ code +:+ ": " +:+ msg) else None
  | None => None
  end.

Section Do.
Context {A : Type} (out : string -> result string A).

(** The end of [do]: the answer with its status. *)
Definition http_read (resp : Z * string) : result string A :=
  let '(status, b) := resp in
  if (status <? 200)%Z || (300 <=? status)%Z then
    let b := take_string errorBody b in
    Err (match explained b with
         | Some msg => msg
         | None => "execd returned " +:+ itoa status +:+ ": " +:+ b
         end)
  else out b.
Definition http_do (c : HTTPExecdClient) (method : string) (pod : PodRef) (path : string)
    (body : option string) : Wire (result string A) :=
  resp ← call (Dial (url c (ref_IP pod) path) (hc_Timeout c)
                 (control_request method path (credential "Authorization" ("Bearer " +:+ ref_Token pod) (ref_Token pod)) body));
  mret (match resp with
        | Err e => Err e
        | Ok answer => http_read answer
        end).

(** [empty] is what [out] holds where the answer has no body. *)
Definition proxy_read (empty : A) (pod : PodRef) (resp : string * option string) : result string A :=
  let '(raw, err) := resp in
  match err with
  | Some e =>
      Err (match (if (0 <? String.length raw)%nat then explained raw else None) with
           | Some msg => msg
           | None => "pod proxy to " +:+ PodRef_string pod +:+ ": " +:+ e
           end)
  | None => if (0 <? String.length raw)%nat then out raw else Ok empty
  end.
Definition proxy_do (empty : A) (c : APIProxyExecdClient) (method : string) (pod : PodRef) (suffix : string)
    (body : option string) : Wire (result string A) :=
  if bool_decide (ref_Namespace pod = "") || bool_decide (ref_Name pod = "") then
    mret (Err ("the API-proxy transport needs a Pod name and namespace, got " +:+ quote (PodRef_string pod)))
  else if negb (bool_decide (method = "GET")) && negb (bool_decide (method = "POST")) then
    mret (Err ("unsupported verb " +:+ quote method))
  else
    resp ← call (ProxyRaw (ref_Namespace pod) (podName c pod) suffix (ac_Timeout c)
                   (control_request method ("/" +:+ suffix) (credential ControlTokenHeader (ref_Token pod) (ref_Token pod)) body));
    mret (proxy_read empty pod resp).
End Do.

(** ** Binder and Prober *)

Class PodTransport (T : Type) := {
  t_Bind : T -> PodRef -> BindRequest -> Wire (result string BindResponse);
  t_Unbind : T -> PodRef -> Wire (result string unit);
  t_Probe : T -> PodRef -> Wire (result string (Tier * string)) }.

(** [out] is nil: the body is not looked at. *)
Definition ignore (body : string) : result string unit := Ok tt.
#[export] Instance http_transport : PodTransport HTTPExecdClient := {|
  t_Bind c pod req := http_do (js_read_bound js) c "POST" pod "/internal/v1/bind" (Some (js_bind js req));
  t_Unbind c pod := http_do ignore c "POST" pod "/internal/v1/unbind" None;
  t_Probe c pod := http_do (js_read_probe js) c "GET" pod "/internal/v1/probe" None |}.
Definition no_response : BindResponse :=
  {| bs_SandboxID := ""; bs_IsolationTier := ""; bs_BoundAt := 0%Z; bs_ExpiresAt := 0%Z; bs_BwrapArgs := [] |}.
#[export] Instance proxy_transport : PodTransport APIProxyExecdClient := {|
  t_Bind c pod req := proxy_do (js_read_bound js) no_response c "POST" pod "internal/v1/bind" (Some (js_bind js req));
  t_Unbind c pod := proxy_do ignore tt c "POST" pod "internal/v1/unbind" None;
  t_Probe c pod := proxy_do (js_read_probe js) ("", "") c "GET" pod "internal/v1/probe" None |}.
End Clients.

(** ** Both ends together *)

Section Ends.
Context (js : Json) (nd : ExecdNode).
(** The error [DoRaw] makes of a status; the API server strips Authorization
    from what it forwards and hands execd's body back. *)
Context (raw_error : Z -> string -> option string).

Definition forwarded (r : Request) : Request :=
  {| rq_Method := rq_Method r; rq_Host := rq_Host r; rq_URL := rq_URL r;
     rq_Header := header_del "Authorization" (rq_Header r); rq_RemoteAddr := rq_RemoteAddr r;
     rq_TLS := rq_TLS r; rq_Body := rq_Body r |}.
Definition wire_host (R : Type) (e : WireE R) (s : ExecdServer) : R * ExecdServer :=
  match e in WireE R return R * ExecdServer with
  | Dial _ _ r => let '(a, s') := ControlHandler js nd r s in (Ok a, s')
  | ProxyRaw _ _ _ _ r =>
      let '((status, body), s') := ControlHandler js nd (forwarded r) s in ((body, raw_error status body), s')
  end.
Abbreviation token := (cfg_InternalToken (nd_cfg nd)).
Abbreviation bound req s :=
  (handleBind (nd_cfg nd) (pa_Tier (nd_probe nd)) (nd_render nd) (nd_world nd) (nd_configured nd) req s).

(** [DoRaw] reports exactly the statuses above 206 of those execd uses. *)
Definition raw_errors : Prop :=
  forall body, raw_error 200 body = None /\
    forall status, (400 <= status)%Z -> raw_error status body <> None.
(** An error body arrives whole and says something. *)
Definition error_arrives (code msg : string) : Prop :=
  msg <> "" /\ js_read_error js (js_error js code msg) = Some (code, msg) /\
  (0 < String.length (js_error js code msg) <= errorBody)%nat.
(** The JSON of one exchange survives it. *)
Definition exchanged (req : BindRequest) (s : ExecdServer) : Prop :=
  js_read_bind js (js_bind js req) = Ok req /\
  match fst (bound req s) with
  | RBound resp => js_read_bound js (js_bound js resp) = Ok resp /\ (0 < String.length (js_bound js resp))%nat
  | RError status code msg => (400 <= status)%Z /\ error_arrives code msg
  | _ => False
  end.
Definition probe_arrives : Prop :=
  js_read_probe js (js_probe js (nd_probe nd)) = Ok (pa_Tier (nd_probe nd), pa_Reason (nd_probe nd)) /\
  (0 < String.length (js_probe js (nd_probe nd)))%nat.
(** What the reconciler hears of execd's answer. *)
Definition heard (reply : Reply) : result string BindResponse :=
  match reply with
  | RBound resp => Ok resp
  | RError _ code msg => Err ("execd: " +:+ code +:+ ": " +:+ msg)
  | _ => Err ""
  end.

Definition Delivers {T} `{PodTransport T} (c : T) : Prop :=
  forall pod s, ref_Namespace pod <> "" -> ref_Name pod <> "" -> error_arrives "unauthorized" "invalid control-plane token" ->
  (ref_Token pod = token ->
     (forall req, exchanged req s ->
        interp wire_host (t_Bind c pod req) s = (heard (fst (bound req s)), snd (bound req s))) /\
     interp wire_host (t_Unbind c pod) s = (Ok tt, Execd.expire s)) /\
  (ref_Token pod <> token -> token <> "" -> forall req,
     interp wire_host (t_Bind c pod req) s = (Err "execd: unauthorized: invalid control-plane token", s) /\
     interp wire_host (t_Unbind c pod) s = (Err "execd: unauthorized: invalid control-plane token", s)) /\
  (probe_arrives -> interp wire_host (t_Probe c pod) s = (Ok (pa_Tier (nd_probe nd), pa_Reason (nd_probe nd)), s)).

(** What execd reads out of either client's credential. *)
Lemma credential_get key value tok k body method path :
  k <> "Content-Type" ->
  rq_Header (control_request method path (credential key value tok) body) !! k =
  if decide (tok <> "" /\ k = key) then Some [value] else None.
Proof.
  intros Hk. unfold control_request, credential. cbn [rq_Header].
  assert (Hb : forall h : Header, (match body with Some _ => header_set "Content-Type" "application/json" h | None => h end) !! k = h !! k).
  { intros h. destruct body; [|done]. unfold header_set. by rewrite lookup_insert_ne. }
  rewrite Hb. clear Hb. destruct (decide (tok <> "" /\ k = key)) as [[Ht ->]|Hne].
  - rewrite bool_decide_false by done. apply lookup_singleton_eq.
  - destruct (bool_decide_reflect (tok = "")); cbn; [apply lookup_empty|].
    apply lookup_singleton_ne. naive_solver.
Qed.
Lemma no_query_token method path h body :
  query_get (parse_query (u_RawQuery (rq_URL (control_request method path h body)))) "token" = "".
Proof. reflexivity. Qed.
Lemma direct_bearer method path body tok :
  execd_bearer (control_request method path (credential "Authorization" ("Bearer " +:+ tok) tok) body) = tok.
Proof.
  unfold execd_bearer. rewrite no_query_token. unfold header_get. rewrite !credential_get by done.
  destruct (decide (tok = "")) as [->|Ht].
  - by rewrite !decide_False by naive_solver.
  - rewrite decide_True by done. cbn [head default]. rewrite has_prefix_app. apply trim_prefix_app.
Qed.
Lemma proxied_bearer method path body tok :
  execd_bearer (forwarded (control_request method path (credential ControlTokenHeader tok tok) body)) = tok.
Proof.
  unfold execd_bearer, forwarded. cbn [rq_Header rq_URL]. rewrite no_query_token.
  unfold header_get, header_del. rewrite lookup_delete_eq, lookup_delete_ne, credential_get by done. cbn [default].
  destruct (decide (tok = "")) as [->|Ht].
  - by rewrite !decide_False by naive_solver.
  - rewrite decide_True by done. cbn. by rewrite bool_decide_false.
Qed.

(** The gate. *)
Lemma internal_pass r s next : execd_bearer r = token -> internal js nd r s next = next.
Proof.
  intros Hb. unfold internal, requireInternal. rewrite Hb. unfold tokenMatches.
  destruct (bool_decide_reflect (token = "")) as [He|He]; cbn; [done|]. by rewrite bool_decide_true.
Qed.
Lemma internal_refuse r s next :
  execd_bearer r <> token -> token <> "" ->
  internal js nd r s next = (reply_error js 401 "unauthorized" "invalid control-plane token", s).
Proof.
  intros Hb Ht. unfold internal, requireInternal. rewrite bool_decide_false by done. unfold tokenMatches.
  rewrite (bool_decide_false (_ = token)) by done. by destruct (_ || _)%bool.
Qed.

(** What either client makes of an answer. *)
Record Reads {A} (out : string -> result string A) (read : Z * string -> result string A) : Prop := {
  rd_ok : forall b a, out b = Ok a -> (0 < String.length b)%nat -> read (200%Z, b) = Ok a;
  rd_error : forall status code msg, (400 <= status)%Z -> error_arrives code msg ->
    read (reply_error js status code msg) = Err ("execd: " +:+ code +:+ ": " +:+ msg) }.
Lemma explained_error code msg : error_arrives code msg ->
  explained js (js_error js code msg) = Some ("execd: " +:+ code +:+ ": " +:+ msg).
Proof. intros (Hm & Hr & _). unfold explained. by rewrite Hr, bool_decide_false. Qed.
Lemma handler_bind r s :
  rq_Method r = "POST" -> u_Path (rq_URL r) = "/internal/v1/bind" ->
  ControlHandler js nd r s = internal js nd r s (serve_bind js nd (rq_Body r) s).
Proof. unfold ControlHandler. by intros -> ->. Qed.
Lemma handler_unbind r s :
  rq_Method r = "POST" -> u_Path (rq_URL r) = "/internal/v1/unbind" ->
  ControlHandler js nd r s = internal js nd r s (handleUnbind js s).
Proof. unfold ControlHandler. by intros -> ->. Qed.
Lemma handler_probe r s :
  rq_Method r = "GET" -> u_Path (rq_URL r) = "/internal/v1/probe" ->
  ControlHandler js nd r s = (handleProbe js nd, s).
Proof. unfold ControlHandler. by intros -> ->. Qed.
Lemma take_whole n t : (String.length t <= n)%nat -> take_string n t = t.
Proof.
  revert t. induction n as [|n IH]; intros [|a t]; cbn; try done; [lia|]. intros H. f_equal. apply IH. lia.
Qed.

Lemma http_reads {A} (out : string -> result string A) : Reads out (http_read js out).
Proof.
  split.
  - intros b a Hb _. exact Hb.
  - intros status code msg Hs He. unfold reply_error, http_read.
    destruct (Z.leb_spec 300 status); [|lia]. rewrite orb_true_r, take_whole by apply He.
    by rewrite explained_error.
Qed.
Lemma proxy_reads {A} (out : string -> result string A) empty pod :
  raw_errors -> Reads out (fun a => proxy_read js out empty pod (snd a, raw_error (fst a) (snd a))).
Proof.
  intros Hraw. split; cbn [fst snd].
  - intros b a Hb Hl. unfold proxy_read. destruct (Hraw b) as [-> _]. by destruct (Nat.ltb_spec 0 (String.length b)); [|lia].
  - intros status code msg Hs He. unfold reply_error, proxy_read. cbn [fst snd].
    destruct (raw_error status _) as [e|] eqn:Er; [|by destruct (Hraw (js_error js code msg)) as [_ H]; apply H in Er].
    destruct (Nat.ltb_spec 0 (String.length (js_error js code msg))); [|by destruct He as (_ & _ & ? & _); lia].
    by rewrite explained_error.
Qed.

(** One call, answered by the handler. *)
Section Call.
Context (r : Request) (s : ExecdServer) (pod : PodRef).
Context (Hbearer : execd_bearer r = ref_Token pod) (Hmethod : rq_Method r = "POST").
Context (Hauth : error_arrives "unauthorized" "invalid control-plane token").

Lemma bind_heard read req :
  Reads (js_read_bound js) read -> u_Path (rq_URL r) = "/internal/v1/bind" -> rq_Body r = js_bind js req ->
  (ref_Token pod = token -> exchanged req s ->
     (let '(a, s') := ControlHandler js nd r s in (read a, s')) = (heard (fst (bound req s)), snd (bound req s))) /\
  (ref_Token pod <> token -> token <> "" ->
     (let '(a, s') := ControlHandler js nd r s in (read a, s')) = (Err "execd: unauthorized: invalid control-plane token", s)).
Proof.
  intros Hr Hp Hb. rewrite handler_bind by done. split.
  - intros Ht [Hd Hx]. rewrite internal_pass by congruence. unfold serve_bind. rewrite Hb, Hd.
    destruct (bound req s) as [[status code msg|resp| | |] s'] eqn:E; cbn [fst snd] in Hx |- *; try done.
    + destruct Hx as [Hs He]. by rewrite (rd_error _ _ Hr) by done.
    + destruct Hx as [Hd' Hl]. by rewrite (rd_ok _ _ Hr _ resp) by done.
  - intros Ht Hne. rewrite internal_refuse by congruence. by rewrite (rd_error _ _ Hr) by done.
Qed.
Lemma unbind_heard read :
  Reads ignore read -> (forall b, read (200%Z, b) = Ok tt) -> u_Path (rq_URL r) = "/internal/v1/unbind" ->
  (ref_Token pod = token ->
     (let '(a, s') := ControlHandler js nd r s in (read a, s')) = (Ok tt, Execd.expire s)) /\
  (ref_Token pod <> token -> token <> "" ->
     (let '(a, s') := ControlHandler js nd r s in (read a, s')) = (Err "execd: unauthorized: invalid control-plane token", s)).
Proof.
  intros Hr Hok Hp. rewrite handler_unbind by done. split.
  - intros Ht. rewrite internal_pass by congruence. unfold handleUnbind. by rewrite Hok.
  - intros Ht Hne. rewrite internal_refuse by congruence. by rewrite (rd_error _ _ Hr) by done.
Qed.
End Call.

Lemma http_do_run {A} (out : string -> result string A) c method pod path body s :
  interp wire_host (http_do js out c method pod path body) s =
  let '(a, s') := ControlHandler js nd (control_request method path
     (credential "Authorization" ("Bearer " +:+ ref_Token pod) (ref_Token pod)) body) s in (http_read js out a, s').
Proof. unfold http_do. rewrite bind_call. cbn [interp wire_host]. by destruct (ControlHandler _ _ _ _) as [a s']. Qed.
Lemma proxy_do_run {A} (out : string -> result string A) empty c method pod suffix body s :
  ref_Namespace pod <> "" -> ref_Name pod <> "" -> method ∈ ["GET"; "POST"] ->
  interp wire_host (proxy_do js out empty c method pod suffix body) s =
  let '(a, s') := ControlHandler js nd (forwarded (control_request method ("/" +:+ suffix)
     (credential ControlTokenHeader (ref_Token pod) (ref_Token pod)) body)) s in
  (proxy_read js out empty pod (snd a, raw_error (fst a) (snd a)), s').
Proof.
  intros Hns Hn Hm. unfold proxy_do. rewrite !bool_decide_false by done. cbn [orb].
  assert (negb (bool_decide (method = "GET")) && negb (bool_decide (method = "POST")) = false)%bool as ->.
  { apply elem_of_cons in Hm as [->|Hm]; [done|]. apply list_elem_of_singleton in Hm as ->. done. }
  rewrite bind_call. cbn [interp wire_host]. by destruct (ControlHandler _ _ _ _) as [[st b] s'].
Qed.

(** C30: the controller and execd understand each other over either transport.
    Dialling the Pod and going through the API server's proxy, a bind presented
    with the Pod's own control token is answered to the reconciler with exactly
    what execd's [handleBind] answered, its response or its own words, and
    leaves execd in the state that handler left it in; an unbind expires the
    Pod; with any other token execd changes nothing and says so; and a probe
    reports the tier execd measured, with no token at all. *)
Theorem transports_deliver :
  raw_errors -> forall (h : HTTPExecdClient) (p : APIProxyExecdClient), @Delivers _ (http_transport js) h /\ @Delivers _ (proxy_transport js) p.
Proof.
  intros Hraw h p. split; intros pod s Hns Hn Hauth; cbn [t_Bind t_Unbind t_Probe http_transport proxy_transport].
  - assert (Hb : forall body path, execd_bearer (control_request "POST" path
       (credential "Authorization" ("Bearer " +:+ ref_Token pod) (ref_Token pod)) body) = ref_Token pod)
      by (intros; apply direct_bearer).
    split; [|split].
    + intros Ht. split; [intros req Hx|]; rewrite http_do_run.
      * by apply (proj1 (bind_heard _ s pod (Hb (Some (js_bind js req)) _) eq_refl Hauth _ req (http_reads _) eq_refl eq_refl)).
      * by apply (proj1 (unbind_heard _ s pod (Hb None _) eq_refl Hauth _ (http_reads _) (fun _ => eq_refl) eq_refl)).
    + intros Ht Hne req. rewrite !http_do_run. split.
      * by apply (proj2 (bind_heard _ s pod (Hb (Some (js_bind js req)) _) eq_refl Hauth _ req (http_reads _) eq_refl eq_refl)).
      * by apply (proj2 (unbind_heard _ s pod (Hb None _) eq_refl Hauth _ (http_reads _) (fun _ => eq_refl) eq_refl)).
    + intros [Hp Hl]. rewrite http_do_run, handler_probe by done. unfold handleProbe.
      by rewrite (rd_ok _ _ (http_reads _) _ _ Hp Hl).
  - assert (Hb : forall body path, execd_bearer (forwarded (control_request "POST" path
       (credential ControlTokenHeader (ref_Token pod) (ref_Token pod)) body)) = ref_Token pod)
      by (intros; apply proxied_bearer).
    assert (Hu : forall b, proxy_read js ignore tt pod (b, raw_error 200 b) = Ok tt).
    { intros b. unfold proxy_read. destruct (Hraw b) as [-> _]. by destruct (0 <? _)%nat. }
    split; [|split].
    + intros Ht. split; [intros req Hx|]; rewrite proxy_do_run by (done || set_solver).
      * by apply (proj1 (bind_heard _ s pod (Hb (Some (js_bind js req)) _) eq_refl Hauth _ req (proxy_reads _ _ pod Hraw) eq_refl eq_refl)).
      * by apply (proj1 (unbind_heard _ s pod (Hb None _) eq_refl Hauth _ (proxy_reads _ _ pod Hraw) Hu eq_refl)).
    + intros Ht Hne req. rewrite !proxy_do_run by (done || set_solver). split.
      * by apply (proj2 (bind_heard _ s pod (Hb (Some (js_bind js req)) _) eq_refl Hauth _ req (proxy_reads _ _ pod Hraw) eq_refl eq_refl)).
      * by apply (proj2 (unbind_heard _ s pod (Hb None _) eq_refl Hauth _ (proxy_reads _ _ pod Hraw) Hu eq_refl)).
    + intros [Hp Hl]. rewrite proxy_do_run by (done || set_solver). rewrite handler_probe by done. unfold handleProbe.
      pose proof (rd_ok _ _ (proxy_reads _ ("", "") pod Hraw) _ _ Hp Hl) as Hr. exact (f_equal (fun x => (x, s)) Hr).
Qed.
End Ends.

(** ** Witness: a node and the two clients, with tagged texts for JSON *)

Definition wit_json : Json :=
  {| js_bind := fun _ => "bind"; js_read_bind := fun _ => Ok wit_bind;
     js_bound := fun r => "bound:" +:+ bs_SandboxID r;
     js_read_bound := fun _ => Ok {| bs_SandboxID := "sbx-1"; bs_IsolationTier := TierFilesystem;
       bs_BoundAt := 100%Z; bs_ExpiresAt := 60000000100%Z;
       bs_BwrapArgs := match bind_argv wit_world wit_cfg wit_bind with Ok (argv, _) => argv | Err _ => [] end |};
     js_status := fun _ => "status"; js_probe := fun _ => "probe";
     js_read_probe := fun _ => Ok (TierFilesystem, "measured"); js_ok := "ok";
     js_error := fun code msg => code +:+ "|" +:+ msg;
     js_read_error := fun b => let '(code, msg, ok) := cut b "|"%char in if ok then Some (code, msg) else None |}.
Definition wit_node : ExecdNode :=
  {| nd_cfg := wit_cfg; nd_probe := {| pa_Tier := TierFilesystem; pa_Reason := "measured"; pa_Probes := ∅ |};
     nd_startedAt := 1%Z; nd_render := fun _ => "no"; nd_world := wit_world; nd_configured := Ok tt |}.
Definition wit_raw (status : Z) (body : string) : option string :=
  if (status <=? 206)%Z then None else Some "the server rejected our request".
Definition wit_pod : PodRef := {| ref_Namespace := "acme"; ref_Name := "pool-1"; ref_IP := "10.0.0.7"; ref_Token := "jct" |}.
Definition wit_wire := wire_host wit_json wit_node wit_raw.
Lemma wit_raw_errors : raw_errors wit_raw.
Proof. intros body. split; [reflexivity|]. intros status Hs. unfold wit_raw. destruct (Z.leb_spec status 206); [lia|done]. Qed.
Lemma transports_deliver_wit :
  (exists resp s', interp wit_wire (@t_Bind _ (http_transport wit_json) NewHTTPExecdClient wit_pod wit_bind) New = (Ok resp, s') /\
     bs_SandboxID resp = "sbx-1" /\ option_map sb_id (es_sb s') = Some "sbx-1") /\
  interp wit_wire (@t_Unbind _ (proxy_transport wit_json) NewAPIProxyExecdClient wit_pod) New = (Ok tt, Execd.expire New).
Proof.
  destruct (transports_deliver wit_json wit_node wit_raw wit_raw_errors NewHTTPExecdClient NewAPIProxyExecdClient) as [Hh Hp].
  assert (Ha : error_arrives wit_json "unauthorized" "invalid control-plane token").
  { split; [discriminate|]. split; [reflexivity|]. unfold errorBody. vm_compute (String.length _). lia. }
  destruct (Hh wit_pod New) as [[Hb _] _]; [discriminate..|exact Ha|reflexivity|].
  destruct (Hp wit_pod New) as [[_ Hu] _]; [discriminate..|exact Ha|reflexivity|]. split; [|exact Hu].
  assert (Hx : exchanged wit_json wit_node wit_bind New).
  { split; [reflexivity|]. vm_compute. split; [reflexivity|]. lia. }
  eexists _, _. split; [etransitivity; [exact (Hb wit_bind Hx)|]; vm_compute; reflexivity|].
  split; vm_compute; reflexivity.
Defined.
