(* ===== verification/ExecdLife.v ===== *)
(** * The life of execd's process (cmd/jdix-execd/main.go, from line 123)

    Requests, the TTL's timer, the two listeners and [main] all run at once.
    Here each is a thread, the program of ExecdRun.v or [main_run] below, and a
    step is one call of one of them: handlers interleave in every way their
    critical sections allow, and new ones arrive at any time.  The clock is the
    process's; a bind with a deadline arms a timer, a keepalive resets it, and one
    that has run out starts [expire], as an unbind does.

    What the process owes its Pod: it comes down when the sandbox's time is up,
    and not by itself. *)
From S2P Require Import Prelude Calls GoStrings Api Bwrap Url Route Gateway Execd ExecdRun.
Open Scope string_scope.
Open Scope list_scope.

Inductive Plane := DataPlane | ControlPlane.
#[export] Instance Plane_eq_dec : EqDecision Plane.
Proof. solve_decision. Defined.
Definition plane_name (p : Plane) : string := match p with DataPlane => "data" | ControlPlane => "control" end.
(** How [ListenAndServe] returns. *)
Inductive ListenEnd := ServerClosed | ListenFailed (err : string).
Definition serve (p : Plane) (e : ListenEnd) : option string :=
  match e with ServerClosed => None | ListenFailed err => Some (plane_name p +:+ " plane: " +:+ err) end.

(** What [main]'s select hears. *)
Inductive Wake := WErr (err : option string) | WSignal | WReason (reason : string).
Inductive LifeE : Type -> Type :=
| LX {R : Type} (e : ExecE R) : LifeE R
| LSelect : LifeE Wake
| LShutdown (p : Plane) : LifeE unit.
(** A thread ends the process where it returns a status. *)
Abbreviation Thread := (Prog LifeE (option Z)).

(** The end of [main]. *)
Definition main_run : Thread :=
  wake ← call LSelect;
  match wake with
  | WErr (Some err) => mret (Some 1%Z)
  | _ =>
      call (LShutdown DataPlane) ≫= fun _ =>
      call (LShutdown ControlPlane) ≫= fun _ => mret (Some 0%Z)
  end.
Fixpoint handled {A} (p : Prog ExecE A) : Thread :=
  match p with
  | Ret _ => Ret None
  | Vis e k => Vis (LX e) (fun r => handled (k r))
  end.

(** ** The process *)

Record Life := {
  lf_srv : ExecdServer;
  lf_shutdown : option string;          (* the channel, of capacity 1 *)
  lf_errs : list (option string);       (* errCh *)
  lf_up : list Plane;                   (* the listeners that have not returned *)
  lf_signal : bool;
  lf_now : Time;
  lf_old : list Time }.                 (* timers the server has let go of, that still run *)
Definition life_start (now : Time) : Life :=
  {| lf_srv := New; lf_shutdown := None; lf_errs := []; lf_up := [DataPlane; ControlPlane]; lf_signal := false;
     lf_now := now; lf_old := [] |}.
Definition with_srv (s : ExecdServer) (l : Life) : Life :=
  {| lf_srv := s; lf_shutdown := lf_shutdown l; lf_errs := lf_errs l; lf_up := lf_up l; lf_signal := lf_signal l;
     lf_now := lf_now l; lf_old := lf_old l |}.
Definition with_shutdown (c : option string) (l : Life) : Life :=
  {| lf_srv := lf_srv l; lf_shutdown := c; lf_errs := lf_errs l; lf_up := lf_up l; lf_signal := lf_signal l;
     lf_now := lf_now l; lf_old := lf_old l |}.
Definition with_errs (c : list (option string)) (l : Life) : Life :=
  {| lf_srv := lf_srv l; lf_shutdown := lf_shutdown l; lf_errs := c; lf_up := lf_up l; lf_signal := lf_signal l;
     lf_now := lf_now l; lf_old := lf_old l |}.
Definition with_now (now : Time) (l : Life) : Life :=
  {| lf_srv := lf_srv l; lf_shutdown := lf_shutdown l; lf_errs := lf_errs l; lf_up := lf_up l; lf_signal := lf_signal l;
     lf_now := now; lf_old := lf_old l |}.
Definition listener_back (p : Plane) (e : ListenEnd) (l : Life) : Life :=
  {| lf_srv := lf_srv l; lf_shutdown := lf_shutdown l; lf_errs := lf_errs l ++ [serve p e];
     lf_up := filter (fun q => q <> p) (lf_up l); lf_signal := lf_signal l; lf_now := lf_now l; lf_old := lf_old l |}.
Definition signalled (l : Life) : Life :=
  {| lf_srv := lf_srv l; lf_shutdown := lf_shutdown l; lf_errs := lf_errs l; lf_up := lf_up l; lf_signal := true;
     lf_now := lf_now l; lf_old := lf_old l |}.
(** The server changes; a timer it no longer refers to runs on. *)
Definition renew (s : ExecdServer) (l : Life) : Life :=
  {| lf_srv := s; lf_shutdown := lf_shutdown l; lf_errs := lf_errs l; lf_up := lf_up l; lf_signal := lf_signal l;
     lf_now := lf_now l;
     lf_old := (if bool_decide (es_timer s = es_timer (lf_srv l)) then [] else option_list (es_timer (lf_srv l)))
               ++ lf_old l |}.
(** A timer runs that is set for [d]. *)
Definition armed (d : Time) (l : Life) : Prop := es_timer (lf_srv l) = Some d \/ d ∈ lf_old l.
(** The hook [main] gives [SetOnExpire]: a full channel drops the reason. *)
Definition onExpire (reason : string) (l : Life) : Life :=
  match lf_shutdown l with Some _ => l | None => with_shutdown (Some reason) l end.
(** [expire]'s section under the lock. *)
Definition take (s : ExecdServer) (pid : Z) : option (option Z) :=
  if es_expired s then None else Some (match es_sb s with Some _ => Some pid | None => None end).

(** What a handler's calls answer: its critical sections read and write the
    server, the clock is the process's, anything else may answer anything. *)
Definition exec_life (R : Type) (e : ExecE R) (l : Life) : R -> Life -> Prop :=
  match e in ExecE R return R -> Life -> Prop with
  | XNow => fun r l' => r = lf_now l /\ l' = l
  | XCheck req => fun r l' => r = bind_check (lf_srv l) req /\ l' = l
  | XPublish sb _ => fun _ l' => l' = renew (bind_publish sb (lf_srv l)) l
  | XTake => fun r l' => exists pid, r = take (lf_srv l) pid /\ l' = renew (Execd.expire (lf_srv l)) l
  | XOnExpire reason => fun _ l' => l' = onExpire reason l
  | _ => fun _ l' => l' = l
  end.
Definition life_sem (R : Type) (e : LifeE R) (l : Life) : R -> Life -> Prop :=
  match e in LifeE R return R -> Life -> Prop with
  | LX e => exec_life _ e l
  | LSelect => fun w l' =>
      match w with
      | WErr err => exists rest, lf_errs l = err :: rest /\ l' = with_errs rest l
      | WSignal => lf_signal l = true /\ l' = l
      | WReason reason => lf_shutdown l = Some reason /\ l' = with_shutdown None l
      end
  | LShutdown _ => fun _ l' => l' = l
  end.

Section Process.
Context (cfg : Config) (initDial graceKill : Z) (tier : Tier) (render : LaunchError -> string).

Definition binding (fuel : nat) (req : BindRequest) : Thread :=
  handled (handleBind_run cfg initDial graceKill tier render fuel req).
Definition expiring (reason : string) : Thread := handled (expire_run cfg graceKill reason).

(** [main] is thread 0. *)
Abbreviation Proc := (Life * list Thread)%type.
Definition process_start (now : Time) : Proc := (life_start now, [main_run]).
Definition exited (s : Proc) : option Z :=
  match snd s !! 0%nat with Some (Ret status) => status | _ => None end.

Inductive Label := LThread (i : nat) | LBind | LUnbind | LTimer | LKeepalive | LListener | LSignal | LTick.
#[export] Instance Label_eq_dec : EqDecision Label.
Proof. solve_decision. Defined.
(** One call of a thread. *)
Definition moves (p : Thread) (l : Life) (p' : Thread) (l' : Life) : Prop :=
  match p with
  | Ret _ => False
  | Vis e k => exists r, life_sem _ e l r l' /\ p' = k r
  end.
(** A call of a thread; a bind, an unbind; a timer that has run out; what a
    keepalive does under the lock; a listener returns, a signal comes; time
    passes. *)
Inductive step : Label -> Proc -> Proc -> Prop :=
| step_thread i l ts p p' l' :
    exited (l, ts) = None -> ts !! i = Some p -> moves p l p' l' ->
    step (LThread i) (l, ts) (l', <[i := p']> ts)
| step_bind l ts fuel req : exited (l, ts) = None -> step LBind (l, ts) (l, ts ++ [binding fuel req])
| step_unbind l ts : exited (l, ts) = None -> step LUnbind (l, ts) (l, ts ++ [expiring "unbind"])
| step_timer l ts d :
    exited (l, ts) = None -> armed d l -> (d <= lf_now l)%Z -> step LTimer (l, ts) (l, ts ++ [expiring "ttl"])
| step_keepalive l ts r id :
    step LKeepalive (l, ts) (with_srv (snd (Execd.keepalive (lf_now l) r id (lf_srv l))) l, ts)
| step_listener l ts p e : p ∈ lf_up l -> step LListener (l, ts) (listener_back p e l, ts)
| step_signal l ts : step LSignal (l, ts) (signalled l, ts)
| step_tick l ts now : (lf_now l <= now)%Z -> step LTick (l, ts) (with_now now l, ts).

(** An execution: what happens, and the states it goes through. *)
Record execution (who : nat -> Label) (run : nat -> Proc) : Prop := {
  ex_start : exists now, run 0%nat = process_start now;
  ex_step : forall n, step (who n) (run n) (run (S n)) }.
Definition enabled (i : nat) (s : Proc) : Prop := exists s', step (LThread i) s s'.
(** The kernel and the scheduler: no thread that can go on is left waiting for
    ever. *)
Definition fair (who : nat -> Label) (run : nat -> Proc) : Prop :=
  forall i n, exists m, (n <= m)%nat /\ (who m = LThread i \/ ~ enabled i (run m)).
(** The runtime's timers: the clock goes on, and no timer that has run out waits
    for ever while the Pod has not expired (from then on it may be stopped). *)
Definition overdue (d : Time) (s : Proc) : Prop :=
  exited s = None /\ es_expired (lf_srv (fst s)) = false /\ armed d (fst s) /\ (d <= lf_now (fst s))%Z.
Record timely (who : nat -> Label) (run : nat -> Proc) : Prop := {
  ti_clock : forall d, exists n, (d <= lf_now (fst (run n)))%Z;
  ti_timer : forall d n, exists m, (n <= m)%nat /\ (who m = LTimer \/ ~ overdue d (run m)) }.

(** ** What a thread may still do *)

Inductive Kind := KPlain | KTake | KNotice | KSelect | KShutdown.
Definition kind {R} (e : LifeE R) : Kind :=
  match e with
  | LX XTake => KTake
  | LX (XOnExpire _) => KNotice
  | LX _ => KPlain
  | LSelect => KSelect
  | LShutdown _ => KShutdown
  end.
(** It neither takes the sandbox down nor tells [main]. *)
Fixpoint quiet (p : Thread) : Prop :=
  match p with Ret status => status = None | Vis e k => kind e = KPlain /\ forall r, quiet (k r) end.
(** Whatever its calls answer, it tells [main]. *)
Fixpoint closing (p : Thread) : Prop :=
  match p with
  | Ret _ => False
  | Vis e k => (kind e = KPlain /\ forall r, closing (k r)) \/ (kind e = KNotice /\ forall r, quiet (k r))
  end.
(** [main] past its select. *)
Fixpoint leaving (p : Thread) : Prop :=
  match p with Ret status => status <> None | Vis e k => kind e = KShutdown /\ forall r, leaving (k r) end.
Definition shape (expired : bool) (p : Thread) : Prop :=
  quiet p \/ (exists reason, p = expiring reason) \/ (expired = true /\ closing p).

Definition plain_call (R : Type) (e : ExecE R) : Prop := kind (LX e) = KPlain.
Lemma quiet_handled {A} (p : Prog ExecE A) Q : calls plain_call p Q -> quiet (handled p).
Proof. induction p as [a|R e k IH]; cbn; [done|]. intros [He Hk]. split; [done|]. eauto. Qed.
Lemma calls_all {A} (p : Prog ExecE A) Q : calls plain_call p Q -> calls plain_call p (fun _ => True).
Proof. by apply calls_mono. Qed.

Lemma calls_mret {A} (a : A) (Q : A -> Prop) : Q a -> calls plain_call (mret a : Prog ExecE A) Q.
Proof. done. Qed.
Lemma calls_last {R} (e : ExecE R) (Q : R -> Prop) :
  plain_call R e -> (forall r, Q r) -> calls plain_call (call e) Q.
Proof. intros He HQ. split; [done|exact HQ]. Qed.
Ltac walk := repeat lazymatch goal with
  | |- True => exact I
  | |- calls _ (call _ ≫= _) _ => apply calls_call; [reflexivity|intros ?]
  | |- calls _ (mret _ ≫= _) _ => apply calls_ret
  | |- calls _ (_ ≫= _) _ => apply calls_bind
  | |- calls _ (mret _) _ => apply calls_mret
  | |- calls _ (call _) _ => apply calls_last; [reflexivity|intros ?]
  | |- calls _ (match ?x with _ => _ end) _ => destruct x
  end.
Lemma poll_socket_plain fuel deadline lastErr :
  calls plain_call (poll_socket cfg fuel deadline lastErr) (fun _ => True).
Proof. revert lastErr. induction fuel as [|fuel IH]; intros lastErr; cbn [poll_socket]; walk. apply IH. Qed.
Lemma pin_mounts_plain ms files fds : calls plain_call (pin_mounts cfg ms files fds) (fun _ => True).
Proof. revert files fds. induction ms as [|m ms IH]; intros files fds; cbn [pin_mounts]; walk. apply IH. Qed.
Lemma close_files_plain files : calls plain_call (close_files files) (fun _ => True).
Proof. induction files as [|f files IH]; cbn [close_files]; walk. apply IH. Qed.
Lemma waitForSocket_plain fuel : calls plain_call (waitForSocket cfg initDial fuel) (fun _ => True).
Proof. unfold waitForSocket. walk. apply poll_socket_plain. Qed.
(** A program met inside another, whatever it returns. *)
Lemma plain_bind {A B} (p : Prog ExecE A) (f : A -> Prog ExecE B) Q :
  calls plain_call p (fun _ => True) -> (forall a, calls plain_call (f a) Q) -> calls plain_call (p ≫= f) Q.
Proof. intros Hp Hf. apply calls_bind. eapply calls_mono; [|exact Hp]. intros a _. apply Hf. Qed.
Ltac through l := apply plain_bind; [apply l|intros ?].
Lemma stop_plain timer pid : calls plain_call (stop cfg graceKill timer pid) (fun _ => True).
Proof. unfold stop. walk. Qed.
Lemma prepare_launch_plain req : calls plain_call (prepare_launch cfg req) (fun _ => True).
Proof.
  unfold prepare_launch. destruct (Validate _ _ _); [|exact I]. apply plain_bind.
  { destruct (filesystem cfg); [apply pin_mounts_plain|exact I]. }
  intros [fds files]. walk.
Qed.
Lemma start_sandbox_plain fuel req argv files :
  calls plain_call (start_sandbox cfg initDial fuel req argv files) (fun _ => True).
Proof.
  unfold start_sandbox. apply calls_call; [reflexivity|]. intros [pid|e]; [|exact I].
  apply plain_bind; [destruct (has_reaper cfg); walk|]. intros _. through waitForSocket_plain. walk.
Qed.
Lemma bind_quiet fuel req : quiet (binding fuel req).
Proof.
  apply (quiet_handled _ (fun _ => True)). unfold binding, handleBind_run. apply calls_call; [reflexivity|].
  intros [refusal|]; [exact I|]. apply plain_bind.
  - unfold launch_run. through prepare_launch_plain. destruct a as [argv files]. apply plain_bind.
    + destruct argv; [apply start_sandbox_plain|exact I].
    + intros r. through close_files_plain. exact I.
  - intros [[[sb pid]|e]|]; [|exact I..]. unfold configureInit. apply plain_bind; [walk|].
    intros [[]|e]; [walk|]. through stop_plain. exact I.
Qed.
Lemma closing_bind {A} (p : Prog ExecE A) (f : A -> Prog ExecE unit) :
  calls plain_call p (fun _ => True) -> (forall a, closing (handled (f a))) -> closing (handled (p ≫= f)).
Proof.
  unfold mbind, K_bind. induction p as [a|R e k IH]; cbn; intros Hp Hf; [apply Hf|].
  destruct Hp as [He Hk]. left. split; [done|]. intros r. by apply IH.
Qed.
(** A thread that was given the sandbox to take down tells [main]. *)
Lemma expire_closing reason pid :
  closing (handled ((_ ← (match pid with Some pid => stop cfg graceKill true pid | None => mret tt end);
                     call (XOnExpire reason)) : Prog ExecE unit)).
Proof.
  apply closing_bind; [destruct pid; [apply stop_plain|exact I]|]. intros []. right. split; [done|]. by intros [].
Qed.

Lemma shape_mono x x' p : (x = true -> x' = true) -> shape x p -> shape x' p.
Proof. intros H [?|[?|[??]]]; [by left|by right; left|right; right; auto]. Qed.

(** ** The invariant *)

(** Why the process may come down. *)
Definition cause (l : Life) : Prop :=
  es_expired (lf_srv l) = true \/ lf_signal l = true \/ exists p : Plane, p ∉ lf_up l.
Record inv (s : Proc) : Prop := {
  iv_main : exists p ts, snd s = p :: ts /\ Forall (shape (es_expired (lf_srv (fst s)))) ts /\
    (p = main_run \/ (leaving p /\ cause (fst s))) /\
    (es_expired (lf_srv (fst s)) = true ->
       p <> main_run \/ lf_shutdown (fst s) <> None \/ exists q, q ∈ ts /\ closing q);
  iv_told : lf_shutdown (fst s) <> None -> es_expired (lf_srv (fst s)) = true;
  iv_errs : lf_errs (fst s) <> [] -> exists p : Plane, p ∉ lf_up (fst s) }.

Lemma inv_start now : inv (process_start now).
Proof.
  constructor; cbn; [|done|done]. exists main_run, []. split; [done|]. split; [done|]. split; [by left|done].
Qed.
Lemma leaving_not_main p : leaving p -> p <> main_run.
Proof. intros H ->. by destruct H. Qed.

Lemma exec_life_srv R (e : ExecE R) l r l' :
  kind (LX e) = KPlain -> exec_life R e l r l' ->
  es_expired (lf_srv l') = es_expired (lf_srv l) /\ lf_shutdown l' = lf_shutdown l /\
  lf_errs l' = lf_errs l /\ lf_up l' = lf_up l /\ lf_signal l' = lf_signal l.
Proof. destruct e; cbn; intros Hk H; try done; try (by subst l'); by destruct H as [_ ->]. Qed.
Lemma cause_same l l' :
  (es_expired (lf_srv l) = true -> es_expired (lf_srv l') = true) -> lf_up l' = lf_up l -> lf_signal l' = lf_signal l ->
  cause l -> cause l'.
Proof. unfold cause. intros H -> ->. tauto. Qed.

Lemma moves_main l p' l' :
  moves main_run l p' l' ->
  leaving p' /\ l' = with_shutdown (lf_shutdown l') (with_errs (lf_errs l') l) /\
  (lf_shutdown l' <> None -> lf_shutdown l <> None) /\ (lf_errs l' <> [] -> lf_errs l <> []) /\
  (lf_shutdown l <> None \/ lf_errs l <> [] \/ lf_signal l = true).
Proof.
  cbn. intros (w & Hw & ->). destruct l as [srv sd errs up sig now old]. destruct w as [err| |reason]; cbn in Hw.
  - destruct Hw as (rest & -> & ->). cbn. split; [by destruct err|]. split; [done|]. split; [done|]. split; [done|]. right; left. done.
  - destruct Hw as [-> ->]. cbn. split; [by repeat split|]. split; [done|]. auto.
  - destruct Hw as [-> ->]. cbn. split; [by repeat split|]. split; [done|]. split; [done|]. split; [done|]. left. done.
Qed.
Lemma moves_leaving p l p' l' : leaving p -> moves p l p' l' -> leaving p' /\ l' = l.
Proof. destruct p as [|R e k]; [by intros _ []|]. intros [He Hk] (r & Hr & ->).
  destruct e as [R e| |plane]; [by destruct e|done|]. split; [apply Hk|exact Hr].
Qed.
Definition same_but_srv (l l' : Life) : Prop :=
  lf_errs l' = lf_errs l /\ lf_up l' = lf_up l /\ lf_signal l' = lf_signal l.
Lemma moves_shape p l p' l' :
  shape (es_expired (lf_srv l)) p -> moves p l p' l' ->
  shape (es_expired (lf_srv l')) p' /\ same_but_srv l l' /\
  (es_expired (lf_srv l) = true -> es_expired (lf_srv l') = true) /\
  (lf_shutdown l <> None -> lf_shutdown l' <> None) /\
  (lf_shutdown l' <> None -> lf_shutdown l <> None \/ es_expired (lf_srv l') = true) /\
  (es_expired (lf_srv l') = true -> es_expired (lf_srv l) = true \/ closing p') /\
  (closing p -> closing p' \/ lf_shutdown l' <> None).
Proof.
  intros Hs Hm. destruct Hs as [Hq|[[reason ->]|[Hx Hc]]].
  - destruct p as [|R e k]; [done|]. destruct Hq as [He Hk], Hm as (r & Hr & ->). destruct e as [R e| |]; [|done..].
    destruct (exec_life_srv _ _ _ _ _ He Hr) as (E1 & E2 & E3 & E4 & E5). rewrite E1, E2.
    split; [left; apply Hk|]. split; [done|]. do 4 (split; [auto|]).
    intros [[_ Hc]|[Hn _]]; [left; apply Hc|]. rewrite Hn in He. done.
  - cbn in Hm. destruct Hm as (r & (pid & -> & ->) & ->). unfold take, Execd.expire.
    destruct (es_expired (lf_srv l)) eqn:Hx; cbn [lf_srv with_srv renew lf_shutdown es_expired].
    + rewrite Hx. split; [by left|]. split; [done|]. do 4 (split; [auto|]).
      cbn. by intros [[? _]|[? _]].
    + split; [right; right; split; [done|apply (expire_closing reason (match es_sb (lf_srv l) with Some _ => Some pid | None => None end))]|].
      split; [done|]. do 3 (split; [auto|]). split; [|cbn; by intros [[? _]|[? _]]].
      intros _. right. apply (expire_closing reason (match es_sb (lf_srv l) with Some _ => Some pid | None => None end)).
  - destruct p as [|R e k]; [done|]. destruct Hm as (r & Hr & ->). rewrite Hx.
    destruct Hc as [[He Hk]|[He Hk]]; (destruct e as [R e| |]; [|done..]).
    + destruct (exec_life_srv _ _ _ _ _ He Hr) as (E1 & E2 & E3 & E4 & E5). rewrite E1, E2, Hx.
      split; [right; right; auto|]. split; [done|]. do 4 (split; [auto|]). intros _. left. apply Hk.
    + destruct e; try done. cbn in Hr. subst l'. unfold onExpire.
      assert (H : forall c, lf_shutdown (match lf_shutdown l with Some _ => l | None => with_shutdown (Some c) l end) <> None).
      { intros c. destruct (lf_shutdown l) eqn:Ec; cbn; congruence. }
      assert (Hx' : es_expired (lf_srv (match lf_shutdown l with Some _ => l | None => with_shutdown (Some reason) l end)) = true)
        by by destruct (lf_shutdown l).
      rewrite Hx'. split; [left; apply Hk|]. split; [by destruct (lf_shutdown l)|]. do 4 (split; [auto|]). auto.
Qed.

Lemma inv_thread i l p0 ts p p' l' :
  inv (l, p0 :: ts) -> (p0 :: ts) !! i = Some p -> moves p l p' l' -> inv (l', <[i := p']> (p0 :: ts)).
Proof.
  intros [Hmain Htold Herrs] Hi Hm. cbn [fst snd] in *. destruct Hmain as (p1 & ts1 & [= <- <-] & Hsh & Hp & Hc).
  destruct i as [|i]; cbn in Hi.
  - injection Hi as ->. destruct Hp as [->|[Hl Hcause]].
    + destruct (moves_main _ _ _ Hm) as (Hl & El & H1 & H2 & H3). rewrite El in *. cbn in H1, H2.
      constructor; cbn; [|auto|auto]. exists p', ts. split; [done|]. split; [done|]. split.
      * right. split; [done|]. unfold cause. cbn. destruct H3 as [H3|[H3|H3]]; [left; auto|right; right; auto|auto].
      * intros _. left. by apply leaving_not_main.
    + destruct (moves_leaving _ _ _ _ Hl Hm) as [Hl' ->]. constructor; cbn; [|done|done].
      exists p', ts. split; [done|]. split; [done|]. split; [by right|]. intros _. left. by apply leaving_not_main.
  - change (ts !! i = Some p) in Hi. pose proof (Forall_lookup_1 _ _ _ _ Hsh Hi) as Hs.
    destruct (moves_shape _ _ _ _ Hs Hm) as (Hs' & (E1 & E2 & E3) & Hx & Hd & Hd' & Hn & Hcl).
    assert (Hin : p' ∈ <[i := p']> ts).
    { apply list_elem_of_lookup. exists i. apply list_lookup_insert_eq. by eapply lookup_lt_Some. }
    constructor; cbn; [|intros H; by destruct (Hd' H); auto|by rewrite E1, E2].
    exists p0, (<[i := p']> ts). split; [done|]. split; [|split].
    + apply Forall_insert; [|done]. eapply Forall_impl; [exact Hsh|]. intros q Hq. by eapply shape_mono.
    + destruct Hp as [?|[Hl Hcause]]; [by left|right]. split; [done|]. by eapply cause_same.
    + intros Hx'. destruct (Hn Hx') as [Hx0|Hc']; [|by right; right; exists p'].
      destruct (Hc Hx0) as [?|[?|(q & Hq & Hqc)]]; [by left|right; left; auto|].
      apply list_elem_of_lookup in Hq as [j Hj]. destruct (decide (i = j)) as [->|Hij].
      * rewrite Hi in Hj. injection Hj as ->. destruct (Hcl Hqc) as [?|?]; [by right; right; exists p'|by right; left].
      * right; right. exists q. split; [|done]. apply list_elem_of_lookup. exists j. by rewrite list_lookup_insert_ne.
Qed.
Lemma inv_arrive l ts p : inv (l, ts) -> (forall x, shape x p) -> inv (l, ts ++ [p]).
Proof.
  intros [(p0 & ts0 & E & Hsh & Hm & Hc) Ht He] Hp. cbn in *. subst ts. constructor; cbn; [|done|done].
  exists p0, (ts0 ++ [p]). split; [done|]. split; [|split; [done|]].
  - apply Forall_app. split; [done|]. by apply Forall_singleton.
  - intros Hx. destruct (Hc Hx) as [?|[?|(q & Hq & Hqc)]]; [auto..|]. right; right. exists q. split; [|done].
    apply elem_of_app. by left.
Qed.
Lemma keepalive_expired now r id s : es_expired (snd (Execd.keepalive now r id s)) = es_expired s.
Proof. unfold Execd.keepalive. by repeat case_match. Qed.
Lemma inv_step a s s' : inv s -> step a s s' -> inv s'.
Proof.
  intros Hinv Hs. destruct Hs as [i l ts p p' l' _ Hi Hm|l ts fuel req _|l ts _|l ts d _ _ _|l ts r id|l ts p e Hp|l ts|l ts now Hn].
  - pose proof (iv_main _ Hinv) as (p0 & ts0 & E & _). cbn in E. subst ts. by eapply inv_thread.
  - apply inv_arrive; [done|]. intros x. left. apply bind_quiet.
  - apply inv_arrive; [done|]. intros x. right; left. by eexists.
  - apply inv_arrive; [done|]. intros x. right; left. by eexists.
  - destruct Hinv as [(p0 & ts0 & E & Hsh & Hm & Hc) Ht He]. cbn in *. subst ts.
    constructor; cbn; rewrite ?keepalive_expired; [|done|done]. exists p0, ts0. split; [done|]. split; [done|]. split; [|done].
    destruct Hm as [?|[? Hcs]]; [by left|right]. split; [done|]. unfold cause. cbn. by rewrite keepalive_expired.
  - destruct Hinv as [(p0 & ts0 & E & Hsh & Hm & Hc) Ht He]. cbn in *. subst ts.
    assert (Hn : p ∉ filter (fun q => q <> p) (lf_up l)) by (intros [? _]%list_elem_of_filter; done).
    constructor; cbn; [|done|by exists p]. exists p0, ts0. split; [done|]. split; [done|]. split; [|done].
    destruct Hm as [?|[? _]]; [by left|right]. split; [done|]. right; right. by exists p.
  - destruct Hinv as [(p0 & ts0 & E & Hsh & Hm & Hc) Ht He]. cbn in *. subst ts. constructor; cbn; [|done|done].
    exists p0, ts0. split; [done|]. split; [done|]. split; [|done].
    destruct Hm as [?|[? _]]; [by left|right]. split; [done|]. right; left. done.
  - destruct Hinv as [(p0 & ts0 & E & Hsh & Hm & Hc) Ht He]. cbn in *. subst ts. by constructor; cbn; [exists p0, ts0| |].
Qed.
Lemma inv_run who run : execution who run -> forall n, inv (run n).
Proof.
  intros [[now H0] Hs] n. induction n as [|n IH]; [rewrite H0; apply inv_start|]. by eapply inv_step.
Qed.

(** ** Coming down *)

Lemma call_answers R (e : LifeE R) l : kind e <> KSelect -> exists r l', life_sem R e l r l'.
Proof.
  destruct e as [R e| |plane]; [|done|by exists tt; eexists]. intros _. cbn.
  destruct e; cbn; try by exists tt; eexists.
  - by eexists _, _.
  - by exists None; eexists.
  - by exists (Ok tt); eexists.
  - by exists (Err ""); eexists.
  - by exists (Err ""); eexists.
  - by exists (Err ""); eexists.
  - by exists ""; eexists.
  - by exists true; eexists.
  - by exists (Err ""); eexists.
  - by eexists _, _.
  - by eexists _, _; exists 0%Z.
Qed.

Section Run.
Context (who : nat -> Label) (run : nat -> Proc) (Hex : execution who run) (Hfair : fair who run).
Abbreviation thread i n p := (snd (run n) !! i = Some p).
Abbreviation told n := (lf_shutdown (fst (run n)) <> None).
Abbreviation down n := (exited (run n) <> None).

Lemma step_keeps a s s' i p :
  step a s s' -> snd s !! i = Some p -> a <> LThread i -> snd s' !! i = Some p.
Proof.
  intros Hs Hi Ha. destruct Hs; cbn in *; try done; try by apply lookup_app_l_Some.
  rewrite list_lookup_insert_ne; [done|]. by intros ->.
Qed.
Lemma step_moves s s' i p :
  step (LThread i) s s' -> snd s !! i = Some p -> exists p', snd s' !! i = Some p' /\ moves p (fst s) p' (fst s').
Proof.
  intros Hs Hi. inversion Hs as [j l ts q q' l' _ Hj Hm| | | | | | |]; subst. cbn in *.
  rewrite Hi in Hj. injection Hj as <-. exists q'. split; [|done].
  apply list_lookup_insert_eq. by eapply lookup_lt_Some.
Qed.
(** A thread that can go on goes on, from where it stands. *)
Lemma thread_waits i n p d : thread i n p ->
  thread i (n + d)%nat p \/ exists m, (n <= m < n + d)%nat /\ who m = LThread i /\ thread i m p.
Proof.
  intros Hp. induction d as [|d IH]; [left; by rewrite Nat.add_0_r|].
  destruct IH as [IH|(m & Hm & ? & ?)]; [|right; exists m; split; [lia|done]].
  destruct (decide (who (n + d)%nat = LThread i)) as [Hw|Hw]; [right; exists (n + d)%nat; split; [lia|done]|].
  left. rewrite Nat.add_succ_r. eapply step_keeps; [apply (ex_step _ _ Hex)|done|done].
Qed.
Lemma thread_goes i n p : thread i n p ->
  (forall m, (n <= m)%nat -> thread i m p -> exited (run m) = None -> enabled i (run m)) ->
  exists m, (n <= m)%nat /\ (down m \/ (who m = LThread i /\ thread i m p)).
Proof.
  intros Hp Hen. destruct (Hfair i n) as (m & Hnm & Hm).
  destruct (thread_waits i n p (m - n) Hp) as [Ht|(m' & Hm' & Hw & Ht)].
  - replace (n + (m - n))%nat with m in Ht by lia. exists m. split; [done|].
    destruct Hm as [Hw|Hn]; [by right|left]. destruct (exited (run m)) eqn:E; [done|]. destruct Hn. by apply Hen.
  - exists m'. split; [lia|by right].
Qed.
Lemma ready i n R (e : LifeE R) k :
  thread i n (Vis e k) -> kind e <> KSelect -> exited (run n) = None -> enabled i (run n).
Proof.
  intros Ht Hk Hx. destruct (run n) as [l ts]. cbn in Ht. destruct (call_answers R e l Hk) as (r & l' & Hr).
  eexists. eapply step_thread; [done|done|]. cbn. by exists r.
Qed.
Lemma thread_calls i n R (e : LifeE R) k : thread i n (Vis e k) -> kind e <> KSelect ->
  exists m, (n <= m)%nat /\ (down m \/ exists r, life_sem R e (fst (run m)) r (fst (run (S m))) /\ thread i (S m) (k r)).
Proof.
  intros Ht Hk. destruct (thread_goes i n _ Ht) as (m & Hm & [Hd|[Hw Hp]]); [by intros; eapply ready|by exists m; auto|].
  exists m. split; [done|right]. pose proof (ex_step _ _ Hex m) as Hs. rewrite Hw in Hs.
  destruct (step_moves _ _ _ _ Hs Hp) as (p' & Hp' & r & Hr & ->). by exists r.
Qed.

Lemma leaving_exits p n : thread 0 n p -> leaving p -> exists m, (n <= m)%nat /\ down m.
Proof.
  revert n. induction p as [status|R e k IH]; intros n Ht Hl.
  - exists n. split; [done|]. unfold exited. by rewrite Ht.
  - destruct Hl as [Hk Hl]. destruct (thread_calls _ _ _ _ _ Ht) as (m & Hm & [Hd|(r & _ & Hr)]); [congruence|by exists m|].
    destruct (IH r _ Hr (Hl r)) as (m' & ? & ?). exists m'. split; [lia|done].
Qed.
Lemma closing_tells i p n : thread i n p -> closing p -> exists m, (n <= m)%nat /\ (down m \/ told m).
Proof.
  revert n. induction p as [status|R e k IH]; intros n Ht Hc; [done|].
  assert (Hk : kind e <> KSelect) by (destruct Hc as [[-> _]|[-> _]]; done).
  destruct (thread_calls _ _ _ _ _ Ht Hk) as (m & Hm & [Hd|(r & Hr & Hr')]); [by exists m; auto|].
  destruct Hc as [[_ Hc]|[He _]].
  - destruct (IH r _ Hr' (Hc r)) as (m' & ? & ?). exists m'. split; [lia|done].
  - exists (S m). split; [lia|right]. destruct e as [R e| |]; [|done..]. destruct e; try done. cbn in Hr. rewrite Hr.
    unfold onExpire. by destruct (lf_shutdown (fst (run m))) eqn:E; cbn; rewrite ?E.
Qed.

Lemma main_before n : thread 0 (S n) main_run -> thread 0 n main_run.
Proof.
  intros Ht. pose proof (ex_step _ _ Hex n) as Hs. destruct (iv_main _ (inv_run _ _ Hex n)) as (p & ts & E & _ & [->|[Hl _]] & _).
  { by rewrite E. }
  exfalso. assert (Hp : thread 0 n p) by by rewrite E.
  destruct (decide (who n = LThread 0)) as [Hw|Hw].
  - rewrite Hw in Hs. destruct (step_moves _ _ _ _ Hs Hp) as (p' & Hp' & Hm).
    destruct (moves_leaving _ _ _ _ Hl Hm) as [Hl' _]. rewrite Ht in Hp'. injection Hp' as <-. by apply (leaving_not_main main_run).
  - pose proof (step_keeps _ _ _ _ _ Hs Hp Hw) as Hp'. rewrite Ht in Hp'. injection Hp' as <-. by apply (leaving_not_main main_run).
Qed.
(** A message for [main] waits until [main] takes it. *)
Lemma told_waits n : told n -> thread 0 (S n) main_run -> told (S n).
Proof.
  intros Hto Ht. pose proof (main_before _ Ht) as Hn. pose proof (ex_step _ _ Hex n) as Hs.
  pose proof (inv_run _ _ Hex n) as Hinv. destruct Hs as [i l ts p p' l' _ Hi Hm| | | | | | |]; cbn in *; try done.
  destruct i as [|i].
  - rewrite Hn in Hi. injection Hi as <-. destruct (moves_main _ _ _ Hm) as [Hl _].
    destruct ts as [|q ts]; [done|]. cbn in Ht. injection Ht as ->. by apply (leaving_not_main main_run) in Hl.
  - destruct (iv_main _ Hinv) as (p0 & ts0 & E & Hsh & _). cbn in E, Hsh. subst ts.
    change (ts0 !! i = Some p) in Hi. pose proof (Forall_lookup_1 _ _ _ _ Hsh Hi) as Hp.
    destruct (moves_shape _ _ _ _ Hp Hm) as (_ & _ & _ & Hd & _). auto.
Qed.
Lemma told_exits n : told n -> exists m, (n <= m)%nat /\ down m.
Proof.
  intros Hto. destruct (iv_main _ (inv_run _ _ Hex n)) as (p & ts & E & _ & Hp & _).
  assert (Ht : thread 0 n p) by by rewrite E. destruct Hp as [->|[Hl _]]; [|by eapply leaving_exits].
  assert (Hstay : forall d, thread 0 (n + d)%nat main_run -> told (n + d)%nat).
  { induction d as [|d IH]; [by rewrite Nat.add_0_r|]. rewrite Nat.add_succ_r. intros H. apply told_waits; [|done].
    by apply IH, main_before. }
  destruct (thread_goes 0 n _ Ht) as (m & Hm & [Hd|[Hw Hp]]).
  - intros m Hm Hp Hx. specialize (Hstay (m - n)%nat). replace (n + (m - n))%nat with m in Hstay by lia.
    specialize (Hstay Hp). destruct (run m) as [l ts']. cbn in Hp, Hstay.
    destruct (lf_shutdown l) as [reason|] eqn:Er; [|done].
    eexists. eapply step_thread; [done|done|]. cbn. exists (WReason reason). split; [by split|done].
  - by exists m.
  - pose proof (ex_step _ _ Hex m) as Hs. rewrite Hw in Hs. destruct (step_moves _ _ _ _ Hs Hp) as (p' & Hp' & Hmv).
    destruct (moves_main _ _ _ Hmv) as [Hl _]. destruct (leaving_exits _ _ Hp' Hl) as (m' & ? & ?).
    exists m'. split; [lia|done].
Qed.
Lemma expired_exits n : es_expired (lf_srv (fst (run n))) = true -> exists m, (n <= m)%nat /\ down m.
Proof.
  intros Hx. destruct (iv_main _ (inv_run _ _ Hex n)) as (p & ts & E & _ & Hp & Hc).
  destruct (Hc Hx) as [Hne|[Hto|(q & Hq & Hqc)]].
  - destruct Hp as [?|[Hl _]]; [done|]. apply (leaving_exits p); [by rewrite E|done].
  - by apply told_exits.
  - apply list_elem_of_lookup in Hq as [i Hi].
    destruct (closing_tells (S i) q n) as (m & Hm & [Hd|Hto]); [by rewrite E|done|by exists m|].
    destruct (told_exits m Hto) as (m' & ? & ?). exists m'. split; [lia|done].
Qed.

(** An unbind, or a timer that ran out, takes the process down. *)
Lemma expiring_exits i n reason : thread i n (expiring reason) -> exists m, (n <= m)%nat /\ down m.
Proof.
  intros Ht. destruct (thread_calls i n _ (LX XTake) _ Ht) as (m & Hm & [Hd|(r & (pid & _ & Hl) & _)]); [done|by exists m|].
  destruct (expired_exits (S m)) as (m' & ? & ?); [|exists m'; split; [lia|done]].
  rewrite Hl. cbn. unfold Execd.expire. destruct (es_expired (lf_srv (fst (run m)))) eqn:Ex; [exact Ex|done].
Qed.
Lemma asked_exits n : who n = LUnbind \/ who n = LTimer -> exists m, (n <= m)%nat /\ down m.
Proof.
  intros Hw. pose proof (ex_step _ _ Hex n) as Hs.
  assert (exists l ts reason, run (S n) = (l, ts ++ [expiring reason])) as (l & ts & reason & E).
  { destruct Hw as [Hw|Hw]; rewrite Hw in Hs; inversion Hs; by eexists _, _, _. }
  destruct (expiring_exits (length ts) (S n) reason) as (m & ? & ?); [|exists m; split; [lia|done]].
  rewrite E. cbn. by rewrite lookup_app_r, Nat.sub_diag by lia.
Qed.
End Run.

(** ** The timers *)

Lemma renew_keeps d s l : armed d l -> armed d (renew s l).
Proof.
  unfold armed, renew. cbn. intros [Hd|Hd]; [|right; apply elem_of_app; by right].
  case_bool_decide as He; [left; by rewrite He|]. right. rewrite Hd. apply elem_of_app. left. by left.
Qed.
Lemma renew_adds d s l : armed d (renew s l) -> es_timer s = Some d \/ armed d l.
Proof.
  unfold armed, renew. cbn. intros [Hd|[Hd|Hd]%elem_of_app]; [by left| |by right; right].
  case_bool_decide; [by apply elem_of_nil in Hd|]. right; left.
  destruct (es_timer (lf_srv l)); [by apply list_elem_of_singleton in Hd as ->|by apply elem_of_nil in Hd].
Qed.
(** What a thread is about to publish. *)
Definition publishing (p : Thread) : option sandbox :=
  match p with
  | Vis e _ => match e with LX e => match e with XPublish sb _ => Some sb | _ => None end | _ => None end
  | Ret _ => None
  end.
Lemma moves_timers d p l p' l' :
  moves p l p' l' ->
  (armed d l -> armed d l') /\ lf_now l' = lf_now l /\
  (armed d l' -> armed d l \/ exists sb, publishing p = Some sb /\ sb_expiresAt sb = d /\ d <> 0%Z) /\
  (forall sb, publishing p = Some sb -> sb_expiresAt sb <> 0%Z -> armed (sb_expiresAt sb) l').
Proof.
  destruct p as [|R e k]; [done|]. intros (r & Hr & _).
  assert (Hsame : publishing (Vis e k) = None -> armed d l' = armed d l -> lf_now l' = lf_now l ->
    (armed d l -> armed d l') /\ lf_now l' = lf_now l /\
    (armed d l' -> armed d l \/ exists sb, publishing (Vis e k) = Some sb /\ sb_expiresAt sb = d /\ d <> 0%Z) /\
    (forall sb, publishing (Vis e k) = Some sb -> sb_expiresAt sb <> 0%Z -> armed (sb_expiresAt sb) l')).
  { intros -> -> ->. split; [done|]. split; [done|]. split; [by left|done]. }
  destruct e as [R e| |plane].
  - destruct e; cbn [publishing life_sem exec_life] in *;
      try (by (lazymatch type of Hr with _ /\ _ => destruct Hr as [_ Hr] | _ => idtac end);
              subst l'; unfold onExpire in *; try destruct (lf_shutdown l); apply Hsame);
      clear Hsame.
    + subst l'. split; [apply renew_keeps|]. split; [done|]. split.
      * intros [Hd|?]%renew_adds; [right|by left]. exists sb. cbn in Hd. unfold is_zero_time in Hd.
        destruct (Z.eqb_spec (sb_expiresAt sb) 0); [done|]. injection Hd as <-. by repeat split.
      * intros sb' [= <-] Hne. left. cbn. unfold is_zero_time. by destruct (Z.eqb_spec (sb_expiresAt sb) 0).
    + destruct Hr as (pid & _ & ->). split; [apply renew_keeps|]. split; [done|]. split; [|done].
      intros [Hd|?]%renew_adds; [left|by left]. unfold Execd.expire in Hd.
      destruct (es_expired (lf_srv l)); [by left|done].
  - by destruct r; cbn in Hr; [destruct Hr as (rest & _ & ->)|destruct Hr as [_ ->]..]; apply Hsame.
  - cbn in Hr. subst l'. by apply Hsame.
Qed.

Section Timers.
Context (who : nat -> Label) (run : nat -> Proc) (Hex : execution who run).
Abbreviation life n := (fst (run n)).
(** The [n]-th step publishes the sandbox; it sets the deadline, in publishing or
    extending. *)
Definition publishes (n : nat) (sb : sandbox) : Prop :=
  exists i p, who n = LThread i /\ snd (run n) !! i = Some p /\ publishing p = Some sb.
Definition sets (n : nat) (d : Time) : Prop :=
  (exists sb, publishes n sb /\ sb_expiresAt sb = d /\ d <> 0%Z) \/
  (who n = LKeepalive /\ exists sb, es_sb (lf_srv (life (S n))) = Some sb /\ sb_expiresAt sb = d).

Lemma armed_keeps d n : who n <> LKeepalive -> armed d (life n) -> armed d (life (S n)).
Proof.
  intros Hw Hd. pose proof (ex_step _ _ Hex n) as Hs. destruct Hs as [i l ts p p' l' _ Hi Hm| | | | | | |]; try done.
  cbn in *. by apply (moves_timers d) in Hm as [? _]; auto.
Qed.
Lemma timed_keeps n : (exists d, armed d (life n)) -> exists d, armed d (life (S n)).
Proof.
  intros [d Hd]. destruct (decide (who n = LKeepalive)) as [Hw|Hw]; [|exists d; by apply armed_keeps].
  pose proof (ex_step _ _ Hex n) as Hs. rewrite Hw in Hs.
  revert Hd Hs. generalize (run n) (run (S n)). intros s s' Hd Hs. inversion Hs as [| | | |l ts r id| | |]; subst.
  cbn in *. unfold Execd.keepalive. destruct (es_sb (lf_srv l)) as [sb|]; [|by exists d].
  destruct (negb _); [by exists d|]. destruct Hd as [Hd|Hd]; cbn.
  - eexists. left. cbn. by rewrite Hd.
  - exists d. by right.
Qed.
Lemma now_on n m : (n <= m)%nat -> (lf_now (life n) <= lf_now (life m))%Z.
Proof.
  induction 1 as [|m _ IH]; [done|]. etrans; [exact IH|]. clear IH. pose proof (ex_step _ _ Hex m) as Hs.
  destruct Hs as [i l ts p p' l' _ Hi Hm| | | | | | |]; cbn in *; try done.
  by apply (moves_timers 0%Z) in Hm as (_ & -> & _).
Qed.
Lemma armed_set n d : armed d (life n) -> exists m, (m < n)%nat /\ sets m d.
Proof.
  induction n as [|n IH]; intros Hd.
  { destruct (ex_start _ _ Hex) as [now E]. rewrite E in Hd. destruct Hd as [?|Hd]; [done|]. by apply elem_of_nil in Hd. }
  assert (Hold : armed d (life n) -> exists m, (m < S n)%nat /\ sets m d).
  { intros H. destruct (IH H) as (m & ? & ?). exists m. split; [lia|done]. }
  pose proof (ex_step _ _ Hex n) as Hs. remember (who n) as a eqn:Ea. remember (run n) as s eqn:Es. remember (run (S n)) as s' eqn:Es'.
  destruct Hs as [i l ts p p' l' _ Hi Hm| | | |l ts r id| | |]; cbn in *; try by apply Hold.
  - apply (moves_timers d) in Hm as (_ & _ & Hb & _). destruct (Hb Hd) as [?|(sb & Hsb)]; [by apply Hold|].
    exists n. split; [lia|left]. exists sb. split; [|tauto]. exists i, p. rewrite <-Es. by destruct Hsb.
  - destruct Hd as [Hd|Hd]; [|by apply Hold; right]. cbn in Hd. unfold Execd.keepalive in Hd.
    destruct (es_sb (lf_srv l)) as [sb|] eqn:Esb; [|by apply Hold; left].
    destruct (negb _) eqn:Eid; [by apply Hold; left|]. exists n. split; [lia|right]. split; [done|].
    rewrite <-Es'. unfold Execd.keepalive. cbn. rewrite Esb, Eid. cbn in Hd |- *.
    destruct (es_timer (lf_srv l)); [|done]. injection Hd as <-. by eexists.
Qed.

Lemma deadline_exits n sb N :
  fair who run -> timely who run -> publishes n sb -> sb_expiresAt sb <> 0%Z ->
  (forall m, (N <= m)%nat -> who m <> LKeepalive) -> exists m, (n <= m)%nat /\ exited (run m) <> None.
Proof.
  intros Hfair Htime (i & p & Hw & Hp & Hsb) Hne HN.
  assert (Hn : exists d, armed d (life (S n))).
  { pose proof (ex_step _ _ Hex n) as Hs. rewrite Hw in Hs.
    destruct (step_moves _ _ _ _ Hs Hp) as (p' & _ & Hm). apply (moves_timers 0%Z) in Hm as (_ & _ & _ & Hm). eauto. }
  assert (Hlater : forall k, exists d, armed d (life (k + S n))).
  { induction k as [|k IH]; [exact Hn|]. by apply timed_keeps. }
  destruct (Hlater N) as [d Hd]. destruct (ti_clock _ _ Htime d) as [c Hc].
  assert (Hon : forall m, (N + S n <= m)%nat -> armed d (life m)).
  { induction 1 as [|m Hm IH]; [exact Hd|]. apply armed_keeps; [apply HN; lia|exact IH]. }
  destruct (ti_timer _ _ Htime d (N + S n + c)) as (m & Hm & [Hf|Hno]).
  - destruct (asked_exits who run Hex Hfair m) as (m' & ? & ?); [by right|]. exists m'. split; [lia|done].
  - destruct (exited (run m)) eqn:Ex; [exists m; split; [lia|by rewrite Ex]|].
    destruct (es_expired (lf_srv (life m))) eqn:Exp.
    + destruct (expired_exits who run Hex Hfair m Exp) as (m' & ? & ?). exists m'. split; [lia|done].
    + destruct Hno. split; [done|]. split; [done|]. split; [apply Hon; lia|].
      pose proof (now_on c m ltac:(lia)). lia.
Qed.

(** ** Not by itself *)

(** What takes the process down. *)
Definition ends (n : nat) : Prop :=
  match who n with
  | LUnbind | LListener | LSignal => True
  | LTimer => exists d m, (d <= lf_now (life n))%Z /\ (m < n)%nat /\ sets m d
  | _ => False
  end.
(** Nothing has. *)
Record calm (s : Proc) : Prop := {
  ca_srv : es_expired (lf_srv (fst s)) = false;
  ca_signal : lf_signal (fst s) = false;
  ca_up : forall p : Plane, p ∈ lf_up (fst s);
  ca_threads : exists ts, snd s = main_run :: ts /\ Forall quiet ts }.
Lemma calm_thread i l ts p p' l' :
  calm (l, ts) -> ts !! i = Some p -> moves p l p' l' -> inv (l', <[i := p']> ts) ->
  calm (l', <[i := p']> ts) \/ lf_shutdown l <> None \/ lf_errs l <> [].
Proof.
  intros [Hx Hsig Hup (ts0 & E & Hq)] Hi Hm Hinv. cbn in *. subst ts. destruct i as [|i].
  - injection Hi as <-. destruct (moves_main _ _ _ Hm) as (_ & _ & _ & _ & [H|[H|H]]); [by right; left|by right; right|congruence].
  - left. cbn in Hi. pose proof (Forall_lookup_1 _ _ _ _ Hq Hi) as Hp. destruct p as [|R e k]; [done|].
    destruct Hp as [He Hk], Hm as (r & Hr & ->). destruct e as [R e| |]; [|done..].
    destruct (exec_life_srv _ _ _ _ _ He Hr) as (E1 & E2 & E3 & E4 & E5). constructor; cbn.
    + by rewrite E1.
    + by rewrite E5.
    + by rewrite E4.
    + eexists. split; [done|]. by apply Forall_insert.
Qed.
Lemma calm_until n : (exists m, (m < n)%nat /\ ends m) \/ calm (run n).
Proof.
  induction n as [|n [(m & ? & ?)|IH]]; [right|left; exists m; split; [lia|done]|].
  { destruct (ex_start _ _ Hex) as [now ->]. constructor; cbn; [done..| |by exists []]. intros []; set_solver. }
  assert (Hend : ends n -> (exists m, (m < S n)%nat /\ ends m) \/ calm (run (S n))) by (left; exists n; split; [lia|done]).
  pose proof (inv_run _ _ Hex n) as Hi. pose proof (inv_run _ _ Hex (S n)) as Hi'. pose proof (ex_step _ _ Hex n) as Hs.
  unfold ends in Hend. pose proof (armed_set n) as Hset. revert Hend Hset IH Hi Hi' Hs.
  generalize (who n) (run n) (run (S n)). intros a s s' Hend Hset IH Hi Hi' Hs.
  destruct Hs as [i l ts p p' l' _ Hp Hm|l ts fuel req _|l ts _|l ts d _ Hd Hn|l ts r id| | |l ts now _]; try by apply Hend.
  - right. destruct (calm_thread _ _ _ _ _ _ IH Hp Hm Hi') as [?|[Ht|He]]; [done|..].
    + apply (iv_told _ Hi) in Ht. destruct IH as [Hx _ _ _]. cbn in *. congruence.
    + destruct (iv_errs _ Hi He) as [q Hq]. destruct Hq. apply IH.
  - right. destruct IH as [Hx Hsig Hup (ts0 & E & Hq)]. cbn in *. subst ts. constructor; cbn; [done..|].
    exists (ts0 ++ [binding fuel req]). split; [done|]. apply Forall_app. split; [done|]. apply Forall_singleton, bind_quiet.
  - apply Hend. destruct (Hset d Hd) as (m & ? & ?). by exists d, m.
  - right. destruct IH as [Hx Hsig Hup Ht]. constructor; cbn; rewrite ?keepalive_expired; done.
  - right. by destruct IH as [Hx Hsig Hup Ht]; constructor.
Qed.
End Timers.

(** C35: execd's process comes down when the sandbox's time is up, and does not
    come down by itself.  However binds, unbinds, keepalives, the timers, the two
    listeners, signals and [main] interleave, call by call:
    - the process ends only after an unbind, a signal, the return of a listener,
      or a timer that ran out at or after a deadline that a bind published or a
      keepalive answered;
    - in every fair execution a sandbox bound with a deadline takes the process
      down, whatever other handlers are in flight or still arrive, unless
      keepalives put its deadline off for ever (one bound without a deadline has
      no timer, even once a keepalive gives it one: [keepalive_ends_endless]);
    - so does an unbind, a timer that fires, and whatever else marked the Pod
      expired. *)
Theorem execd_comes_down who run :
  execution who run ->
  (forall n c, exited (run n) = Some c -> exists m, (m < n)%nat /\ ends who run m) /\
  (fair who run -> timely who run -> forall n sb N,
     publishes who run n sb -> sb_expiresAt sb <> 0%Z -> (forall m, (N <= m)%nat -> who m <> LKeepalive) ->
     exists m c, (n <= m)%nat /\ exited (run m) = Some c) /\
  (fair who run -> forall n,
     who n = LUnbind \/ who n = LTimer \/ es_expired (lf_srv (fst (run n))) = true ->
     exists m c, (n <= m)%nat /\ exited (run m) = Some c).
Proof.
  intros Hex. assert (Hc : forall n, (exists m, (n <= m)%nat /\ exited (run m) <> None) ->
    exists m c, (n <= m)%nat /\ exited (run m) = Some c).
  { intros n (m & Hm & Hd). destruct (exited (run m)) as [c|] eqn:E; [|done]. by exists m, c. }
  split; [|split].
  - intros n c Hx. destruct (calm_until who run Hex n) as [?|[_ _ _ (ts & E & _)]]; [done|].
    unfold exited in Hx. by rewrite E in Hx.
  - intros Hfair Htime n sb N Hp Hne HN. eapply Hc, deadline_exits; eauto.
  - intros Hfair n [Hw|[Hw|Hx]]; apply Hc.
    + apply (asked_exits who run); auto.
    + apply (asked_exits who run); auto.
    + by apply (expired_exits who run).
Qed.
End Process.

(** ** Witness: a command that is left running *)

(** One answer to each call, and the step of a label with it. *)
Definition answer (R : Type) (e : ExecE R) (l : Life) : R * Life :=
  match e in ExecE R return R * Life with
  | XNow => (lf_now l, l)
  | XPublish sb _ => (tt, renew (bind_publish sb (lf_srv l)) l)
  | XTake => (take (lf_srv l) 42, renew (Execd.expire (lf_srv l)) l)
  | XOnExpire reason => (tt, onExpire reason l)
  | e => (fst (world_host wit_world (Ok tt) _ e (lf_srv l)), l)
  end.
Definition drive_thread (p : Thread) (l : Life) : option (Thread * Life) :=
  match p with
  | Ret _ => None
  | Vis e k =>
      match e in LifeE R return (R -> Thread) -> option (Thread * Life) with
      | LX e => fun k => Some (k (fst (answer _ e l)), snd (answer _ e l))
      | LSelect => fun k =>
          match lf_shutdown l with Some reason => Some (k (WReason reason), with_shutdown None l) | None => None end
      | LShutdown _ => fun k => Some (k tt, l)
      end k
  end.
Abbreviation wit_step := (step wit_cfg 0 0 TierFilesystem (fun _ => "no")).
Abbreviation wit_expiring := (expiring wit_cfg 0).
Definition drive (a : Label) (s : Life * list Thread) : option (Life * list Thread) :=
  let '(l, ts) := s in
  match a with
  | LThread i =>
      match exited s, ts !! i with
      | None, Some p => option_map (fun q : Thread * Life => (snd q, <[i := fst q]> ts)) (drive_thread p l)
      | _, _ => None
      end
  | LBind =>
      match exited s with
      | None => Some (l, ts ++ [binding wit_cfg 0 0 TierFilesystem (fun _ => "no") 1 wit_bind])
      | Some _ => None
      end
  | LTimer =>
      match exited s, es_timer (lf_srv l) with
      | None, Some d => if (d <=? lf_now l)%Z then Some (l, ts ++ [wit_expiring "ttl"]) else None
      | _, _ => None
      end
  | LTick => Some (with_now (lf_now l + minute)%Z l, ts)
  | _ => None
  end.
Lemma answer_right R (e : ExecE R) l : exec_life R e l (fst (answer R e l)) (snd (answer R e l)).
Proof. destruct e; cbn; try done. by exists 42%Z. Qed.
Lemma drive_step a s s' : drive a s = Some s' -> wit_step a s s'.
Proof.
  destruct s as [l ts], a; cbn [drive]; try done.
  - destruct (exited (l, ts)) eqn:Ex; [done|]. destruct (ts !! i) as [p|] eqn:Ep; [|done].
    destruct (drive_thread p l) as [[q l']|] eqn:Ed; [|done]. cbn. intros [= <-]. apply (step_thread _ _ _ _ _ i l ts p q l'); [done|done|].
    destruct p as [|R e k]; [done|]. cbn in Ed |- *. destruct e as [R e| |plane].
    + injection Ed as <- <-. eexists. split; [apply answer_right|done].
    + destruct (lf_shutdown l) as [reason|] eqn:Er; [|done]. injection Ed as <- <-. exists (WReason reason). cbn. by rewrite Er.
    + injection Ed as <- <-. by exists tt.
  - destruct (exited (l, ts)) eqn:Ex; [done|]. intros [= <-]. by apply step_bind.
  - destruct (exited (l, ts)) eqn:Ex; [done|]. destruct (es_timer (lf_srv l)) as [d|] eqn:Ed; [|done].
    destruct (Z.leb_spec d (lf_now l)); [|done]. intros [= <-]. apply step_timer with (d := d); [done|by left|done].
  - intros [= <-]. apply step_tick. unfold minute, second, millisecond. lia.
Qed.

(** A bind, a minute, the timer, its expiry, [main]'s end; then only the clock. *)
Definition wit_labels : list Label :=
  [LBind] ++ replicate 16 (LThread 1) ++ [LTick; LTimer] ++ replicate 6 (LThread 2) ++ replicate 3 (LThread 0).
Definition wit_who (n : nat) : Label := default LTick (wit_labels !! n).
Fixpoint wit_run (n : nat) : Life * list Thread :=
  match n with
  | O => process_start 100%Z
  | S n => let s := wit_run n in default s (drive (wit_who n) s)
  end.
Lemma wit_run_S n : wit_run (S n) = default (wit_run n) (drive (wit_who n) (wit_run n)).
Proof. reflexivity. Qed.
Lemma wit_late n : (28 <= n)%nat -> wit_who n = LTick.
Proof. intros Hn. unfold wit_who. rewrite lookup_ge_None_2; [done|]. cbn. lia. Qed.
Lemma wit_driven n : exists s, drive (wit_who n) (wit_run n) = Some s /\ wit_run (S n) = s.
Proof.
  assert (H : drive (wit_who n) (wit_run n) <> None).
  { destruct (decide (n < 28)%nat) as [Hn|Hn].
    - assert (Hall : forallb (fun n => match drive (wit_who n) (wit_run n) with Some _ => true | None => false end) (seq 0 28)
        = true) by (vm_compute; reflexivity).
      assert (Hin : List.In n (seq 0 28)) by (apply List.in_seq; lia).
      pose proof (proj1 (List.forallb_forall _ _) Hall n Hin) as H. clear Hall. cbv beta in H.
      intros E. rewrite E in H. discriminate H.
    - rewrite wit_late by lia. by destruct (wit_run n). }
  destruct (drive (wit_who n) (wit_run n)) as [s|] eqn:E; [|done]. exists s. split; [done|]. by rewrite wit_run_S, E.
Qed.
Lemma wit_execution : execution wit_cfg 0 0 TierFilesystem (fun _ => "no") wit_who wit_run.
Proof.
  split; [by exists 100%Z|]. intros n. destruct (wit_driven n) as (s & E & ->). by apply drive_step.
Qed.
(** From then on [main] has returned, and only the clock goes on. *)
Lemma wit_ticks s n :
  wit_run 28 = s -> wit_run (n + 28) = (with_now (lf_now (fst s) + Z.of_nat n * minute)%Z (fst s), snd s).
Proof.
  intros E. induction n as [|n IH].
  - change (0 + 28)%nat with 28%nat. rewrite E. clear E. destruct s as [[] ts]. unfold with_now.
    cbn [fst snd lf_srv lf_shutdown lf_errs lf_up lf_signal lf_now lf_old]. by rewrite Z.add_0_r.
  - clear E. change (S n + 28)%nat with (S (n + 28)). rewrite wit_run_S, IH, (wit_late (n + 28) (Nat.le_add_l 28 n)).
    clear IH. cbn [drive default]. unfold with_now. cbn. do 2 f_equal. lia.
Qed.
Lemma wit_tail n :
  wit_run (n + 28) = (with_now (lf_now (fst (wit_run 28)) + Z.of_nat n * minute)%Z (fst (wit_run 28)), snd (wit_run 28)).
Proof. exact (wit_ticks _ n eq_refl). Qed.
Lemma wit_down n : (28 <= n)%nat -> exited (wit_run n) = Some 0%Z.
Proof.
  intros Hn. replace n with ((n - 28) + 28)%nat by lia. rewrite wit_tail. unfold exited. cbn [snd].
  vm_compute. reflexivity.
Qed.
Lemma wit_fair : fair wit_cfg 0 0 TierFilesystem (fun _ => "no") wit_who wit_run.
Proof.
  intros i n. exists (n + 28)%nat. split; [lia|right]. intros [s' Hs].
  assert (Hd : exited (wit_run (n + 28)) = None) by by inversion Hs. by rewrite wit_down in Hd by lia.
Qed.
Lemma wit_timely : timely wit_who wit_run.
Proof.
  split.
  - intros d. exists (Z.to_nat d + 28)%nat. rewrite wit_tail. cbn [fst lf_now with_now].
    assert (E : lf_now (fst (wit_run 28)) = 60000000100%Z) by (vm_compute; reflexivity). rewrite E.
    unfold minute, second. lia.
  - intros d n. exists (n + 28)%nat. split; [lia|right]. intros (Hd & _). by rewrite wit_down in Hd by lia.
Qed.
Lemma execd_comes_down_wit :
  (exists sb, publishes wit_who wit_run 16 sb /\ sb_expiresAt sb = 60000000100%Z) /\
  exists m c, (16 <= m)%nat /\ exited (wit_run m) = Some c.
Proof.
  assert (Hp : exists sb, publishes wit_who wit_run 16 sb /\ sb_expiresAt sb = 60000000100%Z).
  { assert (E : match snd (wit_run 16) !! 1%nat with
                | Some p => match publishing p with Some sb => sb_expiresAt sb | None => 0%Z end
                | None => 0%Z
                end = 60000000100%Z) by (vm_compute; reflexivity).
    destruct (snd (wit_run 16) !! 1%nat) as [p|] eqn:Ep; [|discriminate E].
    destruct (publishing p) as [sb|] eqn:Eb; [|discriminate E].
    exists sb. split; [|exact E]. exists 1%nat, p. split; [reflexivity|]. split; [exact Ep|exact Eb]. }
  split; [exact Hp|]. destruct Hp as (sb & Hp & E).
  destruct (execd_comes_down wit_cfg 0 0 TierFilesystem (fun _ => "no") wit_who wit_run wit_execution) as (_ & Hgo & _).
  apply (Hgo wit_fair wit_timely 16%nat sb 28%nat Hp).
  - rewrite E. discriminate.
  - intros m Hm. rewrite wit_late by exact Hm. discriminate.
Defined.
