(* ===== verification/DataPath.v ===== *)
(** * From the caller to jdix-init: both gates together (gateway/server.go, transport.go; execd/proxy.go)

    The gateway decides by the caller's API key, execd by the sandbox's token.
    Here the request the first sends is the request the second receives, over
    either transport, and the two are composed. *)
From S2P Require Import Prelude Calls GoStrings Api Bwrap Crd Url Route Gateway Execd ExecdRun.
Open Scope string_scope.

(** What a reverse proxy starts the outbound request from. *)
Definition outbound_of (r : Request) : Outbound :=
  {| ob_Origin := ""; ob_Host := rq_Host r; ob_URL := rq_URL r; ob_Header := rq_Header r |}.
(** What execd's server is handed of what the gateway sent to the Pod's port
    8080: all of it when the Pod is dialled; the API server's proxy takes its own
    part off the path, and the Authorization header with it. *)
Definition arrives (tr : Transport) (t : Target) (rt : Route) (r : Request) (out : Outbound) : Request :=
  let url := ob_URL out in
  match tr with
  | DirectTransport =>
      {| rq_Method := rq_Method r; rq_Host := ob_Host out; rq_URL := url; rq_Header := ob_Header out;
         rq_RemoteAddr := ""; rq_TLS := false; rq_Body := rq_Body r |}
  | APIProxyTransport _ =>
      {| rq_Method := rq_Method r; rq_Host := ob_Host out;
         rq_URL := {| u_Path := trim_prefix (u_Path url) (upstream_prefix tr t rt);
                      u_RawPath := trim_prefix (u_RawPath url) (upstream_prefix tr t rt);
                      u_RawQuery := u_RawQuery url |};
         rq_Header := header_del "Authorization" (ob_Header out);
         rq_RemoteAddr := ""; rq_TLS := false; rq_Body := rq_Body r |}
  end.

Section Path.
Context {E : Type} (decode : string -> result string Z) (sv : Server E).
Abbreviation tr := (transport sv).
(** execd's answer to what the gateway forwards for [r]. *)
Definition at_execd (now : Time) (t : Target) (rt : Route) (r : Request) (out : Outbound) (pod : ExecdServer)
    : DataAnswer * ExecdServer :=
  let r' := arrives tr t rt r out in DataHandler now r' (outbound_of r') pod.

Lemma auth_not_forwarding k :
  k = "Authorization" \/ k = ControlTokenHeader ->
  k ∉ ["X-Forwarded-For"; "X-Forwarded-Proto"; "X-Forwarded-Prefix"].
Proof.
  intros Hk. rewrite !not_elem_of_cons. destruct Hk as [-> | ->];
    (do 3 (split; [discriminate|])); apply not_elem_of_nil.
Qed.
(** Of every credential the caller may have sent, header or query parameter,
    nothing is left: what is there of them is the sandbox's own token, where the
    transport puts it. *)
Record cleared (t : Target) (r : Request) (h : Header) (u : URL) : Prop := {
  cl_headers : forall k, k = "Authorization" \/ k = ControlTokenHeader ->
    h !! k = None \/ (k = token_header tr /\ tg_Token t <> "" /\ h !! k = Some [token_value tr (tg_Token t)]);
  cl_query : parse_query (u_RawQuery u) = base.delete "token" (parse_query (u_RawQuery r.(rq_URL))) }.
Lemma hook_clears r t rt :
  rt_UserPort rt = false ->
  let r' := arrives tr t rt r (rewrite_hook sv r t rt (outbound_of r)) in
  cleared t r (rq_Header r') (rq_URL r') /\
  rq_Header r' !! token_header tr = (if decide (tg_Token t = "") then None else Some [token_value tr (tg_Token t)]).
Proof.
  intros Hu. cbv zeta. destruct (rewrite_hook_spec sv r t rt (outbound_of r)) as (Hurl & _ & _ & _ & Hrest).
  destruct (Rewrite_spec tr (rq_Host r) t rt (outbound_of r)) as (Hq & _ & _ & Hh). cbv zeta in *.
  assert (Hk : forall k, k = "Authorization" \/ k = ControlTokenHeader ->
    ob_Header (rewrite_hook sv r t rt (outbound_of r)) !! k =
    if decide (tg_Token t <> "" /\ k = token_header tr) then Some [token_value tr (tg_Token t)] else None).
  { intros k Hk. rewrite Hrest, Hh by by apply auth_not_forwarding.
    destruct (decide (tg_Token t <> "" /\ k = token_header tr)) as [[Ht Hkt]|Hn].
    - by rewrite decide_True.
    - rewrite decide_False by tauto. by rewrite decide_True. }
  rewrite <-Hurl in Hq. clear Hrest Hh Hurl. revert Hk Hq. generalize (rewrite_hook sv r t rt (outbound_of r)).
  intros out Hk Hq. split; [split|].
  - intros k Hkk. assert (Eh : rq_Header (arrives tr t rt r out) !! k = None \/
      rq_Header (arrives tr t rt r out) !! k = ob_Header out !! k).
    { unfold arrives. destruct tr; cbn [rq_Header]; [by right|]. unfold header_del.
      destruct (decide (k = "Authorization")) as [->|]; [left; apply lookup_delete_eq|right; by apply lookup_delete_ne]. }
    destruct Eh as [Eh|Eh]; [by left|]. rewrite Eh, Hk by done. clear Hk Hq Eh.
    destruct (decide _) as [[Ht Hkt]|]; [right; by split_and!|by left].
  - unfold arrives. by destruct tr.
  - assert (Ht : token_header tr = "Authorization" \/ token_header tr = ControlTokenHeader) by (destruct tr; tauto).
    assert (rq_Header (arrives tr t rt r out) !! token_header tr = ob_Header out !! token_header tr) as ->.
    { unfold arrives. destruct tr; cbn [rq_Header token_header]; [done|]. unfold header_del. by rewrite lookup_delete_ne. }
    rewrite Hk by done. repeat case_decide; tauto.
Qed.
(** So execd reads the sandbox's own token, or none. *)
Lemma hook_bearer r t rt :
  rt_UserPort rt = false -> execd_bearer (arrives tr t rt r (rewrite_hook sv r t rt (outbound_of r))) = tg_Token t.
Proof.
  intros Hu. destruct (hook_clears r t rt Hu) as [[Hh Hq] Hk]. revert Hh Hq Hk. generalize (arrives tr t rt r).
  intros f. generalize (f (rewrite_hook sv r t rt (outbound_of r))). clear f. intros r' Hh Hq Hk.
  assert (Hno : query_get (parse_query (u_RawQuery (rq_URL r'))) "token" = "").
  { rewrite Hq. unfold query_get. by rewrite lookup_delete_eq. }
  unfold execd_bearer, header_get. pose proof (Hh "Authorization" (or_introl eq_refl)) as Ha.
  pose proof (Hh ControlTokenHeader (or_intror eq_refl)) as Hc. clear Hh.
  destruct tr; cbn [token_header token_value] in *; rewrite Hk.
  - destruct Hc as [-> |[[=] _]]. destruct (decide _) as [->|]; [exact Hno|]. cbv beta iota zeta. by rewrite has_prefix_app, trim_prefix_app.
  - destruct Ha as [-> |[[=] _]]. destruct (decide _) as [->|]; cbn; [exact Hno|]. by rewrite bool_decide_eq_false_2.
Qed.
Lemma hook_path r t rt o : u_Path (rq_URL (arrives tr t rt r (rewrite_hook sv r t rt o))) = rt_Rest rt.
Proof.
  destruct (rewrite_hook_spec sv r t rt o) as (Hurl & _). destruct (Rewrite_spec tr (rq_Host r) t rt o) as (_ & Hp & _).
  cbv zeta in *. unfold arrives. destruct tr as [|base] eqn:Etr; cbn [rq_URL u_Path]; rewrite Hurl, Hp; [done|apply trim_prefix_app].
Qed.
Lemma arrives_method r t rt out : rq_Method (arrives tr t rt r out) = rq_Method r.
Proof. unfold arrives. by destruct tr. Qed.

(** The Pod serves the sandbox whose token this is, and its time is not up. *)
Definition bound_for (now : Time) (token : string) (pod : ExecdServer) (sb : sandbox) : Prop :=
  es_sb pod = Some sb /\ sb_token sb = token /\ token <> "" /\ (sb_expiresAt sb = 0%Z \/ (now <= sb_expiresAt sb)%Z).
Definition refused_token : DataAnswer := DataReply (RError 401 "unauthorized" "invalid or missing sandbox token").
Definition gone : DataAnswer := DataReply (RError 410 "expired" "this sandbox has expired").
Lemma in_time now sb :
  (negb (is_zero_time (sb_expiresAt sb)) && after now (sb_expiresAt sb))%bool = false <->
  (sb_expiresAt sb = 0%Z \/ (now <= sb_expiresAt sb)%Z).
Proof.
  unfold is_zero_time, after. destruct (Z.eqb_spec (sb_expiresAt sb) 0) as [->|], (Z.ltb_spec (sb_expiresAt sb) now); cbn;
    intuition (try done || lia).
Qed.
Lemma data_plane_refuses now r' s :
  has_prefix (u_Path (rq_URL r')) "/v1/" = true -> ~ (exists sb, bound_for now (execd_bearer r') s sb) ->
  DataHandler now r' (outbound_of r') s = (refused_token, s) \/
  (DataHandler now r' (outbound_of r') s = (gone, s) /\
   exists sb, es_sb s = Some sb /\ sb_token sb = execd_bearer r').
Proof.
  intros Hp Hn. unfold DataHandler, data_plane, authorised. rewrite Hp.
  destruct (es_sb s) as [sb|] eqn:Es; [|by left]. destruct (tokenMatches _ _) eqn:Em; [|by left].
  apply tokenMatches_spec in Em as [Et Hne]. rewrite <-Et in Hne.
  destruct (negb (is_zero_time (sb_expiresAt sb)) && after now (sb_expiresAt sb))%bool eqn:Ex.
  - right. split; [done|]. by exists sb.
  - destruct Hn. exists sb. apply in_time in Ex. by repeat split.
Qed.
Lemma data_plane_admits now r' s sb :
  has_prefix (u_Path (rq_URL r')) "/v1/" = true -> bound_for now (execd_bearer r') s sb ->
  DataHandler now r' (outbound_of r') s =
  if decide (u_Path (rq_URL r') = "/v1/keepalive" /\ rq_Method r' = "POST")
  then (DataReply (fst (keepalive now r' (sb_id sb) s)), snd (keepalive now r' (sb_id sb) s))
  else (DataForward (data_rewrite (outbound_of r')), s).
Proof.
  intros Hp (Es & Et & Hne & Hx%in_time). unfold DataHandler, data_plane, authorised. rewrite Hp, Es.
  rewrite (proj2 (tokenMatches_spec _ _)) by (by rewrite Et). rewrite Hx, <-bool_decide_and. case_bool_decide as Hk.
  - rewrite decide_True by done. unfold keepalive. rewrite Es, bool_decide_eq_true_2 by done. done.
  - by rewrite decide_False.
Qed.

End Path.

(** ** Witness: a tenant's command, through the API server *)

Definition wit_proxied_gateway : Server string :=
  {| sv_Resolver := sv_Resolver wit_gateway; sv_Router := sv_Router wit_gateway; sv_Suffix := "";
     sv_Transport := Some (APIProxyTransport "https://kubernetes"); sv_Auth := sv_Auth wit_gateway |}.
Definition wit_pod (token : string) : ExecdServer :=
  {| es_sb := Some {| sb_id := "sbx-1"; sb_tenant := "acme"; sb_token := token; sb_boundAt := 0%Z;
                      sb_expiresAt := 500%Z; sb_argv := [] |};
     es_expired := false; es_timer := Some 500%Z |}.
Definition wit_command : Request :=
  {| rq_Method := rq_Method wit_gw_request; rq_Host := rq_Host wit_gw_request;
     rq_URL := {| u_Path := u_Path (rq_URL wit_gw_request); u_RawPath := u_RawPath (rq_URL wit_gw_request);
                  u_RawQuery := "token=mine&wait=1" |};
     rq_Header := header_set ControlTokenHeader "mine" (rq_Header wit_gw_request);
     rq_RemoteAddr := rq_RemoteAddr wit_gw_request; rq_TLS := rq_TLS wit_gw_request; rq_Body := rq_Body wit_gw_request |}.
