(* ===== verification/Location.v ===== *)
(** * Redirects through the gateway (gateway/server.go, 417-445; net/url)

    [url.Parse] and [URL.String] as far as a Location header needs them, and
    what [rewriteLocation] and the proxy's [ModifyResponse] make of a response
    under path routing.

    A host with a bracket (an IP literal) is the parameter [ip_literal], whose
    rules changed between releases of [net/url]; every other host is parsed and
    printed here. *)
From S2P Require Import Prelude GoStrings Url Route Mux Gateway.
Open Scope string_scope.

(** ** References *)

Record Userinfo := { ui_username : string; ui_password : option string }.
Record Ref := {
  rf_Scheme : string;
  rf_Opaque : string;
  rf_User : option Userinfo;
  rf_Host : string;
  rf_URL : URL;
  rf_ForceQuery : bool;
  rf_Fragment : string;
  rf_RawFragment : string;
  rf_OmitHost : bool }.

Definition is_digit (a : ascii) : bool := let n := nat_of_ascii a in ((48 <=? n) && (n <=? 57))%nat.
Definition is_ctl (a : ascii) : bool := let n := nat_of_ascii a in ((n <? 32) || (n =? 127))%nat.
Fixpoint all_bytes_are (f : ascii -> bool) (s : string) : bool :=
  match s with EmptyString => true | String a s' => f a && all_bytes_are f s' end.
Definition question : ascii := "?"%char.
Definition hash : ascii := "#"%char.
Definition at_sign : ascii := "@"%char.
Definition bracket : ascii := "["%char.

(** [getScheme] *)
Inductive SchemeScan := NoScheme | MissingScheme | SchemeThen (scheme rest : string).
Definition scheme_cons (a : ascii) (r : SchemeScan) : SchemeScan :=
  match r with SchemeThen scheme rest => SchemeThen (String a scheme) rest | r => r end.
Fixpoint scan_scheme (first : bool) (s : string) : SchemeScan :=
  match s with
  | EmptyString => NoScheme
  | String c s' =>
      if is_alnum c && negb (is_digit c) then scheme_cons c (scan_scheme false s')
      else if is_digit c || one_of c "+-." then
        if first then NoScheme else scheme_cons c (scan_scheme false s')
      else if ascii_dec c colon then if first then MissingScheme else SchemeThen "" s'
      else NoScheme
  end.
Definition getScheme (raw : string) : option (string * string) :=
  match scan_scheme true raw with
  | NoScheme => Some ("", raw)
  | MissingScheme => None
  | SchemeThen scheme rest => Some (scheme, rest)
  end.

(** [unescape] in the host's mode: only bytes outside ASCII, and the percent
    sign, may be escaped, and nothing that would have to be may be plain. *)
Fixpoint host_escapes (s : string) : bool :=
  match s with
  | EmptyString => true
  | String a s' =>
      if ascii_dec a "%" then
        match s' with
        | String h (String l s'') =>
            match hex_val h, hex_val l with
            | Some x, Some y => ((8 <=? x)%nat || ((x =? 2) && (y =? 5))%nat) && host_escapes s''
            | _, _ => false
            end
        | _ => false
        end
      else ((128 <=? nat_of_ascii a)%nat || negb (shouldEscape a encodeHost)) && host_escapes s'
  end.
Definition unescape_host (s : string) : option string :=
  if host_escapes s then unescape s encodeHost else None.

Definition validOptionalPort (port : string) : bool :=
  match port with
  | EmptyString => true
  | String c ds => (if ascii_dec c colon then true else false) && all_bytes_are is_digit ds
  end.
Definition validUserinfo (s : string) : bool :=
  all_bytes_are (fun a => is_alnum a || one_of a "-._:~!$&'()*+,;=%@") s.

Section Parse.
(** [parseHost] on a host that holds an opening bracket. *)
Context (ip_literal : string -> option string).

(** PostgreSQL's lists of hosts have a colon each; any other host has one. *)
Definition port_index (scheme host : string) : option nat :=
  if bool_decide (scheme = "postgresql") || bool_decide (scheme = "postgres")
  then last_index_byte host colon else index_byte host colon.
Definition parseHost (scheme host : string) : option string :=
  if contains_byte host bracket then ip_literal host
  else match port_index scheme host with
       | Some i => if validOptionalPort (drop_string i host) then unescape_host host else None
       | None => unescape_host host
       end.
Definition parse_user (userinfo : string) : option Userinfo :=
  if negb (validUserinfo userinfo) then None
  else
    let '(name, password, found) := cut userinfo colon in
    match unescape name encodeUserPassword with
    | None => None
    | Some name =>
        if found : bool then
          match unescape password encodeUserPassword with
          | None => None
          | Some password => Some {| ui_username := name; ui_password := Some password |}
          end
        else Some {| ui_username := name; ui_password := None |}
    end.
Definition parseAuthority (scheme authority : string) : option (option Userinfo * string) :=
  match last_index_byte authority at_sign with
  | None => match parseHost scheme authority with Some host => Some (None, host) | None => None end
  | Some i =>
      match parseHost scheme (drop_string (S i) authority), parse_user (take_string i authority) with
      | Some host, Some user => Some (Some user, host)
      | _, _ => None
      end
  end.

(** What is left, the query, and whether there was an empty one. *)
Definition split_query (rest : string) : string * string * bool :=
  if has_suffix rest "?" && (count_byte rest question =? 1)%nat
  then (take_string (String.length rest - 1) rest, "", true)
  else let '(rest, query, _) := cut rest question in (rest, query, false).
Definition split_authority (rest : string) : string * string :=
  match index_byte rest slash with
  | Some i => (take_string i rest, drop_string i rest)
  | None => (rest, "")
  end.
(** The user, the host, [OmitHost] and the path of what follows the scheme. *)
Definition parse_hier (scheme rest : string) : option (option Userinfo * string * bool * string) :=
  let named := negb (bool_decide (scheme = "")) in
  if (named || negb (has_prefix rest "///")) && has_prefix rest "//" then
    let '(authority, path) := split_authority (drop_string 2 rest) in
    match parseAuthority scheme authority with
    | Some (user, host) => Some (user, host, false, path)
    | None => None
    end
  else Some (None, "", named && has_prefix rest "/", rest).
(** [setPath] *)
Definition setPath (path query : string) : option URL :=
  match unescape path encodePath with
  | None => None
  | Some dec =>
      Some {| u_Path := dec;
              u_RawPath := if bool_decide (path = escape dec encodePath) then "" else path;
              u_RawQuery := query |}
  end.
Definition plain_ref (u : URL) : Ref :=
  {| rf_Scheme := ""; rf_Opaque := ""; rf_User := None; rf_Host := ""; rf_URL := u;
     rf_ForceQuery := false; rf_Fragment := ""; rf_RawFragment := ""; rf_OmitHost := false |}.
(** [parse] with [viaRequest] false. *)
Definition parse_ref (raw : string) : option Ref :=
  if negb (all_bytes_are (fun a => negb (is_ctl a)) raw) then None
  else if bool_decide (raw = "*") then Some (plain_ref {| u_Path := "*"; u_RawPath := ""; u_RawQuery := "" |})
  else
    match getScheme raw with
    | None => None
    | Some (scheme, rest) =>
        let scheme := to_lower scheme in
        let '(rest, query, force) := split_query rest in
        if negb (has_prefix rest "/") && negb (bool_decide (scheme = "")) then
          Some {| rf_Scheme := scheme; rf_Opaque := rest; rf_User := None; rf_Host := "";
                  rf_URL := {| u_Path := ""; u_RawPath := ""; u_RawQuery := query |};
                  rf_ForceQuery := force; rf_Fragment := ""; rf_RawFragment := ""; rf_OmitHost := false |}
        else if negb (has_prefix rest "/") && contains_byte (fst (fst (cut rest slash))) colon then None
        else
          match parse_hier scheme rest with
          | None => None
          | Some (user, host, omit, path) =>
              match setPath path query with
              | None => None
              | Some u =>
                  Some {| rf_Scheme := scheme; rf_Opaque := ""; rf_User := user; rf_Host := host;
                          rf_URL := u; rf_ForceQuery := force; rf_Fragment := "";
                          rf_RawFragment := ""; rf_OmitHost := omit |}
              end
          end
    end.
Definition set_fragment (dec raw : string) (r : Ref) : Ref :=
  {| rf_Scheme := rf_Scheme r; rf_Opaque := rf_Opaque r; rf_User := rf_User r; rf_Host := rf_Host r;
     rf_URL := rf_URL r; rf_ForceQuery := rf_ForceQuery r; rf_Fragment := dec; rf_RawFragment := raw;
     rf_OmitHost := rf_OmitHost r |}.
(** [url.Parse] *)
Definition Parse (raw : string) : option Ref :=
  let '(u, frag, _) := cut raw hash in
  match parse_ref u with
  | None => None
  | Some r =>
      if bool_decide (frag = "") then Some r
      else match unescape frag encodeFragment with
           | None => None
           | Some dec =>
               Some (set_fragment dec (if bool_decide (frag = escape dec encodeFragment) then "" else frag) r)
           end
  end.

(** ** [URL.String] *)

Definition EscapedFragment (r : Ref) : string :=
  if negb (bool_decide (rf_RawFragment r = "")) && validEncoded (rf_RawFragment r) encodeFragment &&
     bool_decide (unescape (rf_RawFragment r) encodeFragment = Some (rf_Fragment r))
  then rf_RawFragment r else escape (rf_Fragment r) encodeFragment.
Definition Userinfo_String (u : Userinfo) : string :=
  escape (ui_username u) encodeUserPassword +:+
  match ui_password u with Some p => ":" +:+ escape p encodeUserPassword | None => "" end.
Definition authority_string (r : Ref) : string :=
  let user := match rf_User r with Some u => Userinfo_String u +:+ "@" | None => "" end in
  let hosted := negb (bool_decide (rf_Host r = "")) || bool_decide (is_Some (rf_User r)) in
  if negb (bool_decide (rf_Scheme r = "")) || hosted then
    if rf_OmitHost r && negb hosted then ""
    else (if hosted || negb (bool_decide (u_Path (rf_URL r) = "")) then "//" else "") +:+
         user +:+ escape (rf_Host r) encodeHost
  else "".
Definition scheme_string (r : Ref) : string :=
  if bool_decide (rf_Scheme r = "") then "" else rf_Scheme r +:+ ":".
Definition hier_string (r : Ref) : string :=
  let path := EscapedPath (rf_URL r) in
  let buf := scheme_string r +:+ authority_string r in
  let buf := if negb (bool_decide (path = "")) && negb (has_prefix path "/") && negb (bool_decide (rf_Host r = ""))
             then buf +:+ "/" else buf in
  let buf := if bool_decide (buf = "") && contains_byte (fst (fst (cut path slash))) colon then "./" else buf in
  buf +:+ path.
Definition query_string (r : Ref) : string :=
  if rf_ForceQuery r || negb (bool_decide (u_RawQuery (rf_URL r) = ""))
  then "?" +:+ u_RawQuery (rf_URL r) else "".
Definition fragment_string (r : Ref) : string :=
  if bool_decide (rf_Fragment r = "") then "" else "#" +:+ EscapedFragment r.
Definition URL_String (r : Ref) : string :=
  (if negb (bool_decide (rf_Opaque r = "")) then scheme_string r +:+ rf_Opaque r else hier_string r) +:+
  query_string r +:+ fragment_string r.

(** ** What the gateway does with a response *)

Definition set_url (u : URL) (r : Ref) : Ref :=
  {| rf_Scheme := rf_Scheme r; rf_Opaque := rf_Opaque r; rf_User := rf_User r; rf_Host := rf_Host r;
     rf_URL := u; rf_ForceQuery := rf_ForceQuery r; rf_Fragment := rf_Fragment r;
     rf_RawFragment := rf_RawFragment r; rf_OmitHost := rf_OmitHost r |}.
Definition prefixed (prefix : string) (r : Ref) : Ref :=
  set_url {| u_Path := prefix +:+ u_Path (rf_URL r); u_RawPath := ""; u_RawQuery := u_RawQuery (rf_URL r) |} r.
Definition rewriteLocation (h : Header) (prefix host : string) : Header :=
  let loc := header_get h "Location" in
  if bool_decide (loc = "") then h
  else
    match Parse loc with
    | None => h
    | Some u =>
        if negb (bool_decide (rf_Host u = "")) && negb (equal_fold (rf_Host u) host) then h
        else if negb (has_prefix (u_Path (rf_URL u)) "/") then h
        else header_set "Location" (URL_String (prefixed prefix u)) h
    end.

(** What the hooks find on the request's context. *)
Record proxyRoute := { pr_target : Target; pr_route : Route; pr_host : string }.
Definition ModifyResponse (pt : option proxyRoute) (h : Header) : Header :=
  match pt with
  | None => h
  | Some pt =>
      let prefix := rt_Prefix (pr_route pt) in
      if bool_decide (prefix = "") then h
      else rewriteCookiePaths (rewriteLocation h prefix (pr_host pt)) prefix
  end.
End Parse.

(** ** The handler in front *)

(** The mux sends a client to the canonical path before anything is served. *)
Inductive Served (E : Type) := SToClean (path : string) | SHealthy | SRouted (a : Answer E).
Arguments SToClean {E} path.
Arguments SHealthy {E}.
Arguments SRouted {E} a.
Definition gateway_mux {E} decode (s : Server E) (now : Time) (r : Request) (o : Outbound) : Served E :=
  let path := EscapedPath (rq_URL r) in
  if negb (canonical_path r)
  then SToClean (cleanPath path)
  else if bool_decide (path = "/healthz") &&
          (bool_decide (rq_Method r = "GET") || bool_decide (rq_Method r = "HEAD")) then SHealthy
  else SRouted (serve_route decode s now r o).

(** ** Bytes *)

Lemma all_are_app f s t : all_bytes_are f (s +:+ t) = all_bytes_are f s && all_bytes_are f t.
Proof. induction s as [|a s IH]; cbn; [done|]. by rewrite IH, andb_assoc. Qed.
Lemma all_are_mono (f g : ascii -> bool) s :
  (forall a, f a = true -> g a = true) -> all_bytes_are f s = true -> all_bytes_are g s = true.
Proof.
  intros H. induction s as [|a s IH]; cbn; [done|]. intros [? ?]%andb_prop.
  by rewrite H, IH.
Qed.
Lemma all_are_no_byte f c s : f c = false -> all_bytes_are f s = true -> no_byte c s.
Proof.
  intros Hc. induction s as [|a s IH]; cbn; [done|]. intros [Ha Hs]%andb_prop.
  split; [|by apply IH]. intros ->. congruence.
Qed.
Lemma all_are_left f l r c s : cut s c = (l, r, true) \/ cut s c = (l, r, false) ->
  all_bytes_are f s = true -> all_bytes_are f l = true /\ all_bytes_are f r = true.
Proof.
  revert l r. induction s as [|a s IH]; cbn; intros l r.
  { intros [|[= <- <-]]; done. }
  destruct (ascii_dec a c) as [->|].
  - intros [[= <- <-]|]; [|done]. by intros [_ ?]%andb_prop.
  - destruct (cut s c) as [[l' r'] ok]. intros H [Ha Hs]%andb_prop.
    assert (H' : l = String a l' /\ r = r' /\ (ok = true \/ ok = false)) by (destruct H as [[= <- <- ->]|[= <- <- ->]]; auto).
    destruct H' as (-> & -> & Hok). cbn. destruct (IH l' r') as [-> ->]; [|done|by rewrite Ha].
    destruct Hok as [-> | ->]; auto.
Qed.

(** What escaping leaves: the bytes that need none, percent signs and upper-case
    hexadecimal digits. *)
Definition escape_class (f : ascii -> bool) (mode : encoding) : bool :=
  all_bytes (fun a => f (upper_hex (nat_of_ascii a / 16)) && f (upper_hex (nat_of_ascii a mod 16)) &&
    (bool_decide (a = space) || shouldEscape a mode || f a)) && f "%"%char && f "2"%char && f "0"%char.
Lemma escape_all f mode s :
  mode <> encodeQueryComponent -> escape_class f mode = true -> all_bytes_are f (escape s mode) = true.
Proof.
  intros Hm [[[H Hp]%andb_prop H2]%andb_prop H0]%andb_prop. pose proof (all_bytes_spec _ H) as Hb. clear H.
  induction s as [|a s IH]; [done|]. cbn [escape]. specialize (Hb a). cbv beta in Hb.
  apply andb_prop in Hb as [[Hx Hy]%andb_prop Ha].
  destruct (ascii_dec a space) as [->|Hne].
  { destruct mode; try done; cbn [all_bytes_are]; by rewrite Hp, H2, H0, IH. }
  destruct (shouldEscape a mode).
  - cbv zeta. cbn [all_bytes_are]. by rewrite Hp, Hx, Hy, IH.
  - rewrite bool_decide_eq_false_2 in Ha by done. cbn in Ha. cbn [all_bytes_are]. by rewrite Ha, IH.
Qed.
Lemma escape_no_byte c mode s :
  mode <> encodeQueryComponent -> escape_class (fun a => negb (bool_decide (a = c))) mode = true ->
  no_byte c (escape s mode).
Proof.
  intros Hm Hc. apply (all_are_no_byte (fun a => negb (bool_decide (a = c)))).
  - by rewrite bool_decide_eq_true_2.
  - by apply escape_all.
Qed.
Lemma escape_app s t mode : escape (s +:+ t) mode = escape s mode +:+ escape t mode.
Proof.
  induction s as [|a s IH]; [done|]. cbn [String.append escape].
  destruct (ascii_dec a space); [destruct mode; cbn; by rewrite IH|].
  destruct (shouldEscape a mode); cbv zeta; cbn; by rewrite IH.
Qed.
Lemma escape_nil s mode : escape s mode = "" <-> s = "".
Proof.
  split; [|by intros ->]. destruct s as [|a s]; [done|]. cbn [escape].
  destruct (ascii_dec a space); [by destruct mode|]. by destruct (shouldEscape a mode).
Qed.

(** ** Schemes *)

Definition scheme_byte (a : ascii) : bool := is_alnum a || one_of a "+-.".
(** What [getScheme] accepts, after [ToLower]. *)
Definition scheme_ok (s : string) : Prop :=
  to_lower s = s /\
  exists a t, s = String a t /\ is_alnum a && negb (is_digit a) = true /\ all_bytes_are scheme_byte t = true.

Lemma scan_scheme_then first s scheme rest :
  scan_scheme first s = SchemeThen scheme rest ->
  s = scheme +:+ ":" +:+ rest /\ all_bytes_are scheme_byte scheme = true /\
  (first = true -> exists a t, scheme = String a t /\ is_alnum a && negb (is_digit a) = true).
Proof.
  revert first scheme. induction s as [|a s IH]; intros first scheme; cbn [scan_scheme]; [done|].
  assert (Hcons : scheme_byte a = true -> (first = true -> is_alnum a && negb (is_digit a) = true) ->
    scheme_cons a (scan_scheme false s) = SchemeThen scheme rest ->
    String a s = scheme +:+ ":" +:+ rest /\ all_bytes_are scheme_byte scheme = true /\
    (first = true -> exists a t, scheme = String a t /\ is_alnum a && negb (is_digit a) = true)).
  { intros Hb Hf. destruct (scan_scheme false s) as [| |sc r] eqn:E; try done. intros [= <- <-].
    destruct (IH _ _ E) as (-> & Hs & _). cbn. rewrite Hb, Hs. split; [done|]. split; [done|].
    intros ->. eauto. }
  destruct (is_alnum a && negb (is_digit a)) eqn:Ea.
  { apply Hcons; [|done]. unfold scheme_byte. by apply andb_prop in Ea as [-> _]. }
  destruct (is_digit a || one_of a "+-.") eqn:Eb.
  { destruct first; [done|]. apply Hcons; [|done]. unfold scheme_byte.
    apply orb_prop in Eb as [Eb| ->]; [|apply orb_true_r].
    assert (H := all_bytes_spec (fun a => negb (is_digit a) || is_alnum a) ltac:(vm_compute; reflexivity) a).
    cbv beta in H. rewrite Eb in H. cbn in H. by rewrite H. }
  destruct (ascii_dec a colon) as [->|]; [|done]. destruct first; [done|]. intros [= <- <-]. done.
Qed.
Lemma scan_scheme_run first s rest :
  all_bytes_are scheme_byte s = true ->
  (first = true -> exists a t, s = String a t /\ is_alnum a && negb (is_digit a) = true) ->
  scan_scheme first (s +:+ ":" +:+ rest) = SchemeThen s rest.
Proof.
  revert first. induction s as [|a s IH]; intros first.
  { intros _ Hf. destruct first; [|done]. by destruct Hf as (? & ? & ? & _). }
  cbn [all_bytes_are String.append scan_scheme]. intros [Ha Hs]%andb_prop Hf.
  rewrite IH by done. destruct (is_alnum a && negb (is_digit a)) eqn:Ea; [done|].
  assert (is_digit a || one_of a "+-." = true) as ->.
  { unfold scheme_byte in Ha. apply orb_prop in Ha as [Ha| ->]; [|apply orb_true_r].
    rewrite Ha in Ea. cbn in Ea. by apply negb_false_iff in Ea as ->. }
  destruct first; [|done]. destruct Hf as (b & t & [= <- <-] & Hb); [done|]. congruence.
Qed.
Lemma to_lower_idem s : to_lower (to_lower s) = to_lower s.
Proof.
  induction s as [|a s IH]; cbn; [done|]. rewrite IH. f_equal.
  assert (H := all_bytes_spec (fun a => Ascii.eqb (lower_ascii (lower_ascii a)) (lower_ascii a))
    ltac:(vm_compute; reflexivity) a). by apply Ascii.eqb_eq in H.
Qed.
Lemma to_lower_all f s : all_bytes (fun a => negb (f a) || f (lower_ascii a)) = true ->
  all_bytes_are f s = true -> all_bytes_are f (to_lower s) = true.
Proof.
  intros H. pose proof (all_bytes_spec _ H) as Hb. induction s as [|a s IH]; cbn; [done|].
  intros [Ha Hs]%andb_prop. specialize (Hb a). cbv beta in Hb. rewrite Ha in Hb. cbn in Hb. by rewrite Hb, IH.
Qed.
Lemma getScheme_ok raw scheme rest :
  getScheme raw = Some (scheme, rest) ->
  (scheme = "" /\ rest = raw) \/ (scheme_ok (to_lower scheme) /\ raw = scheme +:+ ":" +:+ rest).
Proof.
  unfold getScheme. destruct (scan_scheme true raw) as [| |sc r] eqn:E; intros [= <- <-]; [by left|right].
  apply scan_scheme_then in E as (-> & Hs & Hf). destruct (Hf eq_refl) as (a & t & -> & Ha).
  split; [|done]. split; [apply to_lower_idem|]. cbn [to_lower]. eexists _, _. split; [done|].
  cbn in Hs. apply andb_prop in Hs as [_ Ht]. split; [|by apply to_lower_all].
  assert (H := all_bytes_spec (fun a => negb (is_alnum a && negb (is_digit a)) ||
    (is_alnum (lower_ascii a) && negb (is_digit (lower_ascii a)))) ltac:(vm_compute; reflexivity) a).
  cbv beta in H. by rewrite Ha in H.
Qed.
Lemma getScheme_run scheme rest : scheme_ok scheme -> getScheme (scheme +:+ ":" +:+ rest) = Some (scheme, rest).
Proof.
  intros (_ & a & t & -> & Ha & Ht). unfold getScheme. rewrite scan_scheme_run; [done| |eauto].
  cbn [all_bytes_are]. rewrite Ht, andb_true_r. unfold scheme_byte. by apply andb_prop in Ha as [-> _].
Qed.
Lemma getScheme_slash s : getScheme ("/" +:+ s) = Some ("", "/" +:+ s).
Proof. reflexivity. Qed.

(** ** Hosts and users *)

Definition host_plain (a : ascii) : bool :=
  negb (shouldEscape a encodeHost) || (128 <=? nat_of_ascii a)%nat || Ascii.eqb a "%".
Lemma host_plain_iff a :
  host_plain a = true <-> shouldEscape a encodeHost = false \/ (128 <= nat_of_ascii a)%nat \/ a = "%"%char.
Proof.
  unfold host_plain. rewrite !orb_true_iff, negb_true_iff, Nat.leb_le, Ascii.eqb_eq. tauto.
Qed.
Lemma hex_val_bound a x : hex_val a = Some x -> (x < 16)%nat.
Proof.
  unfold hex_val. pose proof (nat_ascii_bounded a).
  destruct (Nat.leb_spec 48 (nat_of_ascii a)), (Nat.leb_spec (nat_of_ascii a) 57); cbn [andb];
    [intros [= <-]; lia|..];
  (destruct (Nat.leb_spec 97 (nat_of_ascii a)), (Nat.leb_spec (nat_of_ascii a) 102); cbn [andb];
    [intros [= <-]; lia|..]);
  (destruct (Nat.leb_spec 65 (nat_of_ascii a)), (Nat.leb_spec (nat_of_ascii a) 70); cbn [andb];
    [intros [= <-]; lia|..]); done.
Qed.
Lemma host_escapes_app s t h :
  host_escapes s = true -> unescape s encodeHost = Some h ->
  host_escapes (s +:+ t) = host_escapes t /\
  unescape (s +:+ t) encodeHost = match unescape t encodeHost with Some u => Some (h +:+ u) | None => None end.
Proof.
  remember (String.length s) as n eqn:En. revert s h En.
  induction n as [n IH] using lt_wf_ind. intros [|a s] h ->.
  { cbn. intros _ [= <-]. split; [done|]. by destruct (unescape t _). }
  cbn [host_escapes unescape String.append]. destruct (ascii_dec a "%") as [->|Ha].
  - destruct s as [|x [|y s]]; [done..|]. cbn [String.append].
    destruct (hex_val x) as [vx|], (hex_val y) as [vy|]; try done. intros [Hc Hs]%andb_prop.
    destruct (unescape s encodeHost) as [u|] eqn:Eu; [|done]. intros [= <-].
    destruct (IH (String.length s)) with (s := s) (h := u) as [-> ->]; [cbn; lia|done..|].
    rewrite Hc. split; [done|]. by destruct (unescape t _).
  - intros [Hc Hs]%andb_prop. destruct (unescape s encodeHost) as [u|] eqn:Eu; [|done]. intros [= <-].
    destruct (IH (String.length s)) with (s := s) (h := u) as [-> ->]; [cbn; lia|done..|].
    rewrite Hc. split; [done|]. by destruct (unescape t _).
Qed.
Lemma unescaped_host_plain s h :
  host_escapes s = true -> unescape s encodeHost = Some h ->
  all_bytes_are host_plain h = true /\ forall c, shouldEscape c encodeHost = false -> (nat_of_ascii c < 128)%nat -> no_byte c s -> no_byte c h.
Proof.
  remember (String.length s) as n eqn:En. revert s h En.
  induction n as [n IH] using lt_wf_ind. intros [|a s] h ->.
  { cbn. by intros _ [= <-]. }
  cbn [host_escapes unescape]. destruct (ascii_dec a "%") as [->|Ha].
  - destruct s as [|x [|y s]]; [done..|].
    destruct (hex_val x) as [vx|] eqn:Ex, (hex_val y) as [vy|] eqn:Ey; try done. intros [Hc Hs]%andb_prop.
    destruct (unescape s encodeHost) as [u|] eqn:Eu; [|done]. intros H%(inj Some). subst h.
    destruct (IH (String.length s)) with (s := s) (h := u) as [Hp Hn]; [cbn; lia|done..|].
    apply hex_val_bound in Ex, Ey.
    assert (E : nat_of_ascii (ascii_of_nat (16 * vx + vy)) = (16 * vx + vy)%nat) by (apply nat_ascii_embedding; lia).
    assert (Hb : (128 <= nat_of_ascii (ascii_of_nat (16 * vx + vy)))%nat \/ ascii_of_nat (16 * vx + vy) = "%"%char).
    { apply orb_prop in Hc as [Hc%Nat.leb_le|[H1%Nat.eqb_eq H2%Nat.eqb_eq]%andb_prop]; [left; rewrite E; lia|].
      right. by subst vx vy. }
    generalize dependent (ascii_of_nat (16 * vx + vy)). intros b _ Hb.
    split.
    + cbn [all_bytes_are]. rewrite Hp, andb_true_r. apply host_plain_iff. by right.
    + intros c Hc1 Hc2 (_ & _ & _ & Hns). split; [|by apply Hn]. intros <-.
      destruct Hb as [Hb|Hb]; [lia|]. by rewrite Hb in Hc1.
  - intros [Hc Hs]%andb_prop. destruct (unescape s encodeHost) as [u|] eqn:Eu; [|done]. intros [= <-].
    destruct (IH (String.length s)) with (s := s) (h := u) as [Hp Hn]; [cbn; lia|done..|].
    split.
    + cbn [all_bytes_are]. rewrite Hp, andb_true_r. apply host_plain_iff.
      by apply orb_prop in Hc as [?%Nat.leb_le|?%negb_true_iff]; auto.
    + intros c Hc1 Hc2 [? ?]. split; [done|by apply Hn].
Qed.
Lemma host_escapes_escape h : all_bytes_are host_plain h = true -> host_escapes (escape h encodeHost) = true.
Proof.
  induction h as [|a h IH]; [done|]. cbn [all_bytes_are escape]. intros [Ha Hh]%andb_prop.
  destruct (ascii_dec a space) as [->|Hs]; [done|].
  destruct (shouldEscape a encodeHost) eqn:Es.
  - cbv zeta. cbn [host_escapes]. destruct (ascii_dec "%" "%"); [|done].
    destruct (hex_round a) as (-> & -> & _). rewrite IH by done. rewrite andb_true_r.
    assert (H := all_bytes_spec (fun a => negb (shouldEscape a encodeHost) || negb (host_plain a) ||
      ((8 <=? nat_of_ascii a / 16) || ((nat_of_ascii a / 16 =? 2) && (nat_of_ascii a mod 16 =? 5)))%nat)
      ltac:(vm_compute; reflexivity) a). cbv beta in H. by rewrite Es, Ha in H.
  - cbn [host_escapes]. destruct (ascii_dec a "%") as [->|_]; [done|].
    cbn [negb]. by rewrite Es, orb_true_r, IH.
Qed.
Lemma host_round s h : unescape_host s = Some h -> unescape_host (escape h encodeHost) = Some h.
Proof.
  unfold unescape_host. destruct (host_escapes s) eqn:Es; [|done]. intros Hu.
  destruct (unescaped_host_plain s h Es Hu) as [Hp _].
  by rewrite host_escapes_escape, unescape_escape.
Qed.

Lemma digits_plain ds mode : mode <> encodeQueryComponent -> all_bytes_are is_digit ds = true -> escape ds mode = ds.
Proof.
  intros Hm. induction ds as [|d ds IH]; [done|]. cbn [all_bytes_are escape]. intros [Hd Hds]%andb_prop.
  assert (Ha : is_alnum d = true).
  { assert (H := all_bytes_spec (fun a => negb (is_digit a) || is_alnum a) ltac:(vm_compute; reflexivity) d).
    cbv beta in H. by rewrite Hd in H. }
  destruct (ascii_dec d space) as [->|_]; [done|]. unfold shouldEscape. by rewrite Ha, IH.
Qed.
(** The port of an accepted host. *)
Lemma port_split scheme host i :
  port_index scheme host = Some i -> validOptionalPort (drop_string i host) = true ->
  exists a ds, host = a +:+ ":" +:+ ds /\ all_bytes_are is_digit ds = true /\
    (no_byte colon a \/ forall a', port_index scheme (a' +:+ ":" +:+ ds) = Some (String.length a')).
Proof.
  intros Hi Hv. exists (take_string i host).
  assert (Hd : exists ds, drop_string i host = String colon ds /\ all_bytes_are is_digit ds = true).
  { assert (Hne : drop_string i host <> "").
    { unfold port_index in Hi. destruct (_ || _).
      - apply last_index_byte_some in Hi. destruct Hi as (l & r & -> & <- & _). by rewrite drop_length_app.
      - apply index_byte_split in Hi as (_ & _ & t & ->). done. }
    unfold validOptionalPort in Hv. destruct (drop_string i host) as [|c ds]; [done|].
    destruct (ascii_dec c colon) as [->|]; [|done]. eauto. }
  destruct Hd as (ds & Ed & Hds). exists ds. split; [|split; [done|]].
  - change (":" +:+ ds) with (String colon ds). by rewrite <-Ed, take_drop_app.
  - unfold port_index in *. destruct (_ || _).
    + right. intros a'. apply (last_index_byte_app a' ds colon). by apply (all_are_no_byte is_digit).
    + left. by apply index_byte_split in Hi as (_ & ? & _).
Qed.

(** A byte that is neither a percent sign nor a hexadecimal digit is only there
    after escaping if it was before. *)
Lemma escape_keeps_out c s mode :
  mode <> encodeQueryComponent -> one_of c "%0123456789ABCDEF" = false -> no_byte c s -> no_byte c (escape s mode).
Proof.
  intros Hm Hc. assert (Hx : forall a, upper_hex (nat_of_ascii a / 16) <> c /\ upper_hex (nat_of_ascii a mod 16) <> c).
  { intros a. assert (H := all_bytes_spec (fun a => one_of (upper_hex (nat_of_ascii a / 16)) "%0123456789ABCDEF" &&
      one_of (upper_hex (nat_of_ascii a mod 16)) "%0123456789ABCDEF") ltac:(vm_compute; reflexivity) a).
    cbv beta in H. apply andb_prop in H as [H1 H2]. split; intros E; rewrite E in *; congruence. }
  assert (Hs : "%"%char <> c /\ "2"%char <> c /\ "0"%char <> c) by (repeat split; intros <-; done).
  destruct Hs as (Hp & H2 & H0). induction s as [|a s IH]; [done|]. cbn [no_byte escape]. intros [Ha Hs].
  destruct (ascii_dec a space) as [->|_]; [destruct mode; try done; cbn [no_byte]; auto|].
  destruct (shouldEscape a mode); cbv zeta; cbn [no_byte]; [|auto].
  destruct (Hx a). auto.
Qed.
Lemma host_escapes_some s : host_escapes s = true -> exists h, unescape s encodeHost = Some h.
Proof.
  remember (String.length s) as n eqn:En. revert s En.
  induction n as [n IH] using lt_wf_ind. intros [|a s] ->; [by exists ""|].
  cbn [host_escapes unescape]. destruct (ascii_dec a "%") as [->|Ha].
  - destruct s as [|x [|y s]]; [done..|]. destruct (hex_val x), (hex_val y); try done. intros [_ Hs]%andb_prop.
    destruct (IH (String.length s)) with (s := s) as [h ->]; [cbn; lia|done..|]. eauto.
  - intros [_ Hs]%andb_prop. destruct (IH (String.length s)) with (s := s) as [h ->]; [cbn; lia|done..|]. eauto.
Qed.
Lemma host_escapes_colon a t : host_escapes (a +:+ String colon t) = true -> host_escapes a = true.
Proof.
  remember (String.length a) as n eqn:En. revert a En.
  induction n as [n IH] using lt_wf_ind. intros [|x a] ->; [done|].
  cbn [host_escapes String.append]. destruct (ascii_dec x "%") as [->|Hx].
  - destruct a as [|y a]; [by destruct t as [|? ?]|]. destruct a as [|z a]; cbn [String.append].
    { destruct (hex_val y); [|done]. done. }
    destruct (hex_val y), (hex_val z); try done. intros [-> Hs]%andb_prop.
    by rewrite (IH (String.length a)) by (cbn; done || lia).
  - intros [-> Hs]%andb_prop. by rewrite (IH (String.length a)) by (cbn; done || lia).
Qed.
Lemma port_index_none scheme host : no_byte colon host -> port_index scheme host = None.
Proof. intros H. unfold port_index. destruct (_ || _); [by apply last_index_byte_none|by apply index_byte_none]. Qed.
Lemma port_index_one scheme a ds :
  no_byte colon a -> no_byte colon ds -> port_index scheme (a +:+ ":" +:+ ds) = Some (String.length a).
Proof.
  intros Ha Hds. unfold port_index.
  destruct (_ || _); [by apply (last_index_byte_app a ds colon)|by apply (index_byte_app a ds colon)].
Qed.
Lemma port_index_some scheme host : port_index scheme host = None -> no_byte colon host.
Proof. unfold port_index. destruct (_ || _); [apply last_index_byte_none|apply index_byte_none]. Qed.

Section Round.
Context (ip_literal : string -> option string).
(** The host of an IP literal keeps its brackets. *)
Context (Hip : forall raw h, ip_literal raw = Some h -> contains_byte h bracket = true).

Lemma parseHost_round scheme raw h :
  parseHost ip_literal scheme raw = Some h -> contains_byte h bracket = false ->
  parseHost ip_literal scheme (escape h encodeHost) = Some h.
Proof.
  unfold parseHost. destruct (contains_byte raw bracket); [intros H%Hip; congruence|].
  intros H Hb.
  assert (contains_byte (escape h encodeHost) bracket = false) as ->.
  { apply contains_byte_absent, escape_keeps_out; [done..|].
    unfold contains_byte in Hb. apply index_byte_none. by destruct (index_byte h bracket). }
  destruct (port_index scheme raw) as [i|] eqn:Ei.
  - destruct (validOptionalPort _) eqn:Ev; [|done].
    destruct (port_split _ _ _ Ei Ev) as (a & ds & -> & Hds & Hpos).
    assert (Hnd : no_byte colon ds) by by apply (all_are_no_byte is_digit).
    pose proof (host_round _ _ H) as Hround. unfold unescape_host in H.
    destruct (host_escapes _) eqn:He; [|done]. apply host_escapes_colon in He.
    destruct (host_escapes_some a He) as [ha Hua].
    destruct (host_escapes_app a (":" +:+ ds) ha He Hua) as [_ Hu]. rewrite Hu in H. clear Hu.
    assert (Hud : unescape (":" +:+ ds) encodeHost = Some (":" +:+ ds)).
    { rewrite <-(unescape_escape (":" +:+ ds) encodeHost). f_equal. rewrite escape_app.
      by rewrite (digits_plain ds). }
    rewrite Hud in H. apply (inj Some) in H. subst h.
    assert (Ee : escape (ha +:+ ":" +:+ ds) encodeHost = escape ha encodeHost +:+ ":" +:+ ds).
    { rewrite !escape_app. by rewrite (digits_plain ds). }
    rewrite Ee in Hround |- *.
    assert (Hi : port_index scheme (escape ha encodeHost +:+ ":" +:+ ds) = Some (String.length (escape ha encodeHost))).
    { destruct Hpos as [Hn|Hp]; [|apply Hp]. apply port_index_one; [|done]. apply escape_keeps_out; [done..|].
      apply (unescaped_host_plain a ha He Hua); [done|by apply Nat.ltb_lt|done]. }
    rewrite Hi, drop_length_app. cbn. by rewrite Hds.
  - pose proof (host_round _ _ H) as Hround. rewrite port_index_none; [done|].
    apply escape_keeps_out; [done..|]. unfold unescape_host in H.
    destruct (host_escapes raw) eqn:He; [|done].
    apply (unescaped_host_plain raw h He H); [done|by apply Nat.ltb_lt|by apply port_index_some in Ei].
Qed.

Lemma user_string_bytes u :
  all_bytes_are (fun a => (is_alnum a || one_of a "-._:~!$&'()*+,;=%@") && negb (one_of a "/?#@")) (Userinfo_String u) = true.
Proof.
  unfold Userinfo_String. rewrite all_are_app, escape_all by (done || (vm_compute; reflexivity)).
  destruct (ui_password u) as [pw|]; [|done]. rewrite all_are_app, escape_all by (done || (vm_compute; reflexivity)).
  done.
Qed.
Lemma parse_user_round u : parse_user (Userinfo_String u) = Some u.
Proof.
  unfold parse_user.
  assert (validUserinfo (Userinfo_String u) = true) as ->.
  { apply (all_are_mono _ _ _ (fun a H => proj1 (andb_prop _ _ H)) (user_string_bytes u)). }
  assert (Hn : no_byte colon (escape (ui_username u) encodeUserPassword)) by by apply escape_no_byte.
  cbn [negb]. unfold Userinfo_String. destruct u as [name [pw|]]; cbn [ui_username ui_password] in *.
  - rewrite (cut_app _ (escape pw encodeUserPassword) colon) by done. by rewrite !unescape_escape.
  - rewrite app_empty_r, cut_none by done. by rewrite unescape_escape.
Qed.
Lemma parseAuthority_round scheme raw user h :
  parseAuthority ip_literal scheme raw = Some (user, h) -> contains_byte h bracket = false ->
  parseAuthority ip_literal scheme
    ((match user with Some u => Userinfo_String u +:+ "@" | None => "" end) +:+ escape h encodeHost) = Some (user, h).
Proof.
  intros H Hb. assert (Hh : exists raw', parseHost ip_literal scheme raw' = Some h).
  { unfold parseAuthority in H. destruct (last_index_byte raw at_sign).
    - destruct (parseHost _ _ _) as [h'|] eqn:E; [|done]. destruct (parse_user _); [|done].
      injection H as <- <-. eauto.
    - destruct (parseHost _ _ _) as [h'|] eqn:E; [|done]. injection H as <- <-. eauto. }
  destruct Hh as [raw' Hh]. pose proof (parseHost_round _ _ _ Hh Hb) as Hr.
  assert (Hat : no_byte at_sign (escape h encodeHost)) by by apply escape_no_byte.
  unfold parseAuthority. destruct user as [u|].
  - rewrite app_assoc_str. change ("@" +:+ escape h encodeHost) with (String at_sign (escape h encodeHost)).
    rewrite last_index_byte_app by done. rewrite take_length_app.
    assert (drop_string (S (String.length (Userinfo_String u))) (Userinfo_String u +:+ String at_sign (escape h encodeHost)) =
            escape h encodeHost) as ->.
    { change (String at_sign (escape h encodeHost)) with ("@" +:+ escape h encodeHost).
      rewrite <-app_assoc_str. rewrite <-(drop_length_app (Userinfo_String u +:+ "@") (escape h encodeHost)) at 2.
      f_equal. rewrite length_app_str. cbn. lia. }
    by rewrite Hr, parse_user_round.
  - cbn [String.append]. rewrite (proj2 (last_index_byte_none _ _) Hat). by rewrite Hr.
Qed.

(** ** Parsing what was printed *)

(** What everything before the query is made of. *)
Definition hier_byte (a : ascii) : bool := negb (is_ctl a) && negb (one_of a "?#").
Definition query_byte (a : ascii) : bool := negb (is_ctl a) && negb (one_of a "#").
(** An absolute path that cannot be taken for an authority. *)
Definition own_path (p : string) : Prop := exists c t, p = "/" +:+ String c t /\ c <> slash.
Lemma own_path_escaped p q : own_path p -> own_path (escape (p +:+ q) encodePath).
Proof.
  intros (c & t & -> & Hc). unfold own_path. rewrite escape_app, slash_app.
  assert (E : exists d u, escape (String slash (String c t)) encodePath = String slash (String d u) /\ d <> slash).
  { cbn [escape]. destruct (ascii_dec slash space); [done|]. change (shouldEscape slash encodePath) with false. cbv iota.
    destruct (ascii_dec c space); [by eexists _, _|].
    destruct (shouldEscape c encodePath); cbv zeta; by eexists _, _. }
  destruct E as (d & u & -> & Hd). cbn. by eexists _, _.
Qed.
Lemma own_prefix p : own_path p -> has_prefix p "/" = true /\ has_prefix p "//" = false.
Proof.
  intros (c & t & -> & Hc). cbn. split; [done|].
  destruct (ascii_dec c "/"); [done|]. by destruct (ascii_dec "/" c).
Qed.

Definition authority (user : option Userinfo) (host : string) : string :=
  (match user with Some u => Userinfo_String u +:+ "@" | None => "" end) +:+ escape host encodeHost.
Lemma authority_bytes user host : all_bytes_are (fun a => hier_byte a && negb (Ascii.eqb a slash)) (authority user host) = true.
Proof.
  unfold authority. rewrite all_are_app. rewrite (escape_all _ encodeHost) by (done || (vm_compute; reflexivity)).
  rewrite andb_true_r. destruct user as [u|]; [|done]. rewrite all_are_app, andb_true_r.
  eapply all_are_mono; [|apply user_string_bytes]. cbv beta. intros a H'.
  assert (H := all_bytes_spec (fun a => negb ((is_alnum a || one_of a "-._:~!$&'()*+,;=%@") && negb (one_of a "/?#@")) ||
    (hier_byte a && negb (Ascii.eqb a slash))) ltac:(vm_compute; reflexivity) a). cbv beta in H.
  by rewrite H' in H.
Qed.
Lemma split_authority_app a p : no_byte slash a -> has_prefix p "/" = true -> split_authority (a +:+ p) = (a, p).
Proof.
  intros Ha [t ->]%has_prefix_spec. unfold split_authority. rewrite slash_app.
  rewrite index_byte_app by done. by rewrite take_length_app, drop_length_app.
Qed.
Lemma authority_nil user host : authority user host = "" <-> user = None /\ host = "".
Proof.
  unfold authority. split.
  - destruct user as [u|]; [|cbn; by rewrite escape_nil].
    rewrite app_assoc_str. by destruct (Userinfo_String u).
  - by intros [-> ->].
Qed.

Lemma parse_hier_own scheme p :
  own_path p -> parse_hier ip_literal scheme p = Some (None, "", negb (bool_decide (scheme = "")), p).
Proof. intros [H1 H2]%own_prefix. unfold parse_hier. by rewrite H2, andb_false_r, H1, andb_true_r. Qed.
Lemma parse_hier_round scheme rest user host omit path0 r p :
  parse_hier ip_literal scheme rest = Some (user, host, omit, path0) ->
  (scheme <> "" -> has_prefix rest "/" = true) -> contains_byte host bracket = false ->
  rf_Scheme r = scheme -> rf_User r = user -> rf_Host r = host -> rf_OmitHost r = omit ->
  u_Path (rf_URL r) <> "" -> own_path p ->
  parse_hier ip_literal scheme (authority_string r +:+ p) = Some (user, host, omit, p).
Proof.
  intros H Hrest Hb Es Eu Eh Eo Hp Hown. destruct (own_prefix p Hown) as [Hp1 Hp2].
  unfold authority_string. rewrite Es, Eu, Eh, Eo.
  assert (Hauth : forall raw, parseAuthority ip_literal scheme raw = Some (user, host) ->
    (scheme <> "" \/ authority user host <> "") ->
    parse_hier ip_literal scheme (("//" +:+ authority user host) +:+ p) = Some (user, host, false, p)).
  { intros raw Hr Hne. pose proof (parseAuthority_round _ _ _ _ Hr Hb) as Hround. fold (authority user host) in Hround.
    pose proof (authority_bytes user host) as Hbytes.
    assert (Hns : no_byte slash (authority user host)) by (by eapply all_are_no_byte; [|exact Hbytes]).
    unfold parse_hier. rewrite app_assoc_str.
    assert (negb (bool_decide (scheme = "")) || negb (has_prefix ("//" +:+ authority user host +:+ p) "///") = true) as ->.
    { destruct Hne as [Hne|Hne]; [by rewrite bool_decide_eq_false_2|]. apply orb_true_iff. right.
      destruct (authority user host) as [|a t]; [done|]. cbn. destruct Hns as [Ha _].
      destruct (ascii_dec a "/"); [done|]. by destruct (ascii_dec "/" a). }
    rewrite has_prefix_app. cbn [andb]. change (drop_string 2 ("//" +:+ authority user host +:+ p)) with (authority user host +:+ p).
    by rewrite split_authority_app, Hround. }
  unfold parse_hier in H. destruct (_ && has_prefix rest "//") eqn:Ea.
  - destruct (split_authority _) as [raw path] eqn:Er. destruct (parseAuthority _ _ raw) as [[user' host']|] eqn:Ep; [|done].
    injection H as <- <- <- <-. specialize (Hauth raw Ep). cbn [andb].
    destruct (decide (authority user' host' = "")) as [E|E].
    + pose proof E as E'. apply authority_nil in E' as [-> ->]. cbn.
      rewrite (bool_decide_eq_false_2 _ Hp). cbn.
      destruct (decide (scheme = "")) as [->|Hs].
      * exact (parse_hier_own "" p Hown).
      * rewrite (bool_decide_eq_false_2 _ Hs). cbn. apply Hauth. by left.
    + assert (negb (bool_decide (host' = "")) || bool_decide (is_Some user') = true) as ->.
      { rewrite authority_nil in E. destruct user' as [u|]; [by rewrite (bool_decide_eq_true_2 (is_Some (Some u))), orb_true_r|].
        rewrite bool_decide_eq_false_2; [done|]. intros ->. by apply E. }
      rewrite orb_true_r. cbn [orb]. apply Hauth. by right.
  - injection H as <- <- <- _. cbn. rewrite orb_false_r.
    destruct (decide (scheme = "")) as [->|Hs].
    + exact (parse_hier_own "" p Hown).
    + rewrite Hrest by done. rewrite (bool_decide_eq_false_2 _ Hs). cbn [negb andb orb].
      change ("" +:+ p) with p. rewrite parse_hier_own by done. by rewrite (bool_decide_eq_false_2 _ Hs).
Qed.

Lemma count_byte_none c s : no_byte c s <-> count_byte s c = 0%nat.
Proof. induction s as [|a s IH]; cbn; [done|]. rewrite IH. destruct (ascii_dec a c); intuition (done || congruence). Qed.
Lemma suffix_byte s c : has_suffix s (String c "") = true -> exists t, s = t +:+ String c "".
Proof. by intros H%has_suffix_spec. Qed.
Lemma split_query_round s q force :
  no_byte question s -> (force = true -> q = "") ->
  split_query (s +:+ (if force || negb (bool_decide (q = "")) then "?" +:+ q else "")) = (s, q, force).
Proof.
  intros Hs Hf. unfold split_query. destruct force; [rewrite Hf by done|destruct (decide (q = "")) as [->|Hq]].
  - cbn [orb]. rewrite app_empty_r. assert (has_suffix (s +:+ "?") "?" = true) as -> by (apply has_suffix_spec; eauto).
    rewrite count_byte_app. rewrite (proj1 (count_byte_none question s) Hs). cbn [count_byte plus].
    destruct (ascii_dec "?" question); [|done]. cbn [Nat.eqb andb]. rewrite length_app_str. cbn [String.length].
    rewrite Nat.add_sub. by rewrite take_length_app.
  - cbn. rewrite app_empty_r. rewrite cut_none by done.
    rewrite (proj1 (count_byte_none question s) Hs). by rewrite andb_false_r.
  - rewrite bool_decide_eq_false_2 by done. cbn [orb negb].
    change ("?" +:+ q) with (String question q). rewrite (cut_app s q question) by done.
    destruct (has_suffix _ _) eqn:Ef; [|done]. cbn [andb]. rewrite count_byte_app.
    rewrite (proj1 (count_byte_none question s) Hs). cbn [plus].
    destruct (Nat.eqb_spec (count_byte (String question q) question) 1) as [E|E]; [|done]. exfalso.
    assert (E' : count_byte q question = 0%nat).
    { cbn [count_byte] in E. destruct (ascii_dec question question); [lia|done]. } apply count_byte_none in E'.
    apply suffix_byte in Ef as [t Et].
    assert (Hl : last_index_byte (s +:+ String question q) question = Some (String.length s)) by by apply last_index_byte_app.
    rewrite Et in Hl.
    change "?"%char with question in Hl. rewrite last_index_byte_app in Hl by done. injection Hl as Hl.
    assert (Hlen : String.length (s +:+ String question q) = String.length (t +:+ String question "")) by by rewrite Et.
    rewrite !length_app_str in Hlen. cbn in Hlen. destruct q; [done|]. cbn in Hlen. lia.
Qed.

(** What [url.Parse] leaves of a reference with an absolute path, its fragment
    aside. *)
Record parsed (r : Ref) : Prop := {
  ps_scheme : rf_Scheme r = "" \/ scheme_ok (rf_Scheme r);
  ps_opaque : rf_Opaque r = "";
  ps_query : all_bytes_are query_byte (u_RawQuery (rf_URL r)) = true;
  ps_force : rf_ForceQuery r = true -> u_RawQuery (rf_URL r) = "";
  ps_hier : exists rest path,
    parse_hier ip_literal (rf_Scheme r) rest = Some (rf_User r, rf_Host r, rf_OmitHost r, path) /\
    (rf_Scheme r <> "" -> has_prefix rest "/" = true) }.

Lemma all_are_suffix f s t : all_bytes_are f (s +:+ t) = true -> all_bytes_are f t = true.
Proof. rewrite all_are_app. by intros [_ ?]%andb_prop. Qed.
Lemma split_query_parts rest rest' q force :
  split_query rest = (rest', q, force) ->
  (force = true -> q = "") /\ (forall f, all_bytes_are f rest = true -> all_bytes_are f q = true).
Proof.
  unfold split_query. destruct (_ && _); [by intros [= _ <- <-]|].
  destruct (cut rest question) as [[l r] ok] eqn:E. intros [= <- <- <-]. split; [done|].
  intros f Hf. apply (all_are_left f l r question rest); [destruct ok; auto|done].
Qed.
Lemma parse_ref_parsed raw r :
  parse_ref ip_literal raw = Some r -> no_byte hash raw -> has_prefix (u_Path (rf_URL r)) "/" = true ->
  parsed r /\ rf_Fragment r = "" /\ rf_RawFragment r = "".
Proof.
  unfold parse_ref. destruct (negb _) eqn:Ectl; [done|]. apply negb_false_iff in Ectl.
  case_bool_decide as Estar; [by intros [= <-]|].
  intros H Hh Habs. assert (Hq : all_bytes_are query_byte raw = true).
  { clear -Ectl Hh. induction raw as [|a s IH]; [done|]. cbn in Ectl, Hh |- *.
    apply andb_prop in Ectl as [Ha Hs]. destruct Hh as [Hn Hh]. rewrite IH by done. unfold query_byte. rewrite Ha. cbn.
    by destruct (ascii_dec a "#"). }
  destruct (getScheme raw) as [[sch rest]|] eqn:Es; [|done].
  assert (Hrest : all_bytes_are query_byte rest = true /\ (to_lower sch = "" \/ scheme_ok (to_lower sch))).
  { apply getScheme_ok in Es as [[-> ->]|[Hs ->]]; [auto|]. split; [|by right].
    by do 2 apply all_are_suffix in Hq. }
  destruct Hrest as [Hrq Hsch]. clear Es Ectl Estar Hq.
  destruct (split_query rest) as [[rest' q] force] eqn:Eq. destruct (split_query_parts _ _ _ _ Eq) as [Hf Hqs].
  destruct (negb (has_prefix rest' "/") && negb (bool_decide (to_lower sch = ""))) eqn:Eo; [by injection H as <-|].
  destruct (_ && _) in H; [done|].
  destruct (parse_hier _ _ _) as [[[[user host] omit] path]|] eqn:Eh; [|done].
  destruct (setPath path q) as [u|] eqn:Eu; [|done]. injection H as <-. split; [|done].
  assert (u_RawQuery u = q) as Equ.
  { unfold setPath in Eu. destruct (unescape path encodePath); [|done]. by injection Eu as <-. }
  split; cbn; [done|done| |by rewrite Equ|].
  - rewrite Equ. by apply Hqs.
  - exists rest', path. split; [done|]. intros Hne. rewrite (bool_decide_eq_false_2 _ Hne) in Eo.
    cbn in Eo. rewrite andb_true_r in Eo. by apply negb_false_iff in Eo.
Qed.

Section Prefixed.
Context (r : Ref) (prefix : string).
Context (Hr : parsed r) (Hprefix : own_path prefix) (Hb : contains_byte (rf_Host r) bracket = false).
Abbreviation p := (escape (prefix +:+ u_Path (rf_URL r)) encodePath).

Lemma prefixed_path : EscapedPath (rf_URL (prefixed prefix r)) = p.
Proof.
  change (EscapedPath (rf_URL (prefixed prefix r))) with
    (if bool_decide (prefix +:+ u_Path (rf_URL r) = "*") then "*" else p).
  rewrite bool_decide_eq_false_2; [done|]. by destruct Hprefix as (c & t & -> & _).
Qed.
Lemma hier_prefixed :
  hier_string (prefixed prefix r) = scheme_string r +:+ authority_string (prefixed prefix r) +:+ p.
Proof.
  unfold hier_string. rewrite prefixed_path. destruct (own_prefix p (own_path_escaped _ _ Hprefix)) as [Hp _].
  rewrite Hp. rewrite andb_false_r. cbn [andb]. change (scheme_string (prefixed prefix r)) with (scheme_string r).
  assert (contains_byte (fst (fst (cut p slash))) colon = false) as ->; [|by rewrite andb_false_r, app_assoc_str].
  destruct (own_path_escaped _ (u_Path (rf_URL r)) Hprefix) as (c & t & -> & _). done.
Qed.
Lemma authority_string_all f :
  (forall u h, all_bytes_are f (authority u h) = true) -> f slash = true ->
  all_bytes_are f (authority_string (prefixed prefix r)) = true.
Proof.
  intros H Hs. specialize (H (rf_User r) (rf_Host r)). unfold authority in H. rewrite all_are_app in H.
  apply andb_prop in H as [Hu Hh]. unfold authority_string. cbn [rf_User rf_Host prefixed set_url rf_OmitHost rf_Scheme].
  destruct (_ || _ : bool); [|done]. destruct (_ && _ : bool); [done|]. rewrite !all_are_app, Hu, Hh, !andb_true_r.
  destruct (_ || _ : bool); [|done]. cbn. change "/"%char with slash. by rewrite Hs.
Qed.
Lemma hier_bytes : all_bytes_are hier_byte (hier_string (prefixed prefix r)) = true.
Proof.
  rewrite hier_prefixed, !all_are_app. rewrite (escape_all _ encodePath) by (done || (vm_compute; reflexivity)).
  rewrite authority_string_all; [|intros u h|done].
  - rewrite !andb_true_r. unfold scheme_string. case_bool_decide as E; [done|].
    destruct (ps_scheme r Hr) as [?|(_ & a & t & Es & Ha & Ht)]; [done|].
    rewrite Es. rewrite all_are_app, andb_true_r. cbn [all_bytes_are].
    assert (H := all_bytes_spec (fun a => negb (scheme_byte a) || hier_byte a) ltac:(vm_compute; reflexivity)).
    assert (Hm : forall b, scheme_byte b = true -> hier_byte b = true).
    { intros b Hb'. specialize (H b). cbv beta in H. by rewrite Hb' in H. }
    rewrite Hm, (all_are_mono _ _ _ Hm Ht); [done|]. unfold scheme_byte. by apply andb_prop in Ha as [-> _].
  - eapply all_are_mono; [|apply authority_bytes]. cbv beta. by intros a [? _]%andb_prop.
Qed.
Lemma getScheme_prefixed :
  getScheme (hier_string (prefixed prefix r) +:+ query_string r) =
  Some (rf_Scheme r, (authority_string (prefixed prefix r) +:+ p) +:+ query_string r).
Proof.
  rewrite hier_prefixed. unfold scheme_string. case_bool_decide as E.
  - rewrite E. change ("" +:+ ?x) with x.
    assert (Hs : exists t, authority_string (prefixed prefix r) +:+ p = "/" +:+ t).
    { assert (Hp : exists t, p = "/" +:+ t).
      { destruct (own_path_escaped _ (u_Path (rf_URL r)) Hprefix) as (c & t & -> & _). eauto. }
      unfold authority_string. cbn [rf_Scheme prefixed set_url]. rewrite (bool_decide_eq_true_2 _ E). cbn [negb orb].
      cbn [rf_User rf_Host rf_OmitHost]. destruct (_ || _ : bool); [|done].
      cbn [negb andb orb]. rewrite andb_false_r. rewrite app_assoc_str. by eexists (String "/" _). }
    destruct Hs as [t Et]. rewrite Et. rewrite app_assoc_str. apply getScheme_slash.
  - destruct (ps_scheme r Hr) as [?|Hs]; [done|]. rewrite !app_assoc_str. by apply getScheme_run.
Qed.
Lemma unescape_path_escape s : unescape (escape s encodePath) encodePath = Some s.
Proof. apply unescape_escape. Qed.
Lemma parse_ref_prefixed :
  parse_ref ip_literal (hier_string (prefixed prefix r) +:+ query_string r) =
  Some (set_fragment "" "" (prefixed prefix r)).
Proof.
  pose proof hier_bytes as Hbytes. pose proof (ps_query r Hr) as Hq.
  destruct (own_path_escaped _ (u_Path (rf_URL r)) Hprefix) as (c & t & Ep & Hc).
  unfold parse_ref. rewrite getScheme_prefixed.
  assert (all_bytes_are (fun a => negb (is_ctl a)) (hier_string (prefixed prefix r) +:+ query_string r) = true) as ->.
  { rewrite all_are_app. apply andb_true_iff. split.
    - eapply all_are_mono; [|exact Hbytes]. by intros a [? _]%andb_prop.
    - unfold query_string. destruct (_ || _); [|done]. cbn.
      eapply all_are_mono; [|exact Hq]. by intros a [? _]%andb_prop. }
  cbn [negb]. rewrite bool_decide_eq_false_2.
  2: { rewrite hier_prefixed, Ep. intros E%(f_equal String.length). rewrite !length_app_str in E. cbn in E. lia. }
  assert (Hlow : to_lower (rf_Scheme r) = rf_Scheme r) by (destruct (ps_scheme r Hr) as [-> |[? _]]; done).
  rewrite Hlow. unfold query_string. rewrite split_query_round; [| |apply (ps_force r Hr)].
  2: { assert (Hn : no_byte question (hier_string (prefixed prefix r))) by (by eapply all_are_no_byte; [|exact Hbytes]).
       rewrite hier_prefixed, !no_byte_app in Hn. rewrite no_byte_app. tauto. }
  assert (Habs : negb (has_prefix (authority_string (prefixed prefix r) +:+ p) "/") = false).
  { unfold authority_string. destruct (_ || _ : bool); [|by rewrite Ep]. destruct (_ && _ : bool); [by rewrite Ep|].
    assert (negb (bool_decide (u_Path (rf_URL (prefixed prefix r)) = "")) = true) as ->; [|by rewrite orb_true_r].
    rewrite bool_decide_eq_false_2; [done|]. by destruct Hprefix as (? & ? & -> & _). }
  rewrite Habs. cbn [andb].
  destruct (ps_hier r Hr) as (rest & path & Hh & Hrest).
  rewrite (parse_hier_round _ _ _ _ _ _ (prefixed prefix r) p Hh Hrest Hb); try done.
  - unfold setPath. rewrite unescape_path_escape. rewrite bool_decide_eq_true_2 by done.
    unfold set_fragment, prefixed, set_url. cbn. by rewrite (ps_opaque r Hr).
  - by destruct Hprefix as (? & ? & -> & _).
  - by exists c, t.
Qed.
End Prefixed.

Lemma unescape_nil s mode : unescape s mode = Some "" -> s = "".
Proof.
  destruct s as [|a s]; [done|]. cbn [unescape]. destruct (ascii_dec a "%").
  - destruct s as [|x [|y s]]; [done..|]. by destruct (hex_val x), (hex_val y), (unescape s mode).
  - by destruct (unescape s mode).
Qed.
(** Printing and parsing again loses nothing but the spelling of the path and
    the fragment. *)
Lemma Parse_prefixed loc r prefix :
  Parse ip_literal loc = Some r -> has_prefix (u_Path (rf_URL r)) "/" = true ->
  own_path prefix -> contains_byte (rf_Host r) bracket = false ->
  exists raw, Parse ip_literal (URL_String (prefixed prefix r)) =
    Some (set_fragment (rf_Fragment r) raw (prefixed prefix r)).
Proof.
  unfold Parse. destruct (cut loc hash) as [[u frag] ok] eqn:Ec.
  destruct (parse_ref ip_literal u) as [r0|] eqn:Er; [|done]. intros H Habs Hown Hb.
  assert (Hn : no_byte hash u).
  { clear -Ec. revert u Ec. induction loc as [|a s IH]; cbn; [by intros ? [= <- _ _]|]. intros u.
    destruct (ascii_dec a hash); [by intros [= <- _ _]|]. destruct (cut s hash) as [[l x] y].
    intros [= <- <- <-]. split; [done|]. by apply IH. }
  assert (Hr0 : exists dec raw, r = set_fragment dec raw r0 /\ (dec = "" -> raw = "")).
  { destruct (parse_ref_parsed u r0 Er Hn) as (_ & Hf & Hrf).
    { case_bool_decide; [by injection H as <-|]. destruct (unescape frag _); [|done]. by injection H as <-. }
    case_bool_decide as Ef.
    - injection H as <-. exists "", "". split; [|done]. destruct r0. cbn in Hf, Hrf. by subst.
    - destruct (unescape frag encodeFragment) as [dec|] eqn:Eu; [|done]. injection H as <-.
      eexists _, _. split; [done|]. intros ->. by apply unescape_nil in Eu. }
  destruct Hr0 as (dec & raw & -> & Hdec). clear H.
  destruct (parse_ref_parsed u r0 Er Hn Habs) as (Hp & _ & _).
  pose proof (parse_ref_prefixed r0 prefix Hp Hown Hb) as Hround.
  assert (Hs : URL_String (prefixed prefix (set_fragment dec raw r0)) =
    (hier_string (prefixed prefix r0) +:+ query_string r0) +:+ fragment_string (set_fragment dec raw r0)).
  { unfold URL_String. cbn [rf_Opaque prefixed set_url set_fragment]. rewrite (ps_opaque r0 Hp).
    cbn [negb]. rewrite bool_decide_eq_true_2 by done. cbn [negb]. by rewrite app_assoc_str. }
  assert (Hn' : no_byte hash (hier_string (prefixed prefix r0) +:+ query_string r0)).
  { apply no_byte_app. split.
    - by eapply all_are_no_byte; [|apply hier_bytes].
    - unfold query_string. destruct (_ || _); [|done]. apply no_byte_app. split; [done|].
      by eapply all_are_no_byte; [|apply (ps_query r0 Hp)]. }
  rewrite Hs. unfold fragment_string. cbn [rf_Fragment set_fragment].
  case_bool_decide as Ed.
  - rewrite app_empty_r, cut_none by done. rewrite Hround, bool_decide_eq_true_2 by done.
    exists "". by rewrite Ed.
  - change ("#" +:+ ?x) with (String hash x). rewrite cut_app, Hround by done.
    assert (He : unescape (EscapedFragment (set_fragment dec raw r0)) encodeFragment = Some dec).
    { unfold EscapedFragment. cbn [rf_RawFragment rf_Fragment set_fragment].
      destruct (_ && bool_decide _) eqn:E; [|apply unescape_escape].
      apply andb_prop in E as [_ E]. by apply bool_decide_eq_true in E. }
    rewrite He. rewrite bool_decide_eq_false_2 by (intros E; rewrite E in He; by injection He).
    by eexists.
Qed.
End Round.
