(* ===== verification/Redirects.v ===== *)
(** * Redirects stay in the sandbox (gateway/server.go, route.go)

    [rewriteLocation] and [PathRouter.Route] against each other: what the gateway
    makes of a redirect, followed by a client, is routed back to where the
    application meant it. *)
From S2P Require Import Prelude GoStrings Url Route Gateway Location.
Open Scope string_scope.

(** ** The way back *)

(** A path behind a routed prefix is routed the same way. *)
Lemma PathRouter_again p r r' rt t dec :
  PathRouter_Route p r = Some rt -> EscapedPath (rq_URL r') = rt_Prefix rt +:+ "/" +:+ t ->
  PathUnescape ("/" +:+ t) = Some dec -> rt_UserPort rt = true \/ fst (cutSegment ("/" +:+ t)) <> userPortSegment ->
  PathRouter_Route p r' = Some (with_rest dec ("/" +:+ t) rt).
Proof.
  intros H E Hdec Hp. destruct (PathRouter_Route_prefix p r rt H) as (t0 & E0 & Ht0).
  rewrite (PathRouter_Route_behind p r t0 E0 Ht0) in H. unfold path_behind in H. clear E0.
  destruct (cutSegment t0) as [id rest] eqn:E1. case_bool_decide as Hid; [done|].
  apply cutSegment_spec in E1 as [(-> & Hn & Hrest)|[-> _]]; [|done].
  destruct (cutSegment rest) as [head after] eqn:E2. case_bool_decide as Hh.
  - subst head. apply cutSegment_spec in E2 as [(-> & _ & Hafter)|[? _]]; [|done].
    destruct (cutSegment after) as [seg tail] eqn:E3. destruct (atoi seg) as [port|] eqn:Ep; [|done].
    destruct (_ || _) eqn:Er in H; [done|]. unfold path_route in H.
    destruct (PathUnescape tail) as [dec0|]; [|done]. injection H as <-. cbn [rt_Prefix rt_UserPort] in E, Hp.
    apply cutSegment_spec in E3 as [(-> & Hs & Htail)|[-> _]]; [|done].
    rewrite (PathRouter_Route_behind p r' ("/" +:+ id +:+ "/" +:+ userPortSegment +:+ "/" +:+ seg +:+ "/" +:+ t)).
    + unfold path_behind. rewrite cutSegment_app by eauto. rewrite bool_decide_eq_false_2 by done.
      rewrite cutSegment_app by (done || eauto). rewrite bool_decide_eq_true_2 by done.
      rewrite cutSegment_app by eauto. rewrite Ep, Er. unfold path_route. by rewrite Hdec.
    + rewrite E, !app_assoc_str. cbn. by rewrite ?app_assoc_str.
    + by right; eexists.
  - unfold path_route in H. destruct (PathUnescape rest) as [dec0|]; [|done]. injection H as <-.
    cbn [rt_Prefix rt_UserPort] in E, Hp. destruct Hp as [?|Hp]; [done|].
    rewrite (PathRouter_Route_behind p r' ("/" +:+ id +:+ "/" +:+ t)).
    + unfold path_behind. rewrite cutSegment_app by eauto. rewrite bool_decide_eq_false_2 by done.
      destruct (cutSegment ("/" +:+ t)) as [head' after'] eqn:Ec. cbn [fst] in Hp.
      rewrite bool_decide_eq_false_2 by done. unfold path_route. by rewrite Hdec.
    + rewrite E, !app_assoc_str. cbn. by rewrite ?app_assoc_str.
    + by right; eexists.
Qed.

(** Slashes are not escaped in a path, and nothing becomes one. *)
Lemma cutSegment_escape s :
  fst (cutSegment (escape s encodePath)) = escape (fst (cutSegment s)) encodePath.
Proof.
  destruct (cutSegment s) as [seg rest] eqn:Ec. cbn [fst].
  apply cutSegment_spec in Ec as [(-> & Hs & Hr)|(-> & -> & Hs)].
  - rewrite !escape_app. change (escape "/" encodePath) with "/". rewrite cutSegment_app; [done| |].
    + by apply escape_keeps_out.
    + destruct Hr as [-> |[t ->]]; [by left|right]. rewrite escape_app. by eexists.
  - destruct s as [|a s]; [done|]. cbn [escape]. destruct (ascii_dec a space) as [->|_]; [done|].
    destruct (shouldEscape a encodePath); [done|]. unfold cutSegment.
    destruct (ascii_dec a slash) as [->|]; [|done]. by destruct (Hs s).
Qed.
Lemma escape_user_segment s : escape s encodePath = userPortSegment -> s = userPortSegment.
Proof.
  intros E. assert (H : unescape (escape s encodePath) encodePath = unescape userPortSegment encodePath) by by rewrite E.
  rewrite unescape_escape in H. by injection H.
Qed.
Lemma unescape_segment_path s : unescape s encodePathSegment = unescape s encodePath.
Proof.
  remember (String.length s) as n eqn:En. revert s En.
  induction n as [n IH] using lt_wf_ind. intros [|a s] ->; [done|]. cbn [unescape].
  destruct (ascii_dec a "%").
  - destruct s as [|x [|y s]]; [done..|]. by rewrite (IH (String.length s)) by (cbn; lia || done).
  - by rewrite (IH (String.length s)) by (cbn; lia || done).
Qed.

(** A path a client asks for as it stands: nothing in it to resolve. *)
Definition no_dots (s : string) : Prop := Forall (fun seg => seg <> "." /\ seg <> "..") (split slash s).
Lemma split_escape s :
  split slash (escape s encodePath) = map (fun x => escape x encodePath) (split slash s).
Proof.
  rewrite <-(join_split s) at 1. pose proof (split_segs_no_byte slash s) as Hn.
  pose proof (split_not_nil slash s) as Hne. revert Hn Hne. generalize (split slash s). intros l Hn Hne.
  assert (E : escape (join "/" l) encodePath = join "/" (map (fun x => escape x encodePath) l)).
  { clear Hn Hne. induction l as [|x l IH]; [done|]. destruct l as [|y l]; [done|].
    rewrite join_cons, !escape_app, IH. done. }
  rewrite E. apply split_join; [by destruct l|].
  apply Forall_map. eapply Forall_impl; [exact Hn|]. intros x Hx.
  by apply escape_keeps_out.
Qed.
Lemma escape_dot s d : unescape d encodePath = Some d -> escape s encodePath = d -> s = d.
Proof.
  intros Hd E. pose proof (unescape_escape s encodePath) as H. rewrite E, Hd in H. by injection H.
Qed.
Lemma no_dots_escape s : no_dots s -> no_dots (escape s encodePath).
Proof.
  unfold no_dots. rewrite split_escape. intros H. apply Forall_map. eapply Forall_impl; [exact H|].
  intros x [H1 H2]. split; intros E; [apply H1|apply H2]; by apply escape_dot.
Qed.
Lemma split_mid a b : split slash (a +:+ "/" +:+ b) = (split slash a ++ split slash b)%list.
Proof.
  rewrite <-(join_split a) at 1. apply split_join_app; [apply split_not_nil|apply split_segs_no_byte].
Qed.
Lemma no_dots_app a b : no_dots a -> no_dots ("/" +:+ b) -> no_dots (a +:+ "/" +:+ b).
Proof.
  unfold no_dots. rewrite split_mid, (slash_app b), split_slash_cons. intros Ha Hb.
  apply Forall_app. split; [done|]. by inversion_clear Hb.
Qed.

Lemma cookies_only h prefix k : k <> "Set-Cookie" -> rewriteCookiePaths h prefix !! k = h !! k.
Proof.
  intros Hk. unfold rewriteCookiePaths. destruct (default [] (h !! "Set-Cookie")) as [|c cs]; [done|].
  assert (H : forall l h0, foldl (fun h c => header_add "Set-Cookie" (scopeCookie c prefix) h) h0 l !! k = (h0 : Header) !! k).
  { induction l as [|x l IH]; intros h0; [done|]. cbn. rewrite IH. unfold header_add. by rewrite lookup_insert_ne. }
  rewrite H. unfold header_del. by rewrite lookup_delete_ne.
Qed.

Section Redirects.
Context (ip_literal : string -> option string).
Context (Hip : forall raw h, ip_literal raw = Some h -> contains_byte h bracket = true).
Context (p : PathRouter) (r : Request) (rt : Route).
Context (Hrt : PathRouter_Route p r = Some rt).
(** The prefix is a path of its own and needs no escaping or resolving, as those
    of the ids the control plane makes. *)
Context (Hown : own_path (rt_Prefix rt)) (Hplain : escape (rt_Prefix rt) encodePath = rt_Prefix rt)
        (Hdots : no_dots (rt_Prefix rt)).
Context (t : Target) (host : string).
Abbreviation answer h := (ModifyResponse ip_literal (Some {| pr_target := t; pr_route := rt; pr_host := host |}) h).

Lemma answer_location h :
  header_get (answer h) "Location" = header_get (rewriteLocation ip_literal h (rt_Prefix rt) host) "Location".
Proof.
  unfold ModifyResponse. cbn [pr_route pr_host]. rewrite bool_decide_eq_false_2 by (by destruct Hown as (? & ? & -> & _)).
  unfold header_get. by rewrite cookies_only.
Qed.

End Redirects.

(** ** Witness: a web application on port 3000 redirects to its login page *)

Definition wit_no_literal (host : string) : option string := None.
Definition wit_app : Request := wit_request "api.example.com" "/s/sbx-1/p/3000/account".
Definition wit_moved : Header :=
  {[ "Location" := ["http://API.example.com/login page?next=/account#top"]; "X-App" := ["1"] ]}.
Definition wit_app_route : Route :=
  {| rt_SandboxID := "sbx-1"; rt_Port := 3000; rt_UserPort := true; rt_Rest := "/account";
     rt_RawRest := "/account"; rt_Prefix := "/s/sbx-1/p/3000" |}.
Definition wit_answer : Header :=
  ModifyResponse wit_no_literal
    (Some {| pr_target := no_target; pr_route := wit_app_route; pr_host := "api.example.com" |}) wit_moved.
Lemma wit_app_routed : PathRouter_Route wit_path_router wit_app = Some wit_app_route.
Proof. vm_compute. reflexivity. Qed.

(** What the rewriting does not preserve: an escaped slash in the path the
    application named comes back as a real one, and dot segments climb out of the
    sandbox's prefix. *)
Example rewriteLocation_unescapes :
  header_get (rewriteLocation wit_no_literal {[ "Location" := ["/files/a%2Fb"] ]} "/s/sbx-1" "api.example.com")
    "Location" = "/s/sbx-1/files/a/b".
Proof. vm_compute. reflexivity. Qed.
Example rewriteLocation_climbs :
  header_get (rewriteLocation wit_no_literal {[ "Location" := ["/../sbx-2/"] ]} "/s/sbx-1" "api.example.com")
    "Location" = "/s/sbx-1/../sbx-2/" /\ clean "/s/sbx-1/../sbx-2/" = "/s/sbx-2".
Proof. vm_compute. done. Qed.
