(* ===== verification/FileView.v ===== *)
(** * The file API's view is the namespace's view

    execd tells jdix-init the roots of the file API ([configureInit]) and tells
    bubblewrap the mounts ([Generate]); nothing but this agreement keeps a path
    the namespace does not expose out of the file API's reach.  Here the two are
    compared path by path. *)
From S2P Require Import Prelude GoStrings Api Bwrap BwrapView Url Gateway Execd Posix SafePath InitFiles.
Open Scope string_scope.
Open Scope list_scope.

(** The access a bind option gives. *)
Definition read_only_bind (o : op) : bool := bool_decide (fst o ∈ ["--ro-bind"; "--ro-bind-fd"]).

(** The roots execd sends, beside the mounts they come from. *)
Definition workspace_root (spec : FilesystemSpec) : Root :=
  {| root_Path := workspacePath spec; root_ReadOnly := false |}.
Definition mount_root (m : Mount) : Root := {| root_Path := m_Path m; root_ReadOnly := m_ReadOnly m |}.
Lemma configured_roots req :
  cf_Roots (configure_request req) =
  workspace_root (br_Filesystem req) :: map mount_root (fs_Mounts (br_Filesystem req)).
Proof. reflexivity. Qed.

(** ** Lying in a root, and being contained *)

Lemma canonical_clean q : canonical q -> clean q = q.
Proof. intros (segs & -> & H%good_segs_path). by apply clean_render. Qed.
Lemma rel_in_contains c r :
  canonical (root_Path r) -> root_Path r <> "/" ->
  is_Some (rel_in c r) <-> contains (root_Path r) c = true.
Proof.
  intros Hc Hne. rewrite contains_spec. split.
  - intros [rel [[E _]|[_ E]]%rel_in_spec]; rewrite canonical_clean in E by done; eauto.
  - destruct (decide (c = root_Path r)) as [E|Hd].
    + intros _. exists ".". apply rel_in_spec. left. by rewrite canonical_clean.
    + intros [E|[E|[t E]]]; [by destruct Hd|done|].
      exists t. apply rel_in_spec. right. by rewrite canonical_clean.
Qed.
Lemma contains_longer a b :
  contains a b = true -> a <> "/" -> a = b \/ (String.length a < String.length b)%nat.
Proof.
  intros [->|[->|[t ->]]]%contains_spec Hne; [by left|done|right]. rewrite !length_app_str. cbn. lia.
Qed.

Section View.
Context (arity : string -> option nat) (Harity : documented arity).
Context (stat : string -> bool) (req : BindRequest) (p : Policy) (l : Layout) (argv : list string).
Abbreviation spec := (br_Filesystem req).
Abbreviation roots := (cf_Roots (configure_request req)).
Context (HG : Generate stat spec p l = Ok argv).

Lemma accepted : spec_ok p spec l.
Proof. apply Validate_iff. by apply Generate_ops in HG as [? _]. Qed.
Lemma mount_path_ok m : m ∈ fs_Mounts spec ->
  canonical (m_Path m) /\ m_Path m <> "/" /\ contains (m_Path m) (workspacePath spec) = false.
Proof.
  intros Hm. pose proof (ok_mounts _ _ _ accepted) as H. rewrite Forall_forall in H.
  destruct (H m Hm) as (? & ? & _ & Hr & _). split; [done|]. split; [done|]. apply Hr.
  unfold shadowable. apply elem_of_app. right. by apply list_elem_of_singleton.
Qed.
Lemma root_ok r : r ∈ roots -> canonical (root_Path r) /\ root_Path r <> "/".
Proof.
  rewrite configured_roots. intros [->|(m & -> & Hm)%list_elem_of_fmap]%elem_of_cons.
  - by destruct (ok_workspace _ _ _ accepted) as (? & ? & _).
  - by destruct (mount_path_ok m Hm) as (? & ? & _).
Qed.

Lemma mount_root_in m : m ∈ fs_Mounts spec -> mount_root m ∈ roots.
Proof. intros Hm. rewrite configured_roots. apply elem_of_cons. right. by apply list_elem_of_fmap_2. Qed.

(** The workspace shows where no mount covers it. *)
Lemma workspace_seen x :
  contains (workspacePath spec) x = true ->
  (forall m, m ∈ fs_Mounts spec -> contains (m_Path m) x = false) ->
  (forall h, h ∈ fs_Hide spec -> contains h x = false) ->
  exists ops cmd, parse arity (S (length argv)) argv = Some (ops, cmd) /\
    sees ops x = Some ("--bind", [WorkspaceDir l; workspacePath spec]).
Proof.
  intros Hx Hm Hh. destruct (Generate_read arity Harity _ _ _ _ _ HG) as (mops & Hmo & Hr).
  eexists _, _. split; [exact Hr|]. unfold tenantOps.
  assert (Hsplit : forall a b c d e : list op, a ++ b ++ (("--bind", [WorkspaceDir l; workspacePath spec]) :: c ++ d) ++ e
    = (a ++ b) ++ ("--bind", [WorkspaceDir l; workspacePath spec]) :: (c ++ d ++ e)).
  { intros. cbn. by rewrite <-!app_assoc. }
  rewrite Hsplit, sees_app, sees_here; [done|exact Hx|].
  intros o [Ho|[Ho|Ho]%elem_of_app]%elem_of_app; [| |by eapply process_covers].
  - apply mapM_Some in Hmo. apply list_elem_of_lookup in Ho as [i Hi].
    destruct (Forall2_lookup_r _ _ _ _ _ Hmo Hi) as (m & Hmi & Hop).
    rewrite (mountOp_covers p m) by done. apply Hm. rewrite <-orderedMounts_elem. by eapply list_elem_of_lookup_2.
  - apply list_elem_of_fmap in Ho as (h & -> & Hin). rewrite hideOp_covers. auto.
Qed.

(** Of the roots a path lies in, none is longer than the one it resolves to. *)
Lemma longest_contains c r rel : longest_root c roots r rel ->
  r ∈ roots /\ contains (root_Path r) c = true /\
  forall r', r' ∈ roots -> contains (root_Path r') c = true ->
    contains (root_Path r') (root_Path r) = true \/
    (root_Path r' = root_Path r).
Proof.
  intros (i & Hi & Hr & Hmax). apply list_elem_of_lookup_2 in Hi as Hin. destruct (root_ok r Hin) as [Hc Hne].
  assert (Hrc : contains (root_Path r) c = true) by (apply rel_in_contains; eauto).
  split; [done|]. split; [done|]. intros r' Hin' Hc'. destruct (root_ok r' Hin') as [Hcan' Hne'].
  apply list_elem_of_lookup in Hin' as [j Hj].
  assert (depth r' <= depth r)%nat as Hd.
  { destruct (Hmax j r' Hj); [by apply rel_in_contains|lia|lia]. }
  rewrite !canonical_clean in Hd by done.
  destruct (contains_comparable _ _ _ Hc' Hrc) as [?|Hle]; [by left|right].
  destruct (contains_longer _ _ Hle Hne) as [?|?]; [done|lia].
Qed.

(** The option that put a root in place. *)
Definition root_shown (r : Root) (o : op) : Prop :=
  (root_Path r = workspacePath spec /\ o = ("--bind", [WorkspaceDir l; workspacePath spec])) \/
  exists m, m ∈ fs_Mounts spec /\ root_Path r = m_Path m /\ mountArgs p m = Ok (op_words o).

Lemma mountArgs_access m o : mountArgs p m = Ok (op_words o) -> read_only_bind o = m_ReadOnly m.
Proof.
  intros (o' & Ho & E)%mountArgs_op. destruct o as [n a], o' as [n' a']. unfold op_words in E. cbn in E.
  injection E as -> ->. unfold mountOp in Ho.
  destruct (SourceFDs p !! m_Path m); [|destruct (decide _); [done|]];
    injection Ho as <- _; by destruct (m_ReadOnly m).
Qed.

(** C32: the file API shows what the namespace shows.  For any spec [Generate]
    accepts and any path nothing hides, if the file API resolves the path to one
    of the roots execd configured, then what the sandbox sees there was put
    there by exactly that root's own bind option, the workspace's or the
    mount's, and the API holds the path read-only exactly if that option does;
    and a path the API refuses lies neither in the workspace nor in any of the
    tenant's mounts. *)
Theorem roots_match_view path :
  has_prefix path "/" = true -> (forall h, h ∈ fs_Hide spec -> contains h (clean path) = false) ->
  match resolveRoot roots path with
  | Ok (r, rel) => exists ops cmd o,
      parse arity (S (length argv)) argv = Some (ops, cmd) /\ sees ops (clean path) = Some o /\
      root_shown r o /\ read_only_bind o = root_ReadOnly r
  | Err e => e = errNoRoot /\ contains (workspacePath spec) (clean path) = false /\
      forall m, m ∈ fs_Mounts spec -> contains (m_Path m) (clean path) = false
  end.
Proof.
  intros Hp Hh. destruct (resolveRoot roots path) as [[r rel]|e] eqn:E.
  - apply resolveRoot_ok in E as [_ E]. destruct (longest_contains _ _ _ E) as (Hin & Hc & Hlong).
    rewrite configured_roots in Hin. apply elem_of_cons in Hin as [->|(m & -> & Hm)%list_elem_of_fmap].
    + destruct (workspace_seen (clean path)) as (ops & cmd & H1 & H2); [done| |done|].
      { intros m Hm. destruct (mount_path_ok m Hm) as (_ & _ & Hw).
        destruct (contains (m_Path m) (clean path)) eqn:Hmc; [|done].
        destruct (Hlong (mount_root m) (mount_root_in m Hm) Hmc) as [H|H]; cbn in H.
        - congruence.
        - rewrite H, contains_refl in Hw. done. }
      exists ops, cmd, ("--bind", [WorkspaceDir l; workspacePath spec]).
      split; [done|]. split; [done|]. split; [by left|done].
    + destruct (deepest_mount_seen arity Harity stat spec p l argv m (clean path) HG Hm Hc) as (ops & cmd & o & H1 & H2 & H3);
        [|done|].
      { intros m' Hm' Hmc'. destruct (Hlong (mount_root m') (mount_root_in m' Hm') Hmc') as [H|H]; cbn in H; [done|].
        rewrite H. apply contains_refl. }
      exists ops, cmd, o. split; [done|]. split; [done|]. split; [right; by exists m|].
      by apply mountArgs_access.
  - unfold resolveRoot in E. rewrite bool_decide_eq_false_2, Hp in E by (by intros ->). cbn [orb negb] in E.
    pose proof (best_root_longest (clean path) roots) as Hb.
    destruct (best_root _ _ _) as [[b brel]|]; [done|]. injection E as <-. split; [done|].
    assert (Hout : forall r, r ∈ roots -> contains (root_Path r) (clean path) = false).
    { intros r Hr. destruct (contains _ _) eqn:Hc; [|done]. destruct (root_ok r Hr) as [? ?].
      apply rel_in_contains in Hc; [|done..]. rewrite (Hb r Hr) in Hc. by destruct Hc. }
    split; [apply (Hout (workspace_root spec)); by left|].
    intros m Hm. by apply (Hout (mount_root m)), mount_root_in.
Qed.
End View.

(** ** Witness: a read-only mount inside a writable one *)

Definition wit_policy : Policy := bind_policy wit_cfg {[ "/data" := 3%Z; "/data/a" := 4%Z ]}.
Definition wit_view_argv : list string :=
  match Generate (fun _ => true) (br_Filesystem wit_bind) wit_policy DefaultLayout with Ok a => a | Err _ => [] end.
Lemma wit_generated : Generate (fun _ => true) (br_Filesystem wit_bind) wit_policy DefaultLayout = Ok wit_view_argv.
Proof. vm_compute. reflexivity. Qed.
Lemma roots_match_view_wit : exists r rel ops cmd o,
  resolveRoot (cf_Roots (configure_request wit_bind)) "/data/a/../a/x" = Ok (r, rel) /\ rel = "x" /\
  parse table_arity (S (length wit_view_argv)) wit_view_argv = Some (ops, cmd) /\
  sees ops "/data/a/x" = Some o /\ root_ReadOnly r = true /\ read_only_bind o = true.
Proof.
  pose proof (roots_match_view table_arity table_documented (fun _ => true) wit_bind wit_policy DefaultLayout
    wit_view_argv wit_generated "/data/a/../a/x" eq_refl) as H.
  assert (E : resolveRoot (cf_Roots (configure_request wit_bind)) "/data/a/../a/x" =
    Ok ({| root_Path := "/data/a"; root_ReadOnly := true |}, "x")) by (vm_compute; reflexivity).
  rewrite E in H. destruct H as (ops & cmd & o & H1 & H2 & _ & H3); [intros h Hh; by apply elem_of_nil in Hh|].
  eexists _, _, ops, cmd, o. split; [exact E|]. split; [reflexivity|]. split; [exact H1|].
  split; [exact H2|]. split; [reflexivity|exact H3].
Defined.
