(* ===== verification/ImageResolver.v ===== *)
(** * Asking the registry what a tag means (controller/imageresolver.go)

    [Resolve] as a program over the calls it makes: the Secrets of the
    template's namespace and the registry.  The credentials it offers come from
    [dockerConfigKeychain], a map from normalised registry hosts.  Parsing a
    reference, the registry client and JSON are parameters: an image reference
    is its text and the registry it names is given to the keychain, and a Secret's text decodes to
    the entries of its map in the order Go happens to walk it. *)
From S2P Require Import Prelude Calls GoStrings Kube InitProto.
Open Scope string_scope.

(** ** Credentials *)

Record AuthConfig := { au_Username : string; au_Password : string }.
Record dockerAuthEntry := { de_Username : string; de_Password : string; de_Auth : string }.
#[export] Instance AuthConfig_eq_dec : EqDecision AuthConfig.
Proof. solve_decision. Defined.

Definition toAuthConfig (e : dockerAuthEntry) : AuthConfig :=
  let plain := {| au_Username := de_Username e; au_Password := de_Password e |} in
  if bool_decide (de_Username e = "") && negb (bool_decide (de_Auth e = "")) then
    match StdDecode (de_Auth e) with
    | Some decoded =>
        let '(u, p, ok) := cut decoded ":"%char in
        if ok then {| au_Username := u; au_Password := p |} else plain
    | None => plain
    end
  else plain.

(** [name.DefaultRegistry] *)
Definition DefaultRegistry : string := "index.docker.io".
(** [host[:i]] where a slash stands at [i]. *)
Definition host_part (host : string) : string :=
  match index_byte host slash with Some i => take_string i host | None => host end.
Definition bare_host (host : string) : string :=
  host_part (trim_suffix (trim_prefix (trim_prefix host "https://") "http://") "/").
Definition registryKey (host : string) : string :=
  let host := bare_host host in
  if bool_decide (host ∈ ["index.docker.io"; "docker.io"; "registry-1.docker.io"])
  then DefaultRegistry else host.

Definition DockerConfigJsonKey : string := ".dockerconfigjson".
Definition DockerConfigKey : string := ".dockercfg".
(** A Secret's [Data]. *)
Abbreviation Secret := (gmap string string).
Abbreviation dockerConfigKeychain := (gmap string AuthConfig).
Abbreviation entries := (list (string * dockerAuthEntry)).

Definition add_entries (es : entries) (k : dockerConfigKeychain) : dockerConfigKeychain :=
  foldl (fun k '(host, e) => <[registryKey host := toAuthConfig e]> k) k es.

(** A keychain: Docker's own (whatever the process's environment holds), the
    one the resolver was built with, or one made of Secrets. *)
Inductive Keychain := DefaultKeychain | GivenKeychain | SecretKeychain (k : dockerConfigKeychain).
(** [None] is [authn.Anonymous]. *)
Definition keychain_Resolve (k : dockerConfigKeychain) (registry : string) : option AuthConfig :=
  k !! registryKey registry.

(** ** Calls *)

(** What [remote.Get] may fail with: an answer of the registry with its status,
    or anything else with its text. *)
Inductive RegErr := TransportError (status : Z) (msg : string) | OtherRegErr (msg : string).
Definition reg_msg (e : RegErr) : string := match e with TransportError _ m | OtherRegErr m => m end.
(** A descriptor: its digest and, where the image and its layers can be read,
    the sizes of the layers that can. *)
Record Descriptor := { ds_Digest : string; ds_Layers : option (list (option Z)) }.

Inductive RegE : Type -> Type :=
| GetSecret (ns name : string) : RegE (result string Secret)
| RemoteGet (ref : string) (timeout : Z) (k : Keychain) : RegE (result RegErr Descriptor).
Abbreviation Reg := (Prog RegE).

Record RegistryResolver := { rr_Keychain : bool; rr_Client : bool; rr_Timeout : Z }.
Definition NewRegistryResolver : RegistryResolver :=
  {| rr_Keychain := false; rr_Client := true; rr_Timeout := 30 * second |}.

Definition isNotFound (e : RegErr) : bool :=
  match e with
  | TransportError status _ => (status =? 404)%Z || (status =? 401)%Z || (status =? 403)%Z
  | OtherRegErr s =>
      contains_string s "MANIFEST_UNKNOWN" || contains_string s "NAME_UNKNOWN" ||
      contains_string s "not found" || contains_string s "unauthorized"
  end.

Section Resolver.
(** [json.Unmarshal] of a [.dockercfg] and of the [auths] of a
    [.dockerconfigjson], and [name.ParseReference]'s error. *)
Context (unmarshal_legacy unmarshal_config : string -> option entries).
Context (parse_error : string -> option string).

(** What [add] reads in a Secret. *)
Definition secret_entries (sec : Secret) : entries :=
  match sec !! DockerConfigJsonKey with
  | None =>
      match sec !! DockerConfigKey with
      | Some legacy => default [] (unmarshal_legacy legacy)
      | None => []
      end
  | Some raw => default [] (unmarshal_config raw)
  end.
Definition add (sec : Secret) (k : dockerConfigKeychain) : dockerConfigKeychain :=
  add_entries (secret_entries sec) k.

(** The loop of [keychain]: an unreadable Secret is passed over. *)
Fixpoint add_secrets (ns : string) (secrets : list string) (k : dockerConfigKeychain)
    : Reg dockerConfigKeychain :=
  match secrets with
  | [] => mret k
  | name :: rest =>
      sec ← call (GetSecret ns name);
      match sec with
      | Err _ => add_secrets ns rest k
      | Ok sec => add_secrets ns rest (add sec k)
      end
  end.
Definition keychain (r : RegistryResolver) (ns : string) (secrets : list string) : Reg Keychain :=
  if rr_Keychain r then mret GivenKeychain
  else if negb (rr_Client r) || bool_decide (secrets = []) then mret DefaultKeychain
  else
    kc ← add_secrets ns secrets ∅;
    mret (if bool_decide (size kc = 0%nat) then DefaultKeychain else SecretKeychain kc).

(** The sum over the layers whose size is known. *)
Definition layer_bytes (layers : list (option Z)) : Z :=
  foldl (fun n sz => match sz with Some b => int64 (n + b) | None => n end) 0%Z layers.

Definition Resolve (r : RegistryResolver) (ref : string) (pullSecrets : list string) (ns : string)
    : Reg (result ResolveError ResolvedImage) :=
  let timeout := if (rr_Timeout r <=? 0)%Z then (30 * second)%Z else rr_Timeout r in
  match parse_error ref with
  | Some e => mret (Err (ResolveFailed (quote ref +:+ " is not a valid image reference: " +:+ e)))
  | None =>
      kc ← keychain r ns pullSecrets;
      desc ← call (RemoteGet ref timeout kc);
      mret (match desc with
            | Err e =>
                if isNotFound e then Err (ErrImageNotFound ("image not found: " +:+ ref))
                else Err (ResolveFailed ("resolving " +:+ ref +:+ ": " +:+ reg_msg e))
            | Ok d =>
                Ok {| ri_Digest := ds_Digest d;
                      ri_Bytes := match ds_Layers d with Some ls => layer_bytes ls | None => 0%Z end |}
            end)
  end.

(** ** The keychain *)

(** The entries filed under a registry, in the order they are read. *)
Definition filed_under (registry : string) (es : entries) : entries :=
  filter (fun he => registryKey he.1 = registryKey registry) es.

(** Of several entries the one read last counts. *)
Lemma add_entries_last es k registry :
  keychain_Resolve (add_entries es k) registry =
  match last (filed_under registry es) with
  | Some he => Some (toAuthConfig he.2)
  | None => keychain_Resolve k registry
  end.
Proof.
  unfold keychain_Resolve, add_entries, filed_under. revert k.
  induction es as [|[h e] es IH] using rev_ind; intros k; [done|].
  rewrite foldl_snoc, filter_app, filter_cons, filter_nil. cbn [fst].
  case_decide as Eh.
  - by rewrite last_snoc, Eh, lookup_insert_eq.
  - by rewrite app_nil_r, lookup_insert_ne.
Qed.
Lemma add_entries_empty es k : (size (add_entries es k) = 0)%nat <-> es = [] /\ k = ∅.
Proof.
  unfold add_entries. destruct es as [|x es] using rev_ind.
  - cbn. rewrite map_size_empty_iff. tauto.
  - rewrite foldl_snoc. destruct x as [h e]. rewrite map_size_empty_iff. split.
    + intros E. apply (f_equal (fun m => m !! registryKey h)) in E. by rewrite lookup_insert_eq, lookup_empty in E.
    + intros [E _]. by destruct es.
Qed.
(** A registry some entry names always finds credentials. *)
Lemma add_entries_covers es k host e :
  (host, e) ∈ es -> is_Some (keychain_Resolve (add_entries es k) host).
Proof.
  intros Hin. rewrite add_entries_last. destruct (last _) eqn:El; [by eexists|].
  apply last_None in El. exfalso.
  assert ((host, e) ∈ filed_under host es) as H by (by apply list_elem_of_filter).
  rewrite El in H. by apply elem_of_nil in H.
Qed.

(** A cluster's Secrets, as the API server holds them during one pass. *)
Context (held : string -> string -> result string Secret).
Definition readable (ns : string) (secrets : list string) : list Secret :=
  omap (fun name => match held ns name with Ok s => Some s | Err _ => None end) secrets.

(** The calls that pass, with the keychain each presents to the registry. *)
Definition reg_sem (R : Type) (e : RegE R) (s : option Keychain) : R -> option Keychain -> Prop :=
  match e in RegE R return R -> option Keychain -> Prop with
  | GetSecret ns name => fun r s' => r = held ns name /\ s' = s
  | RemoteGet _ _ k => fun _ s' => s' = Some k
  end.
Abbreviation rwp := (wp reg_sem).

Lemma add_secrets_spec ns secrets k s Q :
  Q (foldl (fun k sec => add sec k) k (readable ns secrets)) s ->
  rwp (add_secrets ns secrets k) s Q.
Proof.
  revert k. induction secrets as [|name rest IH]; intros k; cbn; [done|].
  intros HQ r s' [-> ->]. destruct (held ns name) as [sec|e]; by apply IH.
Qed.
(** The entries of the pull secrets that can be read. *)
Definition pull_entries (ns : string) (secrets : list string) : entries :=
  concat (map secret_entries (readable ns secrets)).
Lemma add_all secs k :
  foldl (fun k sec => add sec k) k secs = add_entries (concat (map secret_entries secs)) k.
Proof.
  revert k. induction secs as [|sec secs IH]; intros k; [done|]. cbn. rewrite IH.
  unfold add, add_entries. by rewrite foldl_app.
Qed.

(** The credentials a resolver is to present: those it was built with; Docker's
    own where it may read no Secrets, the template names none, or none that can
    be read holds an entry; otherwise for each registry the last entry filed
    under it, and none where no entry is. *)
Definition presents (r : RegistryResolver) (ns : string) (secrets : list string) (k : Keychain) : Prop :=
  if rr_Keychain r then k = GivenKeychain
  else if negb (rr_Client r) then k = DefaultKeychain
  else if decide (pull_entries ns secrets = []) then k = DefaultKeychain
  else exists m, k = SecretKeychain m /\ forall registry,
    keychain_Resolve m registry =
    (fun he => toAuthConfig he.2) <$> last (filed_under registry (pull_entries ns secrets)).

Lemma keychain_presents r ns secrets s Q :
  (forall k, presents r ns secrets k -> Q k s) -> rwp (keychain r ns secrets) s Q.
Proof.
  intros HQ. unfold keychain. unfold presents in HQ. destruct (rr_Keychain r); [by apply wp_ret, HQ|].
  destruct (rr_Client r); cbn [negb orb] in *; [|by apply wp_ret, HQ].
  destruct (bool_decide (secrets = [])) eqn:Es.
  { bool_to_prop. subst. by apply wp_ret, HQ. }
  apply wp_bind, add_secrets_spec, wp_ret, HQ. rewrite add_all. fold (pull_entries ns secrets).
  pose proof (add_entries_empty (pull_entries ns secrets) ∅) as He.
  clear Es. case_bool_decide as Hsz.
  - apply He in Hsz as [Hsz _]. by rewrite decide_True.
  - destruct (decide _) as [E|_]; [by destruct Hsz; apply He|]. eexists. split; [done|].
    intros registry. rewrite add_entries_last. by destruct (last _).
Qed.
End Resolver.

(** ** Hosts and entries *)

Lemma host_part_no_slash h : no_byte slash (host_part h).
Proof.
  unfold host_part. destruct (index_byte h slash) as [i|] eqn:E; [|by apply index_byte_none].
  revert i E. induction h as [|a t IH]; intros i; cbn; [done|].
  destruct (ascii_dec a slash) as [->|Hne]; [by intros [= <-]|].
  destruct (index_byte t slash) as [j|]; [|done]. intros [= <-]. cbn. split; [done|]. by apply IH.
Qed.
Lemma host_part_plain h : no_byte slash h -> host_part h = h.
Proof. intros Hh%index_byte_none. unfold host_part. by rewrite Hh. Qed.
Lemma host_part_app h p : no_byte slash h -> host_part (h +:+ String slash p) = h.
Proof.
  intros Hh. unfold host_part. rewrite index_byte_app by done. apply take_length_app.
Qed.
Lemma host_part_trim h : host_part (trim_suffix h "/") = host_part h.
Proof.
  unfold trim_suffix. destruct (has_suffix h "/") eqn:E; [|done].
  pose proof E as [t ->]%has_suffix_spec. pose proof (trim_suffix_app t "/") as Ht.
  unfold trim_suffix in Ht. rewrite E in Ht. rewrite Ht. clear.
  unfold host_part. change "/" with (String slash "").
  destruct (index_byte t slash) as [i|] eqn:Ei.
  - assert (Hi : forall u, index_byte (t +:+ u) slash = Some i /\ take_string i (t +:+ u) = take_string i t).
    { intros u. revert i Ei. induction t as [|a t IH]; intros i; cbn; [done|].
      destruct (ascii_dec a slash) as [->|Hne]; [by intros [= <-]|].
      destruct (index_byte t slash) as [j|]; [|done]. intros [= <-]. destruct (IH j eq_refl) as [-> ?].
      split; [done|]. cbn. by f_equal. }
    by destruct (Hi (String slash "")) as [-> ->].
  - apply index_byte_none in Ei. rewrite index_byte_app by done. by rewrite take_length_app.
Qed.
Lemma bare_host_bare h : no_byte slash h -> bare_host h = h.
Proof.
  intros Hh. unfold bare_host. rewrite host_part_trim.
  assert (Hp : forall x y, trim_prefix h (x +:+ String slash y) = h).
  { intros x y. unfold trim_prefix. destruct (has_prefix _ _) eqn:E; [|done].
    apply has_prefix_spec in E as [t ->]. apply no_byte_app in Hh as [[_ [Hc _]]%no_byte_app _]. done. }
  assert (trim_prefix h "https://" = h) as -> by exact (Hp "https:" "/").
  assert (trim_prefix h "http://" = h) as -> by exact (Hp "http:" "/"). by apply host_part_plain.
Qed.
(** A key is its own spelling. *)
Lemma registryKey_idem h : registryKey (registryKey h) = registryKey h.
Proof.
  unfold registryKey at 2 3. pose proof (host_part_no_slash (trim_suffix (trim_prefix (trim_prefix h "https://") "http://") "/")) as Hs.
  fold (bare_host h) in Hs.
  destruct (bool_decide _) eqn:E; [vm_compute; reflexivity|].
  unfold registryKey. rewrite bare_host_bare by done. by rewrite E.
Qed.
(** The spelling of Docker's own configs, [https://index.docker.io/v1/], names
    the registry the reference names. *)
Lemma registryKey_url h p :
  no_byte slash h -> h <> "http:" -> registryKey ("https://" +:+ h +:+ String slash p) = registryKey h.
Proof.
  intros Hh Hne. unfold registryKey. rewrite (bare_host_bare h Hh). unfold bare_host.
  rewrite trim_prefix_app, host_part_trim.
  assert (trim_prefix (h +:+ String slash p) "http://" = h +:+ String slash p) as ->.
  { unfold trim_prefix. destruct (has_prefix _ _) eqn:E; [|done].
    apply has_prefix_spec in E as [t E]. apply (f_equal host_part) in E.
    rewrite host_part_app in E by done. change ("http://" +:+ t) with ("http:" +:+ String slash (String slash t)) in E.
    rewrite host_part_app in E by (cbn; repeat split; done). done. }
  by rewrite host_part_app.
Qed.

(** Two plain hosts share a key only as spellings of Docker Hub. *)
Definition hub_names : list string := ["index.docker.io"; "docker.io"; "registry-1.docker.io"].
Lemma registryKey_apart a b :
  no_byte slash a -> no_byte slash b -> registryKey a = registryKey b -> a = b \/ a ∈ hub_names /\ b ∈ hub_names.
Proof.
  intros Ha Hb. unfold registryKey. rewrite !bare_host_bare by done.
  assert (DefaultRegistry ∈ hub_names) by (left).
  repeat case_bool_decide; [by right| | |by left]; intros E; subst; done.
Qed.

(** C31: whose credentials a registry is offered.  A reference that does not
    parse reaches no registry.  Any other is asked for once with exactly the
    credentials [presents] describes: those the resolver was built with, or for
    each registry the last entry filed under it in the template's pull secrets
    that can be read (a registry without one is offered none), or Docker's own
    only where there are no such entries.  "Filed under" is by name: two plain
    hosts are one registry only when they are the same or both names of Docker
    Hub. *)
Theorem Resolve_offers_own_credentials unmarshal_legacy unmarshal_config parse_error held r ref secrets ns :
  wp (reg_sem held) (Resolve unmarshal_legacy unmarshal_config parse_error r ref secrets ns) None
    (fun res offered =>
      match parse_error ref with
      | Some _ => offered = None /\ is_ok res = false
      | None => exists k, offered = Some k /\
          presents unmarshal_legacy unmarshal_config held r ns secrets k
      end) /\
  (forall a b, no_byte slash a -> no_byte slash b -> registryKey a = registryKey b ->
     a = b \/ a ∈ hub_names /\ b ∈ hub_names).
Proof.
  split; [|exact registryKey_apart]. unfold Resolve.
  destruct (parse_error ref) as [e|]; [by apply wp_ret|].
  apply wp_bind, keychain_presents. intros k Hk. apply wp_call. intros d s ->. apply wp_ret. by exists k.
Qed.

(** What [docker login] writes reads back, whatever the password holds. *)
Lemma toAuthConfig_encoded user pass :
  no_byte ":"%char user -> user +:+ String ":"%char pass <> "" ->
  toAuthConfig {| de_Username := ""; de_Password := ""; de_Auth := StdEncode (user +:+ String ":"%char pass) |} =
  {| au_Username := user; au_Password := pass |}.
Proof.
  intros Hu Hne. unfold toAuthConfig. cbn [de_Username de_Password de_Auth].
  rewrite StdDecode_StdEncode, cut_app by done.
  destruct (bool_decide (StdEncode _ = "")) eqn:E; [|done]. exfalso. apply bool_decide_eq_true in E.
  apply (f_equal StdDecode) in E. rewrite StdDecode_StdEncode in E. vm_compute (StdDecode "") in E. by injection E.
Qed.

(** Two spellings of one registry in one Secret: the one walked last wins, and
    Go walks a map in no fixed order. *)
Definition first_spelling : string * dockerAuthEntry :=
  ("docker.io", {| de_Username := "a"; de_Password := "1"; de_Auth := "" |}).
Definition second_spelling : string * dockerAuthEntry :=
  ("https://index.docker.io/v1/", {| de_Username := "b"; de_Password := "2"; de_Auth := "" |}).
Example spellings_collide :
  keychain_Resolve (add_entries [first_spelling; second_spelling] ∅) "index.docker.io" =
    Some {| au_Username := "b"; au_Password := "2" |} /\
  keychain_Resolve (add_entries [second_spelling; first_spelling] ∅) "index.docker.io" =
    Some {| au_Username := "a"; au_Password := "1" |}.
Proof. split; vm_compute; reflexivity. Qed.

(** ** Witness: a pull secret that can be read and one that cannot *)

Definition wit_entry : dockerAuthEntry :=
  {| de_Username := ""; de_Password := ""; de_Auth := "YWxpY2U6czpjcmV0" |}.
Definition wit_unmarshal (raw : string) : option entries :=
  if bool_decide (raw = "cfg") then Some [("https://ghcr.io/v2/", wit_entry)] else None.
Definition wit_held (ns name : string) : result string Secret :=
  if bool_decide (name = "pull") then Ok {[ DockerConfigJsonKey := "cfg" ]} else Err "not found".
Definition wit_resolve : Reg (result ResolveError ResolvedImage) :=
  Resolve wit_unmarshal wit_unmarshal (fun _ => None) NewRegistryResolver "ghcr.io/acme/py:3.12"
    ["gone"; "pull"] "acme".
Definition wit_answer : Descriptor :=
  {| ds_Digest := "sha256:ab"; ds_Layers := Some [Some 10%Z; None; Some 5%Z] |}.
Definition wit_reg (R : Type) (e : RegE R) (s : option Keychain) : R * option Keychain :=
  match e in RegE R return R * option Keychain with
  | GetSecret ns name => (wit_held ns name, s)
  | RemoteGet _ _ k => (Ok wit_answer, Some k)
  end.
Definition offers (registry : string) (k : option Keychain) : option AuthConfig :=
  match k with Some (SecretKeychain k) => keychain_Resolve k registry | _ => None end.
Lemma Resolve_offers_own_credentials_wit :
  (let '(res, offered) := interp wit_reg wit_resolve None in
   res = Ok {| ri_Digest := "sha256:ab"; ri_Bytes := 15 |} /\
   offers "ghcr.io" offered = Some {| au_Username := "alice"; au_Password := "s:cret" |} /\
   offers "quay.io" offered = None) /\
  wp (reg_sem wit_held) wit_resolve None (fun _ offered =>
    offers "ghcr.io" offered = Some {| au_Username := "alice"; au_Password := "s:cret" |} /\
    offers "quay.io" offered = None).
Proof.
  split; [vm_compute; repeat split; reflexivity|].
  eapply wp_mono; [|exact (proj1 (Resolve_offers_own_credentials wit_unmarshal wit_unmarshal
    (fun _ => None) wit_held NewRegistryResolver "ghcr.io/acme/py:3.12" ["gone"; "pull"] "acme"))].
  intros res offered (k & -> & m & -> & Hm). unfold offers. rewrite !Hm.
  split; vm_compute; reflexivity.
Defined.
